(* ===== verification/_CoqProject ===== *)
-Q . S2P
Prelude.v
Effects.v
Access.v
Canonical.v
Json.v
StrictJson.v
Core.v
Run.v
Session.v
Recovery.v
Verification.v
Binding.v
WorkerQueue.v
Preparation.v
Control.v
Sandbox.v
Offline.v
Journal.v
Review.v
Material.v
Routing.v
Embedded.v
Codex.v
Action.v
Outbox.v
Store.v
Lifecycle.v
Demo.v
Authority.v
Gateway.v
Api.v
Gate.v
Server.v
Scenario.v
Db.v
WorkerStore.v
ExecStore.v
ControlStore.v
CoreStore.v
ActionStore.v
OutboxStore.v
ContinueStore.v
Txn.v
OutboxMoves.v
Workers.v
TurnDemo.v
Leases.v
Relays.v
Commits.v
Executions.v
Lanes.v
Controls.v
Turns.v
Continuations.v
CoreRefine.v
Commands.v
CoreHistory.v
Admissions.v
