(* ===== verification/Prelude.v ===== *)
(** Engineering platform: a verification library of the control plane.

    The program is a Go server that carries engineering work from a request to
    a closure.  A work item gets a frozen task contract with its verification
    plan; a run with a session executes it; the result is delivered, evidence
    is registered, the delivery is verified, reviewed by somebody else, and the
    work is closed.  External effects (publication, CI, devices) pass through
    an action gateway that reserves them in a ledger first.  Everything the
    server may rely on (the Core authority) is in one store.

    * Parts, and where they are

    - Prelude (this file): Go's errors ([errors.Is], wrapping), results,
      [uint64] counters with wrap-around, byte strings; the tactics [ok_inv]
      and [guards], which invert a call that succeeded; the hint database [go].
    - Effects: the monad of a Go method: one locked state, the caller's
      context, the clock, external effects.  [Env] is everything the caller
      does not control, interference at every lock acquisition included;
      [World] records the call's external effects and its own writes.
    - Canonical ([internal/canonical]): JSON text, SHA-256, digests.
    - Json, StrictJson ([encoding/json], [internal/strictjson]): a decoder that
      reads tokens and whole documents, and the guard every wire document
      passes.  [Json] proves that the text determines the document.
    - Access ([internal/access]): policies, duties, authentication.
    - Core, Run, Session, Recovery, Verification, Review, Material, Routing,
      Embedded (the packages of those names under [internal/]): the data and
      the pure rules of each; their methods are [Type_Method].
    - Binding: left inverses of the digested documents, so a digest names one.
    - WorkerQueue, Preparation, Control, Sandbox, Offline, Codex ([workerqueue],
      [preparation], [codexexec] with [processscope], [sandbox], [offline],
      [provideridentity]): what a worker is handed and what it reports.  An
      assignment is frozen by digests ([WorkerQueue.Validate]); preparing it
      gives facts ([Preparation.Facts_Check]); one permit starts one offline
      command ([Offline]) or one model turn ([Codex]), whose live controls
      end in a sealed transcript ([Control]); [Sandbox] has the container's
      contract, log framing and results.  Names that several packages share
      carry a prefix ([wq_], [prep_], [offline_], [codex_]).
    - Journal ([internal/audit]): the hash-chained journal.
    - Outbox ([internal/outbox]): the dispatcher over any [Repository].
    - Action ([internal/action]): the operation ledger and the service that
      executes and reconciles actions, over any repository that satisfies
      [RepositoryLaws].
    - Store ([internal/store/memory.go]): the memory store, a [Memory] record
      with one field per Go map.  Each Go method [M] is [Memory_M]; its
      critical section is a function of the state of its own.
    - Lifecycle, Authority: the specification.  [Lifecycle.step] is the state
      machine of the Core authority, one rule per kind of write;
      [Authority.authority_ok] is the invariant of its reachable states.
    - Gateway ([internal/gateway]): the admission of actions, and the memory
      store as an instance of the interfaces [GwStateLaws] and
      [RepositoryLaws].
    - Api, Server ([internal/api/server.go] and the [*_context.go] files): the
      handlers as the code has them, and the proof that they refine
      [Lifecycle.step] whatever runs concurrently.
      [Api.routes] has every route that [server.go] registers, for the
      authenticated caller [who], over the memory store.
    - Gate ([internal/api/authenticated.go]): who reaches which handler, over
      [Access] and [StrictJson]; the whole tables of capabilities, and what
      [authorizeBody] asks on each of those routes.
    - Demo, Scenario: a whole life of a work item, computed; the witnesses of
      the theorems start from it.
    - Db, WorkerStore, ExecStore, ControlStore, CoreStore, ActionStore,
      OutboxStore, ContinueStore ([internal/store/postgres]): the durable store.
      [Db] is the tables, one field each, and the monad [txn] of a transaction;
      the others are the methods, file by file: the worker inbox with the relay
      and preparation ([worker_store.go], [preparation_store.go]), the two
      lanes of executions ([offline_store.go], [codex_store.go]), live controls,
      checkpoints and abandonment ([codex_controls.go], [codex_checkpoint.go],
      [execution_reconcile.go]), the core records and the action ledger
      ([core_store.go], [mutation.go], [store.go], [action_store.go]), the
      outbox ([outbox_store.go], [worker_relay.go]) and continuation
      ([codex_continuation.go]).
    - Txn, OutboxMoves, Workers, TurnDemo: reasoning about transactions.
      [Workers.wstep] is the system: a committed transaction of the worker
      side, of the relay or of a continuation, or any change the rest of the
      control plane may make to the tables it shares.  [TurnDemo] computes the
      life of one turn; the witnesses start from it.
    - Leases, Relays, Commits, Executions, Lanes, Controls, Turns,
      Continuations: what every sequence of these steps keeps.
    - CoreRefine, Commands, CoreHistory, Admissions: the PostgreSQL core and
      action stores against [Lifecycle], for handlers that race, while workers,
      control clients and dispatchers commit in between.  [Commands.records]
      is the authority's view of the database, in which a queued control is a
      steering.

    * How the theorems fit together

    [Server] shows that every write of every handler is a [Lifecycle.step],
    under the assumption that the other writers only make such steps
    ([Gateway.lawful]); so the assumption is one that the handlers themselves
    meet.  [Authority] shows what every sequence of steps satisfies: the chain
    from a closure back to independent review, passing verification and the
    exact delivery; append-only history; versions that exclude lost updates;
    numbered task revisions; runs and sessions that agree.  [Gateway] adds
    that nothing is dispatched that was not admitted by the current epochs and
    the frozen task, and [Action] that a request is dispatched at most once,
    by any number of concurrent calls.  The component files have the rules
    these rest on: verdicts, coverage, fencing, transition tables.  On the
    workers' side each receipt is shown to stand for one assignment, one lease
    and one set of facts, and what is published for a turn that finished under
    controls the session had authorised ([Codex.finished_controls]).

    Over PostgreSQL, [CoreHistory.histories_refine] takes the histories that
    committed transactions of racing handlers leave, each acting on records it
    read one by one in earlier states, among the transactions of workers,
    control clients and dispatchers, and shows them to be runs of [Lifecycle];
    so what [Authority] proves holds of the database, and [Admissions] adds
    that no operation is reserved or dispatched in a state that does not admit
    it.  For the workers, [Leases] has the fencing of inbox leases, [Lanes] one
    execution per run and per worker, resting on an admitted and prepared
    input, [Turns] the order and the end of live controls, [Continuations] what
    ending a stopped run and continuing its work does to the whole database, and
    [Relays] that the inbox comes from dispatched messages only and that the
    recipient of a message is not called without a current lease.  [Commits] shows that every transaction adds one
    linked audit event or changes nothing.

    A digest names one document only as long as the hash does not collide.
    Such theorems name the texts concerned: "or two of these texts are
    different and have one hash" ([Json.collision]); in the server the one
    consequence would be a stored plan replaced by another of the same digest
    ([Authority.plan_replaced]); a history of the database names the plans that
    were handed over to be frozen in it, and excludes that two of those clash
    ([CoreHistory.plans_clash]).

    * Conventions, bounds and fuel

    A [uint64] is an [N]; increments wrap ([u64_succ]).  The versions used for
    optimistic concurrency could wrap only after 2^64 writes of one record;
    the steps of [Lifecycle] ask for [room] for one more.  A Go string is a
    byte string, an enumeration a string with named constants, a map a [gmap],
    [time.Time] a number of nanoseconds.  A nil slice and an empty one are one
    list; the documents the digests hash have no field in which the code puts
    one where it would put the other.  Recursion is structural; the fuel in
    [Canonical] (UTF-8 scanning, escaping) is the length of the input, and each
    step consumes a byte; that of the walks over JSON tokens is twice the
    length, since every level and every member consumes a token
    ([StrictJson.validation_terminates]); a retry delay is reached after at
    most 64 doublings.  A hash function is a parameter with 64 lower-case
    hexadecimal digits ([Canonical.Hash]); SHA-256 is its instance.  In
    the workers' documents a slice is an [option] of a list where the code
    can tell nil from empty ([Sandbox]); the fuel of the log demultiplexer is
    the length of the log, as each frame has a header of eight bytes.

    Of the database: a transaction runs as one atomic step, since the rows it
    depends on are locked or tested again by the statement that writes, and
    Serializable transactions that conflict fail.  Rows another transaction
    holds ([SKIP LOCKED]), the clock at each reading and the nonce are in
    [TxEnv]; a commit whose answer is lost may have happened or not
    ([Db.transact]).  A [jsonb] column holds the document the program wrote;
    columns that repeat a document, or say when a row was updated, are not kept;
    a [NULL] text is an [option], or the empty text where the program makes no
    difference; times are cut to microseconds ([CoreStore.micro]) where they go
    through a column.  A statement checks the range of a [bigint], then the
    CHECKs, unique keys and foreign keys of the migrations; index maps stand
    for unique indexes.  Texts are valid UTF-8 without NUL.  The clock advances
    by at most five seconds during a transaction, its context's limit, and a
    lane's table has rows only once its migration was applied
    ([Workers.migrations_ok]).

    * Not modelled

    Of [internal/store/postgres], the proof of a recovery's facts and the gate
    of its completion, the reconciliation of planned actions and of
    publications, and the operational reports; connecting to the database and
    its migrations.  In the histories of [CoreHistory] a recovery may be
    completed at any moment, without the proof; continuations are not in them,
    since [Lifecycle], like the memory store, never aborts a run: they have
    their own theorems.  The GitHub publisher but for the request that names a
    publication, the processes behind Codex and the sandbox, workspaces,
    artifact archives, the command-line tools and daemons under [cmd/]: their
    behaviour is that of systems outside the repository.  Of the server, the
    routes that need a durable store (live control, recovery proofs and
    reconciliation, operational status) are modelled as the memory store has
    them, which is up to the answer 503 after the handler's own checks; those
    of the workers ([worker.go], [codex.go] and their like) are in the
    capability tables only.  The typed JSON decoding of a body is a parameter
    ([rq_Decode] in [Gate], the argument [body] of a handler, [None] when it
    refuses), and so are the matching of a request to its pattern and the
    verification of certificate chains, which [net/http] and [crypto/tls] do. *)
From Stdlib Require Strings.String.
From Stdlib Require Export Strings.Ascii.
From stdpp Require Export base gmap sets list strings option numbers pretty sorting.

(** ** Errors of Go: sentinels, [errors.New], [fmt.Errorf] with [%w] *)

Inductive goerr :=
| ESentinel (name text : string)
| ENew (text : string)
| EWrap (pre : string) (e : goerr) (post : string)
| EWrap2 (e1 e2 : goerr).

#[export] Instance goerr_eq_dec : EqDecision goerr.
Proof. solve_decision. Defined.

(** [errors.Is]: a sentinel is a pointer, so its name is its identity; the
    tree of wrapped errors is searched. *)
Fixpoint errors_is (e target : goerr) : bool :=
  bool_decide (e = target) ||
  match e with
  | EWrap _ e' _ => errors_is e' target
  | EWrap2 e1 e2 => errors_is e1 target || errors_is e2 target
  | _ => false
  end.

Fixpoint error_text (e : goerr) : string :=
  match e with
  | ESentinel _ t => t
  | ENew t => t
  | EWrap pre e' post => pre +:+ error_text e' +:+ post
  | EWrap2 e1 e2 => error_text e1 +:+ ": " +:+ error_text e2
  end.

(** The two values [context.Context.Err] returns once a context is done. *)
Definition ctx_Canceled : goerr := ESentinel "context.Canceled" "context canceled".
Definition ctx_DeadlineExceeded : goerr :=
  ESentinel "context.DeadlineExceeded" "context deadline exceeded".

(** ** Results: the pair [(value, error)] of a Go call *)

Inductive outcome (A : Type) :=
| Ok (a : A)
| Err (e : goerr).
Arguments Ok {_} _.
Arguments Err {_} _.

#[export] Instance outcome_ret : MRet outcome := fun A a => Ok a.
#[export] Instance outcome_bind : MBind outcome :=
  fun A B f m => match m with Ok a => f a | Err e => Err e end.

Definition is_ok {A} (o : outcome A) : bool := match o with Ok _ => true | Err _ => false end.

Definition of_option {A} (e : goerr) (o : option A) : outcome A :=
  match o with Some a => Ok a | None => Err e end.

(** ** Machine integers: [uint64] is an [N] below [2^64], with wrap-around *)

Definition u64_modulus : N := 18446744073709551616.
Definition u64_succ (n : N) : N := ((n + 1) mod u64_modulus)%N.
Definition u64_ok (n : N) : Prop := (n < u64_modulus)%N.
(** [1<<62], the bound several validators put on epochs and sequences. *)
Definition u62 : N := 4611686018427387904.

(** ** Time: an instant in nanoseconds; [0] is the zero [time.Time] *)

Abbreviation time := Z (only parsing).
Definition zero_time : time := 0%Z.
Definition IsZero (t : time) : bool := bool_decide (t = 0%Z).

(** ** Strings: byte sequences *)

Abbreviation str_len := Stdlib.Strings.String.length (only parsing).
Abbreviation str_prefix := Stdlib.Strings.String.prefix (only parsing).
Definition bytes (s : string) : list ascii := Stdlib.Strings.String.list_ascii_of_string s.
Definition unbytes (l : list ascii) : string := Stdlib.Strings.String.string_of_list_ascii l.
Definition byte_at (c : ascii) : N := Stdlib.Strings.Ascii.N_of_ascii c.
Definition bs (l : list N) : string := unbytes (Stdlib.Strings.Ascii.ascii_of_N <$> l).
Definition in_range (lo hi : N) (c : ascii) : bool :=
  (lo <=? byte_at c)%N && (byte_at c <=? hi)%N.

Definition is_lower (c : ascii) : bool := in_range 97 122 c.
Definition is_upper (c : ascii) : bool := in_range 65 90 c.
Definition is_digit (c : ascii) : bool := in_range 48 57 c.
Definition is_alnum (c : ascii) : bool := is_lower c || is_upper c || is_digit c.
Definition one_of (chars : string) (c : ascii) : bool := bool_decide (c ∈ bytes chars).
Definition is_lower_hex (c : ascii) : bool := is_digit c || in_range 97 102 c.
Definition is_hex (c : ascii) : bool := is_lower_hex c || in_range 65 70 c.

Definition str_forall (p : ascii -> bool) (s : string) : bool := forallb p (bytes s).

(** [strings.ContainsAny] for a set of ASCII characters. *)
Definition contains_any (chars : string) (s : string) : bool :=
  existsb (one_of chars) (bytes s).

(** [strings.Contains]. *)
Fixpoint contains (sub s : string) : bool :=
  str_prefix sub s ||
  match s with "" => false | String _ r => contains sub r end.

Fixpoint str_drop (n : nat) (s : string) : string :=
  match n, s with
  | S n', String _ r => str_drop n' r
  | _, _ => s
  end.

(** [unicode.IsSpace]: the UTF-8 encodings of the white-space code points. *)
Definition unicode_spaces : list string :=
  bs <$> ([[9]; [10]; [11]; [12]; [13]; [32]; [194; 133]; [194; 160]; [225; 154; 128]]
          ++ ((fun k => [226; 128; k]) <$> [128; 129; 130; 131; 132; 133; 134; 135; 136; 137; 138; 168; 169; 175])
          ++ [[226; 129; 159]; [227; 128; 128]])%N.

Definition strip_one (spaces : list string) (s : string) : option string :=
  match List.find (fun sp => str_prefix sp s) spaces with
  | Some sp => Some (str_drop (str_len sp) s)
  | None => None
  end.

Fixpoint strip_all (fuel : nat) (spaces : list string) (s : string) : string :=
  match fuel with
  | O => s
  | S n => match strip_one spaces s with Some r => strip_all n spaces r | None => s end
  end.

(** [strings.TrimSpace]; each step removes at least one byte, so the length is
    enough fuel. *)
Definition trim_space (s : string) : string :=
  let l := strip_all (str_len s) unicode_spaces s in
  let r := strip_all (str_len l) (String.rev <$> unicode_spaces) (String.rev l) in
  String.rev r.

(** The bounded-identity test the packages repeat: non-empty, at most [max]
    bytes, and equal to its own [TrimSpace]. *)
Definition bounded (value : string) (max : nat) : bool :=
  bool_decide (value <> "") && (str_len value <=? max)%nat
  && bool_decide (trim_space value = value).

(** Regular expressions of the form [^[first][rest]{0,max}$]. *)
Definition matches_name (first rest : ascii -> bool) (max : nat) (s : string) : bool :=
  match s with
  | "" => false
  | String c r => first c && (str_len r <=? max)%nat && str_forall rest r
  end.

(** [strings.ToUpper]/[ToLower] up to the non-ASCII code points whose image is
    not ASCII (these are left alone: no caller can tell, every caller compares
    with ASCII text). U+0131 and U+017F have ASCII upper case, U+0130 and
    U+212A have ASCII lower case. *)
Definition ascii_up (c : ascii) : ascii :=
  if is_lower c then Stdlib.Strings.Ascii.ascii_of_N (byte_at c - 32) else c.
Definition ascii_low (c : ascii) : ascii :=
  if is_upper c then Stdlib.Strings.Ascii.ascii_of_N (byte_at c + 32) else c.

Fixpoint to_upper_bytes (l : list ascii) : list ascii :=
  match l with
  | "196"%char :: "177"%char :: r => "I"%char :: to_upper_bytes r
  | "197"%char :: "191"%char :: r => "S"%char :: to_upper_bytes r
  | c :: r => ascii_up c :: to_upper_bytes r
  | [] => []
  end.
Definition to_upper (s : string) : string := unbytes (to_upper_bytes (bytes s)).

Fixpoint to_lower_bytes (l : list ascii) : list ascii :=
  match l with
  | "196"%char :: "176"%char :: r => "i"%char :: to_lower_bytes r
  | "226"%char :: "132"%char :: "170"%char :: r => "k"%char :: to_lower_bytes r
  | c :: r => ascii_low c :: to_lower_bytes r
  | [] => []
  end.
Definition to_lower (s : string) : string := unbytes (to_lower_bytes (bytes s)).

(** ** Go maps used as sets: the [seen] loops *)

(** [for _, k := range keys { if seen[k] { return false }; seen[k] = true }]. *)
Fixpoint all_fresh {K} `{Countable K} (seen : gset K) (l : list K) : bool :=
  match l with
  | [] => true
  | k :: r => negb (bool_decide (k ∈ seen)) && all_fresh ({[k]} ∪ seen) r
  end.

(** ** Automation *)

Create HintDb go discriminated.

Lemma bind_ok {A B} (m : outcome A) (f : A -> outcome B) b :
  (m ≫= f) = Ok b -> exists a, m = Ok a /\ f a = Ok b.
Proof. destruct m; [eauto | discriminate]. Qed.

Lemma of_option_ok {A} e (o : option A) a : of_option e o = Ok a -> o = Some a.
Proof. by destruct o; intros [=]; subst. Qed.

(** Takes apart a successful run of a validator: every early return is refuted. *)
Ltac ok_step :=
  match goal with
  | H : Err _ = Ok _ |- _ => discriminate H
  | H : Ok _ = Err _ |- _ => discriminate H
  | H : Ok _ = Ok _ |- _ => injection H; clear H; intros; subst
  | H : Some _ = Some _ |- _ => injection H; clear H; intros; subst
  | H : None = Some _ |- _ => discriminate H
  | H : Some _ = None |- _ => discriminate H
  | H : mbind _ _ = Ok _ |- _ =>
      let a := fresh "a" in let E := fresh "E" in
      apply bind_ok in H; destruct H as (a & E & H)
  | H : of_option _ _ = Ok _ |- _ => apply of_option_ok in H
  | H : (match decide ?P with left _ => _ | right _ => _ end) = Ok _ |- _ => destruct (decide P)
  | H : (if ?b then _ else _) = Ok _ |- _ => let E := fresh "E" in destruct b eqn:E
  | H : (match ?o with Ok _ => _ | Err _ => _ end) = Ok _ |- _ => let E := fresh "E" in destruct o eqn:E
  | H : (match ?o with Some _ => _ | None => _ end) = Ok _ |- _ => let E := fresh "E" in destruct o eqn:E
  | H : (match ?p with (_, _) => _ end) = Ok _ |- _ => let E := fresh "E" in destruct p eqn:E
  end.
Ltac ok_inv := repeat ok_step.

(** Decisions on closed propositions are computed away. *)
Ltac known P yes no :=
  let b := eval vm_compute in (bool_decide P) in
  match b with
  | true => let H := fresh in assert P as H by (apply (bool_decide_eq_true_1 _); vm_compute; reflexivity); yes H; clear H
  | false => let H := fresh in assert (~ P) as H by (apply (bool_decide_eq_false_1 _); vm_compute; reflexivity); no H; clear H
  end.
Ltac decided := repeat match goal with
  | |- context [decide ?P] => known P ltac:(fun H => rewrite (decide_True _ _ H)) ltac:(fun H => rewrite (decide_False _ _ H))
  | Hx : context [decide ?P] |- _ => known P ltac:(fun H => rewrite (decide_True _ _ H) in Hx) ltac:(fun H => rewrite (decide_False _ _ H) in Hx)
  end.

(** Splits disjunctions negated by a guard. *)
Ltac guards :=
  repeat match goal with
  | H : ~ (_ \/ _) |- _ => apply Decidable.not_or in H; destruct H
  | H : ~ ~ _ |- _ => apply dec_stable in H
  | H : _ /\ _ |- _ => destruct H
  | H : andb _ _ = true |- _ => apply andb_true_iff in H; destruct H
  | H : negb _ = true |- _ => apply negb_true_iff in H
  | H : bool_decide _ = true |- _ => apply bool_decide_eq_true in H
  | H : bool_decide _ = false |- _ => apply bool_decide_eq_false in H
  end.

Lemma u64_succ_ok n : u64_ok (u64_succ n).
Proof. unfold u64_ok, u64_succ. by apply N.mod_lt. Qed.

Lemma u64_succ_ne n : u64_ok n -> u64_succ n <> n.
Proof.
  unfold u64_ok, u64_succ, u64_modulus. intros Hn He.
  destruct (decide (n + 1 < 18446744073709551616)%N) as [Hlt|Hge].
  - rewrite N.mod_small in He by done. lia.
  - assert (n + 1 = 18446744073709551616)%N as Hn1 by lia.
    rewrite Hn1, N.Div0.mod_same in He. lia.
Qed.

Lemma u64_succ_small n : (n + 1 < u64_modulus)%N -> u64_succ n = (n + 1)%N.
Proof. intros. unfold u64_succ. by apply N.mod_small. Qed.

Lemma u64_succ_neq n : u64_ok n -> u64_succ n <> n.
Proof.
  unfold u64_ok, u64_succ, u64_modulus. intros Hn.
  destruct (decide (n = 18446744073709551615)%N) as [->|]; [by vm_compute|].
  rewrite N.mod_small; lia.
Qed.

#[export] Hint Resolve u64_succ_ok u64_succ_neq : go.

Lemma all_fresh_spec {K} `{Countable K} (seen : gset K) (l : list K) :
  all_fresh seen l = true <-> NoDup l /\ (forall k, k ∈ l -> k ∉ seen).
Proof.
  revert seen. induction l as [|k l IH]; intros seen; simpl.
  { split; [intros _; split; [constructor | set_solver] | done]. }
  rewrite andb_true_iff, negb_true_iff, bool_decide_eq_false, IH, NoDup_cons. set_solver.
Qed.
