(* ===== verification/Effects.v ===== *)
(** The effects of the server's code: a state, error and context monad.

    A Go method of the modelled packages reads and writes one locked state
    [S], polls its [context.Context], reads a clock, calls external providers
    and returns [(value, error)].  [M S A] is that method.  Everything the
    caller does not control is in [Env]: what the [k]-th [ctx.Err()] answers,
    what other goroutines did to the state before the [k]-th lock acquisition,
    and the clock.  External effects are appended to a log in program order,
    and every critical section that writes records the states it moved between,
    so a concurrent history can be put together from the calls' commits. *)
From S2P Require Import Prelude.

Inductive effect :=
| EffDispatch (operation key : string)
| EffReconcile (operation : string)
| EffHandle (key : string).

#[export] Instance effect_eq_dec : EqDecision effect.
Proof. solve_decision. Defined.

Record Env (S : Type) := mkEnv {
  env_ctx : nat -> option goerr;        (* the caller's context, per poll *)
  env_detached : nat -> option goerr;   (* a context made by WithTimeout/WithoutCancel *)
  env_interfere : nat -> S -> S;        (* other goroutines, before a lock is granted *)
  env_now : nat -> time                 (* time.Now().UTC() *)
}.
Arguments mkEnv {_} _ _ _ _.
Arguments env_ctx {_} _.
Arguments env_detached {_} _.
Arguments env_interfere {_} _.
Arguments env_now {_} _.

Record World (S : Type) := mkWorld {
  w_tick : nat;
  w_state : S;
  w_log : list effect;
  w_commits : list (S * S)   (* this call's own writes: state before, state after *)
}.
Arguments mkWorld {_} _ _ _ _.
Arguments w_tick {_} _.
Arguments w_state {_} _.
Arguments w_log {_} _.
Arguments w_commits {_} _.

(** The world a call starts in. *)
Definition start {S} (s : S) : World S := mkWorld 0 s [] [].

Definition M (S A : Type) : Type := Env S -> World S -> outcome A * World S.

#[export] Instance M_ret {S} : MRet (M S) := fun A a _ w => (Ok a, w).
#[export] Instance M_bind {S} : MBind (M S) := fun A B f m e w =>
  match m e w with
  | (Ok a, w') => f a e w'
  | (Err x, w') => (Err x, w')
  end.

Definition fail {S A} (x : goerr) : M S A := fun _ w => (Err x, w).
Definition lift {S A} (o : outcome A) : M S A := fun _ w => (o, w).

(** [v, err := m(); if err != nil { return h(err) }; k(v)]. *)
Definition try_else {S A B} (m : M S A) (h : goerr -> M S B) (k : A -> M S B) : M S B :=
  fun e w =>
  match m e w with
  | (Ok a, w') => k a e w'
  | (Err x, w') => h x e w'
  end.

(** [v, err := m()]: the result is inspected by the continuation. *)
Definition observe {S A} (m : M S A) : M S (outcome A) :=
  fun e w => let '(r, w') := m e w in (Ok r, w').

(** [ctx.Err()] of the caller's context: its value, and the idiom that returns it. *)
Definition poll {S} : M S unit := fun e w =>
  let w' := mkWorld (Nat.succ (w_tick w)) (w_state w) (w_log w) (w_commits w) in
  match env_ctx e (w_tick w) with
  | Some x => (Err x, w')
  | None => (Ok tt, w')
  end.

(** [mu.Lock()]/[mu.RLock()]: other goroutines may have run. *)
Definition acquire {S} : M S unit := fun e w =>
  (Ok tt, mkWorld (Nat.succ (w_tick w)) (env_interfere e (w_tick w) (w_state w)) (w_log w) (w_commits w)).

(** The critical section: a function of the state that writes it only when it succeeds. *)
Definition atomically {S A} (body : S -> outcome (A * S)) : M S A := fun _ w =>
  match body (w_state w) with
  | Ok (a, s) => (Ok a, mkWorld (w_tick w) s (w_log w) (w_commits w ++ [(w_state w, s)]))
  | Err x => (Err x, w)
  end.

(** The critical section of a reader. *)
Definition inspect {S A} (read : S -> outcome A) : M S A := fun _ w => (read (w_state w), w).

(** The shape of every store method: the context is checked, the lock is
    taken, the context is checked again, and the body runs under the lock. *)
Definition locked {S A} (body : S -> outcome (A * S)) : M S A := poll ;; acquire ;; poll ;; atomically body.
Definition rlocked {S A} (read : S -> outcome A) : M S A := poll ;; acquire ;; poll ;; inspect read.

Definition now {S} : M S time := fun e w =>
  (Ok (env_now e (w_tick w)), mkWorld (Nat.succ (w_tick w)) (w_state w) (w_log w) (w_commits w)).

Definition emit {S} (x : effect) : M S unit := fun _ w =>
  (Ok tt, mkWorld (w_tick w) (w_state w) (w_log w ++ [x]) (w_commits w)).

(** An answer from outside, which may depend on the moment it is asked for. *)
Definition consult {S A} (answer : nat -> outcome A) : M S A := fun _ w => (answer (w_tick w), w).

(** Runs [m] under a context derived with [context.WithTimeout]. *)
Definition detached {S A} (m : M S A) : M S A := fun e w =>
  m (mkEnv (env_detached e) (env_detached e) (env_interfere e) (env_now e)) w.

(** ** Hoare triples *)

Definition hoare {S A} (e : Env S) (P : World S -> Prop) (m : M S A)
    (Q : outcome A -> World S -> Prop) : Prop :=
  forall w, P w -> let '(r, w') := m e w in Q r w'.

(** An assertion that neither the tick nor the environment's steps invalidate. *)
Definition stable {S} (e : Env S) (P : World S -> Prop) : Prop :=
  (forall t t' s l c, P (mkWorld t s l c) -> P (mkWorld t' s l c)) /\
  (forall n w, P w -> P (mkWorld (w_tick w) (env_interfere e n (w_state w)) (w_log w) (w_commits w))).

(** A context that stays done once it is done. *)
Definition ctx_sticky (c : nat -> option goerr) : Prop :=
  forall i j, (i <= j)%nat -> is_Some (c i) -> is_Some (c j).

Definition quiet_env {S} (clock : nat -> time) : Env S :=
  mkEnv (fun _ => None) (fun _ => None) (fun _ s => s) clock.

Section rules.
Context {S : Type} (e : Env S).
Implicit Types (P : World S -> Prop).

Lemma hoare_conseq {A} P P' (m : M S A) (Q Q' : outcome A -> World S -> Prop) :
  hoare e P' m Q' -> (forall w, P w -> P' w) -> (forall r w, Q' r w -> Q r w) -> hoare e P m Q.
Proof.
  intros Hm HP HQ w Hw. specialize (Hm w (HP w Hw)).
  destruct (m e w) as [r w']. by apply HQ.
Qed.

Lemma hoare_ret {A} (a : A) Q : hoare e (Q (Ok a)) (mret a) Q.
Proof. intros w Hw. exact Hw. Qed.

Lemma hoare_fail {A} x (Q : outcome A -> World S -> Prop) : hoare e (Q (Err x)) (fail x) Q.
Proof. intros w Hw. exact Hw. Qed.

Lemma hoare_lift {A} (o : outcome A) Q : hoare e (Q o) (lift o) Q.
Proof. intros w Hw. exact Hw. Qed.

Lemma hoare_bind {A B} P (m : M S A) (f : A -> M S B) R Q :
  hoare e P m R -> (forall a, hoare e (R (Ok a)) (f a) Q) ->
  (forall x w, R (Err x) w -> Q (Err x) w) -> hoare e P (m ≫= f) Q.
Proof.
  intros Hm Hf Hx w Hw. specialize (Hm w Hw). unfold mbind, M_bind.
  destruct (m e w) as [[a|x] w']; [exact (Hf a w' Hm) | exact (Hx x w' Hm)].
Qed.

Lemma hoare_try {A B} P (m : M S A) (h : goerr -> M S B) (k : A -> M S B) R Q :
  hoare e P m R -> (forall x, hoare e (R (Err x)) (h x) Q) ->
  (forall a, hoare e (R (Ok a)) (k a) Q) -> hoare e P (try_else m h k) Q.
Proof.
  intros Hm Hh Hk w Hw. specialize (Hm w Hw). unfold try_else.
  destruct (m e w) as [[a|x] w']; [exact (Hk a w' Hm) | exact (Hh x w' Hm)].
Qed.

Lemma hoare_poll P : stable e P ->
  hoare e P poll (fun _ w => P w).
Proof.
  intros [Ht _] [t s l c] Hw. unfold poll; simpl.
  destruct (env_ctx e t); eauto.
Qed.

Lemma hoare_acquire P : stable e P -> hoare e P acquire (fun r w => r = Ok tt /\ P w).
Proof.
  intros [Ht Hi] [t s l c] Hw. unfold acquire; simpl. split; [done|].
  eapply Ht. exact (Hi t _ Hw).
Qed.

Lemma hoare_now P : stable e P -> hoare e P now (fun _ w => P w).
Proof. intros [Ht _] [t s l c] Hw. unfold now; simpl. eauto. Qed.

Lemma hoare_observe {A} P (m : M S A) R :
  hoare e P m R -> hoare e P (observe m) (fun r w => match r with Ok o => R o w | Err _ => False end).
Proof.
  intros Hm w Hw. specialize (Hm w Hw). unfold observe. destruct (m e w). exact Hm.
Qed.

Lemma hoare_atomically {A} P (body : S -> outcome (A * S)) (Q : outcome A -> World S -> Prop) :
  (forall w, P w -> match body (w_state w) with
                    | Ok (a, s) => Q (Ok a) (mkWorld (w_tick w) s (w_log w) (w_commits w ++ [(w_state w, s)]))
                    | Err x => Q (Err x) w end) ->
  hoare e P (atomically body) Q.
Proof.
  intros Hb w Hw. specialize (Hb w Hw). unfold atomically.
  destruct (body (w_state w)) as [[a s]|x]; exact Hb.
Qed.

Lemma hoare_inspect {A} P (read : S -> outcome A) :
  hoare e P (inspect read) (fun r w => P w /\ r = read (w_state w)).
Proof. intros w Hw. split; [exact Hw | reflexivity]. Qed.

Lemma hoare_seq {A B} P R (m : M S A) (f : M S B) Q :
  hoare e P m (fun _ w => R w) -> hoare e R f Q -> (forall x w, R w -> Q (Err x) w) ->
  hoare e P (m ;; f) Q.
Proof. intros Hm Hf Hx. eapply hoare_bind; [exact Hm | intros ?; exact Hf | exact Hx]. Qed.

(** A locked body: its precondition survives the waits, and either it fails
    and writes nothing, or its write is recorded. *)
Lemma hoare_locked {A} P (body : S -> outcome (A * S)) (Q : outcome A -> World S -> Prop) :
  stable e P -> (forall x w, P w -> Q (Err x) w) ->
  (forall w a s, P w -> body (w_state w) = Ok (a, s) ->
     Q (Ok a) (mkWorld (w_tick w) s (w_log w) (w_commits w ++ [(w_state w, s)]))) ->
  hoare e P (locked body) Q.
Proof.
  intros Hs Hx Hb. unfold locked.
  eapply hoare_seq; [by apply hoare_poll | | done].
  eapply hoare_seq; [eapply hoare_conseq; [by apply hoare_acquire | done | intros ? ? [_ Hp]; exact Hp] | | done].
  eapply hoare_seq; [by apply hoare_poll | | done].
  apply hoare_atomically. intros w Hw. destruct (body (w_state w)) as [[a s]|x] eqn:E; eauto.
Qed.

Lemma hoare_rlocked {A} P (read : S -> outcome A) (Q : outcome A -> World S -> Prop) :
  stable e P -> (forall x w, P w -> Q (Err x) w) ->
  (forall w a, P w -> read (w_state w) = Ok a -> Q (Ok a) w) ->
  hoare e P (rlocked read) Q.
Proof.
  intros Hs Hx Hb. unfold rlocked.
  eapply hoare_seq; [by apply hoare_poll | | done].
  eapply hoare_seq; [eapply hoare_conseq; [by apply hoare_acquire | done | intros ? ? [_ Hp]; exact Hp] | | done].
  eapply hoare_seq; [by apply hoare_poll | | done].
  intros w Hw. unfold inspect. destruct (read (w_state w)) eqn:E; eauto.
Qed.

End rules.

(** ** What a call leaves behind: its effects and its writes *)

Definition tr {S} (F : list effect -> list (S * S) -> Prop) (w : World S) : Prop := F (w_log w) (w_commits w).

(** Time passed: nothing was written or called here, and other goroutines may
    have taken their turns. *)
Definition drift {S} (e : Env S) : S -> S -> Prop := rtc (fun s s' => exists n, s' = env_interfere e n s).
Record elapsed {S} (e : Env S) (w w' : World S) : Prop := {
  el_log : w_log w' = w_log w;
  el_commits : w_commits w' = w_commits w;
  el_state : drift e (w_state w) (w_state w')
}.

(** A call that neither writes the state nor calls out. *)
Class Silent {S A} (m : M S A) : Prop := silent : forall e w, elapsed e w (m e w).2.

Section silent.
Context {S : Type}.

Lemma elapsed_refl (e : Env S) w : elapsed e w w.
Proof. split; [done | done | apply rtc_refl]. Qed.
Lemma elapsed_trans (e : Env S) a b c : elapsed e a b -> elapsed e b c -> elapsed e a c.
Proof. intros [] []. split; [congruence | congruence | by etrans]. Qed.
#[local] Hint Resolve elapsed_refl : go.

#[export] Instance silent_ret {A} (a : A) : Silent (S := S) (mret a).
Proof. intros e w. apply elapsed_refl. Qed.
#[export] Instance silent_fail {A} x : Silent (S := S) (A := A) (fail x).
Proof. intros e w. apply elapsed_refl. Qed.
#[export] Instance silent_lift {A} (o : outcome A) : Silent (S := S) (lift o).
Proof. intros e w. apply elapsed_refl. Qed.
#[export] Instance silent_poll : Silent (S := S) poll.
Proof. intros e w. unfold poll. destruct (env_ctx e (w_tick w)); (split; [done | done | apply rtc_refl]). Qed.
#[export] Instance silent_acquire : Silent (S := S) acquire.
Proof. intros e w. split; [done | done | apply rtc_once; by eexists]. Qed.
#[export] Instance silent_now : Silent (S := S) now.
Proof. intros e w. split; [done | done | apply rtc_refl]. Qed.
#[export] Instance silent_inspect {A} (read : S -> outcome A) : Silent (inspect read).
Proof. intros e w. apply elapsed_refl. Qed.
#[export] Instance silent_consult {A} (answer : nat -> outcome A) : Silent (S := S) (consult answer).
Proof. intros e w. apply elapsed_refl. Qed.
#[export] Instance silent_bind {A B} (m : M S A) (f : A -> M S B) :
  Silent m -> (forall a, Silent (f a)) -> Silent (m ≫= f).
Proof.
  intros Hm Hf e w. specialize (Hm e w). unfold mbind, M_bind.
  destruct (m e w) as [[a|x] w']; simpl in *; [|done].
  eapply elapsed_trans; [exact Hm | apply Hf].
Qed.
#[export] Instance silent_try {A B} (m : M S A) (h : goerr -> M S B) (k : A -> M S B) :
  Silent m -> (forall x, Silent (h x)) -> (forall a, Silent (k a)) -> Silent (try_else m h k).
Proof.
  intros Hm Hh Hk e w. specialize (Hm e w). unfold try_else.
  destruct (m e w) as [[a|x] w']; simpl in *;
    (eapply elapsed_trans; [exact Hm|]); [apply Hk | apply Hh].
Qed.
#[export] Instance silent_observe {A} (m : M S A) : Silent m -> Silent (observe m).
Proof. intros Hm e w. specialize (Hm e w). unfold observe. by destruct (m e w). Qed.
#[export] Instance silent_rlocked {A} (read : S -> outcome A) : Silent (rlocked read).
Proof. unfold rlocked. apply _. Qed.
#[export] Instance silent_if {A} (b : bool) (m n : M S A) : Silent m -> Silent n -> Silent (if b then m else n).
Proof. by destruct b. Qed.
#[export] Instance silent_decide {A} P `{Decision P} (m n : M S A) :
  Silent m -> Silent n -> Silent (if decide P then m else n).
Proof. by destruct (decide P). Qed.

Lemma hoare_silent {A} (e : Env S) (m : M S A) F : Silent m ->
  hoare e (tr F) m (fun _ => tr F).
Proof.
  intros Hm w Hw. specialize (Hm e w). destruct (m e w) as [r w']; simpl in *.
  unfold tr in *. by destruct Hm as [-> -> _].
Qed.

Lemma hoare_silent_bind {A B} (e : Env S) (m : M S A) (f : A -> M S B) F Q : Silent m ->
  (forall x, forall w, tr F w -> Q (Err x) w) ->
  (forall a, hoare e (tr F) (f a) Q) -> hoare e (tr F) (m ≫= f) Q.
Proof.
  intros Hm Hx Hf. eapply hoare_bind; [by apply hoare_silent | done | done].
Qed.

Lemma lift_ok {A B} (a : A) (k : A -> M S B) : (lift (Ok a) ≫= k) = k a.
Proof. reflexivity. Qed.

Lemma lift_err {A B} x (k : A -> M S B) : (lift (Err x) ≫= k) = fail x.
Proof. reflexivity. Qed.

(** A call that cannot fail: a clock, a lock, an inspected result. *)
Class NeverFails {A} (m : M S A) : Prop := never_fails : forall e w x, (m e w).1 <> Err x.
#[export] Instance never_fails_now : NeverFails now.
Proof. by intros e w x. Qed.
#[export] Instance never_fails_acquire : NeverFails acquire.
Proof. by intros e w x. Qed.
#[export] Instance never_fails_observe {A} (m : M S A) : NeverFails (observe m).
Proof. intros e w x. unfold observe. by destruct (m e w). Qed.

Lemma hoare_total_bind {A B} (e : Env S) (m : M S A) (f : A -> M S B) F Q : Silent m -> NeverFails m ->
  (forall a, hoare e (tr F) (f a) Q) -> hoare e (tr F) (m ≫= f) Q.
Proof.
  intros Hm Hn Hf w Hw. unfold mbind, M_bind. pose proof (hoare_silent e m F Hm w Hw) as Hr.
  specialize (Hn e w). destruct (m e w) as [[a|x] w']; [exact (Hf a w' Hr)|].
  by destruct (Hn x).
Qed.

Lemma hoare_silent_done {A} (e : Env S) (m : M S A) F (Q : outcome A -> World S -> Prop) : Silent m ->
  (forall r w, tr F w -> Q r w) -> hoare e (tr F) m Q.
Proof. intros Hm HQ. eapply hoare_conseq; [by apply hoare_silent | done | apply HQ]. Qed.

Lemma stable_tr (e : Env S) F : stable e (tr F).
Proof. by split. Qed.

Lemma hoare_emit (e : Env S) F x (Q : outcome unit -> World S -> Prop) :
  (forall w, tr F w -> Q (Ok tt) (mkWorld (w_tick w) (w_state w) (w_log w ++ [x]) (w_commits w))) ->
  hoare e (tr F) (emit x) Q.
Proof. intros HQ w Hw. by apply HQ. Qed.

Lemma hoare_detached {A} (e : Env S) P (m : M S A) Q :
  hoare (mkEnv (env_detached e) (env_detached e) (env_interfere e) (env_now e)) P m Q ->
  hoare e P (detached m) Q.
Proof. intros Hm w Hw. exact (Hm w Hw). Qed.

(** ** Calls that run alone: no interference and a context that is never done *)

Definition advance {S} (n : nat) (w : World S) : World S :=
  mkWorld (w_tick w + n) (w_state w) (w_log w) (w_commits w).

Lemma quiet_poll clock (w : World S) : poll (quiet_env clock) w = (Ok tt, advance 1 w).
Proof. unfold poll, advance. simpl. by rewrite Nat.add_1_r. Qed.
Lemma quiet_acquire clock (w : World S) : acquire (quiet_env clock) w = (Ok tt, advance 1 w).
Proof. unfold acquire, advance. simpl. by rewrite Nat.add_1_r. Qed.
Lemma quiet_now clock (w : World S) : now (quiet_env clock) w = (Ok (clock (w_tick w)), advance 1 w).
Proof. unfold now, advance. simpl. by rewrite Nat.add_1_r. Qed.
Lemma quiet_detached {A} clock (m : M S A) w : detached m (quiet_env clock) w = m (quiet_env clock) w.
Proof. done. Qed.
Lemma advance_advance n k (w : World S) : advance k (advance n w) = advance (n + k) w.
Proof. unfold advance. simpl. by rewrite Nat.add_assoc. Qed.

Lemma bind_run {A B} (m : M S A) (f : A -> M S B) e w r w' :
  m e w = (r, w') -> (m ≫= f) e w = match r with Ok a => f a e w' | Err x => (Err x, w') end.
Proof. intros Hm. unfold mbind, M_bind. rewrite Hm. by destruct r. Qed.

Lemma quiet_locked {A} clock (body : S -> outcome (A * S)) w :
  locked body (quiet_env clock) w =
  match body (w_state w) with
  | Ok (a, s) => (Ok a, mkWorld (w_tick w + 3) s (w_log w) (w_commits w ++ [(w_state w, s)]))
  | Err x => (Err x, advance 3 w)
  end.
Proof.
  unfold locked. erewrite bind_run by apply quiet_poll. simpl.
  erewrite bind_run by apply quiet_acquire. simpl. erewrite bind_run by apply quiet_poll. simpl.
  rewrite !advance_advance. unfold atomically. simpl. by destruct (body (w_state w)) as [[a s]|x].
Qed.

Lemma quiet_rlocked {A} clock (read : S -> outcome A) w :
  rlocked read (quiet_env clock) w = (read (w_state w), advance 3 w).
Proof.
  unfold rlocked. erewrite bind_run by apply quiet_poll. simpl.
  erewrite bind_run by apply quiet_acquire. simpl. erewrite bind_run by apply quiet_poll. simpl.
  rewrite !advance_advance. done.
Qed.

End silent.
