(* ===== verification/Access.v ===== *)
(** [internal/access]: the policy that binds verified client identities to
    explicit capabilities.

    [New] turns a policy document into principals and refuses every document
    that mixes duties; [Authenticate] accepts a directly verified TLS client
    certificate only. *)
From S2P Require Import Prelude.

(** ** policy.go, worker.go: vocabulary *)

Definition ErrUnauthenticated : goerr := ESentinel "access.ErrUnauthenticated" "verified client identity required".

Definition cap_Read : string := "core:read".
Definition cap_WorkCreate : string := "work:create".
Definition cap_TaskCreate : string := "task:create".
Definition cap_RunStart : string := "run:start".
Definition cap_RunControl : string := "run:control".
Definition cap_RunComplete : string := "run:complete".
Definition cap_CheckpointCreate : string := "checkpoint:create".
Definition cap_ActionExecute : string := "action:execute".
Definition cap_ActionReconcile : string := "action:reconcile".
Definition cap_DeliveryCreate : string := "delivery:create".
Definition cap_EvidenceRegister : string := "evidence:register".
Definition cap_VerificationCreate : string := "verification:create".
Definition cap_ReviewCreate : string := "review:create".
Definition cap_ClosureCreate : string := "closure:create".
Definition cap_RecoveryBegin : string := "recovery:begin".
Definition cap_RecoveryReconcile : string := "recovery:reconcile".
Definition cap_RecoveryComplete : string := "recovery:complete".
Definition cap_MaterialDegrade : string := "material:degrade".
Definition cap_WorkerPoll : string := "worker:poll".
Definition cap_WorkerReport : string := "worker:report".
Definition cap_WorkerPrepare : string := "worker:prepare".

(** The reserved importers: subject, issuer, procedure. *)
Definition TrustedCI : string * string * string :=
  ("urn:engineering-platform:github-ci-importer", "github-actions-importer", "github.actions.trusted-ci.v1").
Definition WorkerEvidence : string * string * string :=
  ("urn:engineering-platform:worker-evidence-importer", "worker-execution-importer", "worker.offline.execution.v1").
Definition GitEvidence : string * string * string :=
  ("urn:engineering-platform:git-evidence-importer", "git-change-importer", "git.changed-tree.v1").
Definition CodexEvidence : string * string * string :=
  ("urn:engineering-platform:codex-evidence-importer", "codex-execution-importer", "codex.core.execution.v1").

(** With [WorkerPrepare], which [init] registers. *)
Definition capabilities : gset string := list_to_set
  [cap_WorkerPoll; cap_WorkerReport; cap_Read; cap_WorkCreate; cap_TaskCreate; cap_RunStart; cap_RunControl;
   cap_RunComplete; cap_CheckpointCreate; cap_ActionExecute; cap_ActionReconcile; cap_DeliveryCreate;
   cap_EvidenceRegister; cap_VerificationCreate; cap_ReviewCreate; cap_ClosureCreate; cap_RecoveryBegin;
   cap_RecoveryReconcile; cap_RecoveryComplete; cap_MaterialDegrade; cap_WorkerPrepare].

Definition subject_prefix : string := "urn:engineering-platform:".
Definition subjectPattern (s : string) : bool :=
  str_prefix subject_prefix s
  && matches_name is_alnum (fun c => is_alnum c || one_of "._:-" c) 191 (str_drop (str_len subject_prefix) s).
Definition namePattern (s : string) : bool :=
  matches_name is_alnum (fun c => is_alnum c || one_of "._:/-" c) 191 s.

Record ActionGrant := mkActionGrant { ag_Action : string; ag_RiskClass : string; ag_Capability : string }.
#[export] Instance ActionGrant_eq_dec : EqDecision ActionGrant.
Proof. solve_decision. Defined.

Record PrincipalSpec := mkPrincipalSpec {
  ps_WorkerProfiles : list string; ps_Subject : string; ps_Scope : string; ps_Capabilities : list string;
  ps_Actions : list ActionGrant; ps_EvidenceIssuer : string; ps_EvidenceProcedures : list string
}.

Record Document := mkDocument { doc_Version : Z; doc_Principals : list PrincipalSpec }.

Record Identity := mkIdentity {
  id_workerProfiles : gset string; id_subject : string; id_capabilities : gset string;
  id_actions : gmap string ActionGrant; id_issuer : string; id_procedures : gset string
}.

Definition Allows (p : Identity) (capability : string) : bool := bool_decide (capability ∈ id_capabilities p).
Definition AllowsAction (p : Identity) (action risk capability : string) : bool :=
  match id_actions p !! action with
  | Some grant => Allows p cap_ActionExecute && bool_decide (ag_RiskClass grant = risk /\ ag_Capability grant = capability)
  | None => false
  end.
Definition AllowsEvidence (p : Identity) (issuer procedure : string) : bool :=
  Allows p cap_EvidenceRegister && bool_decide (issuer = id_issuer p) && bool_decide (procedure ∈ id_procedures p).
Definition AllowsWorkerProfile (p : Identity) (profile : string) : bool := bool_decide (profile ∈ id_workerProfiles p).

(** A [Policy] is its map of principals. *)
Abbreviation Policy := (gmap string Identity) (only parsing).

(** ** New *)

Definition validRisk (risk : string) : bool :=
  bool_decide (risk = "OBSERVE" \/ risk = "CONTROLLED_MUTATION" \/ risk = "HIGH_RISK").

(** The loops that fill the maps, refusing duplicates. *)
Fixpoint add_names (ok : string -> bool) (msg : string) (l : list string) (acc : gset string) : outcome (gset string) :=
  match l with
  | [] => Ok acc
  | n :: r => if negb (ok n) || bool_decide (n ∈ acc) then Err (ENew msg) else add_names ok msg r ({[n]} ∪ acc)
  end.

Fixpoint add_actions (l : list ActionGrant) (acc : gmap string ActionGrant) : outcome (gmap string ActionGrant) :=
  match l with
  | [] => Ok acc
  | g :: r =>
    if negb (namePattern (ag_Action g) && namePattern (ag_Capability g) && validRisk (ag_RiskClass g))
    then Err (ENew "invalid action grant")
    else match acc !! ag_Action g with
         | Some _ => Err (ENew "duplicate action grant")
         | None => add_actions r (<[ag_Action g := g]> acc)
         end
  end.

Definition validateReservedEvidenceAuthority (id : Identity) (r : string * string * string) : outcome unit :=
  let '(subject, issuer, procedure) := r in
  if negb (bool_decide (id_subject id = subject) || bool_decide (id_issuer id = issuer)
           || bool_decide (procedure ∈ id_procedures id)) then Ok tt
  else if decide (id_subject id <> subject \/ id_issuer id <> issuer \/ size (id_procedures id) <> 1
                  \/ procedure ∉ id_procedures id)
  then Err (ENew "reserved evidence authority requires its dedicated importer principal")
  else if decide (size (id_actions id) <> 0 \/ size (id_workerProfiles id) <> 0 \/ size (id_capabilities id) <> 2
                  \/ Allows id cap_Read = false \/ Allows id cap_EvidenceRegister = false)
  then Err (ENew "dedicated evidence importer may only hold core:read and evidence:register")
  else Ok tt.

Definition set_workerProfiles (profiles : gset string) (id : Identity) : Identity :=
  mkIdentity profiles (id_subject id) (id_capabilities id) (id_actions id) (id_issuer id) (id_procedures id).

Definition configureWorkerProfiles (spec : PrincipalSpec) (id : Identity) : outcome Identity :=
  if decide (64 < length (ps_WorkerProfiles spec)) then Err (ENew "too many worker profile grants") else
  profiles ← add_names namePattern "invalid or duplicate worker profile" (ps_WorkerProfiles spec) ∅;
  let id := set_workerProfiles profiles id in
  if decide ((Allows id cap_WorkerPoll || Allows id cap_WorkerReport) <> bool_decide (0 < size (id_workerProfiles id)))
  then Err (ENew "worker capabilities require explicit worker profiles")
  else if decide (Allows id cap_WorkerPrepare = true
                  /\ (Allows id cap_WorkerPoll = false \/ Allows id cap_WorkerReport = false))
  then Err (ENew "worker preparation requires poll and report grants")
  else Ok id.

(** The role that may hold [only] and [core:read] and nothing else. *)
Definition exclusive (id : Identity) (only msg1 msg2 : string) : outcome unit :=
  if negb (Allows id only) then Ok tt
  else if negb (bool_decide (id_capabilities id ⊆ {[only; cap_Read]})) then Err (ENew msg1)
  else if decide (size (id_actions id) <> 0 \/ id_issuer id <> "" \/ size (id_procedures id) <> 0
                  \/ size (id_workerProfiles id) <> 0) then Err (ENew msg2)
  else Ok tt.

(** One turn of [New]'s loop: the identity a specification grants. *)
Definition identity_of (spec : PrincipalSpec) : outcome Identity :=
  if decide (ps_Capabilities spec = [] \/ size capabilities < length (ps_Capabilities spec)
             \/ 64 < length (ps_Actions spec) \/ 64 < length (ps_EvidenceProcedures spec))
  then Err (ENew "invalid grant count") else
  caps ← add_names (fun c => bool_decide (c ∈ capabilities)) "unknown or duplicate capability" (ps_Capabilities spec) ∅;
  actions ← add_actions (ps_Actions spec) ∅;
  let id := mkIdentity ∅ (ps_Subject spec) caps actions (ps_EvidenceIssuer spec) ∅ in
  if decide (Allows id cap_ActionExecute <> bool_decide (0 < size actions))
  then Err (ENew "action execution requires exact action grants") else
  procedures ← add_names namePattern "invalid or duplicate evidence procedure" (ps_EvidenceProcedures spec) ∅;
  let id := mkIdentity ∅ (ps_Subject spec) caps actions (ps_EvidenceIssuer spec) procedures in
  _ ← (if Allows id cap_EvidenceRegister then
         if decide (namePattern (id_issuer id) = false \/ size procedures = 0)
         then Err (ENew "evidence grant requires issuer and procedures") else Ok tt
       else if decide (id_issuer id <> "" \/ 0 < size procedures)
         then Err (ENew "evidence binding without evidence grant") else Ok tt);
  _ ← validateReservedEvidenceAuthority id TrustedCI;
  _ ← validateReservedEvidenceAuthority id WorkerEvidence;
  _ ← validateReservedEvidenceAuthority id GitEvidence;
  _ ← validateReservedEvidenceAuthority id CodexEvidence;
  id ← configureWorkerProfiles spec id;
  _ ← exclusive id cap_ReviewCreate "independent reviewer may only hold review:create and core:read"
        "independent reviewer cannot hold execution, evidence or worker authority";
  _ ← exclusive id cap_RecoveryReconcile "reconciler may only hold recovery:reconcile and core:read"
        "reconciler cannot hold execution, evidence or worker authority";
  Ok id.

Fixpoint add_principals (l : list PrincipalSpec) (p : Policy) : outcome Policy :=
  match l with
  | [] => Ok p
  | spec :: r =>
    if decide (subjectPattern (ps_Subject spec) = false \/ ps_Scope spec <> "platform")
    then Err (ENew "explicit platform scope and canonical URI subject required")
    else match p !! ps_Subject spec with
         | Some _ => Err (ENew "duplicate principal")
         | None => id ← identity_of spec; add_principals r (<[id_subject id := id]> p)
         end
  end.

(** [lanes]: the first claimer of a profile fixes its kind. *)
Fixpoint claim_lanes (l : list (string * bool)) (lanes : gmap string bool) : outcome (gmap string bool) :=
  match l with
  | [] => Ok lanes
  | (profile, prepare) :: r =>
    match lanes !! profile with
    | Some prior =>
      if decide (prior <> prepare)
      then Err (ENew "worker profile mixes admission-only and preparation-capable claimers")
      else claim_lanes r (<[profile := prepare]> lanes)
    | None => claim_lanes r (<[profile := prepare]> lanes)
    end
  end.
Definition claims_of (id : Identity) : list (string * bool) :=
  if Allows id cap_WorkerPoll then (fun profile => (profile, Allows id cap_WorkerPrepare)) <$> elements (id_workerProfiles id)
  else [].
Definition validateWorkerClaimLanes (p : Policy) : outcome unit :=
  _ ← claim_lanes (concat (claims_of <$> (map_to_list p).*2)) ∅; Ok tt.

Definition New (doc : Document) : outcome Policy :=
  if decide (doc_Version doc <> 1%Z \/ doc_Principals doc = [] \/ 256 < length (doc_Principals doc))
  then Err (ENew "access policy requires version 1 and 1..256 principals") else
  p ← add_principals (doc_Principals doc) ∅;
  _ ← validateWorkerClaimLanes p;
  Ok p.

(** ** Authenticate *)

Record Certificate := mkCertificate {
  crt_Raw : string; crt_URIs : list (option string);   (* [URL.String()]; [None] is nil *)
  crt_ExtKeyUsage : list N; crt_NotBefore : time; crt_NotAfter : time
}.
Definition ExtKeyUsageClientAuth : N := 2.
Definition VersionTLS13 : N := 772.

Record ConnectionState := mkConnectionState {
  tls_HandshakeComplete : bool; tls_Version : N;
  tls_PeerCertificates : list (option Certificate); tls_VerifiedChains : list (list (option Certificate))
}.

Definition valid_at (t : time) (cert : option Certificate) : bool :=
  match cert with
  | Some c => negb (bool_decide (t < crt_NotBefore c)%Z) && bool_decide (t < crt_NotAfter c)%Z
  | None => false
  end.

(** A chain that starts with the presented leaf and is valid now. *)
Definition chain_valid (t : time) (leaf : Certificate) (chain : list (option Certificate)) : bool :=
  match chain with
  | Some c :: _ => bool_decide (crt_Raw c = crt_Raw leaf) && forallb (valid_at t) chain
  | _ => false
  end.

Definition Authenticate (p : option Policy) (tls : option ConnectionState) (now : time) : outcome Identity :=
  match p, tls with
  | Some p, Some c =>
    if decide (tls_HandshakeComplete c = false \/ (tls_Version c < VersionTLS13)%N \/ tls_PeerCertificates c = []
               \/ tls_VerifiedChains c = []) then Err ErrUnauthenticated else
    match tls_PeerCertificates c with
    | Some leaf :: _ =>
      match crt_URIs leaf with
      | [Some uri] =>
        if negb (existsb (N.eqb ExtKeyUsageClientAuth) (crt_ExtKeyUsage leaf)) then Err ErrUnauthenticated
        else if negb (existsb (chain_valid now leaf) (tls_VerifiedChains c)) then Err ErrUnauthenticated
        else of_option ErrUnauthenticated (p !! uri)
      | _ => Err ErrUnauthenticated
      end
    | _ => Err ErrUnauthenticated
    end
  | _, _ => Err ErrUnauthenticated
  end.

(** ** capacity.go *)

Record WorkerClaimGrant := mkWorkerClaimGrant { wg_Subject : string; wg_Profiles : list string; wg_Prepares : bool }.

Definition grant_le (a b : WorkerClaimGrant) : Prop := String.le (wg_Subject a) (wg_Subject b).
#[export] Instance grant_le_dec : RelDecision grant_le.
Proof. intros a b. unfold grant_le. apply _. Defined.

Definition claim_grant (principal : Identity) : WorkerClaimGrant :=
  mkWorkerClaimGrant (id_subject principal) (merge_sort String.le (elements (id_workerProfiles principal)))
    (Allows principal cap_WorkerPrepare).

Definition WorkerClaimGrants (p : option Policy) : list WorkerClaimGrant :=
  match p with
  | None => []
  | Some p => merge_sort grant_le (claim_grant <$> List.filter (fun i => Allows i cap_WorkerPoll) (map_to_list p).*2)
  end.

(** ** Facts about the loops *)

Lemma add_names_ok ok msg l acc r : add_names ok msg l acc = Ok r <->
  Forall (fun n => ok n = true) l /\ NoDup l /\ (forall n, n ∈ l -> n ∉ acc) /\ r = list_to_set l ∪ acc.
Proof.
  revert acc. induction l as [|n l IH]; intros acc; simpl.
  { split; [intros [= <-]; split_and!; [constructor | constructor | set_solver | set_solver]|].
    intros (_ & _ & _ & ->). f_equal. set_solver. }
  rewrite Forall_cons, NoDup_cons. destruct (ok n); simpl.
  2: { split; [done|]. by intros [[? _] _]. }
  case_bool_decide as Hn; [split; [done|]; intros (_ & _ & Hf & _); destruct (Hf n); [left|done]|].
  rewrite IH. split.
  - intros (Hf & Hd & Hx & ->). split_and!; try done.
    + intros Hin. apply (Hx n Hin). set_solver.
    + intros m [->|Hm]%elem_of_cons; [done|]. specialize (Hx m Hm). set_solver.
    + set_solver.
  - intros ([_ Hf] & [Hl Hd] & Hx & ->). split_and!; try done; [|set_solver].
    intros m Hm. specialize (Hx m ltac:(by right)). apply not_elem_of_union. split; [|done].
    intros ->%elem_of_singleton. done.
Qed.

Lemma add_actions_ok l acc r : add_actions l acc = Ok r ->
  Forall (fun g => namePattern (ag_Action g) && namePattern (ag_Capability g) && validRisk (ag_RiskClass g) = true) l
  /\ (forall a g, r !! a = Some g <-> (g ∈ l /\ ag_Action g = a) \/ acc !! a = Some g).
Proof.
  revert acc. induction l as [|g l IH]; intros acc; simpl.
  { intros [= ->]. split; [constructor|]. intros a g. split; [by right | intros [[Hg _]|?]; [by apply elem_of_nil in Hg|done]]. }
  destruct (namePattern (ag_Action g) && _ && _) eqn:Hok; simpl; [|done].
  destruct (acc !! ag_Action g) eqn:Ha; [done|]. intros Hr. apply IH in Hr as [Hf Hr].
  split; [by constructor|]. intros a g'. rewrite Hr. split.
  - intros [[Hin <-]|Hi]; [left; split; [by right|done]|].
    destruct (decide (a = ag_Action g)) as [->|Hne].
    + rewrite lookup_insert_eq in Hi. injection Hi as <-. left. split; [left|done].
    + rewrite lookup_insert_ne in Hi by done. by right.
  - intros [[[->|Hin]%elem_of_cons <-]|Hi].
    + right. by rewrite lookup_insert_eq.
    + by left.
    + right. rewrite lookup_insert_ne; [done|]. intros Heq. rewrite Heq in Ha. congruence.
Qed.

(** ** What an identity may combine *)

Definition reserved (r : string * string * string) (id : Identity) : Prop :=
  id_subject id = r.1.1 \/ id_issuer id = r.1.2 \/ r.2 ∈ id_procedures id.

(** A principal with this duty has no other. *)
Definition only_duty (cap : string) (id : Identity) : Prop :=
  id_capabilities id ⊆ {[cap; cap_Read]} /\ id_actions id = ∅ /\ id_issuer id = "" /\ id_procedures id = ∅
  /\ id_workerProfiles id = ∅.

Record duties_separate (id : Identity) : Prop := {
  du_known : id_capabilities id ⊆ capabilities;
  du_some : id_capabilities id <> ∅;
  du_actions : cap_ActionExecute ∈ id_capabilities id <-> id_actions id <> ∅;
  du_evidence : cap_EvidenceRegister ∈ id_capabilities id <-> id_procedures id <> ∅;
  du_issuer : cap_EvidenceRegister ∈ id_capabilities id <-> id_issuer id <> "";
  du_workers : (cap_WorkerPoll ∈ id_capabilities id \/ cap_WorkerReport ∈ id_capabilities id) <-> id_workerProfiles id <> ∅;
  du_prepare : cap_WorkerPrepare ∈ id_capabilities id ->
               cap_WorkerPoll ∈ id_capabilities id /\ cap_WorkerReport ∈ id_capabilities id;
  du_reviewer : cap_ReviewCreate ∈ id_capabilities id -> only_duty cap_ReviewCreate id;
  du_reconciler : cap_RecoveryReconcile ∈ id_capabilities id -> only_duty cap_RecoveryReconcile id;
  du_importers : forall r, r ∈ [TrustedCI; WorkerEvidence; GitEvidence; CodexEvidence] -> reserved r id ->
    id_subject id = r.1.1 /\ id_issuer id = r.1.2 /\ id_procedures id = {[r.2]}
    /\ id_capabilities id = {[cap_Read; cap_EvidenceRegister]} /\ id_actions id = ∅ /\ id_workerProfiles id = ∅
}.

(** The identity holds what the specification lists, and nothing else. *)
Record grants (spec : PrincipalSpec) (id : Identity) : Prop := {
  gr_subject : id_subject id = ps_Subject spec;
  gr_capabilities : id_capabilities id = list_to_set (ps_Capabilities spec);
  gr_actions : forall a g, id_actions id !! a = Some g <-> g ∈ ps_Actions spec /\ ag_Action g = a;
  gr_issuer : id_issuer id = ps_EvidenceIssuer spec;
  gr_procedures : id_procedures id = list_to_set (ps_EvidenceProcedures spec);
  gr_profiles : id_workerProfiles id = list_to_set (ps_WorkerProfiles spec)
}.

Lemma Allows_in id c : Allows id c = true <-> c ∈ id_capabilities id.
Proof. unfold Allows. by rewrite bool_decide_eq_true. Qed.
Lemma Allows_not id c : Allows id c = false <-> c ∉ id_capabilities id.
Proof. unfold Allows. by rewrite bool_decide_eq_false. Qed.
Lemma size_zero (s : gset string) : size s = 0 <-> s = ∅.
Proof. by rewrite size_empty_iff, leibniz_equiv_iff. Qed.
Lemma map_size_zero (m : gmap string ActionGrant) : size m = 0 <-> m = ∅.
Proof. by rewrite map_size_empty_iff. Qed.

Lemma reserved_ok id r : validateReservedEvidenceAuthority id r = Ok tt -> reserved r id ->
  id_subject id = r.1.1 /\ id_issuer id = r.1.2 /\ id_procedures id = {[r.2]}
  /\ id_capabilities id = {[cap_Read; cap_EvidenceRegister]} /\ id_actions id = ∅ /\ id_workerProfiles id = ∅.
Proof.
  destruct r as [[subject issuer] procedure]. unfold validateReservedEvidenceAuthority, reserved. simpl. intros Hv Hr.
  destruct (negb _) eqn:Hn.
  { rewrite negb_true_iff, !orb_false_iff, !bool_decide_eq_false in Hn. tauto. }
  case_decide as H1; [done|]. case_decide as H2; [done|]. clear Hv Hn Hr.
  assert (id_subject id = subject /\ id_issuer id = issuer) as [Hsub Hiss] by (split; apply dec_stable; tauto).
  assert (size (id_procedures id) = 1 /\ procedure ∈ id_procedures id) as [Hs Hp] by (split; apply dec_stable; tauto).
  assert (size (id_actions id) = 0 /\ size (id_workerProfiles id) = 0 /\ size (id_capabilities id) = 2) as (Ha & Hw & Hc)
    by (split_and!; apply dec_stable; tauto).
  assert (cap_Read ∈ id_capabilities id /\ cap_EvidenceRegister ∈ id_capabilities id) as [Hrd Her].
  { rewrite <- !Allows_in. split; apply not_false_iff_true; tauto. }
  clear H1 H2. apply size_1_elem_of in Hs as [x Hx%leibniz_equiv]. apply map_size_zero in Ha. apply size_zero in Hw.
  rewrite Hx in Hp |- *. apply elem_of_singleton in Hp as <-.
  split; [exact Hsub|]. split; [exact Hiss|]. split; [reflexivity|]. split; [|split; assumption].
  symmetry. apply set_subseteq_size_eq.
  - apply union_subseteq. split; by apply singleton_subseteq_l.
  - rewrite Hc, size_union by (apply disjoint_singleton_l; by rewrite elem_of_singleton).
    by rewrite !size_singleton.
Qed.

Lemma exclusive_ok id only m1 m2 : exclusive id only m1 m2 = Ok tt -> only ∈ id_capabilities id -> only_duty only id.
Proof.
  unfold exclusive. intros Hx Ho%Allows_in. rewrite Ho in Hx. simpl in Hx.
  case_bool_decide; [|done]. simpl in Hx. case_decide as H2; [done|].
  split_and!; [done | apply map_size_zero | | apply size_zero | apply size_zero]; apply dec_stable; tauto.
Qed.

Lemma size_positive (s : gset string) : 0 < size s <-> s <> ∅.
Proof. rewrite <- size_zero. lia. Qed.
Lemma map_size_positive (m : gmap string ActionGrant) : 0 < size m <-> m <> ∅.
Proof. rewrite <- map_size_zero. lia. Qed.
Lemma agree_bool b P `{Decision P} : b = bool_decide P -> b = true <-> P.
Proof. intros ->. apply bool_decide_eq_true. Qed.

Lemma configureWorkerProfiles_ok spec id id' : configureWorkerProfiles spec id = Ok id' ->
  id' = set_workerProfiles (list_to_set (ps_WorkerProfiles spec)) id
  /\ ((cap_WorkerPoll ∈ id_capabilities id' \/ cap_WorkerReport ∈ id_capabilities id') <-> id_workerProfiles id' <> ∅)
  /\ (cap_WorkerPrepare ∈ id_capabilities id' ->
      cap_WorkerPoll ∈ id_capabilities id' /\ cap_WorkerReport ∈ id_capabilities id').
Proof.
  unfold configureWorkerProfiles. case_decide; [done|]. intros (ps & Hps & Hc)%bind_ok.
  apply add_names_ok in Hps as (_ & _ & _ & ->). rewrite union_empty_r_L in Hc.
  case_decide as H1; [done|]. case_decide as H2; [done|]. injection Hc as <-.
  split; [done|]. split.
  - apply agree_bool in H1. rewrite orb_true_iff, !Allows_in, size_positive in H1. exact H1.
  - intros Hp%Allows_in. rewrite <- !Allows_in.
    destruct (Allows _ cap_WorkerPoll) eqn:E1, (Allows _ cap_WorkerReport) eqn:E2; tauto.
Qed.

Lemma identity_of_ok spec id : identity_of spec = Ok id -> grants spec id /\ duties_separate id.
Proof.
  unfold identity_of. case_decide as Hcount; [done|]. intros (caps & Hcaps & H)%bind_ok.
  apply bind_ok in H as (actions & Hactions & H). case_decide as Hexec; [done|].
  apply bind_ok in H as (procs & Hprocs & H). apply bind_ok in H as ([] & Hev & H).
  apply bind_ok in H as ([] & Hr1 & H). apply bind_ok in H as ([] & Hr2 & H). apply bind_ok in H as ([] & Hr3 & H).
  apply bind_ok in H as ([] & Hr4 & H). apply bind_ok in H as (id' & Hw & H).
  apply bind_ok in H as ([] & Hx1 & H). apply bind_ok in H as ([] & Hx2 & H). injection H as <-.
  apply add_names_ok in Hcaps as (Hck & _ & _ & ->), Hprocs as (_ & _ & _ & ->).
  apply add_actions_ok in Hactions as [_ Hactions]. rewrite !union_empty_r_L in *.
  set (id0 := mkIdentity ∅ (ps_Subject spec) (list_to_set (ps_Capabilities spec)) actions (ps_EvidenceIssuer spec)
                (list_to_set (ps_EvidenceProcedures spec))) in *.
  apply configureWorkerProfiles_ok in Hw as (-> & Hw1 & Hw2).
  assert (forall r, validateReservedEvidenceAuthority id0 r = Ok tt ->
    reserved r (set_workerProfiles (list_to_set (ps_WorkerProfiles spec)) id0) ->
    id_subject id0 = r.1.1 /\ id_issuer id0 = r.1.2 /\ id_procedures id0 = {[r.2]}
    /\ id_capabilities id0 = {[cap_Read; cap_EvidenceRegister]} /\ id_actions id0 = ∅
    /\ list_to_set (ps_WorkerProfiles spec) =@{gset string} ∅) as Hres.
  { intros r Hr Hres. destruct (reserved_ok id0 r Hr Hres) as (? & ? & ? & Hc & ? & _). split_and!; try done.
    apply dec_stable. intros Hp%Hw1. change (id_capabilities (set_workerProfiles _ id0)) with (id_capabilities id0) in Hp.
    rewrite Hc in Hp. destruct Hp as [Hp|Hp]; apply elem_of_union in Hp as [Hp%elem_of_singleton|Hp%elem_of_singleton]; done. }
  split.
  - constructor; try done. intros a g. simpl. rewrite Hactions, lookup_empty. split; [intros [?|?]; done | by left].
  - assert (id_capabilities id0 = list_to_set (ps_Capabilities spec)) as Hcaps0 by done.
    constructor; simpl.
    + intros c Hc%elem_of_list_to_set. rewrite Forall_forall in Hck. specialize (Hck c Hc). by apply bool_decide_eq_true in Hck.
    + guards. destruct (ps_Capabilities spec); [done|]. set_solver.
    + apply agree_bool in Hexec. rewrite Allows_in, map_size_positive in Hexec. exact Hexec.
    + destruct (Allows id0 _) eqn:Ha; (case_decide as Hd; [done|]); guards.
      * apply Allows_in in Ha. rewrite size_zero in *. split; intros; done.
      * apply Allows_not in Ha. rewrite size_positive in *. tauto.
    + destruct (Allows id0 _) eqn:Ha; (case_decide as Hd; [done|]); guards.
      * apply Allows_in in Ha. split; [|done]. intros _ He. simpl in *. by rewrite He in *.
      * apply Allows_not in Ha. tauto.
    + exact Hw1.
    + exact Hw2.
    + exact (exclusive_ok _ _ _ _ Hx1).
    + exact (exclusive_ok _ _ _ _ Hx2).
    + intros r Hr. repeat (apply elem_of_cons in Hr as [->|Hr]; [by apply Hres|]). by apply elem_of_nil in Hr.
Qed.

Lemma claim_lanes_ok l lanes : is_ok (claim_lanes l lanes) = true <->
  (forall k b b', (k, b) ∈ l -> (k, b') ∈ l \/ lanes !! k = Some b' -> b = b').
Proof.
  revert lanes. induction l as [|[k b] l IH]; intros lanes; simpl.
  { split; [|done]. intros _ k b b' Hin. by apply elem_of_nil in Hin. }
  assert (is_ok (claim_lanes l (<[k := b]> lanes)) = true <->
          (forall k' c c', (k', c) ∈ l -> (k', c') ∈ (k, b) :: l \/ (k' <> k /\ lanes !! k' = Some c') -> c = c')) as Hrest.
  { rewrite IH. split; intros Hc k' c c' Hin Ho; apply (Hc k' c c' Hin); clear Hc.
    - destruct Ho as [[[= -> ->]|?]%elem_of_cons|[Hk ?]]; [right; by rewrite lookup_insert_eq | by left|].
      right. by rewrite lookup_insert_ne.
    - destruct Ho as [?|Ho]; [left; by right|]. destruct (decide (k' = k)) as [->|Hk].
      + rewrite lookup_insert_eq in Ho. injection Ho as <-. left. left.
      + rewrite lookup_insert_ne in Ho by done. by right. }
  destruct (lanes !! k) as [prior|] eqn:Hp; [case_decide as Hb|].
  - split; [done|]. intros Hc. destruct Hb. symmetry. apply (Hc k b prior); [left | by right].
  - rewrite Hrest. split.
    + intros Hc k' c c' [[= -> ->]|Hin]%elem_of_cons Ho.
      * destruct Ho as [[[= ->]|Hin]%elem_of_cons|Ho]; [done | symmetry; apply (Hc k c' b Hin); left; left | congruence].
      * destruct Ho as [Ho|Ho]; [apply (Hc k' c c' Hin); by left|].
        destruct (decide (k' = k)) as [->|]; [|apply (Hc k' c c' Hin); by right].
        apply (Hc k c c' Hin). left. assert (c' = b) as -> by congruence. left.
    + intros Hc k' c c' Hin [Ho|[_ Ho]]; apply (Hc k' c c'); auto; by right.
  - rewrite Hrest. split.
    + intros Hc k' c c' [[= -> ->]|Hin]%elem_of_cons Ho.
      * destruct Ho as [[[= ->]|Hin]%elem_of_cons|Ho]; [done | symmetry; apply (Hc k c' b Hin); left; left | congruence].
      * destruct Ho as [Ho|Ho]; [apply (Hc k' c c' Hin); by left|].
        destruct (decide (k' = k)) as [->|]; [congruence | apply (Hc k' c c' Hin); by right].
    + intros Hc k' c c' Hin [Ho|[_ Ho]]; apply (Hc k' c c'); auto; by right.
Qed.

(** Profiles are claimed by principals of one kind. *)
Definition lanes_disjoint (p : Policy) : Prop := forall s s' id id' profile,
  p !! s = Some id -> p !! s' = Some id' -> cap_WorkerPoll ∈ id_capabilities id -> cap_WorkerPoll ∈ id_capabilities id' ->
  profile ∈ id_workerProfiles id -> profile ∈ id_workerProfiles id' ->
  Allows id cap_WorkerPrepare = Allows id' cap_WorkerPrepare.

Lemma claims_of_in id profile b : (profile, b) ∈ claims_of id <->
  cap_WorkerPoll ∈ id_capabilities id /\ profile ∈ id_workerProfiles id /\ b = Allows id cap_WorkerPrepare.
Proof.
  unfold claims_of. rewrite <- Allows_in. destruct (Allows id cap_WorkerPoll).
  - rewrite list_elem_of_fmap. setoid_rewrite elem_of_elements. naive_solver.
  - split; [by intros ?%elem_of_nil | by intros [? _]].
Qed.

Lemma policy_claims (p : Policy) k b : (k, b) ∈ concat (claims_of <$> (map_to_list p).*2) <->
  exists s id, p !! s = Some id /\ (k, b) ∈ claims_of id.
Proof.
  rewrite list_elem_of_In, in_concat. split.
  - intros (x & Hx & Hin). apply list_elem_of_In, list_elem_of_fmap in Hx as (id & -> & Hid).
    apply list_elem_of_fmap in Hid as ([s id'] & -> & Hp%elem_of_map_to_list). exists s, id'.
    split; [done|]. by apply list_elem_of_In.
  - intros (s & id & Hp & Hin). exists (claims_of id). split; [|by apply list_elem_of_In].
    apply list_elem_of_In, list_elem_of_fmap. exists id. split; [done|]. apply list_elem_of_fmap.
    exists (s, id). split; [done|]. by apply elem_of_map_to_list.
Qed.

Lemma lanes_ok (p : Policy) : validateWorkerClaimLanes p = Ok tt <-> lanes_disjoint p.
Proof.
  unfold validateWorkerClaimLanes.
  transitivity (is_ok (claim_lanes (concat (claims_of <$> (map_to_list p).*2)) ∅) = true).
  { destruct (claim_lanes _ _); done. }
  rewrite claim_lanes_ok. unfold lanes_disjoint. split.
  - intros Hc s s' id id' profile Hs Hs' Hp Hp' Hw Hw'. apply (Hc profile); [|left]; apply policy_claims;
      [exists s, id | exists s', id']; by rewrite claims_of_in.
  - intros Hd k b b' Hb [Hb'|Hb']; [|by rewrite lookup_empty in Hb'].
    apply policy_claims in Hb as (s & id & Hs & Hb), Hb' as (s' & id' & Hs' & Hb').
    apply claims_of_in in Hb as (? & ? & ->), Hb' as (? & ? & ->). by apply (Hd s s' id id' k).
Qed.

Lemma add_principals_ok l (p p' : Policy) : add_principals l p = Ok p' ->
  Forall (fun spec => subjectPattern (ps_Subject spec) = true /\ ps_Scope spec = "platform"
                      /\ p !! ps_Subject spec = None) l
  /\ NoDup (ps_Subject <$> l)
  /\ (forall spec, spec ∈ l -> exists id, identity_of spec = Ok id /\ p' !! ps_Subject spec = Some id)
  /\ (forall s id, p' !! s = Some id -> p !! s = Some id \/ exists spec, spec ∈ l /\ ps_Subject spec = s /\ identity_of spec = Ok id)
  /\ (forall s id, p !! s = Some id -> p' !! s = Some id).
Proof.
  revert p. induction l as [|spec l IH]; intros p; simpl.
  { intros [= ->]. split_and!; try constructor; auto. intros spec Hs. by apply elem_of_nil in Hs. }
  case_decide as Hbad; [done|]. destruct (p !! ps_Subject spec) eqn:Hnew; [done|].
  intros (id & Hid & Hp)%bind_ok. apply IH in Hp as (Hf & Hnd & Hall & Hback & Hkeep). clear IH.
  destruct (identity_of_ok _ _ Hid) as [[Hsub _ _ _ _ _] _]. rewrite Hsub in *.
  apply Decidable.not_or in Hbad as [Hpat%not_false_iff_true Hscope%dec_stable].
  rewrite Forall_forall in Hf. split_and!.
  - constructor; [done|]. apply Forall_forall. intros spec' Hin. destruct (Hf spec' Hin) as (? & ? & Hl).
    apply lookup_insert_None in Hl as [? _]. done.
  - constructor; [|done]. intros (spec' & Heq & Hin)%list_elem_of_fmap. destruct (Hf spec' Hin) as (_ & _ & Hl).
    apply lookup_insert_None in Hl as [_ Hl]. congruence.
  - intros spec' [->|Hin]%elem_of_cons; [|auto]. exists id. split; [done|]. apply Hkeep. apply lookup_insert_eq.
  - intros s id' [Hs|(spec' & ? & ? & ?)]%Hback; [|right; exists spec'; split_and!; try done; by right].
    destruct (decide (s = ps_Subject spec)) as [->|Hne].
    + rewrite lookup_insert_eq in Hs. injection Hs as <-. right. exists spec. split_and!; try done. left.
    + rewrite lookup_insert_ne in Hs by done. by left.
  - intros s id' Hs. apply Hkeep. rewrite lookup_insert_ne; [done|]. intros <-. congruence.
Qed.

Lemma New_ok doc (p : Policy) : New doc = Ok p -> add_principals (doc_Principals doc) ∅ = Ok p /\ lanes_disjoint p.
Proof.
  unfold New. case_decide; [done|]. intros (p' & Hp & Hl)%bind_ok.
  by apply bind_ok in Hl as ([] & Hl%lanes_ok & [= <-]).
Qed.

Lemma policy_lanes doc (p : Policy) : New doc = Ok p -> lanes_disjoint p.
Proof. by intros [_ ?]%New_ok. Qed.

Lemma policy_subjects doc (p : Policy) : New doc = Ok p -> NoDup (ps_Subject <$> doc_Principals doc)
  /\ (forall spec, spec ∈ doc_Principals doc -> exists id, p !! ps_Subject spec = Some id /\ grants spec id).
Proof.
  intros [(_ & Hnd & Hall & _)%add_principals_ok _]%New_ok. split; [done|].
  intros spec Hin. destruct (Hall spec Hin) as (id & Hid & Hs). exists id. split; [done|]. by apply identity_of_ok.
Qed.

Lemma policy_entries doc (p : Policy) : New doc = Ok p -> forall s id, p !! s = Some id ->
  id_subject id = s /\ subjectPattern s = true /\ duties_separate id
  /\ exists spec, spec ∈ doc_Principals doc /\ grants spec id.
Proof.
  intros [(Hf & _ & _ & Hback & _)%add_principals_ok _]%New_ok s id Hs. rewrite Forall_forall in Hf.
  apply Hback in Hs as [Hs|(spec & Hin & <- & Hid)]; [by rewrite lookup_empty in Hs|].
  destruct (identity_of_ok spec id Hid) as [Hg Hd]. split; [apply Hg|]. split; [by apply Hf|]. eauto.
Qed.

Lemma authenticate_entry (p : Policy) tls now id : Authenticate (Some p) tls now = Ok id -> exists uri, p !! uri = Some id.
Proof.
  unfold Authenticate. destruct tls as [c|]; [|done]. case_decide; [done|].
  repeat (case_match; try discriminate). intros ?%of_option_ok. eauto.
Qed.

(** ** Properties *)

(** C35: Duties are separate in every policy that loads: a principal holds
    exactly what its one specification lists; a reviewer or a reconciler may
    only read besides; the reserved evidence authorities belong to their
    importers, who do nothing else; actions, evidence and worker profiles go
    with their capabilities; and no worker profile is claimed both for
    admission and for preparation. *)
Theorem policy_separates_duties doc (p : Policy) : New doc = Ok p ->
  NoDup (ps_Subject <$> doc_Principals doc)
  /\ (forall spec, spec ∈ doc_Principals doc -> exists id, p !! ps_Subject spec = Some id /\ grants spec id)
  /\ (forall s id, p !! s = Some id -> id_subject id = s /\ subjectPattern s = true /\ duties_separate id
        /\ exists spec, spec ∈ doc_Principals doc /\ grants spec id)
  /\ lanes_disjoint p.
Proof. intros Hn. split_and!; [by eapply policy_subjects .. | by eapply policy_entries | by eapply policy_lanes]. Qed.

Definition reviewer_spec : PrincipalSpec :=
  mkPrincipalSpec [] "urn:engineering-platform:alice" "platform" ["core:read"; "review:create"] [] "" [].
Definition sample_policy : Policy := match New (mkDocument 1 [reviewer_spec]) with Ok p => p | Err _ => ∅ end.

Lemma policy_separates_duties_witness :
  exists id, sample_policy !! "urn:engineering-platform:alice" = Some id /\ grants reviewer_spec id.
Proof.
  destruct (policy_separates_duties (mkDocument 1 [reviewer_spec]) sample_policy) as (_ & Hall & _);
    [vm_compute; reflexivity|]. apply (Hall reviewer_spec). left.
Defined.

(** Only a direct TLS 1.3 peer is ever an identity: it presented a client
    certificate with one URI, a chain verified for that very certificate is
    valid throughout at this moment, and the identity is the policy's entry for
    the URI; in a loaded policy its subject is that URI. *)
Theorem authenticate_sound (p : Policy) tls now id : Authenticate (Some p) tls now = Ok id ->
  exists c leaf uri chain, tls = Some c /\ tls_HandshakeComplete c = true /\ (VersionTLS13 <= tls_Version c)%N
  /\ (exists rest, tls_PeerCertificates c = Some leaf :: rest) /\ crt_URIs leaf = [Some uri]
  /\ ExtKeyUsageClientAuth ∈ crt_ExtKeyUsage leaf
  /\ chain ∈ tls_VerifiedChains c
  /\ (exists top rest, chain = Some top :: rest /\ crt_Raw top = crt_Raw leaf)
  /\ (forall x, x ∈ chain -> exists cert, x = Some cert /\ (crt_NotBefore cert <= now < crt_NotAfter cert)%Z)
  /\ p !! uri = Some id
  /\ (forall doc, New doc = Ok p -> id_subject id = uri /\ duties_separate id).
Proof.
  unfold Authenticate. destruct tls as [c|]; [|done]. case_decide as Hbad; [done|].
  destruct (tls_PeerCertificates c) as [|[leaf|] rest] eqn:Hpeer; try done.
  destruct (crt_URIs leaf) as [|[uri|] [|]] eqn:Huri; try done.
  destruct (existsb (N.eqb ExtKeyUsageClientAuth) _) eqn:Husage; [|done]. simpl.
  destruct (existsb (chain_valid now leaf) _) eqn:Hchain; [|done]. simpl. intros Hid%of_option_ok.
  apply existsb_exists in Husage as (u & Hu & <-%N.eqb_eq), Hchain as (chain & Hin & Hv).
  exists c, leaf, uri, chain. unfold chain_valid in Hv. destruct chain as [|[top|] l]; try done.
  apply andb_true_iff in Hv as [Hraw%bool_decide_eq_true Hv]. rewrite forallb_forall in Hv.
  assert (tls_HandshakeComplete c = true /\ (VersionTLS13 <= tls_Version c)%N) as [? ?].
  { split; [apply not_false_iff_true; tauto|]. apply N.nlt_ge. tauto. }
  split_and!; try done; try (by apply list_elem_of_In).
  - eauto.
  - eauto.
  - intros x Hx. apply list_elem_of_In, Hv in Hx. destruct x as [cert|]; [|done]. exists cert. split; [done|].
    unfold valid_at in Hx. guards. lia.
  - intros doc Hp. destruct (policy_entries doc p Hp uri id Hid) as (? & _ & ? & _). done.
Qed.

Definition alice : string := "urn:engineering-platform:alice".
Definition alice_certificate : Certificate := mkCertificate "der" [Some alice] [1; 2]%N 0 100.
Definition alice_tls : ConnectionState :=
  mkConnectionState true 772 [Some alice_certificate] [[Some (mkCertificate "der" [] [] 0 50); Some (mkCertificate "ca" [] [] 0 100)]].
Definition alice_identity : Identity := default (mkIdentity ∅ "" ∅ ∅ "" ∅) (sample_policy !! alice).

Lemma authenticate_sound_witness : sample_policy !! alice = Some alice_identity.
Proof.
  destruct (authenticate_sound sample_policy (Some alice_tls) 7 alice_identity) as (c & leaf & uri & chain & Hc & Hf & Hv & Hp & Hu & _ & _ & _ & _ & Hid & _);
    [vm_compute; reflexivity|].
  injection Hc as <-. destruct Hp as (rest & [= <- <-]). injection Hu as <-. exact Hid.
Defined.
