(* ===== verification/Canonical.v ===== *)
(** [internal/canonical]: JSON documents, SHA-256 and digests.

    [canonical.Digest] hashes [encoding/json]'s output.  Both are executable
    here: [jval] is the tree [json.Marshal] walks (struct fields in order,
    [omitempty] resolved by the [toJSON] functions of the component files),
    [marshal] its compact text with Go's string escapes, [Sha256.sum] the
    FIPS 180-4 compression.  The rest of the library only uses the class
    [Hash], so every theorem holds for any function with 64 hex digits. *)
From S2P Require Import Prelude.

(** ** JSON text *)

#[warnings="-register-all"]
Inductive jval :=
| JNull
| JBool (b : bool)
| JNum (n : Z)
| JStr (s : string)
| JArr (l : list jval)
| JObj (fields : list (string * jval)).

Definition hex_digit (n : N) : ascii :=
  Stdlib.Strings.Ascii.ascii_of_N (if (n <? 10)%N then 48 + n else 87 + n)%N.

Definition cont (c : ascii) : bool := in_range 128 191 c.

(** Length in bytes of the well-formed UTF-8 sequence a list of bytes starts
    with ([0] when it starts with none): the table of [unicode/utf8]. *)
Definition utf8_len (l : list ascii) : nat :=
  match l with
  | [] => 0
  | a :: r =>
    if (byte_at a <? 128)%N then 1 else
    match r with
    | [] => 0
    | b :: r2 =>
      if in_range 194 223 a then (if cont b then 2 else 0) else
      match r2 with
      | [] => 0
      | c :: r3 =>
        if in_range 224 239 a then
          let second := if (byte_at a =? 224)%N then in_range 160 191 b
                        else if (byte_at a =? 237)%N then in_range 128 159 b else cont b in
          if second && cont c then 3 else 0
        else match r3 with
        | [] => 0
        | d :: _ =>
          if in_range 240 244 a then
            let second := if (byte_at a =? 240)%N then in_range 144 191 b
                          else if (byte_at a =? 244)%N then in_range 128 143 b else cont b in
            if second && cont c && cont d then 4 else 0
          else 0
        end
      end
    end
  end.

(** [utf8.Valid]: every byte belongs to a well-formed sequence. *)
Fixpoint utf8_valid_fuel (fuel : nat) (l : list ascii) : bool :=
  match l, fuel with
  | [], _ => true
  | _, O => false
  | _, S n => match utf8_len l with O => false | k => utf8_valid_fuel n (drop k l) end
  end.
Definition utf8_valid (s : string) : bool := utf8_valid_fuel (str_len s) (bytes s).

(** The escapes of [encoding/json] for an ASCII byte (HTML-safe mode). *)
Definition escape_ascii (c : ascii) : list ascii :=
  let n := byte_at c in
  let bsl := "\"%char in
  if (n =? 34)%N || (n =? 92)%N then [bsl; c]
  else if (n =? 8)%N then [bsl; "b"%char]
  else if (n =? 12)%N then [bsl; "f"%char]
  else if (n =? 10)%N then [bsl; "n"%char]
  else if (n =? 13)%N then [bsl; "r"%char]
  else if (n =? 9)%N then [bsl; "t"%char]
  else if (n <? 32)%N || (n =? 38)%N || (n =? 60)%N || (n =? 62)%N
  then bytes "\u00" ++ [hex_digit (n / 16); hex_digit (n mod 16)]%N
  else [c].

Fixpoint escape_fuel (fuel : nat) (l : list ascii) : list ascii :=
  match l, fuel with
  | [], _ => []
  | _, O => []
  | c :: r, S n =>
    if (byte_at c <? 128)%N then escape_ascii c ++ escape_fuel n r else
    match utf8_len l with
    | O => bytes "\ufffd" ++ escape_fuel n r
    | k =>
      let seq := take k l in
      (if bool_decide (seq = bytes (bs [226; 128; 168]%N)) then bytes "\u2028"
       else if bool_decide (seq = bytes (bs [226; 128; 169]%N)) then bytes "\u2029" else seq)
      ++ escape_fuel n (drop k l)
    end
  end.

Definition dquote : string := bs [34%N].
Definition quote (s : string) : string :=
  dquote +:+ unbytes (escape_fuel (str_len s) (bytes s)) +:+ dquote.

Fixpoint join (sep : string) (l : list string) : string :=
  match l with
  | [] => ""
  | [x] => x
  | x :: r => x +:+ sep +:+ join sep r
  end.

Fixpoint marshal (v : jval) : string :=
  match v with
  | JNull => "null"
  | JBool b => if b then "true" else "false"
  | JNum n => pretty n
  | JStr s => quote s
  | JArr l => "[" +:+ join "," (List.map marshal l) +:+ "]"
  | JObj fs =>
      "{" +:+ join "," (List.map (fun kv => quote kv.1 +:+ ":" +:+ marshal kv.2) fs) +:+ "}"
  end.

(** Struct fields, with and without [omitempty]. *)
Definition jstr (k : string) (s : string) : list (string * jval) := [(k, JStr s)].
Definition jstr_omit (k : string) (s : string) : list (string * jval) :=
  if decide (s = "") then [] else jstr k s.
Definition jnum (k : string) (n : N) : list (string * jval) := [(k, JNum (Z.of_N n))].
Definition jnum_omit (k : string) (n : N) : list (string * jval) :=
  if decide (n = 0%N) then [] else jnum k n.
Definition jstrs (k : string) (l : list string) : list (string * jval) :=
  [(k, JArr (JStr <$> l))].
Definition jstrs_omit (k : string) (l : list string) : list (string * jval) :=
  if decide (l = []) then [] else jstrs k l.
Definition jobjs (k : string) (l : list jval) : list (string * jval) := [(k, JArr l)].
Definition jobjs_omit (k : string) (l : list jval) : list (string * jval) :=
  if decide (length l = 0) then [] else jobjs k l.

(** [time.Time.MarshalJSON] of a UTC instant: RFC 3339 with trimmed
    nanoseconds.  [civil] is the proleptic Gregorian date of a day number
    counted from 0001-01-01 (years begin in March in the computation). *)
Definition civil (days : Z) : Z * Z * Z :=
  let z := (days + 306)%Z in
  let era := (z / 146097)%Z in
  let doe := (z mod 146097)%Z in
  let yoe := ((doe - doe / 1460 + doe / 36524 - doe / 146096) / 365)%Z in
  let doy := (doe - (365 * yoe + yoe / 4 - yoe / 100))%Z in
  let mp := ((5 * doy + 2) / 153)%Z in
  let d := (doy - (153 * mp + 2) / 5 + 1)%Z in
  let m := (if decide (mp < 10)%Z then mp + 3 else mp - 9)%Z in
  let y := (yoe + era * 400 + (if decide (m <= 2)%Z then 1 else 0))%Z in
  (y, m, d).

Fixpoint digits (width : nat) (n : Z) : list ascii :=
  match width with
  | O => []
  | S w => digits w (n / 10) ++ [hex_digit (Z.to_N (n mod 10))]
  end.

Fixpoint trim_zeros (l : list ascii) : list ascii :=
  match l with
  | [] => []
  | c :: r => match trim_zeros r with [] => if decide (c = "0"%char) then [] else [c] | r' => c :: r' end
  end.

Definition rfc3339nano (t : time) : string :=
  let ns := (t mod 1000000000)%Z in
  let secs := (t / 1000000000)%Z in
  let '(y, m, d) := civil (secs / 86400) in
  let sod := (secs mod 86400)%Z in
  let frac := trim_zeros (digits 9 ns) in
  unbytes (digits 4 y ++ "-"%char :: digits 2 m ++ "-"%char :: digits 2 d ++ "T"%char
           :: digits 2 (sod / 3600) ++ ":"%char :: digits 2 (sod / 60 mod 60) ++ ":"%char :: digits 2 (sod mod 60)
           ++ (match frac with [] => [] | _ => "."%char :: frac end) ++ ["Z"%char]).

Definition jtime (k : string) (t : time) : list (string * jval) := [(k, JStr (rfc3339nano t))].

(** ** SHA-256 *)

Module Sha256.

Definition mask (n : N) : N := N.land n 4294967295.
Definition add32 (a b : N) : N := mask (a + b).
Definition rotr (k x : N) : N := N.lor (N.shiftr x k) (mask (N.shiftl x (32 - k))).
Definition not32 (x : N) : N := N.lxor x 4294967295.

Definition round_constants : list N := [
  1116352408; 1899447441; 3049323471; 3921009573; 961987163; 1508970993; 2453635748; 2870763221;
  3624381080; 310598401; 607225278; 1426881987; 1925078388; 2162078206; 2614888103; 3248222580;
  3835390401; 4022224774; 264347078; 604807628; 770255983; 1249150122; 1555081692; 1996064986;
  2554220882; 2821834349; 2952996808; 3210313671; 3336571891; 3584528711; 113926993; 338241895;
  666307205; 773529912; 1294757372; 1396182291; 1695183700; 1986661051; 2177026350; 2456956037;
  2730485921; 2820302411; 3259730800; 3345764771; 3516065817; 3600352804; 4094571909; 275423344;
  430227734; 506948616; 659060556; 883997877; 958139571; 1322822218; 1537002063; 1747873779;
  1955562222; 2024104815; 2227730452; 2361852424; 2428436474; 2756734187; 3204031479; 3329325298]%N.

Record regs := mkRegs { ra : N; rb : N; rc : N; rd : N; re : N; rf : N; rg : N; rh : N }.

Definition initial : regs :=
  mkRegs 1779033703 3144134277 1013904242 2773480762 1359893119 2600822924 528734635 1541459225.

Definition round (s : regs) (kw : N * N) : regs :=
  let '(mkRegs a b c d e f g h) := s in
  let s1 := N.lxor (rotr 6 e) (N.lxor (rotr 11 e) (rotr 25 e)) in
  let ch := N.lxor (N.land e f) (N.land (not32 e) g) in
  let t1 := mask (h + s1 + ch + kw.1 + kw.2) in
  let s0 := N.lxor (rotr 2 a) (N.lxor (rotr 13 a) (rotr 22 a)) in
  let maj := N.lxor (N.land a b) (N.lxor (N.land a c) (N.land b c)) in
  mkRegs (add32 t1 (add32 s0 maj)) a b c (add32 d t1) e f g.

(** The schedule is kept newest first while it is extended. *)
Definition nth0 (l : list N) (i : nat) : N := default 0%N (l !! i).
Definition extend (w : list N) : list N :=
  let x15 := nth0 w 14 in
  let x2 := nth0 w 1 in
  let s0 := N.lxor (rotr 7 x15) (N.lxor (rotr 18 x15) (N.shiftr x15 3)) in
  let s1 := N.lxor (rotr 17 x2) (N.lxor (rotr 19 x2) (N.shiftr x2 10)) in
  mask (nth0 w 15 + s0 + nth0 w 6 + s1) :: w.

Definition schedule (block : list N) : list N := rev (Nat.iter 48 extend (rev block)).

Definition compress (s : regs) (block : list N) : regs :=
  let r := foldl round s (zip round_constants (schedule block)) in
  mkRegs (add32 (ra s) (ra r)) (add32 (rb s) (rb r)) (add32 (rc s) (rc r)) (add32 (rd s) (rd r))
         (add32 (re s) (re r)) (add32 (rf s) (rf r)) (add32 (rg s) (rg r)) (add32 (rh s) (rh r)).

Fixpoint words (l : list N) : list N :=
  match l with
  | a :: b :: c :: d :: r => (a * 16777216 + b * 65536 + c * 256 + d)%N :: words r
  | _ => []
  end.

Fixpoint blocks (fuel : nat) (l : list N) : list (list N) :=
  match fuel, l with
  | S n, _ :: _ => take 16 l :: blocks n (drop 16 l)
  | _, _ => []
  end.

Definition pad (msg : list N) : list N :=
  let n := N.of_nat (length msg) in
  let zeros := ((119 - n mod 64) mod 64)%N in
  let bits := (8 * n)%N in
  msg ++ [128%N] ++ replicate (N.to_nat zeros) 0%N
      ++ ((fun k => N.land (N.shiftr bits (8 * k)) 255) <$> [7; 6; 5; 4; 3; 2; 1; 0]%N).

Definition word_hex (n : N) : list ascii :=
  (fun k => hex_digit (N.land (N.shiftr n (4 * k)) 15)) <$> [7; 6; 5; 4; 3; 2; 1; 0]%N.

Definition sum (s : string) : string :=
  let ws := words (pad (byte_at <$> bytes s)) in
  let r := foldl compress initial (blocks (length ws) ws) in
  unbytes (word_hex (ra r) ++ word_hex (rb r) ++ word_hex (rc r) ++ word_hex (rd r)
           ++ word_hex (re r) ++ word_hex (rf r) ++ word_hex (rg r) ++ word_hex (rh r)).

End Sha256.

(** ** Digests *)

(** [hex.EncodeToString(sha256.Sum256(data))], as the packages rely on it. *)
Class Hash := {
  sha256_hex : string -> string;
  sha256_hex_length : forall s, str_len (sha256_hex s) = 64;
  sha256_hex_chars : forall s, str_forall is_lower_hex (sha256_hex s) = true
}.

(** [canonical.BytesDigest]. *)
Definition BytesDigest `{Hash} (data : string) : string := "sha256:" +:+ sha256_hex data.

(** [canonical.ValidDigest]: the regular expression [^sha256:[0-9a-f]{64}$]. *)
Definition ValidDigest (value : string) : bool :=
  str_prefix "sha256:" value && (str_len value =? 71)%nat
  && str_forall is_lower_hex (str_drop 7 value).

(** [canonical.Digest].  [json.Marshal] has no failing case on the strings,
    integers, booleans and structs the packages pass. *)
Definition Digest `{Hash} (v : jval) : outcome string := Ok ("sha256:" +:+ sha256_hex (marshal v)).

(** ** Facts *)

Lemma bytes_app a b : bytes (a +:+ b) = bytes a ++ bytes b.
Proof. induction a as [|c a IH]; [done|]. unfold bytes in *. simpl in *. by f_equal. Qed.

Lemma bytes_unbytes l : bytes (unbytes l) = l.
Proof. apply Stdlib.Strings.String.list_ascii_of_string_of_list_ascii. Qed.

Lemma bytes_length s : length (bytes s) = str_len s.
Proof. induction s as [|c s IH]; [done|]. unfold bytes in *. simpl. by rewrite IH. Qed.

Lemma str_len_app a b : str_len (a +:+ b) = str_len a + str_len b.
Proof. rewrite <- !bytes_length, bytes_app, length_app. done. Qed.

Lemma hex_digit_lower n : (n < 16)%N -> is_lower_hex (hex_digit n) = true.
Proof.
  intros Hn. assert (forallb (fun k => is_lower_hex (hex_digit (N.of_nat k))) (seq 0 16) = true) as Hall by reflexivity.
  rewrite forallb_forall in Hall. rewrite <- (N2Nat.id n). apply Hall, in_seq. lia.
Qed.

Lemma word_hex_shape n : length (Sha256.word_hex n) = 8 /\ forallb is_lower_hex (Sha256.word_hex n) = true.
Proof.
  split; [reflexivity|]. unfold Sha256.word_hex. apply forallb_forall.
  intros c Hc. apply list_elem_of_In, list_elem_of_fmap in Hc as (k & -> & _).
  apply hex_digit_lower. change 15%N with (N.ones 4). rewrite N.land_ones. by apply N.mod_lt.
Qed.

#[export] Program Instance sha256_instance : Hash := {| sha256_hex := Sha256.sum |}.
Next Obligation.
  intros s. unfold Sha256.sum. rewrite <- bytes_length, bytes_unbytes, !length_app.
  by rewrite !(proj1 (word_hex_shape _)).
Qed.
Next Obligation.
  intros s. unfold Sha256.sum, str_forall. rewrite bytes_unbytes, !forallb_app.
  by rewrite !(proj2 (word_hex_shape _)).
Qed.

Example sha256_abc :
  Sha256.sum "abc" = "ba7816bf8f01cfea414140de5dae2223b00361a396177a9cb410ff61f20015ad".
Proof. vm_compute. reflexivity. Qed.

Lemma ValidDigest_prefixed h :
  str_len h = 64 -> str_forall is_lower_hex h = true -> ValidDigest ("sha256:" +:+ h) = true.
Proof.
  intros Hl Hc. unfold ValidDigest. rewrite str_len_app, Hl.
  change (str_drop 7 ("sha256:" +:+ h)) with h. rewrite Hc.
  destruct h; reflexivity.
Qed.

Example rfc3339nano_zero : rfc3339nano 0 = "0001-01-01T00:00:00Z".
Proof. vm_compute. reflexivity. Qed.

Example rfc3339nano_leap :
  rfc3339nano ((63844761600 + 3661) * 1000000000 + 250000000)%Z = "2024-02-29T01:01:01.25Z".
Proof. vm_compute. reflexivity. Qed.

Lemma BytesDigest_ValidDigest `{Hash} data : ValidDigest (BytesDigest data) = true.
Proof. apply ValidDigest_prefixed; [apply sha256_hex_length | apply sha256_hex_chars]. Qed.

Lemma Digest_ok `{Hash} v : exists d, Digest v = Ok d /\ ValidDigest d = true.
Proof.
  eexists. split; [reflexivity|].
  apply ValidDigest_prefixed; [apply sha256_hex_length | apply sha256_hex_chars].
Qed.

Lemma ValidDigest_nonempty d : ValidDigest d = true -> d <> "".
Proof. by intros H ->. Qed.

Lemma Digest_hash `{Hash} v v' : Digest v = Digest v' -> sha256_hex (marshal v) = sha256_hex (marshal v').
Proof. unfold Digest. simpl. by intros [=]. Qed.

Lemma BytesDigest_hash `{Hash} a b : BytesDigest a = BytesDigest b -> sha256_hex a = sha256_hex b.
Proof. unfold BytesDigest. simpl. by intros [=]. Qed.

#[global] Opaque Digest BytesDigest.
