(* ===== verification/Json.v ===== *)
(** [encoding/json]'s streaming decoder, as the packages use it: the scalar
    lexers, [Decoder.Token] with its token state, [Decoder.More], and a reader
    of whole documents made of them.  The decoder accepts everything
    [Canonical.marshal] prints, token by token, so a document is determined by
    its text, and its digest determines it up to a collision of the hash. *)
From S2P Require Import Prelude Canonical.

(** ** Scalars *)

Definition ch_quote : ascii := "034"%char.
Definition ch_backslash : ascii := "\"%char.

Definition is_space (c : ascii) : bool := one_of (bs [32; 9; 10; 13]%N) c.

Fixpoint skip_space (l : list ascii) : list ascii :=
  match l with
  | c :: r => if is_space c then skip_space r else l
  | [] => []
  end.

Definition hex_value (c : ascii) : N :=
  if is_digit c then byte_at c - 48 else if is_lower c then byte_at c - 87 else byte_at c - 55.

(** The four digits after [\u] ([getu4]). *)
Definition hex4 (l : list ascii) : option (N * list ascii) :=
  match l with
  | a :: b :: c :: d :: r =>
    if is_hex a && is_hex b && is_hex c && is_hex d
    then Some (hex_value a * 4096 + hex_value b * 256 + hex_value c * 16 + hex_value d, r)%N
    else None
  | _ => None
  end.

(** [utf8.EncodeRune]; a surrogate half becomes U+FFFD. *)
Definition encode_rune (u : N) : list ascii :=
  let byte n := Stdlib.Strings.Ascii.ascii_of_N n in
  let tail k := byte (128 + N.land (N.shiftr u k) 63)%N in
  if (u <? 128)%N then [byte u]
  else if (u <? 2048)%N then [byte (192 + N.shiftr u 6)%N; tail 0%N]
  else if ((55296 <=? u)%N && (u <? 57344)%N) || (1114111 <? u)%N then bytes (bs [239; 191; 189]%N)
  else if (u <? 65536)%N then [byte (224 + N.shiftr u 12)%N; tail 6%N; tail 0%N]
  else [byte (240 + N.shiftr u 18)%N; tail 12%N; tail 6%N; tail 0%N].

(** [\uXXXX], and the second half of a surrogate pair when there is one. *)
Definition lex_unicode (l : list ascii) : option (list ascii * list ascii) :=
  match hex4 l with
  | None => None
  | Some (u, r) =>
    if (55296 <=? u)%N && (u <? 56320)%N then
      match r with
      | b :: e :: r' =>
        match (if bool_decide (b = ch_backslash) && bool_decide (e = "u"%char) then hex4 r' else None) with
        | Some (v, r'') =>
          if (56320 <=? v)%N && (v <? 57344)%N
          then Some (encode_rune (65536 + N.shiftl (u - 55296) 10 + (v - 56320)), r'')
          else Some (encode_rune u, r)
        | None => Some (encode_rune u, r)
        end
      | _ => Some (encode_rune u, r)
      end
    else Some (encode_rune u, r)
  end.

Definition escape_char (c : ascii) : option ascii :=
  if bool_decide (c = ch_quote) || bool_decide (c = ch_backslash) || bool_decide (c = "/"%char) then Some c
  else if bool_decide (c = "b"%char) then Some "008"%char
  else if bool_decide (c = "f"%char) then Some "012"%char
  else if bool_decide (c = "n"%char) then Some "010"%char
  else if bool_decide (c = "r"%char) then Some "013"%char
  else if bool_decide (c = "t"%char) then Some "009"%char
  else None.

Definition before (p : list ascii) (o : option (list ascii * list ascii)) : option (list ascii * list ascii) :=
  (fun x => (p ++ x.1, x.2)) <$> o.

(** The rest of a string literal after its opening quote: its value and what follows it. *)
Fixpoint lex_string (fuel : nat) (l : list ascii) : option (list ascii * list ascii) :=
  match fuel, l with
  | S n, c :: r =>
    if bool_decide (c = ch_quote) then Some ([], r)
    else if bool_decide (c = ch_backslash) then
      match r with
      | e :: r' =>
        match escape_char e with
        | Some v => before [v] (lex_string n r')
        | None =>
          if bool_decide (e = "u"%char) then
            match lex_unicode r' with
            | Some (v, r'') => before v (lex_string n r'')
            | None => None
            end
          else None
        end
      | [] => None
      end
    else if (byte_at c <? 32)%N then None
    else if (byte_at c <? 128)%N then before [c] (lex_string n r)
    else match utf8_len l with
         | O => before (bytes (bs [239; 191; 189]%N)) (lex_string n r)
         | k => before (take k l) (lex_string n (drop k l))
         end
  | _, _ => None
  end.

(** The longest run of digits. *)
Fixpoint take_digits (l : list ascii) : list ascii * list ascii :=
  match l with
  | c :: r => if is_digit c then let '(d, t) := take_digits r in (c :: d, t) else ([], l)
  | [] => ([], [])
  end.

Definition digits1 (l : list ascii) : option (list ascii * list ascii) :=
  match take_digits l with
  | ([], _) => None
  | p => Some p
  end.

Definition lex_exponent (l : list ascii) : option (list ascii * list ascii) :=
  match l with
  | c :: r =>
    if one_of "eE" c then
      match r with
      | s :: r' => if one_of "+-" s then before [c; s] (digits1 r') else before [c] (digits1 r)
      | [] => None
      end
    else Some ([], l)
  | [] => Some ([], [])
  end.

Definition lex_fraction (l : list ascii) : option (list ascii * list ascii) :=
  match l with
  | c :: r =>
    if bool_decide (c = "."%char) then
      match digits1 r with
      | Some (d, t) => before (c :: d) (lex_exponent t)
      | None => None
      end
    else lex_exponent l
  | [] => lex_exponent l
  end.

Definition lex_integer (l : list ascii) : option (list ascii * list ascii) :=
  match l with
  | c :: r =>
    if bool_decide (c = "0"%char) then before [c] (lex_fraction r)
    else match digits1 l with
         | Some (d, t) => before d (lex_fraction t)
         | None => None
         end
  | [] => None
  end.

Definition lex_number (l : list ascii) : option (list ascii * list ascii) :=
  match l with
  | c :: r => if bool_decide (c = "-"%char) then before [c] (lex_integer r) else lex_integer l
  | [] => None
  end.

(** ** Tokens *)

Inductive token :=
| TDelim (c : ascii)
| TStr (s : string)
| TNum (text : string)      (* [json.Number] *)
| TBool (b : bool)
| TNull.
#[export] Instance token_eq_dec : EqDecision token.
Proof. solve_decision. Defined.

Inductive tokstate :=
| TopValue | ArrayStart | ArrayValue | ArrayComma
| ObjectStart | ObjectKey | ObjectColon | ObjectValue | ObjectComma.
#[export] Instance tokstate_eq_dec : EqDecision tokstate.
Proof. solve_decision. Defined.

Record decoder := mkDecoder {
  d_rest : list ascii;         (* the bytes from [scanp] on *)
  d_state : tokstate;
  d_stack : list tokstate
}.

(** [json.NewDecoder(bytes.NewReader(data))] with [UseNumber]. *)
Definition NewDecoder (data : string) : decoder := mkDecoder (bytes data) TopValue [].

Definition io_EOF : goerr := ESentinel "io.EOF" "EOF".
Definition json_SyntaxError : goerr := ESentinel "json.SyntaxError" "invalid character".

Definition tokenValueAllowed (s : tokstate) : bool :=
  match s with TopValue | ArrayStart | ArrayValue | ObjectValue => true | _ => false end.
Definition tokenValueEnd (s : tokstate) : tokstate :=
  match s with
  | ArrayStart | ArrayValue => ArrayComma
  | ObjectValue => ObjectComma
  | _ => s
  end.

Definition scalar_literal (l : list ascii) : option (token * list ascii) :=
  if bool_decide (take 4 l = bytes "true") then Some (TBool true, drop 4 l)
  else if bool_decide (take 5 l = bytes "false") then Some (TBool false, drop 5 l)
  else if bool_decide (take 4 l = bytes "null") then Some (TNull, drop 4 l)
  else None.

(** [Decode] of one scalar value. *)
Definition lex_scalar (l : list ascii) : option (token * list ascii) :=
  match l with
  | [] => None
  | c :: r =>
    if bool_decide (c = ch_quote)
    then (fun p => (TStr (unbytes p.1), p.2)) <$> lex_string (S (length r)) r
    else if is_digit c || bool_decide (c = "-"%char)
    then (fun p => (TNum (unbytes p.1), p.2)) <$> lex_number l
    else scalar_literal l
  end.

Definition open_delim (c : ascii) (start : tokstate) (r : list ascii) (d : decoder) : outcome (token * decoder) :=
  if tokenValueAllowed (d_state d)
  then Ok (TDelim c, mkDecoder r start (d_state d :: d_stack d))
  else Err json_SyntaxError.

Definition close_delim (c : ascii) (s1 s2 : tokstate) (r : list ascii) (d : decoder) : outcome (token * decoder) :=
  if bool_decide (d_state d = s1) || bool_decide (d_state d = s2)
  then match d_stack d with
       | s :: stack => Ok (TDelim c, mkDecoder r (tokenValueEnd s) stack)
       | [] => Err json_SyntaxError
       end
  else Err json_SyntaxError.

(** The cases of [Token]'s switch. *)
Inductive lexeme := LOpenArray | LCloseArray | LOpenObject | LCloseObject | LColon | LComma | LQuote | LOther.
Definition lexeme_of (c : ascii) : lexeme :=
  if bool_decide (c = "["%char) then LOpenArray
  else if bool_decide (c = "]"%char) then LCloseArray
  else if bool_decide (c = "{"%char) then LOpenObject
  else if bool_decide (c = "}"%char) then LCloseObject
  else if bool_decide (c = ":"%char) then LColon
  else if bool_decide (c = ","%char) then LComma
  else if bool_decide (c = ch_quote) then LQuote
  else LOther.

Definition take_scalar (after : tokstate) (d : decoder) : outcome (token * decoder) :=
  match lex_scalar (skip_space (d_rest d)) with
  | Some (t, r) => Ok (t, mkDecoder r after (d_stack d))
  | None => Err json_SyntaxError
  end.

Definition take_value (d : decoder) : outcome (token * decoder) :=
  if tokenValueAllowed (d_state d) then take_scalar (tokenValueEnd (d_state d)) d else Err json_SyntaxError.

(** What a separator turns the state into. *)
Definition after_separator (x : lexeme) (s : tokstate) : option tokstate :=
  match x, s with
  | LColon, ObjectColon => Some ObjectValue
  | LComma, ArrayComma => Some ArrayValue
  | LComma, ObjectComma => Some ObjectKey
  | _, _ => None
  end.

(** The token that starts at the next byte, separators aside. *)
Definition token_here (d : decoder) : outcome (token * decoder) :=
  match skip_space (d_rest d) with
  | [] => Err io_EOF
  | c :: r =>
    match lexeme_of c with
    | LOpenArray => open_delim c ArrayStart r d
    | LCloseArray => close_delim c ArrayStart ArrayComma r d
    | LOpenObject => open_delim c ObjectStart r d
    | LCloseObject => close_delim c ObjectStart ObjectComma r d
    | LColon | LComma => Err json_SyntaxError
    | LQuote =>
      if bool_decide (d_state d = ObjectStart) || bool_decide (d_state d = ObjectKey)
      then take_scalar ObjectColon d else take_value d
    | LOther => take_value d
    end
  end.

(** [Decoder.Token].  Its loop skips at most one separator: after one, the
    state accepts neither a comma nor a colon. *)
Definition Token (d : decoder) : outcome (token * decoder) :=
  match skip_space (d_rest d) with
  | c :: r =>
    match after_separator (lexeme_of c) (d_state d) with
    | Some s => token_here (mkDecoder r s (d_stack d))
    | None => token_here d
    end
  | [] => Err io_EOF
  end.

(** [Decoder.More]. *)
Definition More (d : decoder) : bool :=
  match skip_space (d_rest d) with
  | [] => false
  | c :: _ => negb (bool_decide (c = "]"%char)) && negb (bool_decide (c = "}"%char))
  end.

(** ** Documents *)

(** Decimal text, as [strconv] prints integers. *)
Definition digits_value (l : list ascii) : N := foldl (fun a c => 10 * a + (byte_at c - 48))%N 0%N l.
Definition integer_value (s : string) : Z :=
  match bytes s with
  | c :: r => if bool_decide (c = "-"%char) then (- Z.of_N (digits_value r))%Z else Z.of_N (digits_value (c :: r))
  | [] => 0
  end.

(** A whole value, read token by token in the way [strictjson] walks it. *)
Fixpoint read_value (fuel : nat) (d : decoder) : outcome (jval * decoder) :=
  match fuel with
  | O => Err json_SyntaxError
  | S n =>
    '(t, d) ← Token d;
    match t with
    | TNull => Ok (JNull, d)
    | TBool b => Ok (JBool b, d)
    | TNum s => Ok (JNum (integer_value s), d)
    | TStr s => Ok (JStr s, d)
    | TDelim c =>
      if bool_decide (c = "["%char) then '(l, d) ← read_items n d; Ok (JArr l, d)
      else if bool_decide (c = "{"%char) then '(l, d) ← read_members n d; Ok (JObj l, d)
      else Err json_SyntaxError
    end
  end
with read_items (fuel : nat) (d : decoder) : outcome (list jval * decoder) :=
  match fuel with
  | O => Err json_SyntaxError
  | S n =>
    if More d then '(v, d) ← read_value n d; '(l, d) ← read_items n d; Ok (v :: l, d)
    else '(t, d) ← Token d; if bool_decide (t = TDelim "]"%char) then Ok ([], d) else Err json_SyntaxError
  end
with read_members (fuel : nat) (d : decoder) : outcome (list (string * jval) * decoder) :=
  match fuel with
  | O => Err json_SyntaxError
  | S n =>
    if More d then
      '(t, d) ← Token d;
      match t with
      | TStr k => '(v, d) ← read_value n d; '(l, d) ← read_members n d; Ok ((k, v) :: l, d)
      | _ => Err json_SyntaxError
      end
    else '(t, d) ← Token d; if bool_decide (t = TDelim "}"%char) then Ok ([], d) else Err json_SyntaxError
  end.

(** A document: one value and nothing after it. *)
Definition read_document (data : string) : outcome jval :=
  '(v, d) ← read_value (S (2 * str_len data)) (NewDecoder data);
  match Token d with
  | Err x => if bool_decide (x = io_EOF) then Ok v else Err x
  | Ok _ => Err json_SyntaxError
  end.

(** Documents whose strings are UTF-8: the ones [json.Marshal] does not repair. *)
Fixpoint well_encoded (v : jval) : bool :=
  match v with
  | JStr s => utf8_valid s
  | JArr l => forallb well_encoded l
  | JObj l => forallb (fun kv => utf8_valid kv.1 && well_encoded kv.2) l
  | _ => true
  end.

Section jval_induction.
Context (P : jval -> Prop) (Hnull : P JNull) (Hbool : forall b, P (JBool b)) (Hnum : forall n, P (JNum n))
  (Hstr : forall s, P (JStr s)) (Harr : forall l, Forall P l -> P (JArr l))
  (Hobj : forall l, Forall (fun kv => P kv.2) l -> P (JObj l)).
Fixpoint jval_nested_ind (v : jval) : P v :=
  match v with
  | JNull => Hnull
  | JBool b => Hbool b
  | JNum n => Hnum n
  | JStr s => Hstr s
  | JArr l => Harr l ((fix go l : Forall P l :=
      match l with [] => List.Forall_nil P | x :: r => @List.Forall_cons _ P x r (jval_nested_ind x) (go r) end) l)
  | JObj l => Hobj l ((fix go l : Forall (fun kv => P kv.2) l :=
      match l with [] => List.Forall_nil _ | x :: r => @List.Forall_cons _ (fun kv => P kv.2) x r (jval_nested_ind x.2) (go r) end) l)
  end.
End jval_induction.

(** ** Strings come back *)

Ltac utf8_cases :=
  unfold utf8_len in *;
  repeat match goal with
  | H : S _ = S _ |- _ => injection H; clear H; intros; subst
  | H : context [match ?l with [] => _ | _ :: _ => _ end] |- _ => destruct l; try discriminate
  | H : context [if ?b then _ else _] |- _ => destruct b eqn:?; try discriminate
  end.

Lemma utf8_len_prefix l k t : utf8_len l = S k -> utf8_len (take (S k) l ++ t) = S k /\ length (take (S k) l) = S k.
Proof.
  intros Hl. destruct l as [|a l]; [discriminate|].
  utf8_cases; simpl; repeat match goal with E : _ = _ |- _ => rewrite E end; auto.
Qed.

Lemma lex_escape_ascii n c t : (byte_at c <? 128)%N = true ->
  lex_string (S n) (escape_ascii c ++ t) = before [c] (lex_string n t).
Proof. destruct c as [[] [] [] [] [] [] [] []]; intros Hc; first [discriminate Hc | reflexivity]. Qed.

Lemma lex_high n c l k : utf8_len (c :: l) = k -> (byte_at c <? 128)%N = false ->
  lex_string (S n) (c :: l) =
  match k with
  | O => before (bytes (bs [239; 191; 189]%N)) (lex_string n l)
  | k => before (take k (c :: l)) (lex_string n (drop k (c :: l)))
  end.
Proof.
  intros <- Hc. cbn [lex_string]. rewrite bool_decide_false by (intros ->; discriminate Hc).
  rewrite bool_decide_false by (intros ->; discriminate Hc).
  replace (byte_at c <? 32)%N with false by (symmetry; apply N.ltb_ge in Hc; apply N.ltb_ge; lia).
  rewrite Hc. by destruct (utf8_len (c :: l)).
Qed.

Lemma before_some p a r o : o = Some (a, r) -> before p o = Some (p ++ a, r).
Proof. by intros ->. Qed.

Lemma escape_ascii_nonempty c : (1 <= length (escape_ascii c))%nat.
Proof. unfold escape_ascii. repeat case_match; simpl; lia. Qed.

Lemma lex_string_escape f l n r : (length (escape_fuel f l) < n)%nat -> utf8_valid_fuel f l = true ->
  lex_string n (escape_fuel f l ++ ch_quote :: r) = Some (l, r).
Proof.
  revert l n. induction f as [|f IH]; intros l n Hn Hv; destruct l as [|c l]; try discriminate;
    (destruct n as [|n]; [lia|]); [done..|]. cbn [escape_fuel utf8_valid_fuel] in *.
  destruct (byte_at c <? 128)%N eqn:Hc.
  - rewrite length_app in Hn. pose proof (escape_ascii_nonempty c).
    rewrite <- app_assoc, lex_escape_ascii by done. apply (before_some [c]).
    assert (utf8_len (c :: l) = 1) as H1 by (unfold utf8_len; by rewrite Hc).
    rewrite H1 in Hv. apply IH; [lia | exact Hv].
  - destruct (utf8_len (c :: l)) as [|k] eqn:Hk; [discriminate|].
    set (rest := escape_fuel f (drop (S k) (c :: l))) in *.
    assert ((length rest < n)%nat -> before (take (S k) (c :: l)) (lex_string n (rest ++ ch_quote :: r))
            = Some (c :: l, r)) as Hrest.
    { intros Hlen. rewrite <- (take_drop (S k) (c :: l)) at 2. by apply before_some, IH. }
    destruct (utf8_len_prefix _ _ (rest ++ ch_quote :: r) Hk) as [Hp Hlen].
    rewrite <- app_assoc. repeat case_bool_decide; rewrite length_app in Hn;
      try (match goal with E : take _ _ = bytes _ |- _ => rewrite E in Hrest end; apply Hrest; simpl in Hn; lia).
    rewrite Hlen in Hn. specialize (Hrest ltac:(lia)).
    change (take (S k) (c :: l)) with (c :: take k l) in Hp, Hlen, Hrest |- *. cbn [app] in Hp |- *.
    rewrite (lex_high _ _ _ _ Hp Hc), app_comm_cons, take_app_length', drop_app_length' by done. exact Hrest.
Qed.

Lemma lex_scalar_quote s r : utf8_valid s = true -> lex_scalar (bytes (quote s) ++ r) = Some (TStr s, r).
Proof.
  intros Hv. unfold quote. rewrite !bytes_app, bytes_unbytes, <- !app_assoc. change (bytes dquote) with [ch_quote].
  unfold lex_scalar. cbn [app]. rewrite bool_decide_true by done.
  rewrite (lex_string_escape (str_len s) (bytes s)); [| |exact Hv].
  - simpl. unfold unbytes, bytes. by rewrite Stdlib.Strings.String.string_of_list_ascii_of_string.
  - rewrite length_app. lia.
Qed.

(** ** Numbers come back *)

(** What follows a value in a document. *)
Definition stops (l : list ascii) : Prop :=
  match l with [] => True | c :: _ => c = ","%char \/ c = "]"%char \/ c = "}"%char \/ c = "010"%char end.

Ltac stop_cases H :=
  match type of H with stops ?r => destruct r as [|? ?]; [|simpl in H; destruct_or! H; subst] end.

Lemma take_digits_app ds r : forallb is_digit ds = true -> stops r -> take_digits (ds ++ r) = (ds, r).
Proof.
  intros Hd Hr. induction ds as [|c ds IH]; simpl in *.
  - by stop_cases Hr.
  - apply andb_true_iff in Hd as [-> Hd]. by rewrite IH.
Qed.

Lemma lex_fraction_stops r : stops r -> lex_fraction r = Some ([], r).
Proof. intros Hr. by stop_cases Hr. Qed.

Lemma pretty_N_char_digit x : (x < 10)%N ->
  is_digit (pretty_N_char x) = true /\ byte_at (pretty_N_char x) = (48 + x)%N.
Proof.
  intros Hx.
  assert (forallb (fun k => is_digit (pretty_N_char (N.of_nat k)) &&
                    (byte_at (pretty_N_char (N.of_nat k)) =? 48 + N.of_nat k)%N) (seq 0 10) = true) as Hall by reflexivity.
  rewrite forallb_forall in Hall. specialize (Hall (N.to_nat x)). rewrite N2Nat.id in Hall.
  apply andb_true_iff in Hall as [? ?%N.eqb_eq]; [done|]. apply in_seq. lia.
Qed.

Lemma digits_value_snoc ds c : digits_value (ds ++ [c]) = (10 * digits_value ds + (byte_at c - 48))%N.
Proof. unfold digits_value. by rewrite foldl_app. Qed.

Lemma pretty_N_go_digits x s : (0 < x)%N -> exists c ds,
  bytes (pretty_N_go x s) = (c :: ds) ++ bytes s /\ forallb is_digit (c :: ds) = true
  /\ c <> "0"%char /\ digits_value (c :: ds) = x.
Proof.
  revert s. induction (N.lt_wf_0 x) as [x _ IH]. intros s Hx. rewrite pretty_N_go_step by done.
  destruct (pretty_N_char_digit (x mod 10)) as [Hd Hb]; [by apply N.mod_lt|].
  assert (10 * (x / 10) + x mod 10 = x)%N as Hx10 by (symmetry; by apply N.div_mod).
  destruct (decide (x / 10 = 0)%N) as [H0|H0].
  - rewrite H0, pretty_N_go_0. exists (pretty_N_char (x mod 10)), []. split; [done|]. split; [simpl; by rewrite Hd|].
    unfold digits_value. simpl foldl. rewrite Hb. split; [|lia].
    intros He. rewrite He in Hb. change (byte_at "0"%char) with 48%N in Hb. lia.
  - destruct (IH (x / 10)%N) with (s := String (pretty_N_char (x mod 10)) s) as (c & ds & Hs & Hf & Hc & Hv).
    { apply N.div_lt; lia. }
    { by apply N.neq_0_lt_0. }
    exists c, (ds ++ [pretty_N_char (x mod 10)]).
    rewrite Hs, app_comm_cons, <- app_assoc. split; [done|]. rewrite forallb_app, Hf. simpl.
    rewrite Hd. split; [done|]. split; [done|].
    change (c :: ds ++ [pretty_N_char (x mod 10)]) with ((c :: ds) ++ [pretty_N_char (x mod 10)]).
    rewrite digits_value_snoc, Hv, Hb, (N.add_comm 48), N.add_sub. exact Hx10.
Qed.

Lemma lex_integer_N (x : N) r : stops r ->
  lex_integer (bytes (pretty x) ++ r) = Some (bytes (pretty x), r) /\ digits_value (bytes (pretty x)) = x.
Proof.
  intros Hr. unfold pretty, pretty_N. case_decide as Hx; [subst; split; [|done]|].
  - change (bytes "0") with ["0"%char]. cbn [app lex_integer]. rewrite bool_decide_true by done.
    by rewrite lex_fraction_stops.
  - destruct (pretty_N_go_digits x "") as (c & ds & Hs & Hf & Hc & Hv); [lia|].
    rewrite app_nil_r in Hs. rewrite Hs. split; [|done]. cbn [app lex_integer].
    rewrite bool_decide_false by done. unfold digits1.
    rewrite app_comm_cons, take_digits_app by done.
    erewrite before_some by (by apply lex_fraction_stops). by rewrite app_nil_r.
Qed.

Lemma lex_scalar_digit c l : is_digit c = true \/ c = "-"%char ->
  lex_scalar (c :: l) = (fun p => (TNum (unbytes p.1), p.2)) <$> lex_number (c :: l).
Proof.
  intros Hc. unfold lex_scalar. rewrite bool_decide_false by (intros ->; by destruct Hc).
  destruct Hc as [-> | ->]; done.
Qed.

Lemma pretty_N_head (x : N) : exists c ds, bytes (pretty x) = c :: ds /\ is_digit c = true.
Proof.
  unfold pretty, pretty_N. case_decide; [by eexists _, _|].
  destruct (pretty_N_go_digits x "") as (c & ds & Hs & [Hc _]%andb_true_iff & _); [lia|].
  exists c, (ds ++ []). done.
Qed.
Lemma digit_not_minus c : is_digit c = true -> c <> "-"%char.
Proof. by intros Hc ->. Qed.

Lemma lex_scalar_number (n : Z) r : stops r ->
  lex_scalar (bytes (pretty n) ++ r) = Some (TNum (pretty n), r) /\ integer_value (pretty n) = n.
Proof.
  intros Hr.
  assert (forall x : N, lex_scalar (bytes (pretty x) ++ r) = Some (TNum (pretty x), r)
                    /\ integer_value (pretty x) = Z.of_N x) as HN.
  { intros x. destruct (lex_integer_N x r Hr) as [Hl Hv]. destruct (pretty_N_head x) as (c & ds & Hs & Hc).
    split.
    - rewrite Hs in Hl |- *. cbn [app] in Hl |- *. rewrite lex_scalar_digit by auto.
      unfold lex_number. rewrite bool_decide_false by (by apply digit_not_minus). rewrite Hl. simpl.
      change (String c (unbytes ds)) with (unbytes (c :: ds)). rewrite <- Hs.
      unfold unbytes, bytes. by rewrite Stdlib.Strings.String.string_of_list_ascii_of_string.
    - unfold integer_value. rewrite Hs, bool_decide_false by (by apply digit_not_minus). by rewrite <- Hs, Hv. }
  destruct n as [|p|p]; [apply (HN 0%N) | apply (HN (N.pos p))|].
  destruct (lex_integer_N (N.pos p) r Hr) as [Hl Hv].
  change (pretty (Z.neg p)) with ("-" +:+ pretty (N.pos p)).
  rewrite bytes_app. change (bytes "-") with ["-"%char]. cbn [app]. split.
  - rewrite lex_scalar_digit by auto. unfold lex_number. rewrite bool_decide_true, Hl by done. simpl.
    unfold unbytes, bytes. by rewrite Stdlib.Strings.String.string_of_list_ascii_of_string.
  - unfold integer_value. rewrite bytes_app. change (bytes "-") with ["-"%char]. cbn [app].
    by rewrite bool_decide_true, Hv by done.
Qed.

(** ** Documents come back *)

(** The first byte of a value: not a space, a separator or a closing bracket. *)
Definition opens (c : ascii) : bool :=
  negb (is_space c) &&
  match lexeme_of c with LColon | LComma | LCloseArray | LCloseObject => false | _ => true end.

Lemma opens_no_space c l : opens c = true -> skip_space (c :: l) = c :: l.
Proof. intros [Hs _]%andb_true_iff. simpl. by apply negb_true_iff in Hs as ->. Qed.

Lemma opens_More c l st stk : opens c = true -> More (mkDecoder (c :: l) st stk) = true.
Proof.
  intros Hc. unfold More. simpl d_rest. rewrite opens_no_space by done.
  apply andb_true_iff in Hc as [_ Hc]. unfold lexeme_of in Hc.
  rewrite !bool_decide_false by (by intros ->). done.
Qed.

Lemma Token_opens c l st stk : opens c = true ->
  Token (mkDecoder (c :: l) st stk) = token_here (mkDecoder (c :: l) st stk).
Proof.
  intros Hc. unfold Token. simpl d_rest. rewrite opens_no_space by done.
  apply andb_true_iff in Hc as [_ Hc]. simpl d_state.
  destruct (lexeme_of c); try discriminate; done.
Qed.

Lemma Token_separator s st st' c l stk : is_space s = false -> after_separator (lexeme_of s) st = Some st' ->
  opens c = true -> Token (mkDecoder (s :: c :: l) st stk) = Token (mkDecoder (c :: l) st' stk).
Proof.
  intros Hs Ha Hc. rewrite (Token_opens c) by done. unfold Token. simpl d_rest. simpl. rewrite Hs. by rewrite Ha.
Qed.

Lemma Token_value c l st stk t r : opens c = true -> lexeme_of c = LQuote \/ lexeme_of c = LOther ->
  tokenValueAllowed st = true -> lex_scalar (c :: l) = Some (t, r) ->
  Token (mkDecoder (c :: l) st stk) = Ok (t, mkDecoder r (tokenValueEnd st) stk).
Proof.
  intros Hc Hx Hst Hl. rewrite Token_opens by done. unfold token_here, take_value, take_scalar. simpl d_rest.
  rewrite opens_no_space, Hl by done. simpl. rewrite Hst. by destruct Hx as [-> | ->]; [destruct st|].
Qed.

Lemma Token_key k r st stk : utf8_valid k = true -> st = ObjectStart \/ st = ObjectKey ->
  Token (mkDecoder (bytes (quote k) ++ r) st stk) = Ok (TStr k, mkDecoder r ObjectColon stk).
Proof.
  intros Hk Hst. pose proof (lex_scalar_quote k r Hk) as Hl.
  unfold quote in *. rewrite !bytes_app, <- !app_assoc in *. change (bytes dquote) with [ch_quote] in *.
  cbn [app] in *. rewrite Token_opens by done. unfold token_here, take_scalar. simpl d_rest.
  rewrite opens_no_space, Hl by done. by destruct Hst as [-> | ->].
Qed.

Lemma quote_head s : exists l, bytes (quote s) = ch_quote :: l.
Proof. unfold quote. rewrite bytes_app. by eexists. Qed.

Lemma digit_opens c : is_digit c = true -> opens c = true /\ lexeme_of c = LOther.
Proof. destruct c as [[] [] [] [] [] [] [] []]; intros Hc; first [discriminate Hc | done]. Qed.

Lemma number_head (n : Z) : exists c l, bytes (pretty n) = c :: l /\ opens c = true /\ lexeme_of c = LOther.
Proof.
  destruct n as [|p|p]; [by eexists _, _ | |by eexists _, _].
  destruct (pretty_N_head (N.pos p)) as (c & l & Hs & Hc%digit_opens). exists c, l. done.
Qed.

Lemma marshal_head v : exists c l, bytes (marshal v) = c :: l /\ opens c = true.
Proof.
  destruct v as [|[]|n|s|l|l]; try (by eexists _, _). simpl.
  destruct (number_head n) as (c & l & ? & ? & ?). eauto.
Qed.

(** ** Reading is the inverse of printing *)

Definition reads (v : jval) : Prop := forall n st stk r,
  well_encoded v = true -> (length (bytes (marshal v)) <= n)%nat -> tokenValueAllowed st = true -> stops r ->
  read_value n (mkDecoder (bytes (marshal v) ++ r) st stk) = Ok (v, mkDecoder r (tokenValueEnd st) stk).

Lemma read_value_cong n d d' : Token d = Token d' -> read_value n d = read_value n d'.
Proof. intros Ht. destruct n; simpl; [done|]. by rewrite Ht. Qed.

Lemma reads_after s st st' v n stk r : reads v -> is_space s = false ->
  after_separator (lexeme_of s) st = Some st' -> tokenValueAllowed st' = true ->
  well_encoded v = true -> (length (bytes (marshal v)) <= n)%nat -> stops r ->
  read_value n (mkDecoder (s :: bytes (marshal v) ++ r) st stk) = Ok (v, mkDecoder r (tokenValueEnd st') stk).
Proof.
  intros Hv Hs Ha Hst Hw Hn Hr. rewrite <- (Hv n st' stk r) by done. apply read_value_cong.
  destruct (marshal_head v) as (c & l & -> & Hc). by apply Token_separator.
Qed.

Definition item_text (v : jval) : list ascii := ","%char :: bytes (marshal v).
Definition member_text (kv : string * jval) : list ascii :=
  bytes (quote kv.1) ++ ":"%char :: bytes (marshal kv.2).

Lemma join_text (l : list string) : bytes (join "," l) =
  match l with [] => [] | x :: r => bytes x ++ concat ((fun y => ","%char :: bytes y) <$> r) end.
Proof.
  destruct l as [|x l]; [done|]. revert x. induction l as [|y l IH]; intros x; simpl in *; [by rewrite app_nil_r|].
  rewrite !bytes_app, IH. done.
Qed.

Lemma stops_items l r : stops (concat (item_text <$> l) ++ "]"%char :: r).
Proof. destruct l; simpl; auto. Qed.
Lemma stops_members l r : stops (concat ((fun kv => ","%char :: member_text kv) <$> l) ++ "}"%char :: r).
Proof. destruct l; simpl; auto. Qed.

Lemma read_items_rest l : Forall reads l -> forall n st stk r, forallb well_encoded l = true ->
  (length (concat (item_text <$> l)) < n)%nat ->
  read_items n (mkDecoder (concat (item_text <$> l) ++ "]"%char :: r) ArrayComma (st :: stk))
  = Ok (l, mkDecoder r (tokenValueEnd st) stk).
Proof.
  induction 1 as [|v l Hv _ IH]; intros n st stk r Hw Hn; (destruct n as [|n]; [lia|]); [done|].
  cbn [fmap list_fmap concat] in *. rewrite length_app in Hn. simpl in Hw, Hn. apply andb_true_iff in Hw as [Hwv Hw].
  rewrite <- app_assoc. unfold item_text at 1. cbn [read_items]. cbn [app]. change (More _) with true at 1. cbn match.
  rewrite (reads_after _ _ ArrayValue) by (done || apply stops_items || lia).
  cbn [mbind outcome_bind]. simpl. rewrite IH by (done || lia). done.
Qed.

Lemma read_members_rest l : Forall (fun kv => reads kv.2) l -> forall n st stk r,
  forallb (fun kv => utf8_valid kv.1 && well_encoded kv.2) l = true ->
  (length (concat ((fun kv => ","%char :: member_text kv) <$> l)) < n)%nat ->
  read_members n (mkDecoder (concat ((fun kv => ","%char :: member_text kv) <$> l) ++ "}"%char :: r) ObjectComma (st :: stk))
  = Ok (l, mkDecoder r (tokenValueEnd st) stk).
Proof.
  induction 1 as [|[k v] l Hv _ IH]; intros n st stk r Hw Hn; (destruct n as [|n]; [lia|]); [done|].
  cbn [fmap list_fmap concat] in *. rewrite length_app in Hn. cbn [length] in Hn. unfold member_text in Hn at 1.
  rewrite length_app in Hn. simpl in Hw, Hn, Hv.
  apply andb_true_iff in Hw as [[Hk Hwv]%andb_true_iff Hw].
  rewrite <- app_assoc. unfold member_text at 1. cbn [read_members app fst snd]. change (More _) with true at 1. cbn match.
  rewrite <- app_assoc. cbn [app].
  assert (forall t, Token (mkDecoder (","%char :: bytes (quote k) ++ t) ObjectComma (st :: stk))
                    = Ok (TStr k, mkDecoder t ObjectColon (st :: stk))) as Hkey.
  { intros t. rewrite <- (Token_key k t ObjectKey) by auto. destruct (quote_head k) as (q & ->).
    by apply Token_separator. }
  rewrite Hkey. cbn [mbind outcome_bind].
  rewrite (reads_after _ _ ObjectValue) by (done || apply stops_members || lia).
  cbn [mbind outcome_bind]. simpl. rewrite IH by (done || lia). done.
Qed.

Lemma reads_scalar v t : (forall r, stops r -> lex_scalar (bytes (marshal v) ++ r) = Some (t, r)) ->
  (exists c l, bytes (marshal v) = c :: l /\ opens c = true /\ (lexeme_of c = LQuote \/ lexeme_of c = LOther)) ->
  (forall n d d', Token d = Ok (t, d') -> read_value (S n) d = Ok (v, d')) -> reads v.
Proof.
  intros Hlex (c & l & Hs & Hc & Hx) Hread n st stk r Hw Hn Hst Hr. specialize (Hlex r Hr).
  rewrite Hs in *. destruct n as [|n]; [simpl in Hn; lia|]. by apply Hread, Token_value.
Qed.

Lemma Token_open c l st stk x start : opens c = true ->
  (lexeme_of c = LOpenArray /\ start = ArrayStart \/ lexeme_of c = LOpenObject /\ start = ObjectStart) ->
  tokenValueAllowed st = true -> x = TDelim c ->
  Token (mkDecoder (c :: l) st stk) = Ok (x, mkDecoder l start (st :: stk)).
Proof.
  intros Hc Hx Hst ->. rewrite Token_opens by done. unfold token_here, open_delim. simpl d_rest.
  rewrite opens_no_space by done. simpl. rewrite Hst. by destruct Hx as [[-> ->] | [-> ->]].
Qed.

Lemma reads_array l : Forall reads l -> reads (JArr l).
Proof.
  intros Hl n st stk r Hw Hn Hst Hr. cbn [marshal] in *. rewrite !bytes_app in *.
  change (bytes "[") with ["["%char] in *. change (bytes "]") with ["]"%char] in *.
  destruct n as [|n]; [simpl in Hn; lia|]. cbn [app] in *. rewrite length_cons, length_app in Hn.
  rewrite <- app_assoc. cbn [app read_value].
  rewrite (Token_open _ _ _ _ (TDelim "["%char) ArrayStart) by auto. cbn [mbind outcome_bind].
  rewrite bool_decide_true by done. rewrite join_text in *. destruct l as [|v l]; [by destruct n; [simpl in Hn; lia|]|].
  cbn [List.map fmap list_fmap] in *. inversion_clear Hl as [|? ? Hv Hl'].
  simpl in Hw. apply andb_true_iff in Hw as [Hwv Hw]. rewrite length_app in Hn. cbn [length] in Hn.
  assert ((fun y => ","%char :: bytes y) <$> List.map marshal l = item_text <$> l) as Hmap
    by (change (List.map marshal l) with (marshal <$> l); by rewrite <- list_fmap_compose).
  rewrite Hmap in *. destruct n as [|n]; [lia|]. rewrite <- app_assoc. cbn [read_items].
  destruct (marshal_head v) as (c & t & Hs & Hc). rewrite Hs. cbn [app]. rewrite opens_More by done. cbn match.
  rewrite app_comm_cons, <- Hs. rewrite Hs in Hn. cbn [length] in Hn.
  rewrite Hv; [|done | rewrite Hs; simpl; lia | done | apply stops_items].
  cbn [mbind outcome_bind]. change (tokenValueEnd ArrayStart) with ArrayComma.
  rewrite read_items_rest by (done || lia). done.
Qed.

Lemma reads_object l : Forall (fun kv => reads kv.2) l -> reads (JObj l).
Proof.
  intros Hl n st stk r Hw Hn Hst Hr. cbn [marshal] in *. rewrite !bytes_app in *.
  change (bytes "{") with ["{"%char] in *. change (bytes "}") with ["}"%char] in *.
  destruct n as [|n]; [simpl in Hn; lia|]. cbn [app] in *. rewrite length_cons, length_app in Hn.
  rewrite <- app_assoc. cbn [app read_value].
  rewrite (Token_open _ _ _ _ (TDelim "{"%char) ObjectStart) by auto. cbn [mbind outcome_bind].
  rewrite bool_decide_false, bool_decide_true by done. rewrite join_text in *.
  destruct l as [|[k v] l]; [by destruct n; [simpl in Hn; lia|]|].
  cbn [List.map fmap list_fmap fst snd] in *. inversion_clear Hl as [|? ? Hv Hl']. simpl in Hv.
  simpl in Hw. apply andb_true_iff in Hw as [[Hk Hwv]%andb_true_iff Hw].
  assert ((fun y => ","%char :: bytes y) <$>
          List.map (fun kv : string * jval => quote kv.1 +:+ ":" +:+ marshal kv.2) l
          = (fun kv => ","%char :: member_text kv) <$> l) as Hmap.
  { change (List.map ?f l) with (f <$> l). rewrite <- list_fmap_compose. apply list_fmap_ext. intros i [k' v'] _.
    unfold member_text, compose. by rewrite !bytes_app. }
  rewrite Hmap, !bytes_app in *. change (bytes ":") with [":"%char] in *. rewrite !length_app in Hn. cbn [length] in Hn.
  destruct n as [|n]; [lia|]. rewrite <- !app_assoc. cbn [read_members app].
  assert (forall t, More (mkDecoder (bytes (quote k) ++ t) ObjectStart (st :: stk)) = true) as Hm
    by (intros t; destruct (quote_head k) as (q & ->); by apply opens_More).
  rewrite Hm, Token_key by auto. cbn match. cbn [mbind outcome_bind].
  rewrite (reads_after _ _ ObjectValue) by (done || apply stops_members || lia).
  cbn [mbind outcome_bind]. change (tokenValueEnd ObjectValue) with ObjectComma.
  rewrite read_members_rest by (done || lia). done.
Qed.

Lemma reads_all v : reads v.
Proof.
  induction v as [|b|n|s|l IH|l IH] using jval_nested_ind; [..| by apply reads_array | by apply reads_object].
  - apply (reads_scalar _ TNull); [done | by eexists _, _; repeat split; auto | intros k d d' Ht; simpl; by rewrite Ht].
  - destruct b; (eapply (reads_scalar (JBool ?[b]) (TBool ?b));
      [done | by eexists _, _; repeat split; auto | intros k d d' Ht; simpl; by rewrite Ht]).
  - apply (reads_scalar _ (TNum (pretty n))).
    + intros r Hr. by apply lex_scalar_number.
    + destruct (number_head n) as (c & l & ? & ? & ?). eauto 10.
    + intros k d d' Ht. simpl. rewrite Ht. simpl. by rewrite (proj2 (lex_scalar_number n [] I)).
  - intros n st stk r Hw. eapply (reads_scalar (JStr s) (TStr s)); [..|exact Hw].
    + intros r' _. by apply lex_scalar_quote.
    + destruct (quote_head s) as (l & ?). eexists _, _. simpl. eauto.
    + intros k d d' Ht. simpl. by rewrite Ht.
Qed.

Lemma read_marshal v : well_encoded v = true -> read_document (marshal v) = Ok v.
Proof.
  intros Hw. unfold read_document, NewDecoder.
  pose proof (reads_all v (S (2 * str_len (marshal v))) TopValue [] [] Hw) as Hr. rewrite app_nil_r in Hr.
  rewrite Hr; [done | rewrite bytes_length; lia | done | done].
Qed.

(** Reading a document back gives the document: the decoder the packages
    use inverts the text [canonical.Digest] hashes, for every document whose
    strings are UTF-8. *)
Theorem decode_marshal v : well_encoded v = true -> read_document (marshal v) = Ok v.
Proof. apply read_marshal. Qed.
Lemma marshal_inj v v' : well_encoded v = true -> well_encoded v' = true -> marshal v = marshal v' -> v = v'.
Proof.
  intros Hw Hw' Heq. apply (f_equal read_document) in Heq. rewrite !read_marshal in Heq by done. congruence.
Qed.

(** A document and a line end. *)
Lemma read_marshal_line v : well_encoded v = true -> read_document (marshal v +:+ bs [10]%N) = Ok v.
Proof.
  intros Hw. unfold read_document, NewDecoder. rewrite bytes_app.
  pose proof (reads_all v (S (2 * str_len (marshal v +:+ bs [10]%N))) TopValue [] (bytes (bs [10]%N)) Hw) as Hr.
  rewrite Hr; [reflexivity | rewrite str_len_app, bytes_length; lia | done | right; right; by right].
Qed.

(** ** The text is UTF-8, and a line end after it changes nothing *)

Lemma utf8_any n m l : (length l <= n)%nat -> (length l <= m)%nat -> utf8_valid_fuel n l = utf8_valid_fuel m l.
Proof.
  revert m l. induction n as [|n IH]; intros m l Hn Hm; (destruct l as [|c l]; [by destruct m|]); [simpl in Hn; lia|].
  destruct m as [|m]; [simpl in Hm; lia|]. cbn [utf8_valid_fuel]. destruct (utf8_len (c :: l)); [done|].
  apply IH; rewrite length_drop; simpl in *; lia.
Qed.

Definition utf8 (l : list ascii) : Prop := utf8_valid_fuel (length l) l = true.
Lemma utf8_nil : utf8 [].
Proof. done. Qed.
Lemma utf8_seq k l r : utf8_len l = S k -> utf8 (take (S k) l ++ r) <-> utf8 r.
Proof.
  intros Hl. destruct (utf8_len_prefix l k r Hl) as [Hp Hlen]. unfold utf8.
  destruct (take (S k) l) as [|c t] eqn:Ht; [discriminate|]. cbn [app length utf8_valid_fuel]. cbn [app] in Hp. rewrite Hp.
  change (c :: t ++ r) with ((c :: t) ++ r). rewrite <- Hlen, drop_app_length.
  by rewrite (utf8_any _ (length r)) by (rewrite ?length_app; lia).
Qed.
Lemma utf8_ascii c r : (byte_at c <? 128)%N = true -> utf8 (c :: r) <-> utf8 r.
Proof. intros Hc. apply (utf8_seq 0 [c] r). unfold utf8_len. by rewrite Hc. Qed.

Lemma utf8_split c l : utf8 (c :: l) -> exists k, utf8_len (c :: l) = S k /\ utf8 (drop (S k) (c :: l)).
Proof.
  unfold utf8. cbn [length utf8_valid_fuel]. destruct (utf8_len (c :: l)) as [|k]; [done|].
  intros Hv. exists k. split; [done|]. rewrite <- Hv. apply utf8_any; rewrite ?length_drop; simpl; lia.
Qed.

Lemma utf8_app a b : utf8 a -> utf8 b -> utf8 (a ++ b).
Proof.
  intros Ha Hb. remember (length a) as n eqn:Hn. assert (length a <= n)%nat as Hle by lia. clear Hn. revert a Hle Ha.
  induction n as [|n IH]; intros [|c a] Hle Ha; simpl in Hle; [done | lia | done |].
  apply utf8_split in Ha as (k & Hk & Hd). rewrite <- (take_drop (S k) (c :: a)), <- app_assoc.
  apply (utf8_seq k (c :: a)); [done|]. apply IH; [|done]. rewrite length_drop. simpl. lia.
Qed.

Lemma utf8_ascii_text l : forallb (in_range 0 127) l = true -> utf8 l.
Proof.
  induction l as [|c l IH]; [done|]. intros [[_ Hc%N.leb_le]%andb_true_iff Hl]%andb_true_iff.
  apply utf8_ascii; [apply N.ltb_lt; lia | auto].
Qed.

Lemma escape_ascii_text c : (byte_at c <? 128)%N = true -> forallb (in_range 0 127) (escape_ascii c) = true.
Proof. destruct c as [[] [] [] [] [] [] [] []]; intros Hc; first [discriminate Hc | reflexivity]. Qed.

Lemma utf8_escape n l : utf8 (escape_fuel n l).
Proof.
  revert l. induction n as [|n IH]; intros [|c l]; [done..|]. cbn [escape_fuel].
  destruct (byte_at c <? 128)%N eqn:Hc.
  { apply utf8_app; [by apply utf8_ascii_text, escape_ascii_text | apply IH]. }
  destruct (utf8_len (c :: l)) as [|k] eqn:Hk; [by apply utf8_app|]. cbn zeta. apply utf8_app; [|apply IH].
  case_bool_decide; [done|]. case_bool_decide; [done|]. rewrite <- (app_nil_r (take _ _)). by apply utf8_seq.
Qed.

Lemma utf8_quote s : utf8 (bytes (quote s)).
Proof.
  unfold quote. rewrite !bytes_app, bytes_unbytes. apply utf8_app; [done|]. apply utf8_app; [apply utf8_escape | done].
Qed.

Lemma utf8_join l : (forall s, s ∈ l -> utf8 (bytes s)) -> utf8 (bytes (join "," l)).
Proof.
  induction l as [|s l IH]; intros Hl; [done|]. destruct l as [|s' l]; [apply Hl; by left|].
  cbn [join]. rewrite !bytes_app. apply utf8_app; [apply Hl; by left|]. apply utf8_app; [done|].
  apply IH. intros x Hx. apply Hl. by right.
Qed.

Lemma pretty_N_go_ascii (x : N) s : utf8 (bytes s) -> utf8 (bytes (pretty_N_go x s)).
Proof.
  revert s. induction (N.lt_wf_0 x) as [x _ IH]; intros s Hs. destruct (decide (x = 0%N)) as [->|Hx]; [by rewrite pretty_N_go_0|].
  rewrite pretty_N_go_step by lia. apply IH; [apply N.div_lt; lia|]. cbn. apply utf8_ascii; [|done].
  unfold pretty_N_char. destruct (x `mod` 10)%N as [|[[[[]|[]|]|[[]|[]|]|]|[[[]|[]|]|[[]|[]|]|]|]]; reflexivity.
Qed.
Lemma pretty_ascii (n : Z) : utf8 (bytes (pretty n)).
Proof.
  assert (forall x : N, utf8 (bytes (pretty x))) as HN.
  { intros x. unfold pretty, pretty_N. case_decide; [done|]. by apply pretty_N_go_ascii. }
  destruct n; [done | apply (HN (N.pos p))|]. change (pretty (Z.neg p)) with ("-" +:+ pretty (N.pos p)).
  rewrite bytes_app. by apply utf8_app.
Qed.

Lemma marshal_utf8 v : utf8_valid (marshal v) = true.
Proof.
  assert (utf8 (bytes (marshal v))) as Hu; [|unfold utf8 in Hu; by rewrite bytes_length in Hu].
  induction v as [|b|n|s|l IH|l IH] using jval_nested_ind; [done | by destruct b | apply pretty_ascii | apply utf8_quote|..];
    cbn [marshal]; rewrite !bytes_app; (apply utf8_app; [done|]); (apply utf8_app; [|done]); apply utf8_join;
    intros s Hs%list_elem_of_In%in_map_iff.
  - destruct Hs as (v & <- & Hv%list_elem_of_In). rewrite Forall_forall in IH. by apply IH.
  - destruct Hs as (kv & <- & Hv%list_elem_of_In). rewrite Forall_forall in IH. rewrite !bytes_app.
    apply utf8_app; [apply utf8_quote|]. apply utf8_app; [done|]. by apply IH.
Qed.

Definition sample_document : jval :=
  JObj [("task_id", JStr "t-1"); ("revision", JNum 42); ("empty", JArr []); ("note", JStr (bs [60; 34; 9; 195; 169]%N));
        ("items", JArr [JNull; JBool true; JNum (-7); JObj [("a", JObj [])]])].

Lemma decode_marshal_witness :
  well_encoded sample_document = true /\ read_document (marshal sample_document) = Ok sample_document.
Proof. split; [reflexivity|]. apply decode_marshal. reflexivity. Defined.

(** Two of the given texts are different and have one hash. *)
Definition collision `{Hash} (texts : list string) : Prop :=
  exists a b, a ∈ texts /\ b ∈ texts /\ a <> b /\ sha256_hex a = sha256_hex b.
Lemma collision_incl `{Hash} texts texts' : texts ⊆ texts' -> collision texts -> collision texts'.
Proof. intros Hs (a & b & Ha & Hb & Hne). exists a, b. set_solver. Qed.
Lemma same_hash `{Hash} a b : sha256_hex a = sha256_hex b -> a = b \/ collision [a; b].
Proof. intros Hh. destruct (decide (a = b)) as [|Hne]; [by left | right]. exists a, b. set_solver. Qed.

(** A digest stands for one document, unless the hash collides. *)
Lemma Digest_binds `{Hash} v v' : well_encoded v = true -> well_encoded v' = true ->
  Digest v = Digest v' -> v = v' \/ collision [marshal v; marshal v'].
Proof. intros Hw Hw' [Hm|?]%Digest_hash%same_hash; [left; by apply marshal_inj | by right]. Qed.

(** ** Every token consumes bytes *)

Definition shorter (o : option (list ascii * list ascii)) (n : nat) : Prop :=
  match o with Some (_, r) => (length r <= n)%nat | None => True end.

Lemma shorter_le o n m : shorter o n -> (n <= m)%nat -> shorter o m.
Proof. destruct o as [[? ?]|]; simpl; lia. Qed.
Lemma shorter_before p o n : shorter o n -> shorter (before p o) n.
Proof. by destruct o as [[? ?]|]. Qed.

Lemma skip_space_shorter l : (length (skip_space l) <= length l)%nat.
Proof. induction l as [|c l IH]; simpl; [done|]. case_match; simpl; lia. Qed.

Lemma hex4_shorter l u r : hex4 l = Some (u, r) -> (length r <= length l)%nat.
Proof. unfold hex4. intros H. repeat case_match; simplify_eq/=. lia. Qed.

Lemma lex_unicode_shorter l : shorter (lex_unicode l) (length l).
Proof.
  unfold lex_unicode. destruct (hex4 l) as [[u r]|] eqn:Hu; [|done]. apply hex4_shorter in Hu.
  case_match; [|done]. destruct r as [|b [|e r']]; [done | done |].
  destruct (bool_decide (b = ch_backslash) && bool_decide (e = "u"%char)); [|done].
  destruct (hex4 r') as [[v r'']|] eqn:Hv; [|done].
  apply hex4_shorter in Hv. simpl in Hu. case_match; simpl; lia.
Qed.

Lemma lex_string_shorter n l : shorter (lex_string n l) (length l - 1).
Proof.
  revert l. induction n as [|n IH]; intros [|c l]; try done. cbn [lex_string]. simpl length. rewrite Nat.sub_succ, Nat.sub_0_r.
  assert (forall p k, shorter (before p (lex_string n (drop k l))) (length l)) as Hb.
  { intros p k. apply shorter_before. eapply shorter_le; [apply IH|]. rewrite length_drop. lia. }
  case_bool_decide; [simpl; lia|]. case_bool_decide.
  - destruct l as [|e l]; [done|]. case_match; [apply (Hb _ 1)|]. case_match; [|done].
    pose proof (lex_unicode_shorter l) as Hu. destruct (lex_unicode l) as [[v r]|]; [|done].
    apply shorter_before. eapply shorter_le; [apply IH|]. simpl in *. lia.
  - case_match; [done|]. case_match; [apply (Hb _ 0)|]. case_match; [apply (Hb _ 0)|]. apply Hb.
Qed.

Lemma take_digits_length l : length (take_digits l).1 + length (take_digits l).2 = length l.
Proof.
  induction l as [|c l IH]; simpl; [done|]. case_match; [|done].
  destruct (take_digits l). simpl in *. lia.
Qed.
Lemma digits1_shorter l : shorter (digits1 l) (length l - 1).
Proof.
  unfold digits1. pose proof (take_digits_length l). destruct (take_digits l) as [[|c d] r]; simpl in *; [done|lia].
Qed.
Lemma lex_exponent_shorter l : shorter (lex_exponent l) (length l).
Proof.
  destruct l as [|c [|s r]]; simpl; [done || lia | case_match; simpl; first [done | lia]|]. case_match; [|simpl; lia].
  case_match; apply shorter_before; (eapply shorter_le; [apply digits1_shorter|]); simpl; lia.
Qed.
Lemma lex_fraction_shorter l : shorter (lex_fraction l) (length l).
Proof.
  destruct l as [|c r]; [apply lex_exponent_shorter|]. unfold lex_fraction. case_match; [|apply lex_exponent_shorter].
  pose proof (digits1_shorter r). destruct (digits1 r) as [[d t]|]; [|done]. apply shorter_before.
  eapply shorter_le; [apply lex_exponent_shorter|]. simpl in *. lia.
Qed.
Lemma lex_integer_shorter l : shorter (lex_integer l) (length l - 1).
Proof.
  destruct l as [|c r]; [done|]. unfold lex_integer. case_match.
  - apply shorter_before. eapply shorter_le; [apply lex_fraction_shorter|]. simpl. lia.
  - pose proof (digits1_shorter (c :: r)). destruct (digits1 (c :: r)) as [[d t]|]; [|done]. apply shorter_before.
    eapply shorter_le; [apply lex_fraction_shorter|]. done.
Qed.
Lemma lex_number_shorter l : shorter (lex_number l) (length l - 1).
Proof.
  destruct l as [|c r]; [done|]. unfold lex_number. case_match; [|apply lex_integer_shorter]. apply shorter_before.
  eapply shorter_le; [apply lex_integer_shorter|]. simpl. lia.
Qed.

Lemma lex_scalar_shorter l t r : lex_scalar l = Some (t, r) -> (length r < length l)%nat.
Proof.
  destruct l as [|c l]; [done|]. unfold lex_scalar. case_match; [|case_match].
  - pose proof (lex_string_shorter (S (length l)) l) as Hs. destruct (lex_string _ l) as [[v r']|]; [|done].
    intros [= _ ->]. simpl in *. lia.
  - pose proof (lex_number_shorter (c :: l)) as Hs. destruct (lex_number (c :: l)) as [[v r']|]; [|done].
    intros [= _ ->]. simpl in *. lia.
  - unfold scalar_literal. intros Hl. repeat case_bool_decide; simplify_eq; rewrite length_drop; simpl; lia.
Qed.

Lemma token_here_shorter d t d' : token_here d = Ok (t, d') -> (length (d_rest d') < length (d_rest d))%nat.
Proof.
  unfold token_here, take_value, take_scalar, open_delim, close_delim. intros H.
  pose proof (skip_space_shorter (d_rest d)) as Hs.
  destruct (skip_space (d_rest d)) as [|c r]; [done|]. simpl in Hs.
  repeat (case_match; try discriminate); simplify_eq; cbn [d_rest]; try lia;
    match goal with E : lex_scalar _ = Some _ |- _ => apply lex_scalar_shorter in E; cbn [length] in E; lia end.
Qed.

Lemma Token_shorter d t d' : Token d = Ok (t, d') -> (length (d_rest d') < length (d_rest d))%nat.
Proof.
  unfold Token. intros H. pose proof (skip_space_shorter (d_rest d)) as Hs.
  destruct (skip_space (d_rest d)) as [|c r]; [done|]. simpl in Hs. case_match.
  - apply token_here_shorter in H. simpl in H. lia.
  - by apply token_here_shorter in H.
Qed.

Lemma Token_error d x : Token d = Err x -> x = io_EOF \/ x = json_SyntaxError.
Proof.
  unfold Token, token_here, take_value, take_scalar, open_delim, close_delim. intros H.
  repeat (case_match; try discriminate); simplify_eq; auto.
Qed.
