(* ===== verification/StrictJson.v ===== *)
(** [internal/strictjson]: the guard in front of every wire document.

    [validateObject] walks the decoder's tokens without building a value; the
    theorems say it accepts exactly the bounded UTF-8 documents whose tree (as
    the same decoder reads it) has admissible, unique member names at every
    depth and at most 64 levels, and that it answers on every input. *)
From S2P Require Import Prelude Canonical Json.

(** ** The program *)

Definition MaxBytes : nat := Nat.pow 2 20.

Definition validForeignKey (s : string) : bool :=
  negb ((str_len s =? 0)%nat || (128 <? str_len s)%nat)
  && str_forall (fun ch => negb ((byte_at ch <? 32)%N || (byte_at ch =? 127)%N)) s.

Definition validKey (s : string) : bool :=
  match s with
  | "" => false
  | String c _ =>
    negb (128 <? str_len s)%nat && is_lower c
    && str_forall (fun ch => is_lower ch || is_digit ch || (byte_at ch =? 95)%N) s
  end.

(** [object] and [value], the two walks of the decoder; [object]'s loop carries
    [seen].  [ErrFuel] marks a walk that was cut short: it never is. *)
Definition ErrFuel : goerr := ESentinel "fuel" "out of fuel".

Fixpoint value (fuel depth : nat) (keyOK : string -> bool) (d : decoder) : outcome decoder :=
  match fuel with
  | O => Err ErrFuel
  | S n =>
    if (64 <? depth)%nat then Err (ENew "JSON nesting limit exceeded") else
    '(t, d) ← Token d;
    match t with
    | TDelim c =>
      if bool_decide (c = "{"%char) then object n depth keyOK ∅ d
      else if bool_decide (c = "["%char) then array n depth keyOK d
      else Err (ENew "unexpected JSON delimiter")
    | _ => Ok d
    end
  end
with object (fuel depth : nat) (keyOK : string -> bool) (seen : gset string) (d : decoder) : outcome decoder :=
  match fuel with
  | O => Err ErrFuel
  | S n =>
    if More d then
      '(t, d) ← Token d;
      match t with
      | TStr key =>
        if negb (keyOK key) || bool_decide (key ∈ seen)
        then Err (ENew "invalid or duplicate JSON member")
        else d ← value n (S depth) keyOK d; object n depth keyOK ({[key]} ∪ seen) d
      | _ => Err (ENew "invalid or duplicate JSON member")
      end
    else match Token d with
         | Ok (t, d') => if bool_decide (t = TDelim "}"%char) then Ok d' else Err (ENew "invalid JSON object")
         | Err _ => Err (ENew "invalid JSON object")
         end
  end
with array (fuel depth : nat) (keyOK : string -> bool) (d : decoder) : outcome decoder :=
  match fuel with
  | O => Err ErrFuel
  | S n =>
    if More d then d ← value n (S depth) keyOK d; array n depth keyOK d
    else match Token d with
         | Ok (t, d') => if bool_decide (t = TDelim "]"%char) then Ok d' else Err (ENew "invalid JSON array")
         | Err _ => Err (ENew "invalid JSON array")
         end
  end.

Definition validateObject (data : string) (keyOK : string -> bool) (maxBytes : Z) : outcome unit :=
  if decide (maxBytes <= 0 \/ Z.of_nat (str_len data) = 0 \/ maxBytes < Z.of_nat (str_len data))%Z
  then Err (ENew "invalid JSON size or encoding") else
  if negb (utf8_valid data) then Err (ENew "invalid JSON size or encoding") else
  match Token (NewDecoder data) with
  | Err _ => Err (ENew "JSON object required")
  | Ok (first, d) =>
    if bool_decide (first <> TDelim "{"%char) then Err (ENew "JSON object required") else
    d ← object (2 * str_len data) 1 keyOK ∅ d;
    match Token d with
    | Err x => if bool_decide (x = io_EOF) then Ok tt else Err (ENew "trailing JSON")
    | Ok _ => Err (ENew "trailing JSON")
    end
  end.

Definition ValidateObject (data : string) : outcome unit := validateObject data validKey (Z.of_nat MaxBytes).
Definition ValidateForeignObject (data : string) : outcome unit :=
  validateObject data validForeignKey (Z.of_nat MaxBytes).
Definition ValidateForeignObjectLimit (data : string) (maxBytes : Z) : outcome unit :=
  validateObject data validForeignKey maxBytes.

(** [Decode]: the guard, then the typed decoder (a parameter: it depends on the target). *)
Definition StrictDecode {A} (decode : string -> outcome A) (data : string) : outcome A :=
  ValidateObject data ;; decode data.

(** [ReadObject] of a stream with these bytes, which fails with [fault] if at all. *)
Definition ReadObject (stream : string) (fault : option goerr) : outcome string :=
  match fault with
  | Some x => Err x
  | None => let data := unbytes (take (S MaxBytes) (bytes stream)) in ValidateObject data ;; Ok data
  end.

Definition NonBlank (s : string) : bool := bool_decide (trim_space s <> "").

(** ** What a document has to look like *)

Fixpoint admissible (keyOK : string -> bool) (depth : nat) (v : jval) : bool :=
  (depth <=? 64)%nat &&
  match v with
  | JArr l => forallb (admissible keyOK (S depth)) l
  | JObj l => forallb (fun kv => keyOK kv.1 && admissible keyOK (S depth) kv.2) l && all_fresh ∅ l.*1
  | _ => true
  end.

Definition members_admissible (keyOK : string -> bool) (depth : nat) (seen : gset string) (l : list (string * jval)) : bool :=
  forallb (fun kv => keyOK kv.1 && admissible keyOK (S depth) kv.2) l && all_fresh seen l.*1.

(** ** The walks follow the reader *)

Definition values_agree (keyOK : string -> bool) (n : nat) : Prop := forall depth d d',
  value n depth keyOK d = Ok d' <-> exists v, read_value n d = Ok (v, d') /\ admissible keyOK depth v = true.
Definition objects_agree (keyOK : string -> bool) (n : nat) : Prop := forall depth seen d d',
  object n depth keyOK seen d = Ok d' <->
  exists l, read_members n d = Ok (l, d') /\ members_admissible keyOK depth seen l = true.
Definition arrays_agree (keyOK : string -> bool) (n : nat) : Prop := forall depth d d',
  array n depth keyOK d = Ok d' <->
  exists l, read_items n d = Ok (l, d') /\ forallb (admissible keyOK (S depth)) l = true.

Lemma refused {A B} (x : goerr) (b : B) (P : A -> Prop) (Q : A -> Prop) :
  (forall a, P a -> Q a -> False) -> Err x = Ok b <-> exists a, P a /\ Q a.
Proof. intros H. split; [done | intros (a & Hp & Hq); destruct (H a Hp Hq)]. Qed.

Lemma closing d c x d' :
  (match Token d with
   | Ok (t, d1) => if bool_decide (t = TDelim c) then Ok d1 else Err x
   | Err _ => Err x
   end = Ok d') <-> Token d = Ok (TDelim c, d').
Proof. destruct (Token d) as [[t d1]|]; [case_bool_decide|]; split; naive_solver. Qed.

Lemma closing_read {A} d c (l : list A) d' :
  ('(t, d) ← Token d; if bool_decide (t = TDelim c) then Ok ([], d) else Err json_SyntaxError) = Ok (l, d') <->
  Token d = Ok (TDelim c, d') /\ l = [].
Proof. destruct (Token d) as [[t d1]|]; simpl; [case_bool_decide|]; split; naive_solver. Qed.

Lemma value_step keyOK n : objects_agree keyOK n -> arrays_agree keyOK n -> values_agree keyOK (S n).
Proof.
  unfold values_agree, objects_agree, arrays_agree. intros IHo IHa depth d d'. cbn [value read_value]. destruct (64 <? depth)%nat eqn:Hd.
  { apply refused. intros v _ Hv. apply Nat.ltb_lt in Hd.
    destruct v; simpl in Hv; apply andb_true_iff in Hv as [Hv%Nat.leb_le _]; lia. }
  apply Nat.ltb_ge, Nat.leb_le in Hd.
  destruct (Token d) as [[t d1]|x]; cbn [mbind outcome_bind]; [|by apply refused].
  destruct t as [c|s|s|b|]; [|split; [intros [= ->]; eexists; split; [done|]; simpl; by rewrite Hd | by intros (v & [= <- <-] & _)]..].
  destruct (decide (c = "{"%char)) as [->|Ho]; [|destruct (decide (c = "["%char)) as [->|Hc]].
  - change (bool_decide ("{"%char = "{"%char)) with true. change (bool_decide ("{"%char = "["%char)) with false.
    cbn match. rewrite IHo. split.
    + intros (l & -> & Hl). exists (JObj l). simpl. by rewrite Hd.
    + intros (v & Hv & Ha). destruct (read_members n d1) as [[l d2]|]; [|discriminate].
      injection Hv as <- <-. exists l. simpl in Ha. by rewrite Hd in Ha.
  - change (bool_decide ("["%char = "{"%char)) with false. change (bool_decide ("["%char = "["%char)) with true.
    cbn match. rewrite IHa. split.
    + intros (l & -> & Hl). exists (JArr l). simpl. by rewrite Hd.
    + intros (v & Hv & Ha). destruct (read_items n d1) as [[l d2]|]; [|discriminate].
      injection Hv as <- <-. exists l. simpl in Ha. by rewrite Hd in Ha.
  - rewrite !bool_decide_false by done. by apply refused.
Qed.

Lemma array_step keyOK n : values_agree keyOK n -> arrays_agree keyOK n -> arrays_agree keyOK (S n).
Proof.
  unfold values_agree, objects_agree, arrays_agree. intros IHv IHa depth d d'. cbn [array read_items]. destruct (More d).
  - split.
    + intros (d1 & (v & -> & Hv)%IHv & (l & Hl & Hf)%IHa)%bind_ok. exists (v :: l). simpl. by rewrite Hl, Hv, Hf.
    + intros (l & Hl & Hf). apply bind_ok in Hl as ([v d1] & Hv & Hl). apply bind_ok in Hl as ([r d2] & Hr & [= <- <-]).
      simpl in Hf. apply andb_true_iff in Hf as [Hf1 Hf2].
      rewrite (proj2 (IHv (S depth) d d1)) by eauto. simpl. apply IHa. eauto.
  - rewrite closing. split.
    + intros Ht. exists []. by rewrite (closing_read d _ []).
    + intros (l & Hl & _). by apply (closing_read d _ l) in Hl as [? _].
Qed.

Lemma members_admissible_cons keyOK depth seen key v l :
  members_admissible keyOK depth seen ((key, v) :: l) = true <->
  (negb (keyOK key) || bool_decide (key ∈ seen)) = false /\ admissible keyOK (S depth) v = true
  /\ members_admissible keyOK depth ({[key]} ∪ seen) l = true.
Proof.
  unfold members_admissible. simpl. rewrite orb_false_iff, negb_false_iff, !andb_true_iff, negb_true_iff. tauto.
Qed.

Lemma object_step keyOK n : values_agree keyOK n -> objects_agree keyOK n -> objects_agree keyOK (S n).
Proof.
  unfold values_agree, objects_agree, arrays_agree. intros IHv IHo depth seen d d'. cbn [object read_members]. destruct (More d).
  - destruct (Token d) as [[t d0]|x]; cbn [mbind outcome_bind]; [|by apply refused].
    destruct t as [|key| | |]; try by apply refused. split.
    + destruct (negb (keyOK key) || _) eqn:Hk; [done|].
      intros (d1 & (v & -> & Hv)%IHv & (l & Hl & Hf)%IHo)%bind_ok. exists ((key, v) :: l).
      simpl. rewrite Hl. split; [done|]. by apply members_admissible_cons.
    + intros (l & Hl & Hf). apply bind_ok in Hl as ([v d1] & Hv & Hl). apply bind_ok in Hl as ([r d2] & Hr & [= <- <-]).
      apply members_admissible_cons in Hf as (-> & Hf1 & Hf2).
      rewrite (proj2 (IHv (S depth) d0 d1)) by eauto. simpl. apply IHo. eauto.
  - rewrite closing. split.
    + intros Ht. exists []. by rewrite (closing_read d _ []).
    + intros (l & Hl & _). by apply (closing_read d _ l) in Hl as [? _].
Qed.

Lemma walks_agree keyOK n : values_agree keyOK n /\ objects_agree keyOK n /\ arrays_agree keyOK n.
Proof.
  induction n as [|n (IHv & IHo & IHa)].
  - split_and!; repeat intro; by apply refused.
  - split_and!; [by apply value_step | by apply object_step | by apply array_step].
Qed.

(** ** Fuel *)

Definition settled {A} (o o' : outcome A) : Prop := o = o' /\ o <> Err ErrFuel.

Definition consumes (o : outcome decoder) (d : decoder) : Prop :=
  match o with Ok d' => (length (d_rest d') < length (d_rest d))%nat | Err _ => True end.

Lemma walks_consume keyOK n :
  (forall depth d, consumes (value n depth keyOK d) d)
  /\ (forall depth seen d, consumes (object n depth keyOK seen d) d)
  /\ (forall depth d, consumes (array n depth keyOK d) d).
Proof.
  induction n as [|n (IHv & IHo & IHa)]; [done|].
  assert (forall d x c, consumes (match Token d with
     | Ok (t, d1) => if bool_decide (t = TDelim c) then Ok d1 else Err x
     | Err _ => Err x end) d) as Hclose.
  { intros d x c. destruct (Token d) as [[t d1]|] eqn:Ht; [|done]. apply Token_shorter in Ht. by case_bool_decide. }
  split_and!.
  - intros depth d. cbn [value]. case_match; [done|].
    destruct (Token d) as [[t d1]|] eqn:Ht; [|done]. apply Token_shorter in Ht. cbn [mbind outcome_bind].
    destruct t as [c| | | |]; try exact Ht. case_bool_decide; [|case_bool_decide; [|done]].
    + specialize (IHo depth ∅ d1). destruct (object _ _ _ _ _); simpl in *; [lia|done].
    + specialize (IHa depth d1). destruct (array _ _ _ _); simpl in *; [lia|done].
  - intros depth seen d. cbn [object]. destruct (More d); [|apply Hclose].
    destruct (Token d) as [[t d1]|] eqn:Ht; [|done]. apply Token_shorter in Ht. cbn [mbind outcome_bind].
    destruct t as [|key| | |]; try done. case_match; [done|].
    specialize (IHv (S depth) d1). destruct (value _ _ _ _) as [d2|]; [|done]. cbn [mbind outcome_bind].
    specialize (IHo depth ({[key]} ∪ seen) d2). destruct (object _ _ _ _ _); simpl in *; [lia|done].
  - intros depth d. cbn [array]. destruct (More d); [|apply Hclose].
    specialize (IHv (S depth) d). destruct (value _ _ _ _) as [d2|]; [|done]. cbn [mbind outcome_bind].
    specialize (IHa depth d2). destruct (array _ _ _ _); simpl in *; [lia|done].
Qed.

Lemma settled_refl {A} (o : outcome A) : o <> Err ErrFuel -> settled o o.
Proof. done. Qed.
Lemma settled_bind {A B} (o o' : outcome A) (f g : A -> outcome B) :
  settled o o' -> (forall a, o = Ok a -> settled (f a) (g a)) -> settled (o ≫= f) (o' ≫= g).
Proof. intros [<- Hn] Hf. destruct o; simpl; [by apply Hf|]. split; [done|]. intros [= ->]. done. Qed.
Lemma settled_token d : settled (Token d) (Token d).
Proof. apply settled_refl. intros Ht. by apply Token_error in Ht as [|]. Qed.
Lemma settled_close d c (x : string) : let o := match Token d with
     | Ok (t, d1) => if bool_decide (t = TDelim c) then Ok d1 else Err (ENew x)
     | Err _ => Err (ENew x) end in settled o o.
Proof. apply settled_refl. by destruct (Token d) as [[t d1]|]; [case_bool_decide|]. Qed.

Lemma walks_settle keyOK n : forall m,
  (forall depth d, (2 * length (d_rest d) < n)%nat -> (2 * length (d_rest d) < m)%nat ->
     settled (value n depth keyOK d) (value m depth keyOK d))
  /\ (forall depth seen d, (2 * length (d_rest d) < n)%nat -> (2 * length (d_rest d) < m)%nat ->
     settled (object n depth keyOK seen d) (object m depth keyOK seen d))
  /\ (forall depth d, (2 * length (d_rest d) + 1 < n)%nat -> (2 * length (d_rest d) + 1 < m)%nat ->
     settled (array n depth keyOK d) (array m depth keyOK d)).
Proof.
  induction n as [|n IH]; intros m; [split_and!; intros; lia|]. destruct m as [|m]; [split_and!; intros; lia|].
  destruct (IH m) as (IHv & IHo & IHa). destruct (walks_consume keyOK n) as (Cv & _ & _). clear IH. split_and!.
  - intros depth d Hn Hm. cbn [value]. case_match; [by apply settled_refl|].
    apply settled_bind; [apply settled_token|]. intros [t d1] Ht%Token_shorter.
    destruct t as [c| | | |]; try by apply settled_refl.
    case_bool_decide; [apply IHo; lia|]. case_bool_decide; [apply IHa; lia | by apply settled_refl].
  - intros depth seen d Hn Hm. cbn [object]. destruct (More d); [|apply settled_close].
    apply settled_bind; [apply settled_token|]. intros [t d1] Ht%Token_shorter.
    destruct t as [|key| | |]; try by apply settled_refl. case_match; [by apply settled_refl|].
    apply settled_bind; [apply IHv; lia|]. intros d2 H2. specialize (Cv (S depth) d1). rewrite H2 in Cv. simpl in Cv.
    apply IHo; lia.
  - intros depth d Hn Hm. cbn [array]. destruct (More d); [|apply settled_close].
    apply settled_bind; [apply IHv; lia|]. intros d2 H2. specialize (Cv (S depth) d). rewrite H2 in Cv. simpl in Cv.
    apply IHa; lia.
Qed.

(** ** Properties *)

Lemma Token_start_shorter data t d : Token (NewDecoder data) = Ok (t, d) -> (length (d_rest d) < str_len data)%nat.
Proof. intros Ht%Token_shorter. simpl in Ht. by rewrite bytes_length in Ht. Qed.

(** C39: The walk over the tokens ends on every input, whatever its nesting:
    twice the number of bytes is enough for every pass of the loops and every
    level of the recursion, more changes nothing, and no input is refused
    because the walk was cut short. *)
Theorem validation_terminates data keyOK maxBytes :
  validateObject data keyOK maxBytes <> Err ErrFuel
  /\ (forall t d k, Token (NewDecoder data) = Ok (t, d) -> (2 * str_len data <= k)%nat ->
        object k 1 keyOK ∅ d = object (2 * str_len data) 1 keyOK ∅ d).
Proof.
  split.
  - unfold validateObject. case_decide; [done|]. case_match; [done|].
    destruct (Token (NewDecoder data)) as [[t d]|] eqn:Ht; [|done]. apply Token_start_shorter in Ht.
    case_bool_decide; [done|].
    destruct (walks_settle keyOK (2 * str_len data) (2 * str_len data)) as (_ & Ho & _).
    destruct (Ho 1 ∅ d) as [_ Hn]; [lia..|].
    destruct (object _ _ _ _ _) as [d'|x]; simpl; [|congruence].
    destruct (Token d') as [|x]; [done|]. by case_bool_decide.
  - intros t d k Ht%Token_start_shorter Hk.
    destruct (walks_settle keyOK k (2 * str_len data)) as (_ & Ho & _). apply Ho; lia.
Qed.

Lemma validation_terminates_witness :
  object 40 1 validKey ∅ (mkDecoder (bytes "[[") ObjectStart [TopValue])
  = object 6 1 validKey ∅ (mkDecoder (bytes "[[") ObjectStart [TopValue]).
Proof.
  apply (proj2 (validation_terminates "{[[" validKey 1) (TDelim "{"%char)); [reflexivity | simpl; lia].
Defined.

Lemma validateObject_reads data keyOK maxBytes :
  validateObject data keyOK maxBytes = Ok tt <->
  (0 < Z.of_nat (str_len data) <= maxBytes)%Z /\ utf8_valid data = true
  /\ exists l, read_document data = Ok (JObj l) /\ members_admissible keyOK 1 ∅ l = true.
Proof.
  unfold validateObject, read_document. cbn [read_value].
  case_decide as Hsize; [split; [done|]; lia|].
  destruct (utf8_valid data); [|split; [done|]; by intros (_ & ? & _)]. cbn [negb].
  destruct (Token (NewDecoder data)) as [[t d]|] eqn:Ht; cbn [mbind outcome_bind];
    [|split; [done|]; by intros (_ & _ & l & ? & _)].
  case_bool_decide as Hobj.
  { split; [done|]. intros (_ & _ & l & Hl & _). exfalso.
    destruct t as [c| | | |]; cbn [mbind outcome_bind] in Hl; [|repeat (case_match; try discriminate)..].
    rewrite (bool_decide_false (c = "{"%char)) in Hl by congruence.
    case_bool_decide; [|done]. destruct (read_items _ _) as [[]|]; simpl in Hl; [|done].
    repeat (case_match; try discriminate). }
  subst t. rewrite bool_decide_false, bool_decide_true by done. cbn match.
  destruct (walks_agree keyOK (2 * str_len data)) as (_ & Ho & _). specialize (Ho 1 ∅ d). split.
  - intros (d' & (l & -> & Hl)%Ho & He)%bind_ok. split; [lia|]. split; [done|]. exists l. split; [|done]. simpl.
    destruct (Token d') as [|x]; [done|]. by case_bool_decide.
  - intros (_ & _ & l & Hl & Ha). destruct (read_members _ _) as [[l' d']|] eqn:Hm; [|done]. simpl in Hl.
    destruct (Token d') as [|x] eqn:Ht'; [done|]. case_bool_decide; [|done]. injection Hl as <-.
    rewrite (proj2 (Ho d')) by eauto. simpl. rewrite Ht'. by rewrite bool_decide_true.
Qed.

(** C38: A wire document is accepted exactly when it is a JSON object within the
    byte budget, in UTF-8, whose member names are admissible and unique at
    every depth and which nests at most 64 levels: the guard, which builds no
    value, agrees with reading the whole tree; a stream is read exactly when
    all of it would be accepted. *)
Theorem strict_documents data keyOK maxBytes :
  (validateObject data keyOK maxBytes = Ok tt <->
   (0 < Z.of_nat (str_len data) <= maxBytes)%Z /\ utf8_valid data = true
   /\ exists l, read_document data = Ok (JObj l) /\ members_admissible keyOK 1 ∅ l = true)
  /\ (ReadObject data None = Ok data <-> ValidateObject data = Ok tt).
Proof.
  split; [apply validateObject_reads|]. unfold ReadObject, ValidateObject.
  destruct (decide (S MaxBytes < str_len data)%nat) as [Hl|Hl].
  - split.
    + intros (_ & _ & Hd)%bind_ok. assert (unbytes (take (S MaxBytes) (bytes data)) = data) as Hd' by congruence.
      apply (f_equal bytes) in Hd'. rewrite bytes_unbytes in Hd'. apply (f_equal length) in Hd'.
      rewrite length_take, bytes_length in Hd'. lia.
    + intros (Hs & _)%validateObject_reads. lia.
  - rewrite take_ge by (rewrite bytes_length; lia).
    unfold unbytes, bytes. rewrite Stdlib.Strings.String.string_of_list_ascii_of_string.
    split; [by intros ([] & ? & _)%bind_ok | by intros ->].
Qed.

Lemma all_fresh_keys (l : list string) : all_fresh ∅ l = true <-> NoDup l.
Proof. rewrite all_fresh_spec. set_solver. Qed.

(** What the platform prints it accepts: the canonical text of an object
    passes the guard exactly when it fits the budget, its member names are
    admissible and not repeated and it does not nest too deep, so under the
    lower-case key rule two names that differ only in case never meet. *)
Theorem strict_canonical fs keyOK maxBytes :
  well_encoded (JObj fs) = true ->
  validateObject (marshal (JObj fs)) keyOK maxBytes = Ok tt <->
  (0 < Z.of_nat (str_len (marshal (JObj fs))) <= maxBytes)%Z /\ NoDup fs.*1
  /\ Forall (fun kv => keyOK kv.1 = true /\ admissible keyOK 2 kv.2 = true) fs.
Proof.
  intros Hw. pose proof (marshal_utf8 (JObj fs)) as Hu. rewrite validateObject_reads, read_marshal by done. unfold members_admissible.
  assert (forall l, forallb (fun kv : string * jval => keyOK kv.1 && admissible keyOK 2 kv.2) l && all_fresh ∅ l.*1 = true
    <-> NoDup l.*1 /\ Forall (fun kv => keyOK kv.1 = true /\ admissible keyOK 2 kv.2 = true) l) as Hl.
  { intros l. rewrite andb_true_iff, all_fresh_keys, forallb_forall, Forall_forall.
    setoid_rewrite andb_true_iff. setoid_rewrite <- list_elem_of_In. tauto. }
  setoid_rewrite Hl. split; [intros (? & _ & l & [= <-] & ?); tauto | intros (? & ?); eauto 6].
Qed.

Lemma strict_canonical_witness :
  validateObject (marshal (JObj [("a", JArr [JNull]); ("b_1", JObj [])])) validKey 100 = Ok tt.
Proof. apply strict_canonical; [reflexivity|]. split; [vm_compute; done|]. split; [by repeat constructor; set_solver | by repeat constructor]. Defined.
