(* ===== verification/Core.v ===== *)
(** [internal/core]: the data of the engineering lifecycle.

    [context.go] (context references), [continuation.go] (continuation
    references), [model.go] (work items, task contracts, run inputs,
    deliveries, closures and their digests) and [work_state.go] (the work
    state machine). *)
From S2P Require Import Prelude Canonical.

(** ** context.go *)

Definition ErrInvalidContext : goerr := ESentinel "core.ErrInvalidContext" "invalid context reference".
Definition ContextApproved : string := "APPROVED".
Definition ContextUntrusted : string := "UNTRUSTED".

Record ContextRef := mkContextRef {
  cr_Source : string; cr_Type : string; cr_Version : string; cr_Digest : string; cr_Trust : string
}.

#[export] Instance ContextRef_eq_dec : EqDecision ContextRef.
Proof. solve_decision. Defined.

Definition contextSource (s : string) : bool :=
  matches_name is_alnum (fun c => is_alnum c || one_of "._:-" c) 255 s.
Definition contextVersion (s : string) : bool :=
  matches_name is_alnum (fun c => is_alnum c || one_of "._+-" c) 127 s.

Definition invalid_context (msg : string) : goerr := EWrap "" ErrInvalidContext (": " +:+ msg).

Definition ContextRef_Validate (r : ContextRef) : outcome unit :=
  if decide (contextSource (cr_Source r) = false \/ contextVersion (cr_Version r) = false)
  then Err (invalid_context "source/version must be bounded logical identifiers, not locators")
  else if decide (cr_Type r ∉ ["DOCUMENT"; "SKILL"; "LOG"; "EVIDENCE"])
  then Err (invalid_context "unknown type")
  else if decide (ValidDigest (cr_Digest r) = false)
  then Err (invalid_context "canonical raw-byte SHA-256 is required")
  else if decide (cr_Trust r <> ContextApproved /\ cr_Trust r <> ContextUntrusted)
  then Err (invalid_context "explicit trust classification is required")
  else Ok tt.

(** The loop of [ValidateContextRefs], with its [seen] map and index [i]. *)
Fixpoint context_refs_loop (i : nat) (seen : gset string) (refs : list ContextRef) : outcome unit :=
  match refs with
  | [] => Ok tt
  | ref :: rest =>
    match ContextRef_Validate ref with
    | Err e => Err (EWrap ("context[" +:+ pretty i +:+ "]: ") e "")
    | Ok _ =>
      let key := cr_Type ref +:+ ":" +:+ cr_Source ref in
      if decide (key ∈ seen) then Err (invalid_context ("duplicate source/type at context[" +:+ pretty i +:+ "]"))
      else context_refs_loop (Nat.succ i) ({[key]} ∪ seen) rest
    end
  end.

Definition ValidateContextRefs (refs : list ContextRef) : outcome unit :=
  if decide (64 < length refs) then Err (invalid_context "at most 64 context references")
  else context_refs_loop 0 ∅ refs.

(** ** continuation.go *)

Definition MaxSourceCheckpointArchiveSize : Z := Z.shiftl 800 20.

Record ContinuationRef := mkContinuationRef {
  co_SourceRunID : string; co_CheckpointDigest : string; co_ArchiveDigest : string;
  co_ArchiveSize : Z; co_SnapshotDigest : string
}.

#[export] Instance ContinuationRef_eq_dec : EqDecision ContinuationRef.
Proof. solve_decision. Defined.

Definition nul_cr_lf : string := bs [0; 13; 10]%N.

Definition ContinuationRef_Validate (c : ContinuationRef) (runID : string) : outcome unit :=
  if decide (co_SourceRunID c = "" \/ 256 < str_len (co_SourceRunID c) \/ co_SourceRunID c = runID
             \/ contains_any nul_cr_lf (co_SourceRunID c) = true
             \/ (co_ArchiveSize c <= 0)%Z \/ (MaxSourceCheckpointArchiveSize < co_ArchiveSize c)%Z)
  then Err (ENew "invalid source continuation identity")
  else if forallb ValidDigest [co_CheckpointDigest c; co_ArchiveDigest c; co_SnapshotDigest c]
  then Ok tt
  else Err (ENew "invalid source continuation digest").

(** ** model.go *)

Definition WorkDraft : string := "DRAFT".
Definition WorkReady : string := "READY".
Definition WorkExecuting : string := "EXECUTING".
Definition WorkVerifying : string := "VERIFYING".
Definition WorkReviewing : string := "REVIEWING".
Definition WorkClosed : string := "CLOSED".
Definition WorkCancelled : string := "CANCELLED".

Record WorkItem := mkWorkItem {
  wi_ID : string; wi_Title : string; wi_SourceRef : string; wi_HumanOwner : string;
  wi_TargetID : string; wi_AssuranceClass : string;
  wi_ActiveTaskContractDigest : string; wi_ActiveRunID : string;
  wi_State : string; wi_Version : N; wi_CreatedAt : time
}.

Record TaskContract := mkTaskContract {
  tc_ID : string; tc_WorkItemID : string; tc_TaskType : string;
  tc_CapabilityIDs : list string; tc_SkillIDs : list string;
  tc_SkillContractDigest : string; tc_SkillGuidanceVersion : Z;
  tc_Repository : string; tc_BaseCommit : string; tc_TargetID : string; tc_TargetPlatform : string;
  tc_AcceptanceCriteria : list string; tc_AllowedActions : list string; tc_ExpectedOutputs : list string;
  tc_VerificationPlanID : string; tc_VerificationPlanDigest : string; tc_Revision : N
}.

Record RunInputManifest := mkRunInput {
  ri_Continuation : option ContinuationRef; ri_RunID : string; ri_TaskContractDigest : string;
  ri_ContextRefs : list ContextRef; ri_RuntimeProfile : string; ri_ToolProfile : string;
  ri_WorkerProfile : string; ri_PolicyProfile : string
}.

Record ArtifactRef := mkArtifactRef {
  ar_ID : string; ar_Digest : string; ar_MediaType : string; ar_Locator : string
}.

Record EvidenceRef := mkEvidenceRef {
  ev_ID : string; ev_DeliveryReceiptID : string; ev_RequirementID : string; ev_SubjectDigest : string;
  ev_Issuer : string; ev_Procedure : string; ev_Result : string; ev_ArtifactRefs : list string;
  ev_Applicable : bool
}.

Record DeliveryReceipt := mkDelivery {
  dr_ID : string; dr_WorkItemID : string; dr_TaskContractDigest : string; dr_RunID : string;
  dr_TargetID : string; dr_BaseCommit : string; dr_ResultCommit : string; dr_SubjectDigest : string;
  dr_Artifacts : list ArtifactRef; dr_KnownLimits : list string; dr_CreatedAt : time
}.

Record ClosureReceipt := mkClosure {
  cl_ID : string; cl_WorkItemID : string; cl_TaskContractDigest : string; cl_RunID : string;
  cl_DeliveryReceiptID : string; cl_VerificationReportID : string; cl_ReviewReportID : string;
  cl_SubjectDigest : string; cl_Result : string; cl_CreatedAt : time
}.

#[export] Instance WorkItem_eq_dec : EqDecision WorkItem.
Proof. solve_decision. Defined.
#[export] Instance TaskContract_eq_dec : EqDecision TaskContract.
Proof. solve_decision. Defined.
#[export] Instance RunInputManifest_eq_dec : EqDecision RunInputManifest.
Proof. solve_decision. Defined.
#[export] Instance ArtifactRef_eq_dec : EqDecision ArtifactRef.
Proof. solve_decision. Defined.

Definition set_wi_State (s : string) (w : WorkItem) : WorkItem :=
  mkWorkItem (wi_ID w) (wi_Title w) (wi_SourceRef w) (wi_HumanOwner w) (wi_TargetID w) (wi_AssuranceClass w)
    (wi_ActiveTaskContractDigest w) (wi_ActiveRunID w) s (wi_Version w) (wi_CreatedAt w).
Definition set_wi_Version (v : N) (w : WorkItem) : WorkItem :=
  mkWorkItem (wi_ID w) (wi_Title w) (wi_SourceRef w) (wi_HumanOwner w) (wi_TargetID w) (wi_AssuranceClass w)
    (wi_ActiveTaskContractDigest w) (wi_ActiveRunID w) (wi_State w) v (wi_CreatedAt w).
Definition set_wi_Active (task_digest run : string) (w : WorkItem) : WorkItem :=
  mkWorkItem (wi_ID w) (wi_Title w) (wi_SourceRef w) (wi_HumanOwner w) (wi_TargetID w) (wi_AssuranceClass w)
    task_digest run (wi_State w) (wi_Version w) (wi_CreatedAt w).
Definition set_wi_CreatedAt (t : time) (w : WorkItem) : WorkItem :=
  mkWorkItem (wi_ID w) (wi_Title w) (wi_SourceRef w) (wi_HumanOwner w) (wi_TargetID w) (wi_AssuranceClass w)
    (wi_ActiveTaskContractDigest w) (wi_ActiveRunID w) (wi_State w) (wi_Version w) t.

(** The JSON documents the digests hash: fields in struct order. *)
Definition TaskContract_json (t : TaskContract) : jval := JObj
  (jstr "task_contract_id" (tc_ID t) ++ jstr "work_item_id" (tc_WorkItemID t)
   ++ jstr "task_type" (tc_TaskType t) ++ jstrs "capability_ids" (tc_CapabilityIDs t)
   ++ jstrs "skill_ids" (tc_SkillIDs t) ++ jstr_omit "skill_contract_digest" (tc_SkillContractDigest t)
   ++ (if decide (tc_SkillGuidanceVersion t = 0%Z) then []
       else [("skill_guidance_version", JNum (tc_SkillGuidanceVersion t))])
   ++ jstr "repository" (tc_Repository t) ++ jstr "base_commit" (tc_BaseCommit t)
   ++ jstr_omit "target_id" (tc_TargetID t) ++ jstr_omit "target_platform" (tc_TargetPlatform t)
   ++ jstrs "acceptance_criteria" (tc_AcceptanceCriteria t)
   ++ jstrs_omit "allowed_actions" (tc_AllowedActions t)
   ++ jstrs_omit "expected_outputs" (tc_ExpectedOutputs t)
   ++ jstr "verification_plan_id" (tc_VerificationPlanID t)
   ++ jstr "verification_plan_digest" (tc_VerificationPlanDigest t)
   ++ jnum "revision" (tc_Revision t)).

Definition ContinuationRef_json (c : ContinuationRef) : jval := JObj
  (jstr "source_run_id" (co_SourceRunID c) ++ jstr "checkpoint_digest" (co_CheckpointDigest c)
   ++ jstr "archive_digest" (co_ArchiveDigest c) ++ [("archive_size", JNum (co_ArchiveSize c))]
   ++ jstr "snapshot_digest" (co_SnapshotDigest c)).

Definition ContextRef_json (r : ContextRef) : jval := JObj
  (jstr "source" (cr_Source r) ++ jstr "type" (cr_Type r) ++ jstr "version" (cr_Version r)
   ++ jstr "digest" (cr_Digest r) ++ jstr "trust" (cr_Trust r)).

Definition RunInputManifest_json (m : RunInputManifest) : jval := JObj
  (match ri_Continuation m with Some c => [("continuation", ContinuationRef_json c)] | None => [] end
   ++ jstr "run_id" (ri_RunID m) ++ jstr "task_contract_digest" (ri_TaskContractDigest m)
   ++ jobjs_omit "context_refs" (ContextRef_json <$> ri_ContextRefs m)
   ++ jstr "runtime_profile" (ri_RuntimeProfile m) ++ jstr "tool_profile" (ri_ToolProfile m)
   ++ jstr "worker_profile" (ri_WorkerProfile m) ++ jstr "policy_profile" (ri_PolicyProfile m)).

(** [RunInputManifest.UnmarshalJSON] after the decoder filled the struct:
    the checks made at the JSON boundary. *)
Definition RunInputManifest_accept (m : RunInputManifest) : outcome RunInputManifest :=
  _ ← ValidateContextRefs (ri_ContextRefs m);
  match ri_Continuation m with
  | Some c => _ ← ContinuationRef_Validate c (ri_RunID m); Ok m
  | None => Ok m
  end.

Definition artifact_le (a b : string * string) : Prop :=
  if decide (a.1 = b.1) then String.le a.2 b.2 else String.le a.1 b.1.
#[export] Instance artifact_le_dec : RelDecision artifact_le.
Proof. intros a b. unfold artifact_le. destruct (decide (a.1 = b.1)); apply _. Defined.

(** [CalculateSubjectDigest] copies the artifact identities and sorts them by
    id, then digest. *)
Definition subject_artifacts (l : list ArtifactRef) : list (string * string) :=
  merge_sort artifact_le ((fun a => (ar_ID a, ar_Digest a)) <$> l).

Definition deliverySubject_json (d : DeliveryReceipt) : jval := JObj
  (jstr "task_contract_digest" (dr_TaskContractDigest d) ++ jstr "run_id" (dr_RunID d)
   ++ jstr_omit "target_id" (dr_TargetID d) ++ jstr "base_commit" (dr_BaseCommit d)
   ++ jstr_omit "result_commit" (dr_ResultCommit d)
   ++ jobjs_omit "artifacts"
        ((fun p => JObj (jstr "artifact_id" p.1 ++ jstr "digest" p.2)) <$> subject_artifacts (dr_Artifacts d))).

Section digests.
Context `{Hash}.

Definition TaskContract_Digest (t : TaskContract) : outcome string := Digest (TaskContract_json t).

Definition RunInputManifest_Digest (m : RunInputManifest) : outcome string :=
  _ ← match ri_Continuation m with Some c => ContinuationRef_Validate c (ri_RunID m) | None => Ok tt end;
  _ ← ValidateContextRefs (ri_ContextRefs m);
  Digest (RunInputManifest_json m).

Definition CalculateSubjectDigest (d : DeliveryReceipt) : outcome string := Digest (deliverySubject_json d).

End digests.

(** ** work_state.go *)

Definition ErrInvalidWorkTransition : goerr :=
  ESentinel "core.ErrInvalidWorkTransition" "invalid work state transition".

Definition work_transition_allowed (from to : string) : bool :=
  if decide (from = WorkDraft) then bool_decide (to = WorkReady \/ to = WorkCancelled)
  else if decide (from = WorkReady) then bool_decide (to = WorkExecuting \/ to = WorkCancelled)
  else if decide (from = WorkExecuting) then bool_decide (to = WorkVerifying \/ to = WorkCancelled)
  else if decide (from = WorkVerifying) then bool_decide (to = WorkReviewing \/ to = WorkCancelled)
  else if decide (from = WorkReviewing) then bool_decide (to = WorkClosed \/ to = WorkCancelled)
  else false.

Definition WorkItem_Transition (w : WorkItem) (to : string) : outcome WorkItem :=
  if decide (wi_State w = to) then Ok w
  else if work_transition_allowed (wi_State w) to then Ok (set_wi_State to w)
  else Err ErrInvalidWorkTransition.

(** The abstract state machine the method implements. *)
Inductive work_step : string -> string -> Prop :=
| work_ready : work_step WorkDraft WorkReady
| work_execute : work_step WorkReady WorkExecuting
| work_verify : work_step WorkExecuting WorkVerifying
| work_review : work_step WorkVerifying WorkReviewing
| work_close : work_step WorkReviewing WorkClosed
| work_cancel s : s ∈ [WorkDraft; WorkReady; WorkExecuting; WorkVerifying; WorkReviewing] ->
    work_step s WorkCancelled.

(** The rank of a state along the lifecycle. *)
Definition work_rank (s : string) : nat :=
  if decide (s = WorkDraft) then 0 else if decide (s = WorkReady) then 1
  else if decide (s = WorkExecuting) then 2 else if decide (s = WorkVerifying) then 3
  else if decide (s = WorkReviewing) then 4 else 5.

(** ** Theorems *)

Lemma work_transition_allowed_spec from to :
  work_transition_allowed from to = true <-> work_step from to.
Proof.
  unfold work_transition_allowed. split.
  - repeat case_decide; try done; intros [-> | ->]%bool_decide_eq_true; subst; constructor; set_solver.
  - destruct 1 as [| | | | |s Hs]; try reflexivity.
    repeat (apply elem_of_cons in Hs as [-> | Hs]; [reflexivity|]). by apply elem_of_nil in Hs.
Qed.

Lemma WorkItem_Transition_inv w to w' :
  WorkItem_Transition w to = Ok w' ->
  w' = set_wi_State to w /\ (wi_State w = to \/ work_step (wi_State w) to).
Proof.
  unfold WorkItem_Transition. case_decide as Heq.
  - intros [= <-]. subst. split; [by destruct w | by left].
  - destruct (work_transition_allowed _ _) eqn:Ha; [|done]. intros [= <-].
    split; [done | right]. by apply work_transition_allowed_spec.
Qed.

Lemma work_step_rank s t : work_step s t -> (work_rank s < work_rank t)%nat.
Proof.
  destruct 1 as [| | | | |s Hs]; try (vm_compute; lia).
  repeat (apply elem_of_cons in Hs as [-> | Hs]; [vm_compute; lia|]). by apply elem_of_nil in Hs.
Qed.

Lemma work_step_closed s : ~ work_step WorkClosed s /\ ~ work_step WorkCancelled s.
Proof.
  split; intros H%work_transition_allowed_spec; revert H; unfold work_transition_allowed;
    repeat case_decide; done.
Qed.

(** ** Properties *)

(** The work item's transition method is exactly the work state machine: it
    accepts a target that is the current state or one step away, changes
    nothing but the state, and refuses anything else with
    [ErrInvalidWorkTransition]; no step leaves CLOSED or CANCELLED. *)
Theorem WorkItem_Transition_machine w to :
  (forall w', WorkItem_Transition w to = Ok w' <->
     w' = set_wi_State to w /\ (wi_State w = to \/ work_step (wi_State w) to))
  /\ (forall x, WorkItem_Transition w to = Err x -> x = ErrInvalidWorkTransition)
  /\ (wi_State w = WorkClosed \/ wi_State w = WorkCancelled -> forall w', WorkItem_Transition w to = Ok w' -> w' = w).
Proof.
  assert (forall w', WorkItem_Transition w to = Ok w' <->
     w' = set_wi_State to w /\ (wi_State w = to \/ work_step (wi_State w) to)) as Hspec.
  { intros w'. split; [apply WorkItem_Transition_inv|]. intros [-> Hs]. unfold WorkItem_Transition.
    case_decide as Heq; [subst; by destruct w|]. destruct Hs as [|Hs]; [done|].
    by apply work_transition_allowed_spec in Hs as ->. }
  split_and!; [exact Hspec | |].
  - unfold WorkItem_Transition. case_decide; [done|]. by case_match; intros ? [= <-].
  - intros Hfinal w' [-> [<-|Hs]]%Hspec; [by destruct w|].
    destruct Hfinal as [Hf|Hf]; rewrite Hf in Hs; exfalso; revert Hs; apply work_step_closed.
Qed.

Definition context_key (r : ContextRef) : string := cr_Type r +:+ ":" +:+ cr_Source r.

Lemma context_refs_loop_spec i seen refs :
  context_refs_loop i seen refs = Ok tt <->
  Forall (fun r => ContextRef_Validate r = Ok tt /\ context_key r ∉ seen) refs /\ NoDup (context_key <$> refs).
Proof.
  revert i seen. induction refs as [|r refs IH]; intros i seen; cbn [context_refs_loop].
  { split; [by repeat constructor | done]. }
  rewrite Forall_cons, fmap_cons, NoDup_cons, list_elem_of_fmap.
  destruct (ContextRef_Validate r) as [[]|x]; [|split; [done|]; naive_solver].
  fold (context_key r). case_decide as Hk; [split; [done|]; naive_solver|]. rewrite IH, !Forall_forall. split.
  - intros [Hf Hn]. split_and!; try done.
    + intros y Hy. destruct (Hf y Hy) as [? ?%not_elem_of_union]. naive_solver.
    + intros (y & Hy & Hin). destruct (Hf y Hin) as [_ Hs]. set_solver.
  - intros [[_ Hf] [Hnot Hn]]. split; [|done]. intros y Hy. destruct (Hf y Hy). split; [done|].
    apply not_elem_of_union. split; [|done]. intros Hyk%elem_of_singleton. eauto.
Qed.

(** A list of context references is accepted exactly when it has at most
    64 entries, each of them valid, and no type and source twice; so the digest
    of a run's input exists exactly for the inputs the JSON boundary accepts. *)
Theorem context_references_bounded `{Hash} m :
  (ValidateContextRefs (ri_ContextRefs m) = Ok tt <->
     length (ri_ContextRefs m) <= 64 /\ Forall (fun r => ContextRef_Validate r = Ok tt) (ri_ContextRefs m)
     /\ NoDup (context_key <$> ri_ContextRefs m))
  /\ (is_ok (RunInputManifest_Digest m) = true <-> RunInputManifest_accept m = Ok m).
Proof.
  split.
  - unfold ValidateContextRefs. case_decide as Hl; [split; [done|]; lia|]. rewrite context_refs_loop_spec.
    rewrite !Forall_forall. split; [intros [Hf Hn]; split_and!; [lia | | done]; intros; by apply Hf|].
    intros (_ & Hf & Hn). split; [|done]. intros r Hr. split; [by apply Hf | set_solver].
  - unfold RunInputManifest_Digest, RunInputManifest_accept.
    destruct (ValidateContextRefs _) as [[]|x]; simpl; destruct (ri_Continuation m) as [c|]; simpl;
      try destruct (ContinuationRef_Validate c _); by simpl.
Qed.

Lemma artifact_le_total : Total artifact_le.
Proof.
  intros a b. unfold artifact_le. destruct (decide (a.1 = b.1)) as [E|E].
  - rewrite E, decide_True by done. apply String.le_total.
  - rewrite decide_False by done. apply String.le_total.
Qed.
#[local] Existing Instance artifact_le_total.
#[local] Instance artifact_le_trans : Transitive artifact_le.
Proof.
  intros a b c. unfold artifact_le.
  destruct (decide (a.1 = b.1)) as [E1|E1], (decide (b.1 = c.1)) as [E2|E2], (decide (a.1 = c.1)) as [E3|E3];
    intros Hab Hbc; try congruence.
  - by transitivity b.2.
  - exfalso. apply E1. apply (anti_symm String.le); [done|]. by rewrite E3.
  - by transitivity b.1.
Qed.
#[local] Instance artifact_le_antisym : AntiSymm (=) artifact_le.
Proof.
  intros [a1 a2] [b1 b2]. unfold artifact_le. simpl. repeat case_decide; intros; subst; try done.
  - f_equal. by apply (anti_symm String.le).
  - destruct H. by apply (anti_symm String.le).
Qed.

(** The subject digest of a delivery identifies what was delivered, not how
    it was listed: it depends only on the task contract, the run, the target,
    the commits and the set of artifact identities, in whatever order, so two
    receipts for the same result have the same subject. *)
Theorem subject_digest_order `{Hash} d d' :
  (fun a => (ar_ID a, ar_Digest a)) <$> dr_Artifacts d ≡ₚ (fun a => (ar_ID a, ar_Digest a)) <$> dr_Artifacts d' ->
  dr_TaskContractDigest d = dr_TaskContractDigest d' -> dr_RunID d = dr_RunID d' ->
  dr_TargetID d = dr_TargetID d' -> dr_BaseCommit d = dr_BaseCommit d' -> dr_ResultCommit d = dr_ResultCommit d' ->
  CalculateSubjectDigest d = CalculateSubjectDigest d'.
Proof.
  intros Hp H1 H2 H3 H4 H5. unfold CalculateSubjectDigest, deliverySubject_json. rewrite H1, H2, H3, H4, H5.
  assert (subject_artifacts (dr_Artifacts d) = subject_artifacts (dr_Artifacts d')) as ->; [|done].
  unfold subject_artifacts. apply (Sorted_unique artifact_le); [apply Sorted_merge_sort; apply _..|].
  by rewrite !merge_sort_Permutation.
Qed.

Lemma subject_digest_order_witness :
  CalculateSubjectDigest (mkDelivery "D" "W" "t" "r" "" "b" "" "" [mkArtifactRef "a" "1" "" ""; mkArtifactRef "b" "2" "" ""] [] 0)
  = CalculateSubjectDigest (mkDelivery "E" "X" "t" "r" "" "b" "" "" [mkArtifactRef "b" "2" "x" "y"; mkArtifactRef "a" "1" "" ""] ["z"] 5).
Proof. apply subject_digest_order; try reflexivity. apply perm_swap. Defined.
