(* ===== verification/Run.v ===== *)
(** [internal/run/model.go]: a run, its attempts and its execution epochs. *)
From S2P Require Import Prelude.

Definition run_ErrStaleEpoch : goerr := ESentinel "run.ErrStaleEpoch" "stale execution epoch".
Definition run_ErrTerminal : goerr := ESentinel "run.ErrTerminal" "run is terminal".

Definition run_Created : string := "CREATED".
Definition run_Running : string := "RUNNING".
Definition run_Paused : string := "PAUSED".
Definition run_HumanControlled : string := "HUMAN_CONTROLLED".
Definition run_Completed : string := "COMPLETED".
Definition run_Aborted : string := "ABORTED".

Record Attempt := mkAttempt {
  at_ID : string; at_Epoch : N; at_StartedAt : time; at_EndedAt : time
}.

Record Run := mkRun {
  r_ID : string; r_TaskContractDigest : string; r_RunInputManifestDigest : string;
  r_State : string; r_Version : N; r_CurrentEpoch : N; r_CurrentAttemptID : string;
  r_ControlOwner : string
}.

#[export] Instance Attempt_eq_dec : EqDecision Attempt.
Proof. solve_decision. Defined.
#[export] Instance Run_eq_dec : EqDecision Run.
Proof. solve_decision. Defined.

Definition set_r_State (s : string) (r : Run) : Run :=
  mkRun (r_ID r) (r_TaskContractDigest r) (r_RunInputManifestDigest r) s (r_Version r)
    (r_CurrentEpoch r) (r_CurrentAttemptID r) (r_ControlOwner r).
Definition set_r_Version (v : N) (r : Run) : Run :=
  mkRun (r_ID r) (r_TaskContractDigest r) (r_RunInputManifestDigest r) (r_State r) v
    (r_CurrentEpoch r) (r_CurrentAttemptID r) (r_ControlOwner r).

Definition Run_New (id taskDigest inputDigest : string) : Run :=
  mkRun id taskDigest inputDigest run_Created 1 0 "" "RUNTIME".

Definition run_terminal (r : Run) : Prop := r_State r = run_Completed \/ r_State r = run_Aborted.
#[export] Instance run_terminal_dec r : Decision (run_terminal r).
Proof. unfold run_terminal. apply _. Defined.

Definition StartAttempt (r : Run) (id : string) (t : time) : outcome (Attempt * Run) :=
  if decide (run_terminal r) then Err run_ErrTerminal
  else
    let epoch := u64_succ (r_CurrentEpoch r) in
    Ok (mkAttempt id epoch t zero_time,
        mkRun (r_ID r) (r_TaskContractDigest r) (r_RunInputManifestDigest r) run_Running (r_Version r)
          epoch id "RUNTIME").

Definition Run_CheckEpoch (r : Run) (epoch : N) : outcome unit :=
  if decide (epoch <> r_CurrentEpoch r)
  then Err (EWrap "" run_ErrStaleEpoch (": got " +:+ pretty epoch +:+ " want " +:+ pretty (r_CurrentEpoch r)))
  else if decide (run_terminal r) then Err run_ErrTerminal
  else Ok tt.

Definition Run_Pause (r : Run) (epoch : N) : outcome Run :=
  _ ← Run_CheckEpoch r epoch; Ok (set_r_State run_Paused r).
Definition Run_Resume (r : Run) (epoch : N) : outcome Run :=
  _ ← Run_CheckEpoch r epoch; Ok (set_r_State run_Running r).

(** The returned epoch is [fst] of the result. *)
Definition Run_Takeover (r : Run) (epoch : N) : outcome (N * Run) :=
  _ ← Run_CheckEpoch r epoch;
  let e := u64_succ (r_CurrentEpoch r) in
  Ok (e, mkRun (r_ID r) (r_TaskContractDigest r) (r_RunInputManifestDigest r) run_HumanControlled
           (r_Version r) e (r_CurrentAttemptID r) "HUMAN").

Definition Run_Complete (r : Run) (epoch : N) : outcome Run :=
  _ ← Run_CheckEpoch r epoch; Ok (set_r_State run_Completed r).
Definition Run_Abort (r : Run) (epoch : N) : outcome Run :=
  _ ← Run_CheckEpoch r epoch; Ok (set_r_State run_Aborted r).

(** One call of a mutating method on a run, as a relation. *)
Inductive run_call : Run -> Run -> Prop :=
| call_start r id t a r' : StartAttempt r id t = Ok (a, r') -> run_call r r'
| call_pause r n r' : Run_Pause r n = Ok r' -> run_call r r'
| call_resume r n r' : Run_Resume r n = Ok r' -> run_call r r'
| call_takeover r n e r' : Run_Takeover r n = Ok (e, r') -> run_call r r'
| call_complete r n r' : Run_Complete r n = Ok r' -> run_call r r'
| call_abort r n r' : Run_Abort r n = Ok r' -> run_call r r'.

(** ** Theorems *)

Lemma Run_CheckEpoch_ok r epoch :
  Run_CheckEpoch r epoch = Ok tt <-> epoch = r_CurrentEpoch r /\ ~ run_terminal r.
Proof.
  unfold Run_CheckEpoch. case_decide as He; [naive_solver|].
  case_decide; naive_solver.
Qed.

Ltac run_inv :=
  unfold Run_Pause, Run_Resume, Run_Takeover, Run_Complete, Run_Abort, StartAttempt in *; ok_inv;
  repeat match goal with
  | a : unit |- _ => destruct a
  | H : Run_CheckEpoch _ _ = Ok tt |- _ => apply Run_CheckEpoch_ok in H; destruct H
  end; subst; simpl in *.

(** No call changes the frozen identity of a run. *)
Lemma run_call_identity r r' : run_call r r' ->
  r_ID r' = r_ID r /\ r_TaskContractDigest r' = r_TaskContractDigest r
  /\ r_RunInputManifestDigest r' = r_RunInputManifestDigest r /\ r_Version r' = r_Version r.
Proof. destruct 1; by run_inv. Qed.

(** A completed or aborted run accepts no call. *)
Lemma run_call_not_terminal r r' : run_call r r' -> ~ run_terminal r.
Proof. destruct 1; by run_inv. Qed.

(** A call keeps the epoch, or moves to its successor. *)
Lemma run_call_epoch r r' : run_call r r' ->
  r_CurrentEpoch r' = r_CurrentEpoch r \/ r_CurrentEpoch r' = u64_succ (r_CurrentEpoch r).
Proof. destruct 1; run_inv; auto. Qed.

(** ** Properties *)

Definition run_fenced (r : Run) (epoch : N) : Prop :=
  is_ok (Run_Pause r epoch) = false /\ is_ok (Run_Resume r epoch) = false /\ is_ok (Run_Takeover r epoch) = false
  /\ is_ok (Run_Complete r epoch) = false /\ is_ok (Run_Abort r epoch) = false.

Lemma stale_fenced r epoch : epoch <> r_CurrentEpoch r \/ run_terminal r -> run_fenced r epoch.
Proof.
  intros Hf. assert (is_ok (Run_CheckEpoch r epoch) = false) as Hc.
  { unfold Run_CheckEpoch. repeat case_decide; try done. tauto. }
  unfold run_fenced, Run_Pause, Run_Resume, Run_Takeover, Run_Complete, Run_Abort.
  by destruct (Run_CheckEpoch r epoch).
Qed.

(** A takeover fences the run: it takes the caller's current epoch to its
    successor (also at the wrap-around of the counter), hands control to the
    human, and from then on no control call that still names the old epoch
    is accepted. *)
Theorem takeover_fences_run r epoch e r' : u64_ok (r_CurrentEpoch r) -> Run_Takeover r epoch = Ok (e, r') ->
  epoch = r_CurrentEpoch r /\ e = u64_succ epoch /\ r_CurrentEpoch r' = e /\ e <> epoch
  /\ r_State r' = run_HumanControlled /\ r_ControlOwner r' = "HUMAN" /\ run_fenced r' epoch.
Proof.
  intros Hok Ht. run_inv. pose proof (u64_succ_ne _ Hok) as Hne. split_and!; try done.
  apply stale_fenced. left. by apply not_eq_sym.
Qed.

Definition fenced_example : Run := mkRun "run-1" "t" "i" run_Running 1 (u64_modulus - 1) "A1" "RUNTIME".
Lemma takeover_fences_run_witness : exists r', run_fenced r' (u64_modulus - 1).
Proof.
  destruct (Run_Takeover fenced_example (u64_modulus - 1)) as [[e r']|x] eqn:E; [|vm_compute in E; discriminate E].
  exists r'. apply (takeover_fences_run fenced_example (u64_modulus - 1) e r'); [reflexivity | exact E].
Defined.

(** The life of a run under any sequence of its methods: the frozen
    identity and the stored version never change, each call keeps the epoch or
    takes its successor, and a completed or aborted run has no further call;
    every control call on it is refused. *)
Theorem run_life r r' : rtc run_call r r' ->
  r_ID r' = r_ID r /\ r_TaskContractDigest r' = r_TaskContractDigest r
  /\ r_RunInputManifestDigest r' = r_RunInputManifestDigest r /\ r_Version r' = r_Version r
  /\ (run_terminal r -> r' = r)
  /\ (run_terminal r' -> (forall r'', ~ run_call r' r'') /\ forall epoch, run_fenced r' epoch).
Proof.
  intros Hs. assert (forall a b, rtc run_call a b -> r_ID b = r_ID a /\ r_TaskContractDigest b = r_TaskContractDigest a
    /\ r_RunInputManifestDigest b = r_RunInputManifestDigest a /\ r_Version b = r_Version a) as Hid.
  { induction 1 as [|a b c Hc _ IH]; [done|]. apply run_call_identity in Hc. destruct IH as (? & ? & ? & ?), Hc as (? & ? & ? & ?).
    split_and!; congruence. }
  destruct (Hid _ _ Hs) as (? & ? & ? & ?). split_and!; try done.
  - intros Ht. inversion Hs as [|? ? ? Hc]; [done|]. by apply run_call_not_terminal in Hc.
  - intros Ht. split; [|intros; apply stale_fenced; by right]. intros r'' Hc. by apply run_call_not_terminal in Hc.
Qed.

Lemma run_life_witness : run_fenced (set_r_State run_Completed fenced_example) 5.
Proof.
  apply (run_life (set_r_State run_Completed fenced_example)); [apply rtc_refl|]. left. reflexivity.
Defined.
