(* ===== verification/Session.v ===== *)
(** [internal/session/model.go]: the control session of a run, steering
    commands and checkpoints. *)
From S2P Require Import Prelude Canonical Run.

Definition session_ErrStaleEpoch : goerr := ESentinel "session.ErrStaleEpoch" "stale session epoch".
Definition ErrSequence : goerr := ESentinel "session.ErrSequence" "steering sequence must increase".
Definition ErrRuntimeNotOwner : goerr :=
  ESentinel "session.ErrRuntimeNotOwner" "runtime no longer owns session writes".

Definition owner_Runtime : string := "RUNTIME".
Definition owner_Human : string := "HUMAN".

Record SteeringCommand := mkSteering {
  sc_ID : string; sc_RunID : string; sc_ExecutionEpoch : N; sc_Sequence : N; sc_Actor : string;
  sc_ContentDigest : string; sc_CreatedAt : time
}.

Record Checkpoint := mkCheckpoint {
  cp_ID : string; cp_RunID : string; cp_TaskContractDigest : string; cp_RunInputManifestDigest : string;
  cp_ExecutionEpoch : N; cp_SourceTreeDigest : string; cp_DiffDigest : string; cp_Objective : string;
  cp_Completed : list string; cp_Pending : list string; cp_Questions : list string;
  cp_LastEventSequence : N; cp_ExternalOperationCursor : string; cp_CreatedAt : time
}.

(** [checkpointContent]: everything but the id and the creation time. *)
Definition checkpointContent_json (c : Checkpoint) : jval := JObj
  (jstr "run_id" (cp_RunID c) ++ jstr "task_contract_digest" (cp_TaskContractDigest c)
   ++ jstr "run_input_manifest_digest" (cp_RunInputManifestDigest c)
   ++ jnum "execution_epoch" (cp_ExecutionEpoch c) ++ jstr "source_tree_digest" (cp_SourceTreeDigest c)
   ++ jstr_omit "diff_digest" (cp_DiffDigest c) ++ jstr_omit "objective" (cp_Objective c)
   ++ jstrs_omit "completed" (cp_Completed c) ++ jstrs_omit "pending" (cp_Pending c)
   ++ jstrs_omit "questions" (cp_Questions c) ++ jnum "last_event_sequence" (cp_LastEventSequence c)
   ++ jstr_omit "external_operation_cursor" (cp_ExternalOperationCursor c)).

Definition Checkpoint_Digest `{Hash} (c : Checkpoint) : outcome string := Digest (checkpointContent_json c).

Record Session := mkSession {
  s_RunID : string; s_ExecutionEpoch : N; s_Owner : string; s_LastSequence : N; s_Paused : bool
}.

#[export] Instance Session_eq_dec : EqDecision Session.
Proof. solve_decision. Defined.

Definition Session_New (runID : string) (epoch : N) : Session := mkSession runID epoch owner_Runtime 0 false.

Definition set_s_Paused (b : bool) (s : Session) : Session :=
  mkSession (s_RunID s) (s_ExecutionEpoch s) (s_Owner s) (s_LastSequence s) b.
Definition set_s_LastSequence (n : N) (s : Session) : Session :=
  mkSession (s_RunID s) (s_ExecutionEpoch s) (s_Owner s) n (s_Paused s).

Definition ApplySteering (s : Session) (cmd : SteeringCommand) : outcome Session :=
  if decide (sc_ExecutionEpoch cmd <> s_ExecutionEpoch s) then Err session_ErrStaleEpoch
  else if decide (s_Owner s <> owner_Runtime) then Err ErrRuntimeNotOwner
  else if decide (sc_Sequence cmd <= s_LastSequence s)%N then Err ErrSequence
  else Ok (set_s_LastSequence (sc_Sequence cmd) s).

Definition Session_Pause (s : Session) (epoch : N) : outcome Session :=
  if decide (epoch <> s_ExecutionEpoch s) then Err session_ErrStaleEpoch else Ok (set_s_Paused true s).
Definition Session_Resume (s : Session) (epoch : N) : outcome Session :=
  if decide (epoch <> s_ExecutionEpoch s) then Err session_ErrStaleEpoch else Ok (set_s_Paused false s).

Definition Session_Takeover (s : Session) (epoch : N) : outcome (N * Session) :=
  if decide (epoch <> s_ExecutionEpoch s) then Err session_ErrStaleEpoch
  else
    let e := u64_succ (s_ExecutionEpoch s) in
    Ok (e, mkSession (s_RunID s) e owner_Human (s_LastSequence s) (s_Paused s)).

(** A batch of steering commands, applied in order; a refused one changes nothing. *)
Fixpoint steer_all (s : Session) (cmds : list SteeringCommand) : Session * list SteeringCommand :=
  match cmds with
  | [] => (s, [])
  | c :: rest =>
    match ApplySteering s c with
    | Ok s' => let '(sf, acc) := steer_all s' rest in (sf, c :: acc)
    | Err _ => steer_all s rest
    end
  end.

(** ** Theorems *)

Lemma ApplySteering_inv s c s' : ApplySteering s c = Ok s' ->
  sc_ExecutionEpoch c = s_ExecutionEpoch s /\ s_Owner s = owner_Runtime
  /\ (s_LastSequence s < sc_Sequence c)%N /\ s' = set_s_LastSequence (sc_Sequence c) s.
Proof.
  unfold ApplySteering. repeat case_decide; try done. intros [= <-].
  repeat split; try done; lia.
Qed.

(** The commands a session accepts have strictly increasing sequence numbers,
    all above the last one it had recorded. *)
Lemma steer_all_sorted s cmds :
  let '(sf, acc) := steer_all s cmds in
  StronglySorted N.lt (s_LastSequence s :: (sc_Sequence <$> acc))
  /\ acc `sublist_of` cmds /\ s_ExecutionEpoch sf = s_ExecutionEpoch s /\ s_Owner sf = s_Owner s.
Proof.
  revert s. induction cmds as [|c cmds IH]; intros s; simpl.
  { repeat split; repeat constructor. }
  destruct (ApplySteering s c) as [s'|] eqn:E.
  - apply ApplySteering_inv in E as (He & Ho & Hlt & ->).
    specialize (IH (set_s_LastSequence (sc_Sequence c) s)).
    destruct (steer_all _ cmds) as [sf acc]. simpl in *. destruct IH as (Hs & Hsub & -> & ->).
    repeat split; [|by constructor].
    constructor; [exact Hs|]. constructor; [exact Hlt|].
    inversion Hs as [|? ? _ Hall]; subst. eapply Forall_impl; [exact Hall|]. simpl. lia.
  - specialize (IH s). destruct (steer_all s cmds) as [sf acc].
    destruct IH as (Hs & Hsub & -> & ->). repeat split; try done; by constructor.
Qed.

(** An accepted command is at most the last recorded sequence, and was issued
    under the session's epoch while the runtime owned it. *)
Lemma steer_all_accepted s cmds :
  let '(sf, acc) := steer_all s cmds in
  Forall (fun c => (sc_Sequence c <= s_LastSequence sf)%N) acc /\
  Forall (fun c => sc_ExecutionEpoch c = s_ExecutionEpoch s /\ s_Owner s = owner_Runtime) acc.
Proof.
  assert (forall cs t, (s_LastSequence t <= s_LastSequence (steer_all t cs).1)%N) as Hmono.
  { induction cs as [|c cs IH]; intros t; simpl; [lia|]. destruct (ApplySteering t c) as [t'|] eqn:E; [|apply IH].
    apply ApplySteering_inv in E as (_ & _ & Hlt & ->). specialize (IH (set_s_LastSequence (sc_Sequence c) t)).
    destruct (steer_all _ cs). simpl in *. lia. }
  revert s. induction cmds as [|c cmds IH]; intros s; simpl; [by repeat constructor|].
  destruct (ApplySteering s c) as [s'|] eqn:E; [|apply IH].
  apply ApplySteering_inv in E as (He & Ho & Hlt & ->).
  pose proof (IH (set_s_LastSequence (sc_Sequence c) s)) as Hr.
  pose proof (Hmono cmds (set_s_LastSequence (sc_Sequence c) s)) as Hm.
  destruct (steer_all _ cmds) as [sf acc]. simpl in *. destruct Hr. split; by constructor.
Qed.

(** ** Properties *)

(** Steering commands are applied in order and once: out of any batch, a
    session accepts a subsequence with strictly increasing sequence numbers,
    all above the last one recorded, so a replayed or reordered command is
    refused; the epoch and the owner stay. *)
Theorem steering_ordered s cmds :
  StronglySorted N.lt (s_LastSequence s :: (sc_Sequence <$> (steer_all s cmds).2))
  /\ (steer_all s cmds).2 `sublist_of` cmds
  /\ (forall c, c ∈ (steer_all s cmds).2 -> ApplySteering (steer_all s cmds).1 c = Err ErrSequence)
  /\ Forall (fun c => sc_ExecutionEpoch c = s_ExecutionEpoch s /\ s_Owner s = owner_Runtime) (steer_all s cmds).2.
Proof.
  pose proof (steer_all_sorted s cmds) as Hs. pose proof (steer_all_accepted s cmds) as Ha.
  destruct (steer_all s cmds) as [sf acc]. simpl in *. destruct Hs as (Hsort & Hsub & He & Ho), Ha as [Hlast Hall].
  rewrite Forall_forall in Hlast, Hall. split_and!; try done; [|by apply Forall_forall].
  intros c Hc. destruct (Hall c Hc) as [Hce Hco]. unfold ApplySteering.
  rewrite He, Ho, !decide_False by (rewrite ?Hce, ?Hco; tauto). rewrite decide_True; [done|]. by apply Hlast.
Qed.

(** A takeover fences the session too: the human owns it under the next
    epoch, and no steering command, whatever its epoch and sequence, reaches
    the runtime; the run and its session leave a takeover with the same epoch
    if they entered it with the same. *)
Theorem takeover_fences_session s epoch e s' cmd : Session_Takeover s epoch = Ok (e, s') ->
  epoch = s_ExecutionEpoch s /\ e = u64_succ epoch /\ s_ExecutionEpoch s' = e /\ s_Owner s' = owner_Human
  /\ is_ok (ApplySteering s' cmd) = false
  /\ (forall r er r', r_CurrentEpoch r = s_ExecutionEpoch s -> Run_Takeover r epoch = Ok (er, r') -> er = e).
Proof.
  unfold Session_Takeover. case_decide as Hd; [done|]. intros [= <- <-]. subst epoch. split_and!; try done; simpl.
  - unfold ApplySteering. simpl. by case_decide.
  - intros r er r' Heq Hr. run_inv. by rewrite Heq.
Qed.

Lemma takeover_fences_session_witness :
  is_ok (ApplySteering (mkSession "run-1" 2 owner_Human 5 false) (mkSteering "c" "run-1" 2 6 "a" "d" 0)) = false.
Proof.
  apply (takeover_fences_session (mkSession "run-1" 1 owner_Runtime 5 false) 1 2
    (mkSession "run-1" 2 owner_Human 5 false)). reflexivity.
Defined.
