(* ===== verification/Recovery.v ===== *)
(** [internal/recovery]: the recovery epoch and mode ([manager.go]), the
    reconciliation proof ([proof.go]) and the two abandonment records
    ([execution.go], [action_planned.go]). *)
From S2P Require Import Prelude Canonical.

(** ** manager.go *)

Definition recovery_ErrStaleEpoch : goerr := ESentinel "recovery.ErrStaleEpoch" "stale recovery epoch".
Definition ErrRecoveryMode : goerr := ESentinel "recovery.ErrRecoveryMode"
  "mutating external actions are blocked during recovery reconciliation".
Definition ErrAlreadyRecovering : goerr := ESentinel "recovery.ErrAlreadyRecovering"
  "recovery reconciliation is already active".
Definition ErrReconciliationRequired : goerr := ESentinel "recovery.ErrReconciliationRequired"
  "reconciliation must be confirmed before leaving recovery mode".

Definition mode_Normal : string := "NORMAL".
Definition mode_RecoveryReconciliation : string := "RECOVERY_RECONCILIATION".

Record Manager := mkManager { m_Epoch : N; m_Mode : string }.

#[export] Instance Manager_eq_dec : EqDecision Manager.
Proof. solve_decision. Defined.

Definition Manager_New : Manager := mkManager 0 mode_Normal.

Definition Manager_Begin (m : Manager) : N * Manager :=
  let e := u64_succ (m_Epoch m) in (e, mkManager e mode_RecoveryReconciliation).

Definition Manager_CheckEpoch (m : Manager) (epoch : N) : outcome unit :=
  if decide (epoch <> m_Epoch m) then Err recovery_ErrStaleEpoch else Ok tt.

Definition AuthorizeIrreversible (m : Manager) (epoch : N) : outcome unit :=
  _ ← Manager_CheckEpoch m epoch;
  if decide (m_Mode m = mode_RecoveryReconciliation) then Err ErrRecoveryMode else Ok tt.

Definition Manager_Complete (m : Manager) (epoch : N) (reconciled : bool) : outcome Manager :=
  _ ← Manager_CheckEpoch m epoch;
  if negb reconciled then Err ErrReconciliationRequired
  else Ok (mkManager (m_Epoch m) mode_Normal).

(** ** proof.go *)

Definition ProofKind : string := "RECOVERY_RECONCILIATION_V1".

Record Facts := mkFacts {
  f_ExternalUnresolved : N; f_MutationOutboxLeases : N; f_WorkerLeases : N; f_OfflineUnresolved : N
}.

Definition Facts_Clear (f : Facts) : bool :=
  bool_decide (f_ExternalUnresolved f = 0%N /\ f_MutationOutboxLeases f = 0%N
               /\ f_WorkerLeases f = 0%N /\ f_OfflineUnresolved f = 0%N).

Record Proof_ := mkProof {
  p_Kind : string; p_RecoveryEpoch : N; p_Reconciler : string; p_Facts : Facts; p_FactsDigest : string;
  p_AuditSequence : N; p_AuditDigest : string; p_CreatedAt : time
}.

Definition boundedProofString (value : string) (max : nat) : bool := bounded value max.

Definition Facts_json (f : Facts) : jval := JObj
  (jnum "external_unresolved" (f_ExternalUnresolved f) ++ jnum "mutation_outbox_leases" (f_MutationOutboxLeases f)
   ++ jnum "worker_leases" (f_WorkerLeases f) ++ jnum "offline_unresolved" (f_OfflineUnresolved f)).

Definition Proof_json (p : Proof_) : jval := JObj
  (jstr "kind" (p_Kind p) ++ jnum "recovery_epoch" (p_RecoveryEpoch p) ++ jstr "reconciler" (p_Reconciler p)
   ++ [("facts", Facts_json (p_Facts p))] ++ jstr "facts_digest" (p_FactsDigest p)
   ++ jnum "audit_sequence" (p_AuditSequence p) ++ jstr "audit_digest" (p_AuditDigest p)
   ++ jtime "created_at" (p_CreatedAt p)).

Section proofs.
Context `{Hash}.

Definition Proof_Validate (p : Proof_) : outcome unit :=
  if decide (p_Kind p <> ProofKind \/ p_RecoveryEpoch p = 0%N
             \/ boundedProofString (p_Reconciler p) 256 = false \/ Facts_Clear (p_Facts p) = false
             \/ ValidDigest (p_FactsDigest p) = false \/ IsZero (p_CreatedAt p) = true)
  then Err (ENew "invalid recovery reconciliation proof")
  else match Digest (Facts_json (p_Facts p)) with
  | Err _ => Err (ENew "recovery facts digest mismatch")
  | Ok digest =>
    if decide (digest <> p_FactsDigest p) then Err (ENew "recovery facts digest mismatch")
    else if decide (p_AuditSequence p = 0%N)
    then if decide (p_AuditDigest p <> "") then Err (ENew "empty audit chain must not carry a digest") else Ok tt
    else if ValidDigest (p_AuditDigest p) then Ok tt else Err (ENew "invalid audit head digest")
  end.

Definition Proof_Digest (p : Proof_) : outcome string := _ ← Proof_Validate p; Digest (Proof_json p).

End proofs.

(** ** execution.go *)

Definition ExecutionAbandonmentKind : string := "RECOVERY_EXECUTION_ABANDONMENT_V1".
Definition ExecutionOffline : string := "OFFLINE".
Definition ExecutionCodex : string := "CODEX".
Definition ExecutionAbandoned : string := "ABANDONED_RECONCILED".
Definition AbandonNoReplay : string := "ABANDON_NO_REPLAY".

Definition executionIDPattern (s : string) : bool :=
  (str_len s =? 64)%nat && str_forall is_lower_hex s.

Record ExecutionAbandonRequest := mkExecAbandon {
  xa_Version : Z; xa_ExecutionKind : string; xa_RunID : string; xa_ExecutionID : string;
  xa_RecoveryEpoch : N; xa_ObservationDigest : string; xa_Disposition : string
}.

Definition clean_id (s : string) : Prop :=
  s <> "" /\ str_len s <= 256 /\ trim_space s = s /\ contains_any (bs [0; 13; 10]%N) s = false.
#[export] Instance clean_id_dec s : Decision (clean_id s).
Proof. unfold clean_id. apply _. Defined.

Definition ExecutionAbandonRequest_Validate (r : ExecutionAbandonRequest) : outcome unit :=
  if decide (xa_Version r <> 1%Z
             \/ (xa_ExecutionKind r <> ExecutionOffline /\ xa_ExecutionKind r <> ExecutionCodex)
             \/ ~ clean_id (xa_RunID r)
             \/ executionIDPattern (xa_ExecutionID r) = false
             \/ xa_RecoveryEpoch r = 0%N \/ ValidDigest (xa_ObservationDigest r) = false
             \/ xa_Disposition r <> AbandonNoReplay)
  then Err (ENew "invalid execution reconciliation request") else Ok tt.

Definition ExecutionAbandonRequest_json (r : ExecutionAbandonRequest) : jval := JObj
  ([("version", JNum (xa_Version r))] ++ jstr "execution_kind" (xa_ExecutionKind r) ++ jstr "run_id" (xa_RunID r)
   ++ jstr "execution_id" (xa_ExecutionID r) ++ jnum "recovery_epoch" (xa_RecoveryEpoch r)
   ++ jstr "observation_digest" (xa_ObservationDigest r) ++ jstr "disposition" (xa_Disposition r)).

Record ExecutionAbandonReceipt := mkExecReceipt {
  xr_Kind : string; xr_Request : ExecutionAbandonRequest; xr_RequestDigest : string; xr_Reconciler : string;
  xr_PreviousState : string; xr_CreatedAt : time;
  xr_ExecutionAuthorized : bool; xr_ReplayAuthorized : bool; xr_ProductionQualified : bool
}.

(** ** action_planned.go *)

Definition ActionPlannedAbandonmentKind : string := "RECOVERY_ACTION_PLANNED_ABANDONMENT_V1".

Record ActionPlannedAbandonRequest := mkPlannedAbandon {
  pa_Version : Z; pa_OperationID : string; pa_RunID : string; pa_ExecutionEpoch : N;
  pa_OriginalRecoveryEpoch : N; pa_RecoveryEpoch : N; pa_IdempotencyKey : string;
  pa_OriginalRequestDigest : string; pa_ObservationDigest : string; pa_Disposition : string
}.

Definition ActionPlannedAbandonRequest_Validate (r : ActionPlannedAbandonRequest) : outcome unit :=
  if decide (Exists (fun id => ~ clean_id id) [pa_OperationID r; pa_RunID r; pa_IdempotencyKey r])
  then Err (ENew "invalid Action reservation reconciliation identity")
  else if decide (pa_Version r <> 1%Z \/ pa_ExecutionEpoch r = 0%N \/ pa_RecoveryEpoch r = 0%N
                  \/ (pa_RecoveryEpoch r <= pa_OriginalRecoveryEpoch r)%N
                  \/ (u62 < pa_RecoveryEpoch r)%N
                  \/ ValidDigest (pa_OriginalRequestDigest r) = false
                  \/ ValidDigest (pa_ObservationDigest r) = false
                  \/ pa_Disposition r <> AbandonNoReplay)
  then Err (ENew "invalid planned Action abandonment request")
  else Ok tt.

Definition ActionPlannedAbandonRequest_json (r : ActionPlannedAbandonRequest) : jval := JObj
  ([("version", JNum (pa_Version r))] ++ jstr "operation_id" (pa_OperationID r) ++ jstr "run_id" (pa_RunID r)
   ++ jnum "execution_epoch" (pa_ExecutionEpoch r)
   ++ jnum "original_recovery_epoch" (pa_OriginalRecoveryEpoch r)
   ++ jnum "recovery_epoch" (pa_RecoveryEpoch r) ++ jstr "idempotency_key" (pa_IdempotencyKey r)
   ++ jstr "original_request_digest" (pa_OriginalRequestDigest r)
   ++ jstr "observation_digest" (pa_ObservationDigest r) ++ jstr "disposition" (pa_Disposition r)).

Record ActionPlannedAbandonReceipt := mkPlannedReceipt {
  pr_Kind : string; pr_Request : ActionPlannedAbandonRequest; pr_RequestDigest : string;
  pr_Reconciler : string; pr_PreviousState : string; pr_CreatedAt : time;
  pr_EffectConfirmed : bool; pr_ExecutionAuthorized : bool; pr_ReplayAuthorized : bool;
  pr_ProductionQualified : bool
}.

(** ** githubpublish/dispatch_evidence.go: which publication a reconciler settles *)

Definition ErrDispatchEvidenceUnavailable : goerr :=
  ESentinel "githubpublish.ErrDispatchEvidenceUnavailable" "original publication completion evidence unavailable; no replay authorized".

Record DispatchIdentity := mkDispatchIdentity {
  di_OperationID : string; di_RunID : string; di_ExecutionEpoch : N; di_RecoveryEpoch : N;
  di_IdempotencyKey : string; di_RequestDigest : string
}.
Definition DispatchIdentity_Validate (d : DispatchIdentity) : outcome unit :=
  if decide (Exists (fun s => ~ clean_id s) [di_OperationID d; di_RunID d; di_IdempotencyKey d])
  then Err ErrDispatchEvidenceUnavailable
  else if decide (di_ExecutionEpoch d = 0%N \/ (u62 < di_ExecutionEpoch d)%N \/ (u62 < di_RecoveryEpoch d)%N
                  \/ ValidDigest (di_RequestDigest d) = false)
  then Err ErrDispatchEvidenceUnavailable else Ok tt.

Record PublicationRecoveryRequest := mkPublicationRecovery {
  pq_Version : Z; pq_Identity : DispatchIdentity; pq_RecoveryEpoch : N
}.
Definition PublicationRecoveryRequest_Validate (r : PublicationRecoveryRequest) : outcome unit :=
  if decide (pq_Version r <> 1%Z \/ is_ok (DispatchIdentity_Validate (pq_Identity r)) = false
             \/ (pq_RecoveryEpoch r <= di_RecoveryEpoch (pq_Identity r))%N \/ (u62 < pq_RecoveryEpoch r)%N)
  then Err ErrDispatchEvidenceUnavailable else Ok tt.

Section receipts.
Context `{Hash}.

Definition ExecutionAbandonRequest_Digest (r : ExecutionAbandonRequest) : outcome string :=
  _ ← ExecutionAbandonRequest_Validate r; Digest (ExecutionAbandonRequest_json r).

Definition ExecutionAbandonReceipt_Validate (r : ExecutionAbandonReceipt) : outcome unit :=
  let bad := Err (ENew "invalid execution reconciliation receipt") in
  match ExecutionAbandonRequest_Digest (xr_Request r) with
  | Err _ => bad
  | Ok digest =>
    if decide (xr_Kind r <> ExecutionAbandonmentKind \/ xr_RequestDigest r <> digest
               \/ boundedProofString (xr_Reconciler r) 256 = false
               \/ (xr_PreviousState r <> "AUTHORIZED" /\ xr_PreviousState r <> "UNKNOWN")
               \/ IsZero (xr_CreatedAt r) = true \/ xr_ExecutionAuthorized r = true
               \/ xr_ReplayAuthorized r = true \/ xr_ProductionQualified r = true)
    then bad else Ok tt
  end.

Definition ActionPlannedAbandonRequest_Digest (r : ActionPlannedAbandonRequest) : outcome string :=
  _ ← ActionPlannedAbandonRequest_Validate r; Digest (ActionPlannedAbandonRequest_json r).

Definition ActionPlannedAbandonReceipt_Validate (r : ActionPlannedAbandonReceipt) : outcome unit :=
  let bad := Err (ENew "invalid planned Action abandonment receipt") in
  match ActionPlannedAbandonRequest_Digest (pr_Request r) with
  | Err _ => bad
  | Ok digest =>
    if decide (pr_Kind r <> ActionPlannedAbandonmentKind \/ pr_RequestDigest r <> digest
               \/ boundedProofString (pr_Reconciler r) 256 = false \/ pr_PreviousState r <> "PLANNED"
               \/ IsZero (pr_CreatedAt r) = true \/ pr_EffectConfirmed r = true
               \/ pr_ExecutionAuthorized r = true \/ pr_ReplayAuthorized r = true
               \/ pr_ProductionQualified r = true)
    then bad else Ok tt
  end.

End receipts.

(** ** Theorems *)

Lemma Manager_CheckEpoch_ok m e : Manager_CheckEpoch m e = Ok tt <-> e = m_Epoch m.
Proof. unfold Manager_CheckEpoch. case_decide; naive_solver. Qed.

Lemma AuthorizeIrreversible_ok m e :
  AuthorizeIrreversible m e = Ok tt <-> e = m_Epoch m /\ m_Mode m <> mode_RecoveryReconciliation.
Proof.
  unfold AuthorizeIrreversible. split.
  - intros H. ok_inv. destruct a. by apply Manager_CheckEpoch_ok in E.
  - intros [-> Hm]. rewrite (proj2 (Manager_CheckEpoch_ok m (m_Epoch m)) eq_refl). simpl.
    by rewrite decide_False.
Qed.

(** ** Properties *)

(** The recovery epoch is a fencing token: beginning a recovery takes the
    next epoch, so what was admitted under the previous one is refused as
    stale; while it lasts no irreversible action is authorised, under any
    epoch; it ends only in its own epoch and with the reconciliation declared,
    and then irreversible actions are authorised exactly under that epoch. *)
Theorem recovery_fences m epoch : u64_ok (m_Epoch m) ->
  (Manager_Begin m).1 <> m_Epoch m
  /\ is_ok (AuthorizeIrreversible (Manager_Begin m).2 epoch) = false
  /\ is_ok (Manager_CheckEpoch (Manager_Begin m).2 (m_Epoch m)) = false
  /\ (forall reconciled m', Manager_Complete (Manager_Begin m).2 epoch reconciled = Ok m' ->
        epoch = (Manager_Begin m).1 /\ reconciled = true
        /\ (forall e, AuthorizeIrreversible m' e = Ok tt <-> e = epoch)).
Proof.
  intros Hok. pose proof (u64_succ_ne _ Hok) as Hne. unfold Manager_Begin. simpl. split_and!; [done | | |].
  - destruct (AuthorizeIrreversible _ epoch) as [[]|] eqn:E; [|done]. by apply AuthorizeIrreversible_ok in E as [_ []].
  - destruct (Manager_CheckEpoch _ (m_Epoch m)) as [[]|] eqn:E; [|done]. apply Manager_CheckEpoch_ok in E. simpl in E. by destruct Hne.
  - intros reconciled m' Hc. unfold Manager_Complete in Hc. ok_inv. destruct a. apply Manager_CheckEpoch_ok in E.
    simpl in *. split_and!; [done | by destruct reconciled |]. intros e. rewrite AuthorizeIrreversible_ok. simpl.
    subst. naive_solver.
Qed.

Lemma recovery_fences_witness : is_ok (AuthorizeIrreversible (Manager_Begin Manager_New).2 1) = false.
Proof. apply (recovery_fences Manager_New 1). reflexivity. Defined.

(** What a recovery declares abandoned stays abandoned: a valid abandonment
    receipt, of an execution or of a planned action, binds the digest of its
    exact request, names a reconciler and a state that had not been confirmed,
    and authorises neither execution nor replay; an action can only be
    abandoned in a recovery epoch later than the one it was planned in. *)
Theorem abandonment_never_replays `{Hash} :
  (forall r, ExecutionAbandonReceipt_Validate r = Ok tt ->
     xr_ExecutionAuthorized r = false /\ xr_ReplayAuthorized r = false /\ xr_ProductionQualified r = false
     /\ ExecutionAbandonRequest_Digest (xr_Request r) = Ok (xr_RequestDigest r)
     /\ xr_Reconciler r <> "" /\ (xr_PreviousState r = "AUTHORIZED" \/ xr_PreviousState r = "UNKNOWN")
     /\ xa_Disposition (xr_Request r) = AbandonNoReplay /\ xa_RecoveryEpoch (xr_Request r) <> 0%N)
  /\ (forall r, ActionPlannedAbandonReceipt_Validate r = Ok tt ->
     pr_EffectConfirmed r = false /\ pr_ExecutionAuthorized r = false /\ pr_ReplayAuthorized r = false
     /\ ActionPlannedAbandonRequest_Digest (pr_Request r) = Ok (pr_RequestDigest r)
     /\ pr_Reconciler r <> "" /\ pr_PreviousState r = "PLANNED"
     /\ pa_Disposition (pr_Request r) = AbandonNoReplay
     /\ (pa_OriginalRecoveryEpoch (pr_Request r) < pa_RecoveryEpoch (pr_Request r) <= u62)%N).
Proof.
  assert (forall s n, bounded s n <> false -> s <> "") as Hb by (by intros ? ? ? ->).
  assert (forall b, b <> true -> b = false) as Hf by (by intros []).
  split; intros r.
  - unfold ExecutionAbandonReceipt_Validate. destruct (ExecutionAbandonRequest_Digest _) as [d|] eqn:Hd; [|done].
    case_decide as Hg; [done|]. intros ?. guards. unfold ExecutionAbandonRequest_Digest in Hd.
    apply bind_ok in Hd as ([] & Hv & _). unfold ExecutionAbandonRequest_Validate in Hv.
    case_decide as Hq; [done|]. guards.
    destruct (decide (xr_PreviousState r = "AUTHORIZED")), (decide (xr_PreviousState r = "UNKNOWN")); split_and!; eauto; try congruence; tauto.
  - unfold ActionPlannedAbandonReceipt_Validate. destruct (ActionPlannedAbandonRequest_Digest _) as [d|] eqn:Hd; [|done].
    case_decide as Hg; [done|]. intros ?. guards. unfold ActionPlannedAbandonRequest_Digest in Hd.
    apply bind_ok in Hd as ([] & Hv & _). unfold ActionPlannedAbandonRequest_Validate in Hv.
    case_decide; [done|]. case_decide as Hq; [done|]. guards. split_and!; eauto; try congruence; lia.
Qed.

Definition abandon_example : ExecutionAbandonRequest :=
  mkExecAbandon 1 ExecutionCodex "run-1" "0123456789abcdef0123456789abcdef0123456789abcdef0123456789abcdef" 3
    "sha256:0123456789abcdef0123456789abcdef0123456789abcdef0123456789abcdef" AbandonNoReplay.
Definition abandon_receipt : ExecutionAbandonReceipt :=
  mkExecReceipt ExecutionAbandonmentKind abandon_example
    (match ExecutionAbandonRequest_Digest abandon_example with Ok d => d | Err _ => "" end) "olga" "UNKNOWN" 1 false false false.
Lemma abandonment_never_replays_witness : xr_ReplayAuthorized abandon_receipt = false.
Proof. apply abandonment_never_replays. vm_compute. reflexivity. Defined.
