(* ===== verification/Verification.v ===== *)
(** [internal/verification/verification.go]: verification plans, evidence
    matching and the evaluation of a delivery. *)
From S2P Require Import Prelude Canonical Core.

Record EvidenceRequirement := mkRequirement { rq_ID : string; rq_Procedure : string; rq_Issuer : string }.

Record Criterion := mkCriterion {
  ct_ID : string; ct_Statement : string; ct_Requirements : list EvidenceRequirement
}.

Record Plan := mkPlan { pl_ID : string; pl_Criteria : list Criterion }.

#[export] Instance EvidenceRequirement_eq_dec : EqDecision EvidenceRequirement.
Proof. solve_decision. Defined.
#[export] Instance Criterion_eq_dec : EqDecision Criterion.
Proof. solve_decision. Defined.
#[export] Instance Plan_eq_dec : EqDecision Plan.
Proof. solve_decision. Defined.

Definition Plan_json (p : Plan) : jval :=
  let requirement r := JObj (jstr "requirement_id" (rq_ID r) ++ jstr "procedure" (rq_Procedure r)
                             ++ jstr_omit "issuer" (rq_Issuer r)) in
  let criterion c := JObj (jstr "criterion_id" (ct_ID c) ++ jstr "statement" (ct_Statement c)
                           ++ jobjs "evidence_requirements" (requirement <$> ct_Requirements c)) in
  JObj (jstr "verification_plan_id" (pl_ID p) ++ jobjs "criteria" (criterion <$> pl_Criteria p)).

Definition Plan_Digest `{Hash} (p : Plan) : outcome string := Digest (Plan_json p).

Record CriterionResult := mkCriterionResult {
  cx_CriterionID : string; cx_Result : string; cx_Reason : string
}.

Record Report := mkReport {
  vr_ID : string; vr_DeliveryReceiptID : string; vr_PlanID : string; vr_VerificationPlanDigest : string;
  vr_SubjectDigest : string; vr_Result : string; vr_Verifier : string;
  vr_Criteria : list CriterionResult; vr_EvidenceIDs : list string; vr_CreatedAt : time
}.

(** [expected[ac]++] over the acceptance criteria. *)
Fixpoint count_expected (acc : list string) (expected : gmap string nat) : option (gmap string nat) :=
  match acc with
  | [] => Some expected
  | ac :: r =>
    if decide (ac = "") then None
    else count_expected r (<[ac := Nat.succ (default 0 (expected !! ac))]> expected)
  end.

Fixpoint requirements_loop (reqs : list EvidenceRequirement) (requirementIDs : gset string)
    : option (gset string) :=
  match reqs with
  | [] => Some requirementIDs
  | req :: r =>
    if decide (rq_ID req = "" \/ rq_ID req ∈ requirementIDs \/ rq_Procedure req = "") then None
    else requirements_loop r ({[rq_ID req]} ∪ requirementIDs)
  end.

Fixpoint criteria_loop (cs : list Criterion) (criterionIDs requirementIDs : gset string)
    (expected : gmap string nat) : option (gmap string nat) :=
  match cs with
  | [] => Some expected
  | c :: r =>
    if decide (ct_ID c = "" \/ ct_ID c ∈ criterionIDs \/ ct_Statement c = "" \/ ct_Requirements c = [])
    then None
    else
      let remaining := default 0 (expected !! ct_Statement c) in
      if decide (remaining = 0) then None
      else
        ids ← requirements_loop (ct_Requirements c) requirementIDs;
        criteria_loop r ({[ct_ID c]} ∪ criterionIDs) ids
          (<[ct_Statement c := Nat.pred remaining]> expected)
  end.

Definition ValidatePlan (plan : Plan) (acceptanceCriteria : list string) : bool :=
  if decide (pl_ID plan = "" \/ length (pl_Criteria plan) = 0
             \/ length (pl_Criteria plan) <> length acceptanceCriteria)
  then false
  else match count_expected acceptanceCriteria ∅ with
  | None => false
  | Some expected =>
    match criteria_loop (pl_Criteria plan) ∅ ∅ expected with
    | None => false
    | Some left_over => bool_decide (map_Forall (fun _ remaining => remaining = 0) left_over)
    end
  end.

Definition requirements (plan : Plan) : list EvidenceRequirement := mjoin (ct_Requirements <$> pl_Criteria plan).

(** The two nested loops visit the requirements in plan order. *)
Definition FindRequirement (plan : Plan) (id : string) : option EvidenceRequirement :=
  if decide (id = "") then None
  else List.find (fun r => bool_decide (rq_ID r = id)) (requirements plan).

Definition EvidenceMatchesRequirement (requirement : EvidenceRequirement) (item : EvidenceRef) : bool :=
  if decide (rq_ID requirement = "" \/ ev_RequirementID item <> rq_ID requirement
             \/ ev_Procedure item <> rq_Procedure requirement)
  then false
  else bool_decide (rq_Issuer requirement = "" \/ ev_Issuer item = rq_Issuer requirement).

Definition EvidenceMatchesPlan (plan : Plan) (item : EvidenceRef) : bool :=
  match FindRequirement plan (ev_RequirementID item) with
  | Some requirement => EvidenceMatchesRequirement requirement item
  | None => false
  end.

(** The first loop of [EvidenceArtifactsBelongToDelivery]. *)
Fixpoint available_artifacts (l : list ArtifactRef) (available : gset string) : option (gset string) :=
  match l with
  | [] => Some available
  | a :: r =>
    if decide (ar_ID a = "" \/ ar_ID a ∈ available) then None
    else available_artifacts r ({[ar_ID a]} ∪ available)
  end.

Fixpoint refs_loop (ids : list string) (available seen : gset string) : bool :=
  match ids with
  | [] => true
  | id :: r =>
    if decide (id = "" \/ id ∈ seen \/ id ∉ available) then false
    else refs_loop r available ({[id]} ∪ seen)
  end.

Definition EvidenceArtifactsBelongToDelivery (delivery : DeliveryReceipt) (item : EvidenceRef) : bool :=
  match available_artifacts (dr_Artifacts delivery) ∅ with
  | None => false
  | Some available =>
    if decide (size available < length (ev_ArtifactRefs item)) then false
    else refs_loop (ev_ArtifactRefs item) available ∅
  end.

Definition evidence_satisfies (requirement : EvidenceRequirement) (subjectDigest : string)
    (item : EvidenceRef) : bool :=
  if decide (ev_Applicable item = false \/ ev_SubjectDigest item <> subjectDigest \/ ev_Result item <> "PASS")
  then false else EvidenceMatchesRequirement requirement item.

Definition requirementSatisfied (requirement : EvidenceRequirement) (subjectDigest : string)
    (evidence : list EvidenceRef) : bool :=
  if decide (rq_ID requirement = "" \/ rq_Procedure requirement = "") then false
  else existsb (evidence_satisfies requirement subjectDigest) evidence.

Definition criterion_result (subjectDigest : string) (evidence : list EvidenceRef) (c : Criterion)
    : CriterionResult :=
  if decide (ct_ID c = "" \/ ct_Statement c = "" \/ ct_Requirements c = [])
  then mkCriterionResult (ct_ID c) "FAIL" "criterion is incomplete"
  else if forallb (fun r => requirementSatisfied r subjectDigest evidence) (ct_Requirements c)
  then mkCriterionResult (ct_ID c) "PASS" ""
  else mkCriterionResult (ct_ID c) "FAIL" "required evidence requirement was not satisfied".

(** [Evaluate]: the caller fills the remaining fields of the report. *)
Definition Evaluate (plan : Plan) (subjectDigest : string) (evidence : list EvidenceRef) : Report :=
  let report result criteria :=
    mkReport "" "" (pl_ID plan) "" subjectDigest result "" criteria (ev_ID <$> evidence) zero_time in
  if decide (subjectDigest = "" \/ pl_Criteria plan = []) then report "FAIL" []
  else
    let results := criterion_result subjectDigest evidence <$> pl_Criteria plan in
    report (if forallb (fun r => bool_decide (cx_Result r = "PASS")) results then "PASS" else "FAIL") results.

(** ** Abstract specification *)

(** What a valid plan is: one complete criterion per acceptance criterion, as a
    multiset, with globally unique identifiers. *)
Definition requirement_ok (r : EvidenceRequirement) : Prop := rq_ID r <> "" /\ rq_Procedure r <> "".
Definition criterion_ok (c : Criterion) : Prop :=
  ct_ID c <> "" /\ ct_Statement c <> "" /\ ct_Requirements c <> [] /\ Forall requirement_ok (ct_Requirements c).

Record plan_covers (plan : Plan) (acceptance : list string) : Prop := {
  pc_id : pl_ID plan <> "";
  pc_nonempty : pl_Criteria plan <> [];
  pc_statements : (ct_Statement <$> pl_Criteria plan) ≡ₚ acceptance;
  pc_criteria : Forall criterion_ok (pl_Criteria plan);
  pc_criterion_ids : NoDup (ct_ID <$> pl_Criteria plan);
  pc_requirement_ids : NoDup (rq_ID <$> requirements plan)
}.

(** A piece of evidence that discharges a requirement for one exact subject. *)
Definition discharges (subject : string) (r : EvidenceRequirement) (item : EvidenceRef) : Prop :=
  ev_Applicable item = true /\ ev_SubjectDigest item = subject /\ ev_Result item = "PASS"
  /\ ev_RequirementID item = rq_ID r /\ ev_Procedure item = rq_Procedure r
  /\ (rq_Issuer r = "" \/ ev_Issuer item = rq_Issuer r).

Definition verified (plan : Plan) (subject : string) (evidence : list EvidenceRef) : Prop :=
  subject <> "" /\ pl_Criteria plan <> [] /\ Forall criterion_ok (pl_Criteria plan)
  /\ Forall (fun r => Exists (discharges subject r) evidence) (requirements plan).

(** ** Theorems *)

#[local] Arguments Nat.pred : simpl never.

Abbreviation occ := (count_occ String.eq_dec) (only parsing).

Lemma count_expected_spec acc m :
  match count_expected acc m with
  | None => ("" ∈ acc)
  | Some m' => ("" ∉ acc) /\ forall s, default 0 (m' !! s) = default 0 (m !! s) + occ acc s
  end.
Proof.
  revert m. induction acc as [|a acc IH]; intros m; simpl.
  { split; [set_solver|]. intros s. lia. }
  case_decide as Ha; [subst; set_solver|].
  specialize (IH (<[a := Nat.succ (default 0 (m !! a))]> m)).
  destruct (count_expected acc _) as [m'|]; [|set_solver].
  destruct IH as [Hn Hc]. split; [set_solver|]. intros s. rewrite Hc.
  destruct (String.eq_dec a s) as [->|Hne].
  - rewrite lookup_insert_eq. simpl. lia.
  - rewrite lookup_insert_ne by done. lia.
Qed.

Lemma requirements_loop_spec reqs ids ids' :
  requirements_loop reqs ids = Some ids' <->
  Forall requirement_ok reqs /\ NoDup (rq_ID <$> reqs) /\ (forall r, r ∈ rq_ID <$> reqs -> r ∉ ids)
  /\ ids' = ids ∪ list_to_set (rq_ID <$> reqs).
Proof.
  revert ids. induction reqs as [|r reqs IH]; intros ids; csimpl.
  { split; [intros [= <-] | intros (_ & _ & _ & ->)].
    - repeat split; [constructor | constructor | set_solver | set_solver].
    - f_equal. set_solver. }
  unfold requirement_ok in *. case_decide as Hd.
  - split; [done|]. rewrite Forall_cons. intros (? & _ & Hids & _). specialize (Hids (rq_ID r)). set_solver.
  - apply Decidable.not_or in Hd as [H1 Hd]. apply Decidable.not_or in Hd as [H2 H3].
    rewrite IH, Forall_cons, NoDup_cons. split.
    + intros (Hf & Hn & Hi & ->). split_and!; try done; set_solver.
    + intros ((_ & Hf) & (Hn & Hnd) & Hi & ->). split_and!; try done; set_solver.
Qed.

Lemma requirements_loop_complete reqs ids :
  Forall requirement_ok reqs -> NoDup (rq_ID <$> reqs) -> (forall r, r ∈ rq_ID <$> reqs -> r ∉ ids) ->
  requirements_loop reqs ids = Some (ids ∪ list_to_set (rq_ID <$> reqs)).
Proof. intros. by apply requirements_loop_spec. Qed.

Definition reqs_of (cs : list Criterion) : list string := rq_ID <$> mjoin (ct_Requirements <$> cs).

Lemma reqs_of_cons c cs : reqs_of (c :: cs) = (rq_ID <$> ct_Requirements c) ++ reqs_of cs.
Proof. unfold reqs_of. simpl. by rewrite fmap_app. Qed.

Lemma criteria_loop_sound cs cids rids m m' :
  criteria_loop cs cids rids m = Some m' ->
  Forall criterion_ok cs /\ NoDup (ct_ID <$> cs) /\ (forall x, x ∈ ct_ID <$> cs -> x ∉ cids)
  /\ NoDup (reqs_of cs) /\ (forall x, x ∈ reqs_of cs -> x ∉ rids)
  /\ (forall s, default 0 (m !! s) = occ (ct_Statement <$> cs) s + default 0 (m' !! s)).
Proof.
  revert cids rids m. induction cs as [|c cs IH]; intros cids rids m; cbn [criteria_loop].
  { intros [= <-]. split_and!; try constructor; set_solver. }
  case_decide as Hd; [done|]. case_decide as Hr; [done|]. guards.
  destruct (requirements_loop _ _) as [ids|] eqn:El; [|done]. intros Hloop; simpl in Hloop.
  apply requirements_loop_spec in El as (Hf & Hn & Hi & ->).
  apply IH in Hloop as (Hok & Hc & Hci & Hq & Hqi & Hs).
  rewrite reqs_of_cons. split_and!.
  - by constructor.
  - csimpl. constructor; [set_solver|done].
  - set_solver.
  - apply NoDup_app. split_and!; [done| |done]. intros x Hx Hx'. specialize (Hqi x Hx'). set_solver.
  - set_solver.
  - intros s. specialize (Hs s).
    rewrite fmap_cons.
    destruct (String.eq_dec (ct_Statement c) s) as [<-|Hne].
    + rewrite count_occ_cons_eq by done. rewrite lookup_insert_eq in Hs. simpl in Hs. lia.
    + rewrite count_occ_cons_neq by done. rewrite lookup_insert_ne in Hs by done. lia.
Qed.

Lemma criteria_loop_complete cs cids rids m :
  Forall criterion_ok cs -> NoDup (ct_ID <$> cs) -> (forall x, x ∈ ct_ID <$> cs -> x ∉ cids) ->
  NoDup (reqs_of cs) -> (forall x, x ∈ reqs_of cs -> x ∉ rids) ->
  (forall s, occ (ct_Statement <$> cs) s <= default 0 (m !! s)) ->
  is_Some (criteria_loop cs cids rids m).
Proof.
  revert cids rids m. induction cs as [|c cs IH]; intros cids rids m; [by eexists|].
  rewrite reqs_of_cons, Forall_cons, !fmap_cons, NoDup_cons, NoDup_app.
  intros [(Hid & Hst & Hne & Hrs) Hok] [Hc1 Hc] Hci (Hq1 & Hqd & Hq) Hqi Hs.
  assert (ct_ID c ∉ cids) as Hc0 by (apply Hci; left).
  cbn [criteria_loop]. rewrite decide_False by tauto.
  pose proof (Hs (ct_Statement c)) as Hcs. rewrite count_occ_cons_eq in Hcs by done.
  rewrite decide_False by lia.
  rewrite requirements_loop_complete; [|done|done|intros r Hr; apply Hqi; set_solver].
  cbn [mbind option_bind]. apply IH; try done.
  { intros x Hx. apply not_elem_of_union. split; [set_solver|]. apply Hci. by right. }
  { intros x Hx. apply not_elem_of_union. split; [apply Hqi; set_solver|].
    intros Hx'%elem_of_list_to_set. by apply (Hqd x). }
  intros s. specialize (Hs s). destruct (String.eq_dec (ct_Statement c) s) as [<-|Hn].
  - rewrite lookup_insert_eq. simpl. lia.
  - rewrite lookup_insert_ne by done. by rewrite count_occ_cons_neq in Hs by done.
Qed.

Lemma occ_notin s l : s ∉ l -> occ l s = 0.
Proof. intros. apply count_occ_not_In. by rewrite <- list_elem_of_In. Qed.

Lemma plan_covers_no_empty plan acc : plan_covers plan acc -> "" ∉ acc.
Proof.
  intros [_ _ Hst Hcs _ _] He. rewrite <- Hst in He.
  apply list_elem_of_fmap in He as (c & Hc & Hin).
  rewrite Forall_forall in Hcs. by destruct (Hcs c Hin) as (_ & ? & _).
Qed.

Lemma ValidatePlan_sound plan acc : ValidatePlan plan acc = true -> plan_covers plan acc.
Proof.
  unfold ValidatePlan. case_decide as Hd; [done|]. guards.
  pose proof (count_expected_spec acc ∅) as Hc.
  destruct (count_expected acc ∅) as [m|]; [|done]. destruct Hc as [_ Hc].
  destruct (criteria_loop _ _ _ _) as [m'|] eqn:E; [|done].
  intros Hz%bool_decide_eq_true. apply criteria_loop_sound in E as (? & ? & _ & ? & _ & Hs).
  constructor; try done.
  - intros Hnil. by rewrite Hnil in *.
  - apply (Permutation_count_occ String.eq_dec). intros s. specialize (Hs s). rewrite Hc in Hs.
    rewrite lookup_empty in Hs. simpl in Hs.
    assert (default 0 (m' !! s) = 0) as Hm.
    { destruct (m' !! s) eqn:Em; [|done]. exact (Hz s _ Em). }
    lia.
Qed.

Lemma ValidatePlan_complete plan acc : plan_covers plan acc -> ValidatePlan plan acc = true.
Proof.
  intros Hp. pose proof (plan_covers_no_empty _ _ Hp) as He.
  destruct Hp as [Hid Hne Hst Hcs Hci Hri]. unfold ValidatePlan.
  rewrite decide_False; cycle 1.
  { intros [?|[H|H]]; [done| |].
    - by apply Hne, length_zero_iff_nil.
    - apply H. apply Permutation_length in Hst. by rewrite length_fmap in Hst. }
  pose proof (count_expected_spec acc ∅) as Hc.
  destruct (count_expected acc ∅) as [m|]; [|done]. destruct Hc as [_ Hc].
  assert (forall s, default 0 (m !! s) = occ (ct_Statement <$> pl_Criteria plan) s) as Hm.
  { intros s. rewrite Hc, lookup_empty. simpl.
    symmetry. by apply (Permutation_count_occ String.eq_dec). }
  destruct (criteria_loop_complete (pl_Criteria plan) ∅ ∅ m) as [m' E]; try done.
  { intros s. by rewrite Hm. }
  rewrite E. apply bool_decide_eq_true.
  apply criteria_loop_sound in E as (_ & _ & _ & _ & _ & Hs). intros s n Hn.
  specialize (Hs s). rewrite Hm, Hn in Hs. simpl in Hs. lia.
Qed.

Lemma available_artifacts_spec l av :
  match available_artifacts l av with
  | None => ~ (Forall (fun a => ar_ID a <> "") l /\ NoDup (ar_ID <$> l) /\ (forall x, x ∈ ar_ID <$> l -> x ∉ av))
  | Some av' => Forall (fun a => ar_ID a <> "") l /\ NoDup (ar_ID <$> l)
      /\ (forall x, x ∈ ar_ID <$> l -> x ∉ av) /\ av' = av ∪ list_to_set (ar_ID <$> l)
  end.
Proof.
  revert av. induction l as [|a l IH]; intros av; cbn [available_artifacts].
  { split_and!; [constructor | constructor | set_solver | set_solver]. }
  case_decide as Hd.
  { rewrite Forall_cons, fmap_cons. intros ((Ha & _) & _ & Hx). destruct Hd as [|Hd]; [done|].
    apply (Hx (ar_ID a)); [by left | done]. }
  guards. specialize (IH ({[ar_ID a]} ∪ av)).
  destruct (available_artifacts l _) as [av'|]; rewrite Forall_cons, fmap_cons, NoDup_cons.
  - destruct IH as (Hf & Hn & Hx & ->). split_and!; try done; set_solver.
  - intros ((_ & Hf) & (Hna & Hn) & Hx). apply IH. split_and!; try done. set_solver.
Qed.

Lemma refs_loop_spec ids av seen :
  refs_loop ids av seen = true <->
  Forall (fun i => i <> "" /\ i ∈ av /\ i ∉ seen) ids /\ NoDup ids.
Proof.
  revert seen. induction ids as [|i ids IH]; intros seen; simpl.
  { split; [by repeat constructor | done]. }
  rewrite Forall_cons, NoDup_cons. case_decide as Hd.
  - split; [done|]. tauto.
  - guards. rewrite IH, !Forall_forall. split.
    + intros [Ha Hn]. split_and!; try done.
      * intros x Hx. destruct (Ha x Hx) as (? & ? & ?%not_elem_of_union). naive_solver.
      * intros Hi. destruct (Ha i Hi) as (_ & _ & Hs). set_solver.
    + intros [[_ Ha] [Hi Hn]]. split; [|done]. intros x Hx. destruct (Ha x Hx) as (? & ? & ?).
      split_and!; try done. apply not_elem_of_union. split; [|done].
      apply not_elem_of_singleton. by intros ->.
Qed.

(** The references name distinct, non-empty artifacts of the delivery, whose own ids are sound. *)
Definition artifacts_belong (delivery : DeliveryReceipt) (item : EvidenceRef) : Prop :=
  let ids := ar_ID <$> dr_Artifacts delivery in
  NoDup ids /\ ("" ∉ ids) /\ NoDup (ev_ArtifactRefs item) /\ ev_ArtifactRefs item ⊆ ids.

Lemma EvidenceArtifactsBelongToDelivery_spec delivery item :
  EvidenceArtifactsBelongToDelivery delivery item = true <-> artifacts_belong delivery item.
Proof.
  unfold EvidenceArtifactsBelongToDelivery, artifacts_belong.
  assert (forall l : list ArtifactRef, Forall (fun a => ar_ID a <> "") l <-> ("" ∉ ar_ID <$> l)) as Hne.
  { intros l. rewrite Forall_forall, list_elem_of_fmap. naive_solver. }
  pose proof (available_artifacts_spec (dr_Artifacts delivery) ∅) as Ha.
  destruct (available_artifacts _ _) as [av|].
  - destruct Ha as (Hf & Hn & _ & ->). apply Hne in Hf. rewrite (union_empty_l_L (list_to_set _)).
    rewrite size_list_to_set by done. case_decide as Hs.
    + split; [done|]. intros (_ & _ & Hr & Hsub).
      exfalso. pose proof (NoDup_submseteq _ _ Hr (fun x Hx => Hsub x Hx)) as Hm%submseteq_length. lia.
    + rewrite refs_loop_spec, Forall_forall. split.
      * intros [Hr Hd]. split_and!; try done. intros x Hx. destruct (Hr x Hx) as (_ & Hin & _).
        by apply elem_of_list_to_set in Hin.
      * intros (_ & _ & Hd & Hsub). split; [|done]. intros x Hx. split_and!; [|by apply elem_of_list_to_set, Hsub|set_solver].
        intros ->. by apply Hf, Hsub.
  - split; [done|]. intros (Hn & He & _). destruct Ha. split_and!; [by apply Hne|done|set_solver].
Qed.

Lemma evidence_satisfies_spec r subject item :
  rq_ID r <> "" ->
  evidence_satisfies r subject item = true <-> discharges subject r item.
Proof.
  intros Hid. unfold evidence_satisfies, EvidenceMatchesRequirement, discharges.
  case_decide as Hd; [split; [done|]; destruct (ev_Applicable item); naive_solver|].
  guards. apply not_false_is_true in H.
  case_decide as He; [split; [done|]; naive_solver|]. guards.
  rewrite bool_decide_eq_true. tauto.
Qed.

Lemma requirementSatisfied_spec r subject evidence :
  requirementSatisfied r subject evidence = true <->
  requirement_ok r /\ Exists (discharges subject r) evidence.
Proof.
  unfold requirementSatisfied, requirement_ok. case_decide as Hd; [split; [done|tauto]|]. guards.
  rewrite existsb_exists, Exists_exists. setoid_rewrite <- list_elem_of_In.
  setoid_rewrite evidence_satisfies_spec; [|done]. naive_solver.
Qed.

Lemma criterion_result_spec subject evidence c :
  cx_Result (criterion_result subject evidence c) = "PASS" <->
  criterion_ok c /\ Forall (fun r => Exists (discharges subject r) evidence) (ct_Requirements c).
Proof.
  unfold criterion_result, criterion_ok. case_decide as Hd; [split; [done|tauto]|]. guards.
  destruct (forallb _ _) eqn:E; simpl.
  - split; [|done]. intros _. rewrite forallb_forall in E.
    setoid_rewrite <- list_elem_of_In in E. setoid_rewrite requirementSatisfied_spec in E.
    split; [split_and!; try done|]; apply Forall_forall; intros r Hr; by apply E.
  - split; [done|]. intros ((_ & _ & _ & Hr) & He). apply not_true_iff_false in E. destruct E.
    apply forallb_forall. intros r Hin%list_elem_of_In. apply requirementSatisfied_spec.
    rewrite Forall_forall in Hr, He. auto.
Qed.

Lemma Forall_requirements (P : EvidenceRequirement -> Prop) plan :
  Forall P (requirements plan) <-> Forall (fun c => Forall P (ct_Requirements c)) (pl_Criteria plan).
Proof.
  unfold requirements. induction (pl_Criteria plan) as [|c cs IH]; csimpl; [by split; constructor|].
  by rewrite Forall_app, Forall_cons, IH.
Qed.

Lemma Evaluate_pass plan subject evidence :
  vr_Result (Evaluate plan subject evidence) = "PASS" <-> verified plan subject evidence.
Proof.
  unfold Evaluate, verified; cbv zeta. case_decide as Hd; [simpl; split; [done|tauto]|]. guards. simpl.
  assert (forall b : bool, (if b then "PASS" else "FAIL") = "PASS" <-> b = true) as ->
    by (intros []; done).
  rewrite forallb_forall. setoid_rewrite <- list_elem_of_In. setoid_rewrite bool_decide_eq_true.
  setoid_rewrite list_elem_of_fmap.
  assert ((forall x, (exists c, x = criterion_result subject evidence c /\ c ∈ pl_Criteria plan) -> cx_Result x = "PASS")
          <-> Forall (fun c => criterion_ok c /\ Forall (fun r => Exists (discharges subject r) evidence) (ct_Requirements c)) (pl_Criteria plan)) as ->.
  { rewrite Forall_forall. setoid_rewrite <- criterion_result_spec. naive_solver. }
  rewrite Forall_requirements, Forall_and. tauto.
Qed.

Lemma FindRequirement_Some plan id r :
  FindRequirement plan id = Some r -> r ∈ requirements plan /\ rq_ID r = id /\ id <> "".
Proof.
  unfold FindRequirement. case_decide; [done|]. intros [Hin Hr]%find_some.
  apply bool_decide_eq_true in Hr. by rewrite <- list_elem_of_In in Hin.
Qed.

(** Evidence the plan admits names a requirement of the plan, with its procedure and issuer. *)
Definition evidence_admissible (plan : Plan) (item : EvidenceRef) : Prop :=
  exists r, r ∈ requirements plan /\ ev_RequirementID item = rq_ID r /\ rq_ID r <> ""
    /\ ev_Procedure item = rq_Procedure r /\ (rq_Issuer r = "" \/ ev_Issuer item = rq_Issuer r).

Lemma EvidenceMatchesPlan_sound plan item :
  EvidenceMatchesPlan plan item = true -> evidence_admissible plan item.
Proof.
  unfold EvidenceMatchesPlan, EvidenceMatchesRequirement. intros H.
  destruct (FindRequirement _ _) as [r|] eqn:E; [|done].
  apply FindRequirement_Some in E as (Hin & Hid & Hne). case_decide as Hd; [done|].
  guards. exists r. naive_solver.
Qed.

(** ** Properties *)

(** A verification plan is accepted exactly when it covers the acceptance
    criteria: one complete criterion for each of them, counted with
    multiplicity, each with at least one complete evidence requirement, and
    with criterion and requirement ids that are unique in the whole plan. *)
Theorem ValidatePlan_correct plan acceptance :
  ValidatePlan plan acceptance = true <-> plan_covers plan acceptance.
Proof. split; [apply ValidatePlan_sound | apply ValidatePlan_complete]. Qed.

(** C40: the verdict of a verification is PASS exactly when every requirement
    of every criterion of the plan is discharged by some applicable, passing
    piece of the given evidence, issued by the required issuer with the
    required procedure for exactly this subject; in any other case it is FAIL,
    and the report names the plan, the subject and the evidence it read. *)
Theorem Evaluate_correct plan subject evidence :
  (vr_Result (Evaluate plan subject evidence) = "PASS" <-> verified plan subject evidence)
  /\ (vr_Result (Evaluate plan subject evidence) = "PASS" \/ vr_Result (Evaluate plan subject evidence) = "FAIL")
  /\ vr_PlanID (Evaluate plan subject evidence) = pl_ID plan
  /\ vr_SubjectDigest (Evaluate plan subject evidence) = subject
  /\ vr_EvidenceIDs (Evaluate plan subject evidence) = ev_ID <$> evidence.
Proof.
  split; [apply Evaluate_pass|]. unfold Evaluate. case_decide; simpl; split_and!; auto. case_match; auto.
Qed.

(** More evidence never turns a PASS into a FAIL, and evidence for another
    subject never turns a FAIL into a PASS. *)
Theorem Evaluate_monotone plan subject evidence more :
  (vr_Result (Evaluate plan subject evidence) = "PASS" -> vr_Result (Evaluate plan subject (evidence ++ more)) = "PASS")
  /\ (Forall (fun i => ev_SubjectDigest i <> subject) more ->
      vr_Result (Evaluate plan subject (evidence ++ more)) = "PASS" -> vr_Result (Evaluate plan subject evidence) = "PASS").
Proof.
  rewrite !Evaluate_pass. unfold verified. split.
  - intros (Hs & Hc & Hok & Hd). split_and!; try done. eapply Forall_impl; [exact Hd|].
    intros r Hr. apply Exists_app. by left.
  - intros Hmore (Hs & Hc & Hok & Hd). split_and!; try done. eapply Forall_impl; [exact Hd|].
    intros r [Hr|Hr]%Exists_app; [done|]. exfalso. rewrite Exists_exists in Hr. rewrite Forall_forall in Hmore.
    destruct Hr as (i & Hi & _ & Hsub & _). by eapply Hmore.
Qed.

Definition monotone_plan : Plan := mkPlan "P" [mkCriterion "C" "boots" [mkRequirement "R" "boot-test" "lab"]].
Definition monotone_item : EvidenceRef := mkEvidenceRef "E" "D" "R" "s" "lab" "boot-test" "PASS" [] true.
Lemma Evaluate_monotone_witness :
  vr_Result (Evaluate monotone_plan "s" ([monotone_item] ++ [monotone_item])) = "PASS".
Proof. apply Evaluate_monotone. vm_compute. reflexivity. Defined.

(** Evidence may refer to the artifacts of its delivery only: the check
    accepts a piece of evidence exactly when the delivery's artifacts have
    distinct non-empty ids and the references are distinct ids among them. *)
Theorem evidence_artifacts_exact delivery item :
  EvidenceArtifactsBelongToDelivery delivery item = true <-> artifacts_belong delivery item.
Proof. apply EvidenceArtifactsBelongToDelivery_spec. Qed.
