(* ===== verification/Binding.v ===== *)
(** Digests identify documents.

    A digest is used all over the platform as the name of a frozen document: a
    task contract, a run's input, the subject of a delivery, an audit event.
    The fields of a Go struct can be read back from the JSON object the digest
    hashes ([get]), omitted empty fields included, so equal digests mean equal
    documents, or a collision of the hash. *)
From S2P Require Import Prelude Canonical Json Core Verification.

(** ** Reading fields back *)

Fixpoint get (k : string) (fs : list (string * jval)) : jval :=
  match fs with
  | [] => JNull
  | (k', v) :: r => if decide (k = k') then v else get k r
  end.

Definition fields_of (v : jval) : list (string * jval) := match v with JObj fs => fs | _ => [] end.
Definition str_of (v : jval) : string := match v with JStr s => s | _ => "" end.
Definition num_of (v : jval) : Z := match v with JNum n => n | _ => 0 end.
Definition items_of (v : jval) : list jval := match v with JArr l => l | _ => [] end.
Definition strs_of (v : jval) : list string := str_of <$> items_of v.

Definition avoids (k : string) (fs : list (string * jval)) : Prop := k ∉ fs.*1.

Lemma get_app_miss k fs r : avoids k fs -> get k (fs ++ r) = get k r.
Proof.
  unfold avoids. induction fs as [|[k' v] fs IH]; simpl; [done|].
  intros [Hk Hf]%not_elem_of_cons. rewrite decide_False by done. auto.
Qed.
Lemma get_app_hit k v fs r : get k (((k, v) :: fs) ++ r) = v.
Proof. simpl. by rewrite decide_True. Qed.

(** A group of fields that has no member [k], by its shape. *)
Lemma avoids_one k k' v : k <> k' -> avoids k [(k', v)].
Proof. unfold avoids. set_solver. Qed.
Lemma avoids_if k P `{Decision P} fs fs' : avoids k fs -> avoids k fs' -> avoids k (if decide P then fs else fs').
Proof. by case_decide. Qed.
Lemma avoids_nil k : avoids k [].
Proof. apply not_elem_of_nil. Qed.
Lemma avoids_option {A} k k' (f : A -> jval) o : k <> k' ->
  avoids k (match o with Some a => [(k', f a)] | None => [] end).
Proof. destruct o; [apply avoids_one | intros _; apply avoids_nil]. Qed.
#[export] Hint Resolve avoids_one avoids_if avoids_nil avoids_option : go.
#[export] Hint Extern 1 (_ <> _) => discriminate : go.
#[export] Hint Extern 2 (avoids _ (jstr _ _)) => unfold jstr : go.
#[export] Hint Extern 2 (avoids _ (jstr_omit _ _)) => unfold jstr_omit, jstr : go.
#[export] Hint Extern 2 (avoids _ (jnum _ _)) => unfold jnum : go.
#[export] Hint Extern 2 (avoids _ (jstrs _ _)) => unfold jstrs : go.
#[export] Hint Extern 2 (avoids _ (jstrs_omit _ _)) => unfold jstrs_omit, jstrs : go.
#[export] Hint Extern 2 (avoids _ (jobjs _ _)) => unfold jobjs : go.
#[export] Hint Extern 2 (avoids _ (jobjs_omit _ _)) => unfold jobjs_omit, jobjs : go.

Lemma get_jstr k s r : str_of (get k (jstr k s ++ r)) = s.
Proof. unfold jstr. by rewrite get_app_hit. Qed.
Lemma get_jstr_omit k s r : str_of (get k r) = "" -> str_of (get k (jstr_omit k s ++ r)) = s.
Proof. intros Hr. unfold jstr_omit. case_decide; [by subst | apply get_jstr]. Qed.
Lemma get_jnum k n r : num_of (get k (jnum k n ++ r)) = Z.of_N n.
Proof. unfold jnum. by rewrite get_app_hit. Qed.
Lemma strs_of_jstrs l : strs_of (JArr (JStr <$> l)) = l.
Proof. unfold strs_of. simpl. rewrite <- list_fmap_compose. by apply list_fmap_id. Qed.
Lemma get_jstrs k l r : strs_of (get k (jstrs k l ++ r)) = l.
Proof. unfold jstrs. rewrite get_app_hit. apply strs_of_jstrs. Qed.
Lemma get_jstrs_omit k l r : strs_of (get k r) = [] -> strs_of (get k (jstrs_omit k l ++ r)) = l.
Proof. intros Hr. unfold jstrs_omit. case_decide; [by subst | apply get_jstrs]. Qed.
Lemma get_jobjs k l r : items_of (get k (jobjs k l ++ r)) = l.
Proof. unfold jobjs. by rewrite get_app_hit. Qed.
Lemma get_jobjs_omit k l r : items_of (get k r) = [] -> items_of (get k (jobjs_omit k l ++ r)) = l.
Proof. intros Hr. unfold jobjs_omit. case_decide as Hl; [by apply length_zero_iff_nil in Hl as -> | apply get_jobjs]. Qed.

Lemma get_nil k : get k [] = JNull.
Proof. done. Qed.

Lemma get_num_omit k n r : num_of (get k r) = 0%Z ->
  num_of (get k ((if decide (n = 0%Z) then [] else [(k, JNum n)]) ++ r)) = n.
Proof. intros Hr. case_decide; [by subst | by rewrite get_app_hit]. Qed.

(** Reads one field of a document built by concatenation of groups. *)
Ltac skip_fields := repeat (rewrite get_app_miss by auto with go).
Ltac open_fields :=
  cbn [fields_of];
  match goal with |- context [get ?k ?fs] => rewrite <- (app_nil_r fs), <- ?app_assoc end;
  skip_fields.
Ltac read_field :=
  open_fields;
  first [ apply get_jstr | rewrite get_jnum; apply N2Z.id | apply get_jstrs | apply get_jobjs
        | apply get_jstr_omit | apply get_num_omit | apply get_jstrs_omit | apply get_jobjs_omit ];
  skip_fields; reflexivity.

(** ** The frozen documents *)

Definition TaskContract_of (v : jval) : TaskContract :=
  let f k := get k (fields_of v) in
  mkTaskContract (str_of (f "task_contract_id")) (str_of (f "work_item_id")) (str_of (f "task_type"))
    (strs_of (f "capability_ids")) (strs_of (f "skill_ids")) (str_of (f "skill_contract_digest"))
    (num_of (f "skill_guidance_version")) (str_of (f "repository")) (str_of (f "base_commit"))
    (str_of (f "target_id")) (str_of (f "target_platform")) (strs_of (f "acceptance_criteria"))
    (strs_of (f "allowed_actions")) (strs_of (f "expected_outputs")) (str_of (f "verification_plan_id"))
    (str_of (f "verification_plan_digest")) (Z.to_N (num_of (f "revision"))).

Lemma TaskContract_reads t : TaskContract_of (TaskContract_json t) = t.
Proof.
  unfold TaskContract_of, TaskContract_json. destruct t. f_equal; read_field.
Qed.

Definition ContextRef_of (v : jval) : ContextRef :=
  let f k := str_of (get k (fields_of v)) in
  mkContextRef (f "source") (f "type") (f "version") (f "digest") (f "trust").

Definition ContinuationRef_of (v : jval) : ContinuationRef :=
  let f k := str_of (get k (fields_of v)) in
  mkContinuationRef (f "source_run_id") (f "checkpoint_digest") (f "archive_digest")
    (num_of (get "archive_size" (fields_of v))) (f "snapshot_digest").

Definition RunInputManifest_of (v : jval) : RunInputManifest :=
  let f k := str_of (get k (fields_of v)) in
  mkRunInput (match get "continuation" (fields_of v) with JNull => None | c => Some (ContinuationRef_of c) end)
    (f "run_id") (f "task_contract_digest") (ContextRef_of <$> items_of (get "context_refs" (fields_of v)))
    (f "runtime_profile") (f "tool_profile") (f "worker_profile") (f "policy_profile").

Lemma ContextRef_reads r : ContextRef_of (ContextRef_json r) = r.
Proof. unfold ContextRef_of, ContextRef_json. destruct r. f_equal; read_field. Qed.

Lemma ContinuationRef_reads c : ContinuationRef_of (ContinuationRef_json c) = c.
Proof. unfold ContinuationRef_of, ContinuationRef_json. destruct c. f_equal; first [read_field | reflexivity]. Qed.

Lemma reads_map {A} (f : jval -> A) (g : A -> jval) (l : list A) x :
  x = g <$> l -> (forall a, f (g a) = a) -> f <$> x = l.
Proof. intros -> Hfg. induction l as [|a l IH]; csimpl; [done|]. by rewrite Hfg, IH. Qed.

Lemma RunInputManifest_reads m : RunInputManifest_of (RunInputManifest_json m) = m.
Proof.
  unfold RunInputManifest_of, RunInputManifest_json. destruct m as [o ? ? refs ? ? ? ?]. f_equal; try read_field.
  - destruct o; [cbn; f_equal; apply ContinuationRef_reads|]. by open_fields.
  - eapply reads_map; [read_field | apply ContextRef_reads].
Qed.

Definition EvidenceRequirement_of (v : jval) : EvidenceRequirement :=
  let f k := str_of (get k (fields_of v)) in mkRequirement (f "requirement_id") (f "procedure") (f "issuer").
Definition Criterion_of (v : jval) : Criterion :=
  let f k := get k (fields_of v) in
  mkCriterion (str_of (f "criterion_id")) (str_of (f "statement"))
    (EvidenceRequirement_of <$> items_of (f "evidence_requirements")).
Definition Plan_of (v : jval) : Plan :=
  let f k := get k (fields_of v) in
  mkPlan (str_of (f "verification_plan_id")) (Criterion_of <$> items_of (f "criteria")).

Lemma Plan_reads p : Plan_of (Plan_json p) = p.
Proof.
  unfold Plan_of, Plan_json. destruct p as [i cs]. f_equal; try read_field.
  eapply reads_map; [read_field|]. clear. intros [i s rs]. unfold Criterion_of.
  f_equal; try read_field. eapply reads_map; [read_field|]. clear.
  intros [i p s]. unfold EvidenceRequirement_of. f_equal; try reflexivity; read_field.
Qed.

(** What a delivery's subject is made of. *)
Definition subject_parts (d : DeliveryReceipt) : list string * list (string * string) :=
  ([dr_TaskContractDigest d; dr_RunID d; dr_TargetID d; dr_BaseCommit d; dr_ResultCommit d],
   subject_artifacts (dr_Artifacts d)).
Definition subject_of (v : jval) : list string * list (string * string) :=
  let f k := str_of (get k (fields_of v)) in
  ([f "task_contract_digest"; f "run_id"; f "target_id"; f "base_commit"; f "result_commit"],
   (fun a => (str_of (get "artifact_id" (fields_of a)), str_of (get "digest" (fields_of a))))
     <$> items_of (get "artifacts" (fields_of v))).

Lemma subject_reads d : subject_of (deliverySubject_json d) = subject_parts d.
Proof.
  unfold subject_of, subject_parts, deliverySubject_json. f_equal; [repeat (f_equal; try read_field)|].
  eapply reads_map; [read_field|]. clear. intros [i a]. simpl. f_equal; try reflexivity; read_field.
Qed.

(** ** Digests are ASCII text *)

Lemma ascii_utf8 n l : forallb (in_range 0 127) l = true -> (length l <= n)%nat -> utf8_valid_fuel n l = true.
Proof.
  revert l. induction n as [|n IH]; intros [|c l] Hl Hn; simpl in *; [done | lia | done |].
  apply andb_true_iff in Hl as [[_ Hc%N.leb_le]%andb_true_iff Hl].
  rewrite (proj2 (N.ltb_lt _ 128)) by lia. apply IH; [by rewrite drop_0 | rewrite drop_0; lia].
Qed.
Lemma hex_ascii c : is_lower_hex c = true -> in_range 0 127 c = true.
Proof.
  unfold is_lower_hex, is_digit, in_range. rewrite orb_true_iff, !andb_true_iff, !N.leb_le. lia.
Qed.
Lemma prefix_drop p s : str_prefix p s = true -> s = p +:+ str_drop (str_len p) s.
Proof.
  revert s. induction p as [|c p IH]; intros [|d s]; simpl; [done..|].
  destruct (Stdlib.Strings.Ascii.ascii_dec c d) as [->|]; [|done]. intros Hp. rewrite (IH s Hp) at 1. done.
Qed.
Lemma ValidDigest_utf8 d : ValidDigest d = true -> utf8_valid d = true.
Proof.
  unfold ValidDigest. intros [[Hp%prefix_drop _]%andb_true_iff Hh]%andb_true_iff.
  apply ascii_utf8; [|by rewrite bytes_length]. rewrite Hp, bytes_app, forallb_app. apply andb_true_iff. split; [reflexivity|].
  unfold str_forall in Hh. apply forallb_forall. intros c Hc. apply hex_ascii. by eapply forallb_forall in Hh.
Qed.

Section binding.
Context `{Hash}.

(** Documents read back by a left inverse of their JSON are determined by their digest. *)
Lemma read_binds {A B} (json : A -> jval) (read : jval -> B) (view : A -> B) a a' :
  (forall a, read (json a) = view a) -> well_encoded (json a) = true -> well_encoded (json a') = true ->
  Digest (json a) = Digest (json a') -> view a = view a' \/ collision [marshal (json a); marshal (json a')].
Proof.
  intros Hr Ha Ha' [He|?]%Digest_binds; [left | by right | done | done]. by rewrite <- !Hr, He.
Qed.

Lemma Digest_valid v d : Digest v = Ok d -> ValidDigest d = true.
Proof. destruct (Digest_ok v) as (d' & -> & ?). by intros [= <-]. Qed.

Lemma RunInputManifest_Digest_ok m d : RunInputManifest_Digest m = Ok d -> Digest (RunInputManifest_json m) = Ok d.
Proof. unfold RunInputManifest_Digest. by intros (_ & _ & (_ & _ & Hd)%bind_ok)%bind_ok. Qed.

(** A digest names one document.  Two task contracts, two verification
    plans or two run inputs with the same digest are equal in every field,
    and two deliveries with the same subject digest agree on contract, run,
    target, commits and artifacts, unless their two texts have one hash. *)
Theorem digests_bind :
  (forall t t', well_encoded (TaskContract_json t) = true -> well_encoded (TaskContract_json t') = true ->
     TaskContract_Digest t = TaskContract_Digest t' -> t = t' \/ collision [marshal (TaskContract_json t); marshal (TaskContract_json t')])
  /\ (forall p p', well_encoded (Plan_json p) = true -> well_encoded (Plan_json p') = true ->
     Plan_Digest p = Plan_Digest p' -> p = p' \/ collision [marshal (Plan_json p); marshal (Plan_json p')])
  /\ (forall m m' d, well_encoded (RunInputManifest_json m) = true -> well_encoded (RunInputManifest_json m') = true ->
     RunInputManifest_Digest m = Ok d -> RunInputManifest_Digest m' = Ok d ->
     m = m' \/ collision [marshal (RunInputManifest_json m); marshal (RunInputManifest_json m')])
  /\ (forall d d', well_encoded (deliverySubject_json d) = true -> well_encoded (deliverySubject_json d') = true ->
     CalculateSubjectDigest d = CalculateSubjectDigest d' -> subject_parts d = subject_parts d'
       \/ collision [marshal (deliverySubject_json d); marshal (deliverySubject_json d')]).
Proof.
  split_and!.
  - intros t t'. apply (read_binds _ TaskContract_of id), TaskContract_reads.
  - intros p p'. apply (read_binds _ Plan_of id), Plan_reads.
  - intros m m' d Hm Hm' (? & _ & (? & _ & Hd)%bind_ok)%bind_ok (? & _ & (? & _ & Hd')%bind_ok)%bind_ok.
    apply (read_binds RunInputManifest_json RunInputManifest_of id); [apply RunInputManifest_reads|done..|congruence].
  - intros d d'. apply (read_binds _ subject_of), subject_reads.
Qed.

End binding.

Lemma digests_bind_witness :
  let t := mkTaskContract "T" "W" "DEBUG" [] ["s"] "" 0 "r" "b" "" "" ["ac"] [] [] "P" "d" 1 in
  t = t \/ collision [marshal (TaskContract_json t); marshal (TaskContract_json t)].
Proof. intros t. apply (proj1 digests_bind); reflexivity. Defined.
