(* ===== verification/WorkerQueue.v ===== *)
(** [internal/workerqueue]: the admission of a run's frozen input by a worker.

    A worker claims an [Assignment] under a lease token, checks the frozen
    identities and reports the digest of the [Validation] it computed; the
    server computes the same.  The receipt admits the input and nothing else:
    it says neither that context bytes were read nor that anything ran. *)
From S2P Require Import Prelude Canonical Json Core Verification Binding.

Definition wq_ErrIdentity : goerr := ESentinel "workerqueue.ErrIdentity" "worker input identity mismatch".
Definition ErrLease : goerr := ESentinel "workerqueue.ErrLease" "worker lease is absent, expired or superseded".
Definition ErrRecovery : goerr := ESentinel "workerqueue.ErrRecovery" "worker admission blocked by recovery".
Definition ErrInactive : goerr := ESentinel "workerqueue.ErrInactive" "run is terminal or no longer runtime-owned".
Definition ErrPaused : goerr := ESentinel "workerqueue.ErrPaused" "run or session is paused; defer without revoking intent".

Definition Protocol : string := "worker-input-v1".
Definition Validated : string := "INPUT_VALIDATED".

Definition logicalName (s : string) : bool :=
  matches_name is_alnum (fun c => is_alnum c || one_of "._:/-" c) 191 s.
Definition fullCommit (s : string) : bool := (str_len s =? 40)%nat && str_forall is_hex s.
Definition ValidProfile (profile : string) : bool := logicalName profile.

(** ** The documents *)

Record Intent := mkIntent { it_RunID : string; it_TaskDigest : string; it_InputDigest : string; it_ExecutionEpoch : N }.
Record Token := mkToken { tk_Profile : string; tk_InboxID : Z; tk_Generation : N; tk_RecoveryEpoch : N }.
Record Assignment := mkAssignment {
  as_Token : Token; as_LeaseUntil : time; as_Intent : Intent; as_IntentDigest : string;
  as_Input : RunInputManifest; as_Task : TaskContract
}.
Record Validation := mkValidation {
  va_Protocol : string; va_IntentDigest : string; va_InputDigest : string; va_TaskDigest : string;
  va_ContextCount : Z; va_ContextBytesVerified : bool; va_ExecutionStarted : bool
}.
Record Report := mkReport { rp_Token : Token; rp_ValidationDigest : string }.
Record Receipt := mkReceipt {
  rc_Token : Token; rc_Worker : string; rc_Kind : string; rc_Validation : Validation; rc_ReceivedAt : time
}.
Record Status := mkStatus {
  st_InboxID : Z; st_RunID : string; st_State : string; st_Generation : N; st_Receipt : option Receipt
}.

#[export] Instance Token_eq_dec : EqDecision Token.
Proof. solve_decision. Defined.
#[export] Instance Report_eq_dec : EqDecision Report.
Proof. solve_decision. Defined.
#[export] Instance Validation_eq_dec : EqDecision Validation.
Proof. solve_decision. Defined.

Definition Intent_json (i : Intent) : jval := JObj
  (jstr "run_id" (it_RunID i) ++ jstr "task_contract_digest" (it_TaskDigest i)
   ++ jstr "run_input_manifest_digest" (it_InputDigest i) ++ jnum "execution_epoch" (it_ExecutionEpoch i)).
Definition Token_json (t : Token) : jval := JObj
  (jstr "worker_profile" (tk_Profile t) ++ [("inbox_id", JNum (tk_InboxID t))]
   ++ jnum "lease_generation" (tk_Generation t) ++ jnum "recovery_epoch" (tk_RecoveryEpoch t)).
Definition Assignment_json (a : Assignment) : jval := JObj
  ([("token", Token_json (as_Token a))] ++ jtime "lease_until" (as_LeaseUntil a)
   ++ [("intent", Intent_json (as_Intent a))] ++ jstr "intent_digest" (as_IntentDigest a)
   ++ [("run_input", RunInputManifest_json (as_Input a)); ("task", TaskContract_json (as_Task a))]).
Definition Validation_json (v : Validation) : jval := JObj
  (jstr "protocol" (va_Protocol v) ++ jstr "intent_digest" (va_IntentDigest v)
   ++ jstr "run_input_manifest_digest" (va_InputDigest v) ++ jstr "task_contract_digest" (va_TaskDigest v)
   ++ [("context_count", JNum (va_ContextCount v)); ("context_bytes_verified", JBool (va_ContextBytesVerified v));
       ("execution_started", JBool (va_ExecutionStarted v))]).
Definition Receipt_json (r : Receipt) : jval := JObj
  ([("token", Token_json (rc_Token r))] ++ jstr "worker_subject" (rc_Worker r) ++ jstr "kind" (rc_Kind r)
   ++ [("validation", Validation_json (rc_Validation r))] ++ jtime "received_at" (rc_ReceivedAt r)).
Definition Status_json (s : Status) : jval := JObj
  ([("inbox_id", JNum (st_InboxID s))] ++ jstr "run_id" (st_RunID s) ++ jstr "state" (st_State s)
   ++ jnum "lease_generation" (st_Generation s)
   ++ match st_Receipt s with Some r => [("receipt", Receipt_json r)] | None => [] end).

(** ** The operations *)

Definition Token_Valid (t : Token) : bool :=
  bool_decide ((0 < tk_InboxID t)%Z /\ (0 < tk_Generation t)%N) && ValidProfile (tk_Profile t).

Section operations.
Context `{Hash}.

Definition Intent_Digest (i : Intent) : outcome string :=
  if decide (it_RunID i = "" \/ 256 < str_len (it_RunID i) \/ it_ExecutionEpoch i = 0%N
             \/ ValidDigest (it_TaskDigest i) = false \/ ValidDigest (it_InputDigest i) = false)
  then Err wq_ErrIdentity else Digest (Intent_json i).

Definition Validate (a : Assignment) : outcome Validation :=
  match Intent_Digest (as_Intent a) with
  | Err _ => Err wq_ErrIdentity
  | Ok digest =>
    if decide (digest <> as_IntentDigest a \/ Token_Valid (as_Token a) = false) then Err wq_ErrIdentity else
    match RunInputManifest_Digest (as_Input a) with
    | Err _ => Err wq_ErrIdentity
    | Ok inputDigest =>
      if decide (inputDigest <> it_InputDigest (as_Intent a) \/ ri_RunID (as_Input a) <> it_RunID (as_Intent a)
                 \/ ri_TaskContractDigest (as_Input a) <> it_TaskDigest (as_Intent a))
      then Err wq_ErrIdentity else
      match TaskContract_Digest (as_Task a) with
      | Err _ => Err wq_ErrIdentity
      | Ok taskDigest =>
        if decide (taskDigest <> it_TaskDigest (as_Intent a) \/ tc_ID (as_Task a) = "" \/ tc_WorkItemID (as_Task a) = ""
                   \/ fullCommit (tc_BaseCommit (as_Task a)) = false \/ tc_AcceptanceCriteria (as_Task a) = [])
        then Err wq_ErrIdentity else
        if decide (tk_Profile (as_Token a) <> ri_WorkerProfile (as_Input a) \/ ri_RuntimeProfile (as_Input a) = ""
                   \/ ri_ToolProfile (as_Input a) = "" \/ ValidProfile (ri_WorkerProfile (as_Input a)) = false
                   \/ ri_PolicyProfile (as_Input a) = "")
        then Err wq_ErrIdentity else
        Ok (mkValidation Protocol digest inputDigest taskDigest (Z.of_nat (length (ri_ContextRefs (as_Input a)))) false false)
      end
    end
  end.

Definition NewReport (a : Assignment) : outcome Report :=
  v ← Validate a;
  digest ← Digest (Validation_json v);
  Ok (mkReport (as_Token a) digest).

Definition VerifyReceipt (a : Assignment) (r : Receipt) : outcome unit :=
  let refuse := Err (EWrap "" wq_ErrIdentity ": invalid admission receipt") in
  match Validate a with
  | Err _ => refuse
  | Ok v =>
    if decide (rc_Token r <> as_Token a \/ rc_Kind r <> Validated \/ rc_Validation r <> v
               \/ rc_Worker r = "" \/ IsZero (rc_ReceivedAt r) = true)
    then refuse else Ok tt
  end.

End operations.

(** ** Reading the documents back *)

Definition Intent_of (v : jval) : Intent :=
  let f k := get k (fields_of v) in
  mkIntent (str_of (f "run_id")) (str_of (f "task_contract_digest")) (str_of (f "run_input_manifest_digest"))
    (Z.to_N (num_of (f "execution_epoch"))).
Lemma Intent_reads i : Intent_of (Intent_json i) = i.
Proof. unfold Intent_of, Intent_json. destruct i. f_equal; read_field. Qed.

Definition bool_of (v : jval) : bool := match v with JBool b => b | _ => false end.
Definition Validation_of (v : jval) : Validation :=
  let f k := get k (fields_of v) in
  mkValidation (str_of (f "protocol")) (str_of (f "intent_digest")) (str_of (f "run_input_manifest_digest"))
    (str_of (f "task_contract_digest")) (num_of (f "context_count")) (bool_of (f "context_bytes_verified"))
    (bool_of (f "execution_started")).
Lemma Validation_reads v : Validation_of (Validation_json v) = v.
Proof. by destruct v. Qed.

(** ** What validation establishes *)

Section admission.
Context `{Hash}.

(** The frozen identities of an assignment agree with one another. *)
Record frozen (a : Assignment) : Prop := {
  fr_intent : Intent_Digest (as_Intent a) = Ok (as_IntentDigest a);
  fr_input : RunInputManifest_Digest (as_Input a) = Ok (it_InputDigest (as_Intent a));
  fr_task : TaskContract_Digest (as_Task a) = Ok (it_TaskDigest (as_Intent a));
  fr_run : ri_RunID (as_Input a) = it_RunID (as_Intent a);
  fr_contract : ri_TaskContractDigest (as_Input a) = it_TaskDigest (as_Intent a);
  fr_profile : tk_Profile (as_Token a) = ri_WorkerProfile (as_Input a)
}.

(** What is asked of the lease token and of the documents themselves. *)
Record complete (a : Assignment) : Prop := {
  cm_lease : (0 < tk_InboxID (as_Token a))%Z /\ (0 < tk_Generation (as_Token a))%N;
  cm_worker : logicalName (ri_WorkerProfile (as_Input a)) = true;
  cm_task : tc_ID (as_Task a) <> "" /\ tc_WorkItemID (as_Task a) <> "" /\ tc_AcceptanceCriteria (as_Task a) <> []
            /\ fullCommit (tc_BaseCommit (as_Task a)) = true;
  cm_profiles : ri_RuntimeProfile (as_Input a) <> "" /\ ri_ToolProfile (as_Input a) <> "" /\ ri_PolicyProfile (as_Input a) <> ""
}.

Definition validation_of (a : Assignment) : Validation :=
  mkValidation Protocol (as_IntentDigest a) (it_InputDigest (as_Intent a)) (it_TaskDigest (as_Intent a))
    (Z.of_nat (length (ri_ContextRefs (as_Input a)))) false false.

Lemma Validate_spec a v : Validate a = Ok v <-> frozen a /\ complete a /\ v = validation_of a.
Proof.
  unfold Validate, Token_Valid, ValidProfile. split.
  - intros Hv. ok_inv. guards. rewrite !not_false_iff_true in *. guards.
    subst. unfold validation_of. split_and!; [split; congruence | split; auto | congruence].
  - intros ([Hi Hin Ht Hr Hc Hp] & [[? ?] Hw (? & ? & ? & ?) (? & ? & ?)] & ->). rewrite Hi, Hin, Ht, Hp, Hw.
    rewrite bool_decide_true by done. cbn [andb]. rewrite !decide_False; [done | intuition congruence..].
Qed.

(** What is frozen in an assignment, and that it is UTF-8 text. *)
Definition frozen_parts (a : Assignment) : Intent * RunInputManifest * TaskContract := (as_Intent a, as_Input a, as_Task a).
Definition utf8_frozen (a : Assignment) : Prop :=
  well_encoded (Intent_json (as_Intent a)) = true /\ well_encoded (RunInputManifest_json (as_Input a)) = true
  /\ well_encoded (TaskContract_json (as_Task a)) = true.

Lemma Intent_Digest_ok i d : Intent_Digest i = Ok d -> Digest (Intent_json i) = Ok d
  /\ ValidDigest (it_TaskDigest i) = true /\ ValidDigest (it_InputDigest i) = true.
Proof. unfold Intent_Digest. intros Hd. ok_inv. guards. by rewrite !not_false_iff_true in *. Qed.

(** The texts an assignment's digests are taken of, and that of its validation. *)
Definition frozen_texts (a : Assignment) : list string :=
  [marshal (Intent_json (as_Intent a)); marshal (RunInputManifest_json (as_Input a)); marshal (TaskContract_json (as_Task a));
   marshal (Validation_json (validation_of a))].

Lemma frozen_binds a a' : utf8_frozen a -> utf8_frozen a' -> frozen a -> frozen a' ->
  as_IntentDigest a = as_IntentDigest a' -> frozen_parts a = frozen_parts a' \/ collision (frozen_texts a ++ frozen_texts a').
Proof.
  intros (Hi & Hn & Ht) (Hi' & Hn' & Ht') [[Fi _]%Intent_Digest_ok Fn Ft _ _ _] [[Fi' _]%Intent_Digest_ok Fn' Ft' _ _ _] He.
  destruct (read_binds Intent_json Intent_of id (as_Intent a) (as_Intent a')) as [Hint|Hc];
    [apply Intent_reads | congruence.. | | right; revert Hc; apply collision_incl; unfold frozen_texts; set_solver].
  assert (forall l, collision l -> l ⊆ frozen_texts a ++ frozen_texts a' -> collision (frozen_texts a ++ frozen_texts a')) as Hcol
    by eauto using collision_incl. unfold frozen_texts in Hcol at 1 2.
  simpl in Hint. rewrite <- Hint in *.
  destruct (read_binds RunInputManifest_json RunInputManifest_of id (as_Input a) (as_Input a')) as [Hinp|?];
    [apply RunInputManifest_reads | done | done | | | right; eapply Hcol; [done | set_solver]].
  { apply RunInputManifest_Digest_ok in Fn, Fn'. congruence. }
  destruct (read_binds TaskContract_json TaskContract_of id (as_Task a) (as_Task a')) as [Htask|?];
    [apply TaskContract_reads | done | done | unfold TaskContract_Digest in *; congruence | | right; eapply Hcol; [done | set_solver]].
  left. unfold frozen_parts. simpl in *. congruence.
Qed.

Lemma Validation_utf8 a : frozen a -> well_encoded (Validation_json (validation_of a)) = true.
Proof.
  intros [Hi _ _ _ _ _]. pose proof (Intent_Digest_ok _ _ Hi) as (Hd%Digest_valid & Ht & Hn).
  apply ValidDigest_utf8 in Hd, Ht, Hn. unfold validation_of, Validation_json, Protocol, jstr.
  cbn [app well_encoded forallb fst snd va_Protocol va_IntentDigest va_InputDigest va_TaskDigest va_ContextCount].
  by rewrite Hd, Ht, Hn.
Qed.

(** C32: A reported validation stands for one frozen assignment: two workers
    who report the same digest validated the same intent, run input and task
    contract; a receipt verifies for the assignments of one such set and one
    lease only; or two of the texts of the two assignments have one hash. *)
Theorem admission_binds a a' : utf8_frozen a -> utf8_frozen a' ->
  (forall r r', NewReport a = Ok r -> NewReport a' = Ok r' -> rp_ValidationDigest r = rp_ValidationDigest r' ->
     frozen_parts a = frozen_parts a' \/ collision (frozen_texts a ++ frozen_texts a'))
  /\ (forall r, VerifyReceipt a r = Ok tt -> VerifyReceipt a' r = Ok tt ->
     (as_Token a = as_Token a' /\ frozen_parts a = frozen_parts a') \/ collision (frozen_texts a ++ frozen_texts a')).
Proof.
  intros Hu Hu'. split.
  - intros r r' (v & (Hf & _ & ->)%Validate_spec & (d & Hd & [= <-])%bind_ok)%bind_ok.
    intros (v' & (Hf' & _ & ->)%Validate_spec & (d' & Hd' & [= <-])%bind_ok)%bind_ok. simpl. intros ->.
    destruct (read_binds Validation_json Validation_of id (validation_of a) (validation_of a')) as [He|?];
      [apply Validation_reads | by apply Validation_utf8.. | congruence | | right; eapply collision_incl; [|done]; unfold frozen_texts; set_solver].
    apply frozen_binds; [done..|]. by injection He.
  - intros r Hr Hr'. unfold VerifyReceipt in *. ok_inv. guards. subst.
    match goal with H1 : Validate a = Ok _, H2 : Validate a' = Ok _ |- _ =>
      apply Validate_spec in H1 as (? & _ & Hv1); apply Validate_spec in H2 as (? & _ & Hv2) end.
    destruct (frozen_binds a a') as [?|?]; [done.. | | left; split; congruence | by right].
    assert (validation_of a = validation_of a') as [=] by congruence. done.
Qed.

(** [Validate] accepts exactly the assignments whose token, intent, input
    and task agree and are complete, and what it returns claims neither that
    context bytes were verified nor that anything was executed; a receipt is
    accepted exactly when it repeats the token and this validation, from a
    named worker at a known time. *)
Theorem Validate_correct a :
  (forall v, Validate a = Ok v <-> frozen a /\ complete a /\ v = validation_of a)
  /\ (forall e, Validate a = Err e -> e = wq_ErrIdentity)
  /\ (forall r, VerifyReceipt a r = Ok tt <->
       frozen a /\ complete a /\ rc_Token r = as_Token a /\ rc_Kind r = Validated /\ rc_Validation r = validation_of a
       /\ rc_Worker r <> "" /\ IsZero (rc_ReceivedAt r) = false).
Proof.
  split; [intros v; apply Validate_spec|]. split.
  - unfold Validate. intros e. repeat case_match; congruence.
  - intros r. unfold VerifyReceipt. split.
    + intros Hr. ok_inv. guards. rewrite not_true_iff_false in *.
      match goal with H1 : Validate a = Ok _ |- _ => apply Validate_spec in H1 as (? & ? & ->) end. done.
    + intros (Hf & Hc & ? & ? & ? & ? & ?). rewrite (proj2 (Validate_spec a _)) by done.
      apply decide_False. intuition congruence.
Qed.

End admission.

(** ** An assignment *)

Definition sample_task : TaskContract :=
  mkTaskContract "T1" "W1" "DEBUG" ["embedded.linux-bsp"] ["log-triage"] "" 0 "repo"
    "0123456789abcdef0123456789abcdef01234567" "board-1" "" ["board boots"] ["worker.offline-execute"] [] "P1" "" 1.
Definition sample_task_digest : string := Eval vm_compute in default "" (match TaskContract_Digest sample_task with Ok d => Some d | Err _ => None end).
Definition sample_input : RunInputManifest :=
  mkRunInput None "run-1" sample_task_digest [] "runtime" "tool" "worker-1" "policy".
Definition sample_input_digest : string := Eval vm_compute in default "" (match RunInputManifest_Digest sample_input with Ok d => Some d | Err _ => None end).
Definition sample_intent : Intent := mkIntent "run-1" sample_task_digest sample_input_digest 1.
Definition sample_intent_digest : string := Eval vm_compute in default "" (match Intent_Digest sample_intent with Ok d => Some d | Err _ => None end).
Definition sample_assignment (generation : N) : Assignment :=
  mkAssignment (mkToken "worker-1" 7 generation 0) 100 sample_intent sample_intent_digest sample_input sample_task.
Definition sample_receipt : Receipt :=
  mkReceipt (as_Token (sample_assignment 1)) "urn:worker" Validated (validation_of (sample_assignment 1)) 50.

Lemma admission_binds_witness :
  is_ok (NewReport (sample_assignment 1)) = true /\ is_ok (VerifyReceipt (sample_assignment 1) sample_receipt) = true
  /\ (frozen_parts (sample_assignment 1) = frozen_parts (sample_assignment 2)
      \/ collision (frozen_texts (sample_assignment 1) ++ frozen_texts (sample_assignment 2))).
Proof.
  split; [vm_compute; reflexivity|]. split; [vm_compute; reflexivity|].
  destruct (admission_binds (sample_assignment 1) (sample_assignment 2)) as [Hr _];
    [split_and!; vm_compute; reflexivity..|].
  destruct (NewReport (sample_assignment 1)) as [r|] eqn:E1; [|vm_compute in E1; discriminate].
  destruct (NewReport (sample_assignment 2)) as [r'|] eqn:E2; [|vm_compute in E2; discriminate].
  apply (Hr r r'); [done..|]. vm_compute in E1, E2. injection E1 as <-. injection E2 as <-. reflexivity.
Defined.
