(* ===== verification/Preparation.v ===== *)
(** [internal/preparation/model.go], with the manifest of
    [internal/contextbundle]: what a worker attests before execution.

    The facts name the frozen identities of the assignment, the prepared
    workspace and the bundle of approved context; [Check] recomputes every
    digest that can be recomputed without the worker's file system, and
    [Verify] accepts a receipt for one assignment, one worker and one set of
    facts. *)
From S2P Require Import Prelude Canonical Json Core Verification Binding WorkerQueue.

Definition prep_Kind : string := "WORKER_ATTESTED_PREPARATION".
(** [workspace.Recipe]. *)
Definition Recipe : string := "independent-git-snapshot-v1".
Definition gitSHA (s : string) : bool := (str_len s =? 40)%nat && str_forall is_lower_hex s.

Record Entry := mkEntry { en_Ref : ContextRef; en_File : string; en_Size : Z }.
Record Manifest := mkManifest { mf_SchemaVersion : Z; mf_RunInputDigest : string; mf_Entries : list Entry }.

Record Facts := mkFacts {
  fa_SeedSourceDigest : string; fa_SeedCheckpointDigest : string; fa_Version : Z;
  fa_IntentDigest : string; fa_InputDigest : string; fa_TaskDigest : string; fa_ApprovalDigest : string;
  fa_BaseCommit : string; fa_TreeCommit : string; fa_WorkspaceRecipe : string;
  fa_SourceDigest : string; fa_ConfigDigest : string; fa_BundleDigest : string; fa_Context : Manifest;
  fa_ExecutionStarted : bool; fa_OSIsolated : bool
}.
Record PreparationReport := mkPreparationReport { pr_Input : Report; pr_Facts : Facts }.
Record PreparationReceipt := mkPreparationReceipt {
  pc_Kind : string; pc_Admission : Receipt; pc_Facts : Facts; pc_FactsDigest : string; pc_ReceivedAt : time
}.

Definition Entry_json (e : Entry) : jval := JObj
  ([("ref", ContextRef_json (en_Ref e))] ++ jstr "file" (en_File e) ++ [("size", JNum (en_Size e))]).
Definition Manifest_json (m : Manifest) : jval := JObj
  ([("schema_version", JNum (mf_SchemaVersion m))] ++ jstr "run_input_digest" (mf_RunInputDigest m)
   ++ jobjs "entries" (Entry_json <$> mf_Entries m)).
Definition Facts_json (f : Facts) : jval := JObj
  (jstr_omit "seed_source_digest" (fa_SeedSourceDigest f) ++ jstr_omit "seed_checkpoint_digest" (fa_SeedCheckpointDigest f)
   ++ [("version", JNum (fa_Version f))] ++ jstr "intent_digest" (fa_IntentDigest f)
   ++ jstr "run_input_manifest_digest" (fa_InputDigest f) ++ jstr "task_contract_digest" (fa_TaskDigest f)
   ++ jstr "approval_digest" (fa_ApprovalDigest f) ++ jstr "base_commit" (fa_BaseCommit f)
   ++ jstr "tree_commit" (fa_TreeCommit f) ++ jstr "workspace_recipe" (fa_WorkspaceRecipe f)
   ++ jstr "source_digest" (fa_SourceDigest f) ++ jstr "git_config_digest" (fa_ConfigDigest f)
   ++ jstr "bundle_digest" (fa_BundleDigest f) ++ [("context_manifest", Manifest_json (fa_Context f));
      ("execution_started", JBool (fa_ExecutionStarted f)); ("os_isolated", JBool (fa_OSIsolated f))]).
Definition PreparationReceipt_json (r : PreparationReceipt) : jval := JObj
  (jstr "kind" (pc_Kind r) ++ [("admission", Receipt_json (pc_Admission r)); ("facts", Facts_json (pc_Facts r))]
   ++ jstr "facts_digest" (pc_FactsDigest r) ++ jtime "received_at" (pc_ReceivedAt r)).

(** [fmt.Sprintf("%03d-%s.bin", i, strings.TrimPrefix(ref.Digest, "sha256:"))]. *)
Definition trim_prefix (p s : string) : string := if str_prefix p s then str_drop (str_len p) s else s.
Definition pad3 (s : string) : string :=
  match str_len s with 1 => "00" +:+ s | 2 => "0" +:+ s | _ => s end.
Definition entry_file (i : nat) (ref : ContextRef) : string :=
  pad3 (pretty i) +:+ "-" +:+ trim_prefix "sha256:" (cr_Digest ref) +:+ ".bin".

(** The loop over the context references; [entries] has as many elements. *)
Fixpoint entries_loop (i : nat) (total : Z) (refs : list ContextRef) (entries : list Entry) : outcome Z :=
  match refs, entries with
  | [], _ => Ok total
  | ref :: refs, entry :: entries =>
    if decide (cr_Trust ref <> ContextApproved \/ en_Ref entry <> ref \/ en_File entry <> entry_file i ref
               \/ (en_Size entry < 0)%Z \/ (Z.shiftl 4 20 < en_Size entry)%Z)
    then Err wq_ErrIdentity else entries_loop (Nat.succ i) (total + en_Size entry) refs entries
  | _ :: _, [] => Err wq_ErrIdentity
  end.

(** The seed of a continued run, and none otherwise. *)
Definition seed_agrees (f : Facts) (c : option ContinuationRef) : bool :=
  match c with
  | None => bool_decide (fa_SeedSourceDigest f = "" /\ fa_SeedCheckpointDigest f = "")
  | Some c => ValidDigest (fa_SeedSourceDigest f) && bool_decide (fa_SeedCheckpointDigest f = co_CheckpointDigest c)
  end.

Section operations.
Context `{Hash}.

Definition Facts_Check (f : Facts) (a : Assignment) : outcome unit :=
  _ ← Validate a;
  if decide (fa_Version f <> 1%Z \/ fa_ExecutionStarted f = true \/ fa_OSIsolated f = true
             \/ fa_WorkspaceRecipe f <> Recipe \/ fa_BaseCommit f <> to_lower (tc_BaseCommit (as_Task a))
             \/ gitSHA (fa_TreeCommit f) = false \/ fa_InputDigest f <> it_InputDigest (as_Intent a)
             \/ fa_TaskDigest f <> it_TaskDigest (as_Intent a) \/ fa_IntentDigest f <> as_IntentDigest a)
  then Err wq_ErrIdentity else
  if negb (seed_agrees f (ri_Continuation (as_Input a))) then Err wq_ErrIdentity else
  if negb (forallb ValidDigest [fa_SourceDigest f; fa_ConfigDigest f; fa_BundleDigest f; fa_ApprovalDigest f])
  then Err wq_ErrIdentity else
  if decide (mf_SchemaVersion (fa_Context f) <> 1%Z \/ mf_RunInputDigest (fa_Context f) <> it_InputDigest (as_Intent a)
             \/ length (mf_Entries (fa_Context f)) <> length (ri_ContextRefs (as_Input a)))
  then Err wq_ErrIdentity else
  total ← entries_loop 0 0 (ri_ContextRefs (as_Input a)) (mf_Entries (fa_Context f));
  if decide (Z.shiftl 32 20 < total)%Z then Err wq_ErrIdentity else
  if decide (BytesDigest (marshal (Manifest_json (fa_Context f))) <> fa_BundleDigest f) then Err wq_ErrIdentity
  else Ok tt.

(** [preparation.Verify]. *)
Definition prep_Verify (a : Assignment) (r : PreparationReceipt) (expected : Facts) (subject : string) : outcome unit :=
  _ ← VerifyReceipt a (pc_Admission r);
  match Digest (Facts_json expected), Digest (Facts_json (pc_Facts r)) with
  | Ok digest, Ok actual =>
    if decide (digest <> actual \/ pc_FactsDigest r <> digest \/ pc_Kind r <> prep_Kind
               \/ rc_Worker (pc_Admission r) <> subject \/ IsZero (pc_ReceivedAt r) = true)
    then Err wq_ErrIdentity else Facts_Check (pc_Facts r) a
  | _, _ => Err wq_ErrIdentity
  end.

End operations.

(** ** What the checks establish *)

Section facts.
Context `{Hash}.

(** Entry [k] of the manifest is the file of reference [k], of a bounded size. *)
Definition entry_of (k : nat) (ref : ContextRef) (e : Entry) : Prop :=
  cr_Trust ref = ContextApproved /\ en_Ref e = ref /\ en_File e = entry_file k ref /\ (0 <= en_Size e <= Z.shiftl 4 20)%Z.

Definition sizes (l : list Entry) : Z := foldr Z.add 0%Z (en_Size <$> l).

Lemma entries_loop_ok i total refs entries t : length entries = length refs ->
  entries_loop i total refs entries = Ok t <->
  t = (total + sizes entries)%Z
  /\ forall k ref e, refs !! k = Some ref -> entries !! k = Some e -> entry_of (i + k) ref e.
Proof.
  revert i total entries. induction refs as [|ref refs IH]; intros i total [|e entries] Hl; try discriminate; cbn [entries_loop].
  { unfold sizes. simpl. split; [intros [= ->]; split; [lia | done] | intros [-> _]; f_equal; lia]. }
  injection Hl as Hl. unfold sizes in *. cbn [fmap list_fmap foldr]. case_decide as Hb.
  - split; [done|]. intros [_ Hall]. exfalso. destruct (Hall 0 ref e) as (? & ? & Hf & ?); [done..|].
    rewrite Nat.add_0_r in Hf. intuition (congruence || lia).
  - rewrite IH by done. guards.
    assert (entry_of i ref e) as He by (split_and!; [done.. | lia | lia]). split.
    + intros [-> Hall]. split; [lia|]. intros [|k] ref' e' Hr Hk.
      * injection Hr as <-. injection Hk as <-. by rewrite Nat.add_0_r.
      * rewrite Nat.add_succ_r. by apply (Hall k).
    + intros [-> Hall]. split; [lia|]. intros k ref' e' Hr Hk. rewrite Nat.add_succ_l, <- Nat.add_succ_r.
      by apply (Hall (S k)).
Qed.

Lemma sizes_bounded refs entries : length entries = length refs ->
  (forall k ref e, refs !! k = Some ref -> entries !! k = Some e -> entry_of k ref e) ->
  (0 <= sizes entries <= Z.of_nat (length refs) * Z.shiftl 4 20)%Z.
Proof.
  intros Hl Hall. assert (Forall (fun e => 0 <= en_Size e <= Z.shiftl 4 20)%Z entries) as Hf.
  { apply Forall_lookup. intros k e Hk. destruct (lookup_lt_is_Some_2 refs k) as [ref Hr].
    { rewrite <- Hl. by eapply lookup_lt_Some. }
    by destruct (Hall k ref e Hr Hk) as (_ & _ & _ & ?). }
  rewrite <- Hl. clear -Hf. induction Hf as [|e l He Hf IH]; unfold sizes in *; cbn [fmap list_fmap foldr length]; lia.
Qed.

Lemma RunInputManifest_Digest_refs m d : RunInputManifest_Digest m = Ok d -> (length (ri_ContextRefs m) <= 64)%nat.
Proof.
  unfold RunInputManifest_Digest, ValidateContextRefs. intros (_ & _ & ([] & Hv & _)%bind_ok)%bind_ok.
  case_decide; [done | lia].
Qed.

(** Facts that name the assignment, its workspace and its bundle. *)
Record facts_name (f : Facts) (a : Assignment) : Prop := {
  fn_version : fa_Version f = 1%Z /\ mf_SchemaVersion (fa_Context f) = 1%Z;
  fn_passive : fa_ExecutionStarted f = false /\ fa_OSIsolated f = false;
  fn_workspace : fa_WorkspaceRecipe f = Recipe /\ gitSHA (fa_TreeCommit f) = true;
  fn_base : fa_BaseCommit f = to_lower (tc_BaseCommit (as_Task a));
  fn_identities : fa_InputDigest f = it_InputDigest (as_Intent a) /\ fa_TaskDigest f = it_TaskDigest (as_Intent a)
                  /\ fa_IntentDigest f = as_IntentDigest a /\ mf_RunInputDigest (fa_Context f) = it_InputDigest (as_Intent a);
  fn_seed : seed_agrees f (ri_Continuation (as_Input a)) = true;
  fn_digests : Forall (fun d => ValidDigest d = true)
                 [fa_SourceDigest f; fa_ConfigDigest f; fa_BundleDigest f; fa_ApprovalDigest f]
}.

(** The bundle holds the approved context of the run, entry by entry. *)
Record bundle_of (m : Manifest) (digest : string) (refs : list ContextRef) : Prop := {
  bo_length : length (mf_Entries m) = length refs;
  bo_entries : forall k ref e, refs !! k = Some ref -> mf_Entries m !! k = Some e -> entry_of k ref e;
  bo_total : (sizes (mf_Entries m) <= Z.shiftl 32 20)%Z;
  bo_digest : BytesDigest (marshal (Manifest_json m)) = digest
}.

(** Facts are accepted exactly for an assignment that validates, when they
    repeat its identities, claim neither execution nor isolation, carry the
    seed a continued run needs, and describe a bundle with one bounded file per
    approved context reference whose manifest has the digest they give; at
    most 2^28 is ever added up, so no total overflows. *)
Theorem Facts_Check_correct f a :
  (Facts_Check f a = Ok tt <->
   Validate a = Ok (validation_of a) /\ facts_name f a
   /\ bundle_of (fa_Context f) (fa_BundleDigest f) (ri_ContextRefs (as_Input a)))
  /\ (forall v entries t, Validate a = Ok v -> length entries = length (ri_ContextRefs (as_Input a)) ->
        entries_loop 0 0 (ri_ContextRefs (as_Input a)) entries = Ok t -> (0 <= t <= 2 ^ 28)%Z).
Proof.
  split.
  - unfold Facts_Check. split.
    + intros Hf. ok_inv. guards. rewrite !not_true_iff_false, ?not_false_iff_true in *.
      repeat match goal with H : negb _ = false |- _ => apply negb_false_iff in H end.
      match goal with H : Validate a = Ok _ |- _ => pose proof H as (_ & _ & ->)%Validate_spec end.
      match goal with H : entries_loop _ _ _ _ = Ok _ |- _ => apply entries_loop_ok in H as [-> ?]; [|done] end.
      match goal with H : forallb _ _ = true |- _ => rewrite forallb_forall, <- List.Forall_forall in H end.
      split_and!; [done | by split | by split; [| | lia |]].
    + intros (Hv & [[? ?] [? ?] [? ?] ? (? & ? & ? & ?) Hs Hd] & [Hl He Ht Hb]). rewrite Hv. cbn [mbind].
      unfold mbind, outcome_bind.
      rewrite decide_False by (rewrite ?not_true_iff_false; intuition congruence).
      rewrite Hs. cbn [negb]. rewrite List.Forall_forall, <- forallb_forall in Hd. rewrite Hd. cbn [negb].
      rewrite decide_False by intuition congruence.
      rewrite (proj2 (entries_loop_ok 0 0 _ _ (0 + sizes (mf_Entries (fa_Context f))) Hl)) by done.
      rewrite decide_False by lia. by rewrite decide_False by intuition.
  - intros v entries t (Hf & _ & _)%Validate_spec Hl [-> He]%entries_loop_ok; [|done].
    pose proof (RunInputManifest_Digest_refs _ _ (fr_input _ Hf)) as Hn.
    pose proof (sizes_bounded _ _ Hl He) as Hb. change (Z.shiftl 4 20) with 4194304%Z in Hb. lia.
Qed.

(** ** The facts name one document *)

Definition Entry_of (v : jval) : Entry :=
  let f k := get k (fields_of v) in mkEntry (ContextRef_of (f "ref")) (str_of (f "file")) (num_of (f "size")).
Definition Manifest_of (v : jval) : Manifest :=
  let f k := get k (fields_of v) in
  mkManifest (num_of (f "schema_version")) (str_of (f "run_input_digest")) (Entry_of <$> items_of (f "entries")).
Definition Facts_of (v : jval) : Facts :=
  let f k := get k (fields_of v) in let s k := str_of (f k) in
  mkFacts (s "seed_source_digest") (s "seed_checkpoint_digest") (num_of (f "version")) (s "intent_digest")
    (s "run_input_manifest_digest") (s "task_contract_digest") (s "approval_digest") (s "base_commit")
    (s "tree_commit") (s "workspace_recipe") (s "source_digest") (s "git_config_digest") (s "bundle_digest")
    (Manifest_of (f "context_manifest")) (bool_of (f "execution_started")) (bool_of (f "os_isolated")).

Lemma Entry_reads e : Entry_of (Entry_json e) = e.
Proof. destruct e as [r f n]. change (mkEntry (ContextRef_of (ContextRef_json r)) f n = mkEntry r f n). by rewrite ContextRef_reads. Qed.
Lemma Manifest_reads m : Manifest_of (Manifest_json m) = m.
Proof.
  destruct m as [n d l]. unfold Manifest_of. f_equal. eapply reads_map; [reflexivity | apply Entry_reads].
Qed.
Lemma Facts_reads f : Facts_of (Facts_json f) = f.
Proof.
  unfold Facts_of, Facts_json. destruct f. f_equal; first [read_field | open_fields; first [reflexivity | apply Manifest_reads]].
Qed.

Lemma prep_Verify_ok a r expected subject : prep_Verify a r expected subject = Ok tt ->
  VerifyReceipt a (pc_Admission r) = Ok tt /\ rc_Worker (pc_Admission r) = subject
  /\ Digest (Facts_json expected) = Ok (pc_FactsDigest r) /\ Digest (Facts_json (pc_Facts r)) = Ok (pc_FactsDigest r)
  /\ Facts_Check (pc_Facts r) a = Ok tt.
Proof.
  unfold prep_Verify. intros Hv. ok_inv. guards. subst.
  match goal with u : () |- _ => destruct u end. split_and!; congruence.
Qed.

(** A preparation receipt stands for one worker, one lease and one set of
    facts.  A receipt that verifies was attested by the named worker under the
    assignment's own token, its facts pass every check, they are the expected
    ones, and it verifies for no other worker, lease or facts; or two texts
    with one hash are known. *)
Theorem preparation_binds a r expected subject :
  well_encoded (Facts_json expected) = true -> well_encoded (Facts_json (pc_Facts r)) = true ->
  prep_Verify a r expected subject = Ok tt ->
  rc_Worker (pc_Admission r) = subject /\ rc_Token (pc_Admission r) = as_Token a
  /\ Facts_Check (pc_Facts r) a = Ok tt /\ (pc_Facts r = expected \/ collision [marshal (Facts_json (pc_Facts r)); marshal (Facts_json expected)])
  /\ forall a' expected' subject', well_encoded (Facts_json expected') = true ->
       prep_Verify a' r expected' subject' = Ok tt ->
       subject' = subject /\ as_Token a' = as_Token a /\ (expected' = expected \/ collision [marshal (Facts_json expected'); marshal (Facts_json expected)]).
Proof.
  intros He Hf (Ha & Hs & Hde & Hdf & Hc)%prep_Verify_ok.
  assert (forall b, VerifyReceipt b (pc_Admission r) = Ok tt -> rc_Token (pc_Admission r) = as_Token b) as Htok.
  { unfold VerifyReceipt. intros b Hb. ok_inv. by guards. }
  assert (forall e e', well_encoded (Facts_json e) = true -> well_encoded (Facts_json e') = true ->
    Digest (Facts_json e) = Digest (Facts_json e') -> e = e' \/ collision [marshal (Facts_json e); marshal (Facts_json e')]) as Hbind.
  { intros e e'. apply (read_binds Facts_json Facts_of id), Facts_reads. }
  split_and!; [done | by apply Htok | done | apply Hbind; congruence|].
  intros a' expected' subject' He' (Ha' & Hs' & Hde' & _ & _)%prep_Verify_ok.
  split_and!; [congruence | rewrite <- (Htok a'), <- (Htok a); done | apply Hbind; congruence].
Qed.

End facts.

(** ** A preparation *)

Definition sample_manifest : Manifest := mkManifest 1 sample_input_digest [].
Definition sample_bundle : string := Eval vm_compute in BytesDigest (marshal (Manifest_json sample_manifest)).
Definition sample_facts : Facts :=
  mkFacts "" "" 1 sample_intent_digest sample_input_digest sample_task_digest sample_bundle
    "0123456789abcdef0123456789abcdef01234567" "0123456789abcdef0123456789abcdef01234567" Recipe
    sample_bundle sample_bundle sample_bundle sample_manifest false false.
Definition sample_preparation : PreparationReceipt :=
  mkPreparationReceipt prep_Kind sample_receipt sample_facts
    (default "" (match Digest (Facts_json sample_facts) with Ok d => Some d | Err _ => None end)) 60.

Lemma preparation_binds_witness :
  prep_Verify (sample_assignment 1) sample_preparation sample_facts "urn:worker" = Ok tt
  /\ Facts_Check sample_facts (sample_assignment 1) = Ok tt.
Proof.
  assert (prep_Verify (sample_assignment 1) sample_preparation sample_facts "urn:worker" = Ok tt) as Hv
    by (vm_compute; reflexivity).
  split; [exact Hv|].
  destruct (preparation_binds (sample_assignment 1) sample_preparation sample_facts "urn:worker")
    as (_ & _ & Hc & _); [vm_compute; reflexivity | vm_compute; reflexivity | exact Hv | exact Hc].
Defined.
