(* ===== verification/Control.v ===== *)
(** [internal/codexexec] ([control.go], [continuation.go], [checkpoint.go]) and
    [internal/processscope/proof.go]: what a runtime's live controls leave
    behind.

    A command to a live turn is queued, dispatched and settled; when the turn
    ends, its deliveries are sealed in a transcript.  A transcript decides what
    may follow: a completed turn whose process tree is gone and whose controls
    were all accepted may be delivered, one that was interrupted on request
    may be continued in a new run, and never both. *)
From S2P Require Import Prelude Canonical Json Core Run Session Verification Binding WorkerQueue.

(** ** processscope/proof.go *)

Definition Mechanism : string := "linux-user-pid-namespace-init-v1".

Record ScopeProof := mkScope {
  ps_Version : Z; ps_Mechanism : string; ps_HostPID : Z; ps_NamespaceID : N; ps_ParentNamespaceID : N;
  ps_StartedAt : time; ps_ReapedAt : time; ps_InitReaped : bool
}.
#[export] Instance ScopeProof_eq_dec : EqDecision ScopeProof.
Proof. solve_decision. Defined.
Definition no_scope : ScopeProof := mkScope 0 "" 0 0 0 zero_time zero_time false.

Definition Scope_Validate (p : ScopeProof) : outcome unit :=
  if decide (ps_Version p <> 1%Z \/ ps_Mechanism p <> Mechanism \/ (ps_HostPID p <= 0)%Z \/ ps_NamespaceID p = 0%N
             \/ ps_ParentNamespaceID p = 0%N \/ ps_NamespaceID p = ps_ParentNamespaceID p \/ IsZero (ps_StartedAt p) = true)
  then Err (ENew "dedicated PID namespace identity required") else
  if ps_InitReaped p
  then if decide (IsZero (ps_ReapedAt p) = true \/ (ps_ReapedAt p < ps_StartedAt p)%Z)
       then Err (ENew "invalid namespace reap observation") else Ok tt
  else if negb (IsZero (ps_ReapedAt p)) then Err (ENew "unconfirmed namespace carries reap time") else Ok tt.

Definition Quiescent (p : ScopeProof) : bool := is_ok (Scope_Validate p) && ps_InitReaped p.

(** ** control.go *)

Definition ControlSteer : string := "STEER".
Definition ControlInterrupt : string := "INTERRUPT".
Definition ControlQueued : string := "QUEUED".
Definition ControlDispatching : string := "DISPATCHING".
Definition ControlAccepted : string := "STEER_ACCEPTED".
Definition ControlInterruptACK : string := "INTERRUPT_ACKNOWLEDGED".
Definition ControlInterrupted : string := "TURN_INTERRUPTED".
Definition ControlNotApplied : string := "NOT_APPLIED".
Definition ControlUnknown : string := "UNKNOWN".
Definition MaxControls : nat := 64.

Record ControlInput := mkControlInput {
  ci_ID : string; ci_ExecutionEpoch : N; ci_Sequence : N; ci_Actor : string; ci_ThreadID : string;
  ci_TurnID : string; ci_Text : string
}.

Definition boundedID (s : string) : bool :=
  bounded s 256 && utf8_valid s && str_forall (fun c => negb (in_range 0 31 c || in_range 127 127 c)) s.

(** A counter the database can hold: [0 < n <= 1<<62]. *)
Definition counter (n : N) : bool := bool_decide (n <> 0%N /\ (n <= u62)%N).

Definition nul : string := bs [0]%N.

Definition ControlInput_Validate (i : ControlInput) (kind : string) : outcome unit :=
  if negb (boundedID (ci_ID i) && boundedID (ci_Actor i) && boundedID (ci_ThreadID i) && boundedID (ci_TurnID i)
           && counter (ci_ExecutionEpoch i) && counter (ci_Sequence i))
  then Err (ENew "invalid control identity") else
  if decide (kind = ControlSteer) then
    if decide (trim_space (ci_Text i) = "" \/ (8192 < Z.of_nat (str_len (ci_Text i)))%Z \/ utf8_valid (ci_Text i) = false
               \/ contains_any nul (ci_Text i) = true)
    then Err (ENew "bounded nonempty UTF-8 steering text required") else Ok tt
  else if decide (kind = ControlInterrupt) then
    if decide (ci_Text i <> "") then Err (ENew "interrupt must not carry model input") else Ok tt
  else Err (ENew "unsupported live control").

(** [Token] of [codexexec/model.go]; [internal/offline] declares the same type. *)
Record ExecToken := mkExecToken {
  xt_ID : string; xt_RunID : string; xt_WorkerProfile : string; xt_ProfileDigest : string; xt_RecoveryEpoch : N
}.
#[export] Instance ExecToken_eq_dec : EqDecision ExecToken.
Proof. solve_decision. Defined.
Definition tokenID (s : string) : bool := (str_len s =? 64)%nat && str_forall is_lower_hex s.
Definition ExecToken_Valid (t : ExecToken) : bool :=
  tokenID (xt_ID t) && bool_decide (xt_RunID t <> "") && (str_len (xt_RunID t) <=? 256)%nat
  && ValidProfile (xt_WorkerProfile t) && ValidDigest (xt_ProfileDigest t).

Record ControlBinding := mkControlBinding {
  cb_Token : ExecToken; cb_ExecutionEpoch : N; cb_ThreadID : string; cb_TurnID : string
}.
#[export] Instance ControlBinding_eq_dec : EqDecision ControlBinding.
Proof. solve_decision. Defined.

Definition ControlBinding_Validate (b : ControlBinding) : outcome unit :=
  if negb (ExecToken_Valid (cb_Token b) && counter (cb_ExecutionEpoch b) && boundedID (cb_ThreadID b) && boundedID (cb_TurnID b))
  then Err (ENew "invalid live Runtime binding") else Ok tt.

Record ControlPayload := mkControlPayload { pl_Binding : ControlBinding; pl_Kind : string; pl_Text : string }.
Record ControlDelivery := mkControlDelivery {
  cd_Command : SteeringCommand; cd_Payload : ControlPayload; cd_State : string;
  cd_DispatchedAt : option time; cd_ResolvedAt : option time
}.
Record ControlSettlement := mkControlSettlement { se_Binding : ControlBinding; se_ID : string; se_Outcome : string }.
Record ControlClose := mkControlClose { cc_Binding : ControlBinding; cc_TurnStatus : string; cc_ProcessScope : ScopeProof }.
Record ControlTranscript := mkTranscript { ct_Version : Z; ct_Close : ControlClose; ct_Deliveries : list ControlDelivery }.
#[export] Instance ControlClose_eq_dec : EqDecision ControlClose.
Proof. solve_decision. Defined.

(** Their JSON, as the digests hash it. *)
Definition jtime_opt (k : string) (t : option time) : list (string * jval) :=
  match t with Some t => jtime k t | None => [] end.
Definition ScopeProof_json (p : ScopeProof) : jval := JObj
  ([("version", JNum (ps_Version p))] ++ jstr "mechanism" (ps_Mechanism p) ++ [("host_pid", JNum (ps_HostPID p))]
   ++ jnum "pid_namespace_inode" (ps_NamespaceID p) ++ jnum "parent_pid_namespace_inode" (ps_ParentNamespaceID p)
   ++ jtime "started_at" (ps_StartedAt p) ++ jtime "reaped_at" (ps_ReapedAt p)
   ++ [("namespace_init_reaped", JBool (ps_InitReaped p))]).
Definition ExecToken_json (t : ExecToken) : jval := JObj
  (jstr "execution_id" (xt_ID t) ++ jstr "run_id" (xt_RunID t) ++ jstr "worker_profile" (xt_WorkerProfile t)
   ++ jstr "profile_digest" (xt_ProfileDigest t) ++ jnum "recovery_epoch" (xt_RecoveryEpoch t)).
Definition ControlBinding_json (b : ControlBinding) : jval := JObj
  ([("token", ExecToken_json (cb_Token b))] ++ jnum "execution_epoch" (cb_ExecutionEpoch b)
   ++ jstr "thread_id" (cb_ThreadID b) ++ jstr "turn_id" (cb_TurnID b)).
Definition ControlPayload_json (p : ControlPayload) : jval := JObj
  ([("binding", ControlBinding_json (pl_Binding p))] ++ jstr "kind" (pl_Kind p) ++ jstr_omit "text" (pl_Text p)).
Definition SteeringCommand_json (c : SteeringCommand) : jval := JObj
  (jstr "steering_command_id" (sc_ID c) ++ jstr "run_id" (sc_RunID c) ++ jnum "execution_epoch" (sc_ExecutionEpoch c)
   ++ jnum "sequence" (sc_Sequence c) ++ jstr "actor" (sc_Actor c) ++ jstr "content_digest" (sc_ContentDigest c)
   ++ jtime "created_at" (sc_CreatedAt c)).
Definition ControlDelivery_json (d : ControlDelivery) : jval := JObj
  ([("command", SteeringCommand_json (cd_Command d)); ("payload", ControlPayload_json (cd_Payload d))]
   ++ jstr "delivery_state" (cd_State d) ++ jtime_opt "dispatched_at" (cd_DispatchedAt d)
   ++ jtime_opt "resolved_at" (cd_ResolvedAt d)).
Definition ControlClose_json (c : ControlClose) : jval := JObj
  ([("binding", ControlBinding_json (cc_Binding c))] ++ jstr "turn_status" (cc_TurnStatus c)
   ++ [("process_scope", ScopeProof_json (cc_ProcessScope c))]).
Definition ControlTranscript_json (t : ControlTranscript) : jval := JObj
  ([("version", JNum (ct_Version t)); ("close", ControlClose_json (ct_Close t))]
   ++ jobjs "deliveries" (ControlDelivery_json <$> ct_Deliveries t)).

Section controls.
Context `{Hash}.

(** The observations a delivery state must and must not carry. *)
Definition ControlDelivery_state (d : ControlDelivery) : outcome unit :=
  let st := cd_State d in
  if decide (st = ControlQueued) then
    if decide (cd_DispatchedAt d <> None \/ cd_ResolvedAt d <> None) then Err (ENew "queued command carries outcome") else Ok tt
  else if decide (st = ControlDispatching) then
    if decide (cd_DispatchedAt d = None \/ cd_ResolvedAt d <> None) then Err (ENew "invalid dispatch state") else Ok tt
  else if decide (st ∈ [ControlAccepted; ControlInterruptACK; ControlInterrupted; ControlUnknown]) then
    if decide (cd_DispatchedAt d = None \/ cd_ResolvedAt d = None) then Err (ENew "missing delivery observations")
    else if decide ((st = ControlAccepted /\ pl_Kind (cd_Payload d) <> ControlSteer)
                    \/ ((st = ControlInterruptACK \/ st = ControlInterrupted) /\ pl_Kind (cd_Payload d) <> ControlInterrupt))
    then Err (ENew "outcome kind mismatch") else Ok tt
  else if decide (st = ControlNotApplied) then
    if decide (cd_ResolvedAt d = None) then Err (ENew "missing not-applied observation") else Ok tt
  else Err (ENew "invalid delivery outcome").

(** [t != nil && (t.IsZero() || t.Before(bound))]. *)
Definition observed_badly (t : option time) (bound : time) : bool :=
  match t with Some t => IsZero t || bool_decide (t < bound)%Z | None => false end.

Definition ControlDelivery_Validate (d : ControlDelivery) : outcome unit :=
  let c := cd_Command d in let b := pl_Binding (cd_Payload d) in
  let i := mkControlInput (sc_ID c) (sc_ExecutionEpoch c) (sc_Sequence c) (sc_Actor c) (cb_ThreadID b) (cb_TurnID b)
    (pl_Text (cd_Payload d)) in
  match Digest (ControlPayload_json (cd_Payload d)) with
  | Err _ => Err (ENew "control payload/authority mismatch")
  | Ok hash =>
    if decide (is_ok (ControlBinding_Validate b) = false \/ is_ok (ControlInput_Validate i (pl_Kind (cd_Payload d))) = false
               \/ sc_RunID c <> xt_RunID (cb_Token b) \/ sc_ExecutionEpoch c <> cb_ExecutionEpoch b
               \/ sc_ContentDigest c <> hash \/ IsZero (sc_CreatedAt c) = true)
    then Err (ENew "control payload/authority mismatch") else
    if observed_badly (cd_DispatchedAt d) (sc_CreatedAt c) then Err (ENew "invalid dispatch observation") else
    if observed_badly (cd_ResolvedAt d) (sc_CreatedAt c)
       || match cd_ResolvedAt d, cd_DispatchedAt d with Some r, Some s => bool_decide (r < s)%Z | _, _ => false end
    then Err (ENew "invalid resolution observation") else
    ControlDelivery_state d
  end.

Definition ControlClose_Validate (c : ControlClose) : outcome unit :=
  if decide (is_ok (ControlBinding_Validate (cc_Binding c)) = false
             \/ (cc_ProcessScope c <> no_scope /\ is_ok (Scope_Validate (cc_ProcessScope c)) = false))
  then Err (ENew "invalid closure binding")
  else if decide (cc_TurnStatus c ∈ ["completed"; "interrupted"; "failed"; "unknown"]) then Ok tt
  else Err (ENew "invalid terminal turn observation").

(** The loop of [ControlTranscript.Digest], with [last] and [seen]. *)
Fixpoint transcript_loop (close : ControlBinding) (last : N) (seen : gset string) (l : list ControlDelivery) : outcome unit :=
  match l with
  | [] => Ok tt
  | d :: r =>
    if decide (is_ok (ControlDelivery_Validate d) = false \/ pl_Binding (cd_Payload d) <> close
               \/ (sc_Sequence (cd_Command d) <= last)%N \/ sc_ID (cd_Command d) ∈ seen
               \/ cd_State d = ControlQueued \/ cd_State d = ControlDispatching)
    then Err (ENew "control transcript drift")
    else transcript_loop close (sc_Sequence (cd_Command d)) ({[sc_ID (cd_Command d)]} ∪ seen) r
  end.

Definition ControlTranscript_Digest (t : ControlTranscript) : outcome string :=
  if decide (ct_Version t <> 2%Z \/ is_ok (ControlClose_Validate (ct_Close t)) = false
             \/ MaxControls < length (ct_Deliveries t))
  then Err (ENew "invalid control transcript") else
  _ ← transcript_loop (cc_Binding (ct_Close t)) 0 ∅ (ct_Deliveries t);
  Digest (ControlTranscript_json t).

Definition AllowsDelivery (t : ControlTranscript) : bool :=
  is_ok (ControlTranscript_Digest t) && bool_decide (cc_TurnStatus (ct_Close t) = "completed")
  && Quiescent (cc_ProcessScope (ct_Close t))
  && forallb (fun d => bool_decide (pl_Kind (cd_Payload d) = ControlSteer /\ cd_State d = ControlAccepted)) (ct_Deliveries t).

(** ** continuation.go *)

(** The loop of [Continuable], with [interrupted]. *)
Fixpoint continuable_loop (interrupted : bool) (l : list ControlDelivery) : bool :=
  match l with
  | [] => interrupted
  | d :: r =>
    if decide (cd_State d = ControlAccepted) then continuable_loop interrupted r
    else if decide (cd_State d = ControlInterrupted) then continuable_loop true r
    else if decide (cd_State d = ControlNotApplied) then
      match cd_DispatchedAt d with Some _ => false | None => continuable_loop interrupted r end
    else false
  end.
Definition Continuable (t : ControlTranscript) : bool :=
  is_ok (ControlTranscript_Digest t) && bool_decide (cc_TurnStatus (ct_Close t) = "interrupted")
  && Quiescent (cc_ProcessScope (ct_Close t)) && continuable_loop false (ct_Deliveries t).

Record ContinueRequest := mkContinueRequest {
  cq_SourceRunID : string; cq_RunID : string; cq_AttemptID : string; cq_CheckpointDigest : string;
  cq_ExpectedRunVersion : N; cq_ExpectedWorkVersion : N; cq_ExecutionEpoch : N; cq_RecoveryEpoch : N; cq_Reason : string
}.

Definition ContinueRequest_Validate (c : ContinueRequest) : outcome unit :=
  if negb (forallb boundedID [cq_SourceRunID c; cq_RunID c; cq_AttemptID c])
  then Err (ENew "bounded continuation IDs required") else
  if decide (cq_RunID c = cq_SourceRunID c \/ ValidDigest (cq_CheckpointDigest c) = false
             \/ counter (cq_ExpectedRunVersion c) = false \/ counter (cq_ExpectedWorkVersion c) = false
             \/ counter (cq_ExecutionEpoch c) = false \/ (u62 < cq_RecoveryEpoch c)%N
             \/ trim_space (cq_Reason c) = "" \/ (2048 < Z.of_nat (str_len (cq_Reason c)))%Z
             \/ utf8_valid (cq_Reason c) = false \/ contains_any nul (cq_Reason c) = true)
  then Err (ENew "exact continuation decision required") else Ok tt.

Record ContinuationReceipt := mkContinuationReceipt {
  cn_Version : Z; cn_Actor : string; cn_Request : ContinueRequest; cn_Run : Run; cn_Attempt : Attempt;
  cn_Session : Session; cn_Input : RunInputManifest; cn_SourceDisposition : string; cn_CreatedAt : time
}.

(** [Stopped] of model.go. *)
Definition Stopped : string := "STOPPED_NO_DELIVERY".

Definition ContinuationReceipt_Validate (c : ContinuationReceipt) : outcome unit :=
  let refuse := Err (ENew "invalid continuation receipt") in
  let q := cn_Request c in
  match RunInputManifest_Digest (cn_Input c), ri_Continuation (cn_Input c) with
  | Ok d, Some k =>
    if decide (cn_Version c <> 1%Z \/ boundedID (cn_Actor c) = false \/ is_ok (ContinueRequest_Validate q) = false
               \/ co_SourceRunID k <> cq_SourceRunID q \/ co_CheckpointDigest k <> cq_CheckpointDigest q
               \/ ri_RunID (cn_Input c) <> cq_RunID q \/ r_ID (cn_Run c) <> cq_RunID q
               \/ r_RunInputManifestDigest (cn_Run c) <> d
               \/ r_TaskContractDigest (cn_Run c) <> ri_TaskContractDigest (cn_Input c)
               \/ r_State (cn_Run c) <> run_Running \/ r_CurrentEpoch (cn_Run c) <> 1%N \/ r_Version (cn_Run c) <> 1%N
               \/ r_ControlOwner (cn_Run c) <> "RUNTIME" \/ r_CurrentAttemptID (cn_Run c) <> cq_AttemptID q
               \/ at_ID (cn_Attempt c) <> cq_AttemptID q \/ at_Epoch (cn_Attempt c) <> 1%N
               \/ IsZero (at_StartedAt (cn_Attempt c)) = true \/ IsZero (at_EndedAt (cn_Attempt c)) = false
               \/ s_RunID (cn_Session c) <> r_ID (cn_Run c) \/ s_ExecutionEpoch (cn_Session c) <> 1%N
               \/ s_Owner (cn_Session c) <> owner_Runtime \/ s_Paused (cn_Session c) = true
               \/ s_LastSequence (cn_Session c) <> 0%N \/ cn_SourceDisposition c <> Stopped
               \/ IsZero (cn_CreatedAt c) = true)
    then refuse else Ok tt
  | _, _ => refuse
  end.

(** ** checkpoint.go *)

Record SourceCheckpoint := mkSourceCheckpoint {
  so_Version : Z; so_Binding : ControlBinding; so_TaskDigest : string; so_InputDigest : string; so_BaseCommit : string;
  so_BaselineDigest : string; so_TranscriptDigest : string; so_SnapshotDigest : string; so_ArchiveDigest : string;
  so_ArchiveSize : Z
}.
#[export] Instance SourceCheckpoint_eq_dec : EqDecision SourceCheckpoint.
Proof. solve_decision. Defined.
Definition SourceCheckpoint_json (c : SourceCheckpoint) : jval := JObj
  ([("version", JNum (so_Version c)); ("binding", ControlBinding_json (so_Binding c))]
   ++ jstr "task_contract_digest" (so_TaskDigest c) ++ jstr "run_input_manifest_digest" (so_InputDigest c)
   ++ jstr "base_commit" (so_BaseCommit c) ++ jstr "baseline_source_digest" (so_BaselineDigest c)
   ++ jstr "control_transcript_digest" (so_TranscriptDigest c) ++ jstr "snapshot_digest" (so_SnapshotDigest c)
   ++ jstr "archive_digest" (so_ArchiveDigest c) ++ [("archive_size", JNum (so_ArchiveSize c))]).

Definition SourceCheckpoint_Validate (c : SourceCheckpoint) : outcome unit :=
  if decide (so_Version c <> 1%Z \/ is_ok (ControlBinding_Validate (so_Binding c)) = false
             \/ str_len (so_BaseCommit c) <> 40 \/ (so_ArchiveSize c <= 0)%Z
             \/ (MaxSourceCheckpointArchiveSize < so_ArchiveSize c)%Z)
  then Err (ENew "invalid source checkpoint") else
  if negb (str_forall is_lower_hex (so_BaseCommit c)) then Err (ENew "invalid checkpoint base") else
  if forallb ValidDigest [so_TaskDigest c; so_InputDigest c; so_BaselineDigest c; so_TranscriptDigest c;
                          so_SnapshotDigest c; so_ArchiveDigest c]
  then Ok tt else Err (ENew "invalid checkpoint identity").

Definition SourceCheckpoint_Digest (c : SourceCheckpoint) : outcome string :=
  _ ← SourceCheckpoint_Validate c; Digest (SourceCheckpoint_json c).

(** The reference comes with the error: the caller looks at the error first. *)
Definition SourceCheckpoint_ContinuationRef (c : SourceCheckpoint) : outcome ContinuationRef :=
  d ← SourceCheckpoint_Digest c;
  Ok (mkContinuationRef (xt_RunID (cb_Token (so_Binding c))) d (so_ArchiveDigest c) (so_ArchiveSize c) (so_SnapshotDigest c)).

End controls.

(** ** What a sealed transcript is *)

Section transcripts.
Context `{Hash}.

Definition settled (d : ControlDelivery) : Prop := cd_State d <> ControlQueued /\ cd_State d <> ControlDispatching.

(** Every delivery is valid, settled and of this turn. *)
Definition delivery_of (close : ControlBinding) (d : ControlDelivery) : Prop :=
  ControlDelivery_Validate d = Ok tt /\ pl_Binding (cd_Payload d) = close /\ settled d.

Record sealed (t : ControlTranscript) : Prop := {
  sl_version : ct_Version t = 2%Z;
  sl_close : ControlClose_Validate (ct_Close t) = Ok tt;
  sl_bound : length (ct_Deliveries t) <= MaxControls;
  sl_deliveries : Forall (delivery_of (cc_Binding (ct_Close t))) (ct_Deliveries t);
  sl_ids : NoDup ((fun d => sc_ID (cd_Command d)) <$> ct_Deliveries t);
  sl_order : StronglySorted N.lt ((fun d => sc_Sequence (cd_Command d)) <$> ct_Deliveries t)
}.

Lemma is_ok_unit (o : outcome unit) : is_ok o = true <-> o = Ok tt.
Proof. destruct o as [[]|]; simpl; split; congruence. Qed.

Lemma ControlInput_ok i kind : ControlInput_Validate i kind = Ok tt ->
  (0 < ci_Sequence i)%N /\ (kind = ControlSteer \/ (kind = ControlInterrupt /\ ci_Text i = "")).
Proof.
  unfold ControlInput_Validate. destruct (negb _) eqn:Hn; [done|].
  apply negb_false_iff in Hn. unfold counter in Hn. guards. intros Hv. split; [lia|].
  case_decide; [by left|]. ok_inv. guards. by right.
Qed.

Lemma Delivery_ok d : ControlDelivery_Validate d = Ok tt ->
  (0 < sc_Sequence (cd_Command d))%N
  /\ (pl_Kind (cd_Payload d) = ControlSteer \/ (pl_Kind (cd_Payload d) = ControlInterrupt /\ pl_Text (cd_Payload d) = ""))
  /\ sc_ExecutionEpoch (cd_Command d) = cb_ExecutionEpoch (pl_Binding (cd_Payload d))
  /\ sc_RunID (cd_Command d) = xt_RunID (cb_Token (pl_Binding (cd_Payload d)))
  /\ Digest (ControlPayload_json (cd_Payload d)) = Ok (sc_ContentDigest (cd_Command d))
  /\ ControlDelivery_state d = Ok tt.
Proof.
  unfold ControlDelivery_Validate. intros Hv. ok_inv. guards. rewrite not_false_iff_true in *.
  match goal with H : is_ok (ControlInput_Validate _ _) = true |- _ => apply is_ok_unit, ControlInput_ok in H as [? ?] end.
  simpl in *. split_and!; first [done | congruence].
Qed.

Lemma valid_sequence d : ControlDelivery_Validate d = Ok tt -> (0 < sc_Sequence (cd_Command d))%N.
Proof. by intros (? & _)%Delivery_ok. Qed.

Lemma transcript_loop_ok close last seen l : transcript_loop close last seen l = Ok tt <->
  Forall (delivery_of close) l
  /\ NoDup ((fun d => sc_ID (cd_Command d)) <$> l) /\ (forall d, d ∈ l -> sc_ID (cd_Command d) ∉ seen)
  /\ StronglySorted N.lt ((fun d => sc_Sequence (cd_Command d)) <$> l)
  /\ (forall d, d ∈ l -> (last < sc_Sequence (cd_Command d))%N).
Proof.
  revert last seen. induction l as [|d l IH]; intros last seen; cbn [transcript_loop].
  { split; [intros _; split_and!; try constructor; set_solver | done]. }
  case_decide as Hb.
  - split; [done|]. intros (Hf & Hn & Hs & Ho & Hl). exfalso. inversion Hf as [|? ? (Hv & Hc & Hq & Hd)]; subst.
    specialize (Hs d ltac:(left)). specialize (Hl d ltac:(left)). rewrite Hv in Hb. simpl in Hb. intuition (congruence || lia).
  - guards. rewrite not_false_iff_true, is_ok_unit in *.
    assert (delivery_of close d) as Hd by (split; [done | split; [congruence | by split]]).
    rewrite IH. csimpl. split.
    + intros (Hf & Hn & Hs & Ho & Hl). split_and!.
      * by constructor.
      * constructor; [|done]. intros (d' & He & Hin)%list_elem_of_fmap. apply (Hs d' Hin). set_solver.
      * intros d' [->|Hin]%elem_of_cons; [done|]. specialize (Hs d' Hin). set_solver.
      * constructor; [done|]. apply Forall_fmap, Forall_forall. intros d' Hin. by apply Hl.
      * intros d' [->|Hin]%elem_of_cons; [lia|]. specialize (Hl d' Hin). lia.
    + intros (Hf & Hn & Hs & Ho & Hl). inversion Hf; inversion Hn as [|? ? Hni]; inversion Ho as [|? ? ? Hall]; subst. split_and!; try done.
      * intros d' Hin. assert (sc_ID (cd_Command d') <> sc_ID (cd_Command d)) by (intros He; apply Hni; apply list_elem_of_fmap; by exists d').
        specialize (Hs d' ltac:(by right)). set_solver.
      * intros d' Hin. rewrite Forall_fmap, Forall_forall in Hall. by apply Hall.
Qed.

Lemma Digest_sealed t : is_ok (ControlTranscript_Digest t) = true <-> sealed t.
Proof.
  unfold ControlTranscript_Digest. case_decide as Hb.
  - split; [done|]. intros [Hv Hc Hl _ _ _]. rewrite Hc in Hb. simpl in Hb. intuition (congruence || lia).
  - guards. rewrite not_false_iff_true, is_ok_unit in *.
    transitivity (transcript_loop (cc_Binding (ct_Close t)) 0 ∅ (ct_Deliveries t) = Ok tt).
    + destruct (transcript_loop _ _ _ _) as [[]|]; simpl; [|done].
      destruct (Digest_ok (ControlTranscript_json t)) as (? & -> & _). done.
    + rewrite transcript_loop_ok. split.
      * intros (? & ? & _ & ? & _). by split; [| |lia| | |].
      * intros [_ _ _ Hf Hn Ho]. split_and!; [done | done | set_solver | done|].
        intros d Hin. rewrite Forall_forall in Hf. by apply valid_sequence, Hf.
Qed.

(** What may happen to a command of a turn that is continued. *)
Definition continued_delivery (d : ControlDelivery) : Prop :=
  cd_State d = ControlAccepted \/ cd_State d = ControlInterrupted
  \/ (cd_State d = ControlNotApplied /\ cd_DispatchedAt d = None).

Lemma continuable_loop_ok b l : continuable_loop b l = true <->
  Forall continued_delivery l /\ (b = true \/ Exists (fun d => cd_State d = ControlInterrupted) l).
Proof.
  revert b. induction l as [|d l IH]; intros b; cbn [continuable_loop].
  { split; [by intros ->; split; [constructor | left] | intros [_ [->|He]]; [done | inversion He]]. }
  rewrite Forall_cons, Exists_cons. unfold continued_delivery.
  case_decide as Ha; [rewrite IH, Ha; intuition (congruence || discriminate)|].
  case_decide as Hi; [rewrite IH, Hi; intuition (congruence || discriminate)|].
  case_decide as Hn; [|intuition discriminate].
  destruct (cd_DispatchedAt d); [intuition (congruence || discriminate) | rewrite IH; intuition (congruence || discriminate)].
Qed.

(** An interruption that was asked for, sent and observed. *)
Definition observed_interrupt (d : ControlDelivery) : Prop :=
  pl_Kind (cd_Payload d) = ControlInterrupt /\ pl_Text (cd_Payload d) = ""
  /\ cd_State d = ControlInterrupted /\ is_Some (cd_DispatchedAt d) /\ is_Some (cd_ResolvedAt d).

Lemma interrupted_observed d : ControlDelivery_Validate d = Ok tt -> cd_State d = ControlInterrupted -> observed_interrupt d.
Proof.
  intros (_ & Hk & _ & _ & _ & Hst)%Delivery_ok Hs. unfold ControlDelivery_state in Hst. rewrite Hs in Hst.
  cbn zeta in Hst. rewrite !decide_False in Hst by done. rewrite decide_True in Hst by set_solver. ok_inv. guards.
  assert (pl_Kind (cd_Payload d) = ControlInterrupt) as Hi.
  { apply dec_stable. intros Hn. match goal with H : ~ ((_ \/ _) /\ _) |- _ => apply H end. split; [by right | done]. }
  split_and!; [done | | done | |]; [|by apply not_eq_None_Some..].
  destruct Hk as [Hk|[_ Hk]]; [|done]. rewrite Hi in Hk. discriminate.
Qed.

(** What may follow a turn.  A transcript has a digest exactly when it is
    sealed: at most 64 valid, settled deliveries of this one turn, no command
    twice, in the order of their sequence numbers.  It allows a delivery
    exactly when the turn completed, its process tree is gone and every
    control was an accepted steering; it allows a continuation exactly when
    the turn was interrupted, its process tree is gone, no outcome is unknown,
    and some interrupt was requested, sent and observed; and never both. *)
Theorem transcripts_dispose t :
  (is_ok (ControlTranscript_Digest t) = true <-> sealed t)
  /\ (AllowsDelivery t = true <->
       sealed t /\ cc_TurnStatus (ct_Close t) = "completed" /\ Quiescent (cc_ProcessScope (ct_Close t)) = true
       /\ Forall (fun d => pl_Kind (cd_Payload d) = ControlSteer /\ cd_State d = ControlAccepted) (ct_Deliveries t))
  /\ (Continuable t = true <->
       sealed t /\ cc_TurnStatus (ct_Close t) = "interrupted" /\ Quiescent (cc_ProcessScope (ct_Close t)) = true
       /\ Forall continued_delivery (ct_Deliveries t) /\ Exists observed_interrupt (ct_Deliveries t))
  /\ ~ (AllowsDelivery t = true /\ Continuable t = true).
Proof.
  assert (AllowsDelivery t = true <->
       sealed t /\ cc_TurnStatus (ct_Close t) = "completed" /\ Quiescent (cc_ProcessScope (ct_Close t)) = true
       /\ Forall (fun d => pl_Kind (cd_Payload d) = ControlSteer /\ cd_State d = ControlAccepted) (ct_Deliveries t)) as Ha.
  { unfold AllowsDelivery. rewrite !andb_true_iff, Digest_sealed, bool_decide_eq_true, forallb_forall, <- List.Forall_forall.
    setoid_rewrite bool_decide_eq_true. tauto. }
  assert (Continuable t = true <->
       sealed t /\ cc_TurnStatus (ct_Close t) = "interrupted" /\ Quiescent (cc_ProcessScope (ct_Close t)) = true
       /\ Forall continued_delivery (ct_Deliveries t) /\ Exists observed_interrupt (ct_Deliveries t)) as Hc.
  { unfold Continuable. rewrite !andb_true_iff, Digest_sealed, bool_decide_eq_true, continuable_loop_ok.
    split; [intros (((Hs & ?) & ?) & ? & [?|He]); [done|] | intros (Hs & ? & ? & ? & He)]; split_and!; try done.
    - apply Exists_exists in He as (d & Hin & Hst). apply Exists_exists. exists d. split; [done|].
      apply interrupted_observed; [|done]. pose proof (sl_deliveries _ Hs) as Hf. rewrite Forall_forall in Hf. by apply Hf.
    - right. apply Exists_exists in He as (d & Hin & (_ & _ & Hst & _)). apply Exists_exists. by exists d. }
  split_and!; [apply Digest_sealed | done | done|].
  intros [(_ & H1 & _)%Ha (_ & H2 & _)%Hc]. congruence.
Qed.

Lemma steer_all_accepts s cmds : s_Owner s = owner_Runtime -> Forall (fun c => sc_ExecutionEpoch c = s_ExecutionEpoch s) cmds ->
  StronglySorted N.lt (s_LastSequence s :: (sc_Sequence <$> cmds)) -> (steer_all s cmds).2 = cmds.
Proof.
  revert s. induction cmds as [|c cmds IH]; intros s Ho He Hs; [done|]. cbn [steer_all].
  inversion He as [|? ? Hc He']; subst. inversion Hs as [|? ? Hs' Hl]; subst. inversion Hl as [|? ? Hlt _]; subst.
  unfold ApplySteering. rewrite !decide_False; [|lia|congruence|congruence].
  specialize (IH (set_s_LastSequence (sc_Sequence c) s) Ho He' Hs'). destruct (steer_all _ cmds). simpl in *. by rewrite IH.
Qed.

Definition ExecToken_of (v : jval) : ExecToken :=
  let f k := get k (fields_of v) in
  mkExecToken (str_of (f "execution_id")) (str_of (f "run_id")) (str_of (f "worker_profile")) (str_of (f "profile_digest"))
    (Z.to_N (num_of (f "recovery_epoch"))).
Definition ControlBinding_of (v : jval) : ControlBinding :=
  let f k := get k (fields_of v) in
  mkControlBinding (ExecToken_of (f "token")) (Z.to_N (num_of (f "execution_epoch"))) (str_of (f "thread_id")) (str_of (f "turn_id")).
Definition ControlPayload_of (v : jval) : ControlPayload :=
  let f k := get k (fields_of v) in
  mkControlPayload (ControlBinding_of (f "binding")) (str_of (f "kind")) (str_of (f "text")).
Lemma ExecToken_reads t : ExecToken_of (ExecToken_json t) = t.
Proof. destruct t. unfold ExecToken_of, ExecToken_json. f_equal; read_field. Qed.
Lemma ControlBinding_reads b : ControlBinding_of (ControlBinding_json b) = b.
Proof.
  destruct b. unfold ControlBinding_of, ControlBinding_json. f_equal; first [read_field | apply ExecToken_reads].
Qed.
Lemma ControlPayload_reads p : ControlPayload_of (ControlPayload_json p) = p.
Proof.
  destruct p. unfold ControlPayload_of, ControlPayload_json. f_equal; first [read_field | apply ControlBinding_reads].
Qed.

Definition payload_texts (t : ControlTranscript) : list string :=
  (fun d => marshal (ControlPayload_json (cd_Payload d))) <$> ct_Deliveries t.

(** C31: A sealed transcript holds what the session authorised.  Its commands,
    in order, are exactly the ones a fresh session owned by the runtime
    accepts, none is refused; all are of the one run and epoch; and the texts
    are the ones the commands were recorded with: another sealed transcript of
    the same commands has the same payloads, or two of the payloads' texts
    have one hash. *)
Theorem sealed_commands t s : sealed t -> s_Owner s = owner_Runtime -> s_LastSequence s = 0%N ->
  s_ExecutionEpoch s = cb_ExecutionEpoch (cc_Binding (ct_Close t)) ->
  (steer_all s (cd_Command <$> ct_Deliveries t)).2 = cd_Command <$> ct_Deliveries t
  /\ Forall (fun c => sc_RunID c = xt_RunID (cb_Token (cc_Binding (ct_Close t)))) (cd_Command <$> ct_Deliveries t)
  /\ forall t', sealed t' -> cd_Command <$> ct_Deliveries t' = cd_Command <$> ct_Deliveries t ->
       (forall d, d ∈ ct_Deliveries t ++ ct_Deliveries t' -> well_encoded (ControlPayload_json (cd_Payload d)) = true) ->
       cd_Payload <$> ct_Deliveries t' = cd_Payload <$> ct_Deliveries t \/ collision (payload_texts t ++ payload_texts t').
Proof.
  intros [_ _ _ Hf _ Ho] Hr H0 He. rewrite Forall_forall in Hf. split_and!.
  - apply steer_all_accepts; [done| |].
    + apply Forall_fmap, Forall_forall. intros d Hin. destruct (Hf d Hin) as ((_ & _ & Hep & _)%Delivery_ok & Hb & _). simpl. congruence.
    + rewrite H0, <- list_fmap_compose. constructor; [done|]. apply Forall_fmap, Forall_forall.
      intros d Hin. by apply valid_sequence, Hf.
  - apply Forall_fmap, Forall_forall. intros d Hin. destruct (Hf d Hin) as ((_ & _ & _ & Hrun & _)%Delivery_ok & Hb & _). simpl. congruence.
  - intros t' [_ _ _ Hf' _ _] Hc Hu. rewrite Forall_forall in Hf'. clear He H0 Ho Hr.
    revert Hf Hf' Hc Hu. unfold payload_texts. generalize (ct_Deliveries t) as l, (ct_Deliveries t') as l'.
    induction l as [|d l IH]; intros [|d' l'] Hf Hf' Hc Hu; [by left | done | done|]. csimpl. injection Hc as Hd Hc.
    destruct (Hf d ltac:(left)) as ((_ & _ & _ & _ & Hdig & _)%Delivery_ok & _).
    destruct (Hf' d' ltac:(left)) as ((_ & _ & _ & _ & Hdig' & _)%Delivery_ok & _).
    destruct (read_binds ControlPayload_json ControlPayload_of id (cd_Payload d') (cd_Payload d)) as [Hp|?];
      [apply ControlPayload_reads | apply Hu; set_solver | apply Hu; set_solver | congruence |
       | right; eapply collision_incl; [|done]; csimpl; set_solver].
    destruct (IH l') as [Hl|?]; [set_solver.. | | right; eapply collision_incl; [|done]; csimpl; set_solver]. left. simpl in Hp. by rewrite Hp, Hl.
Qed.


Lemma boundedID_ok s : boundedID s = true -> s <> "" /\ str_len s <= 256 /\ contains_any nul_cr_lf s = false.
Proof.
  unfold boundedID, bounded. rewrite !andb_true_iff, bool_decide_eq_true, Nat.leb_le.
  intros ((((? & ?) & _) & _) & Hc). split_and!; [done..|]. unfold str_forall in Hc. rewrite forallb_forall in Hc.
  apply not_true_iff_false. intros (c & Hin & Hone)%existsb_exists. specialize (Hc c Hin).
  unfold one_of, nul_cr_lf in Hone. apply bool_decide_eq_true in Hone.

  change (bytes (bs [0; 13; 10]%N)) with ["000"; "013"; "010"]%char in Hone.
  repeat (apply elem_of_cons in Hone as [->|Hone]; [discriminate|]). by apply not_elem_of_nil in Hone.
Qed.

(** A stopped run is continued as a fresh one.  The reference a valid
    source checkpoint gives is one the core accepts for the run a valid
    request names, so the continued run's input has a digest; and a valid
    continuation receipt names another run than its source, whose input
    carries that reference, which starts in epoch 1 under the runtime's
    control with a session in the same epoch that has seen no command. *)
Theorem continuations_fresh :
  (forall c k q, SourceCheckpoint_ContinuationRef c = Ok k -> ContinueRequest_Validate q = Ok tt ->
     cq_SourceRunID q = co_SourceRunID k -> cq_RunID q <> co_SourceRunID k /\ ContinuationRef_Validate k (cq_RunID q) = Ok tt
     /\ forall m, ri_Continuation m = Some k -> ri_RunID m = cq_RunID q -> ValidateContextRefs (ri_ContextRefs m) = Ok tt ->
          is_ok (RunInputManifest_Digest m) = true)
  /\ (forall r, ContinuationReceipt_Validate r = Ok tt ->
     r_ID (cn_Run r) = cq_RunID (cn_Request r) /\ r_ID (cn_Run r) <> cq_SourceRunID (cn_Request r)
     /\ RunInputManifest_Digest (cn_Input r) = Ok (r_RunInputManifestDigest (cn_Run r))
     /\ (exists k, ri_Continuation (cn_Input r) = Some k /\ ContinuationRef_Validate k (r_ID (cn_Run r)) = Ok tt
                   /\ co_SourceRunID k = cq_SourceRunID (cn_Request r) /\ co_CheckpointDigest k = cq_CheckpointDigest (cn_Request r))
     /\ cn_Session r = Session_New (r_ID (cn_Run r)) 1 /\ Run_CheckEpoch (cn_Run r) 1 = Ok tt
     /\ r_State (cn_Run r) = run_Running /\ r_CurrentAttemptID (cn_Run r) = at_ID (cn_Attempt r)).
Proof.
  assert (forall q, ContinueRequest_Validate q = Ok tt ->
    boundedID (cq_SourceRunID q) = true /\ cq_RunID q <> cq_SourceRunID q /\ ValidDigest (cq_CheckpointDigest q) = true) as Hq.
  { unfold ContinueRequest_Validate. intros q Hq. ok_inv. guards. rewrite !not_false_iff_true in *.
    match goal with H : negb _ = false |- _ => apply negb_false_iff in H; cbn [forallb] in H; rewrite !andb_true_iff in H; guards end.
    done. }
  split.
  - intros c k q Hc (Hb & Hne & _)%Hq Hs. unfold SourceCheckpoint_ContinuationRef, SourceCheckpoint_Digest in Hc.
    apply bind_ok in Hc as (d & ([] & Hv & Hd%Digest_valid)%bind_ok & [= <-]). simpl in *. rewrite <- Hs in *.
    destruct (boundedID_ok _ Hb) as (? & ? & Hnul).
    assert (forall run, run <> cq_SourceRunID q -> ContinuationRef_Validate
      (mkContinuationRef (cq_SourceRunID q) d (so_ArchiveDigest c) (so_ArchiveSize c) (so_SnapshotDigest c)) run = Ok tt) as Href.
    { intros run Hrun. unfold SourceCheckpoint_Validate in Hv. ok_inv. guards. cbn [forallb] in *. rewrite !andb_true_iff in *. guards.
      unfold ContinuationRef_Validate. rewrite decide_False by (simpl; rewrite Hnul; intuition (congruence || lia)).
      cbn [forallb co_CheckpointDigest co_ArchiveDigest co_SnapshotDigest]. rewrite Hd. by repeat match goal with H : ValidDigest _ = true |- _ => rewrite H; clear H end. }
    split; [done|]. split; [by apply Href|]. intros m Hm Hr Hcx. unfold RunInputManifest_Digest. rewrite Hm, Hr, Href, Hcx by done.
    by destruct (Digest_ok (RunInputManifest_json m)) as (? & -> & _).
  - intros r Hr. unfold ContinuationReceipt_Validate in Hr.
    destruct (RunInputManifest_Digest (cn_Input r)) as [d|] eqn:Hd; [|done].
    destruct (ri_Continuation (cn_Input r)) as [k|] eqn:Hk; [|done]. ok_inv. guards.
    rewrite !not_false_iff_true, !not_true_iff_false, is_ok_unit in *.
    match goal with H : ContinueRequest_Validate _ = Ok _ |- _ => apply Hq in H as (_ & Hne & _) end.
    split_and!; try congruence.
    + exists k. split_and!; try done. unfold RunInputManifest_Digest in Hd. rewrite Hk in Hd.
      apply bind_ok in Hd as ([] & Hv & _). congruence.
    + destruct (cn_Session r). unfold Session_New. simpl in *. by subst.
    + unfold Run_CheckEpoch, run_terminal. rewrite !decide_False; [done | | congruence].
      match goal with H : r_State (cn_Run r) = _ |- _ => rewrite H end. vm_compute. intuition discriminate.
Qed.

End transcripts.

(** ** A transcript *)

Definition sample_exec_token : ExecToken :=
  mkExecToken "00112233445566778899aabbccddeeff00112233445566778899aabbccddeeff" "run-1" "worker-1" sample_task_digest 0.
Definition sample_binding : ControlBinding := mkControlBinding sample_exec_token 1 "thread-1" "turn-1".
Definition sample_payload : ControlPayload := mkControlPayload sample_binding ControlSteer "look at the boot log".
Definition sample_payload_digest : string :=
  Eval vm_compute in default "" (match Digest (ControlPayload_json sample_payload) with Ok d => Some d | Err _ => None end).
Definition sample_delivery : ControlDelivery :=
  mkControlDelivery (mkSteering "S1" "run-1" 1 3 "olga" sample_payload_digest 10) sample_payload ControlAccepted (Some 11%Z) (Some 12%Z).
Definition sample_scope : ScopeProof := mkScope 1 Mechanism 42 2 1 5 20 true.
Definition sample_transcript : ControlTranscript :=
  mkTranscript 2 (mkControlClose sample_binding "completed" sample_scope) [sample_delivery].

Example sample_transcript_delivers : AllowsDelivery sample_transcript = true /\ Continuable sample_transcript = false.
Proof. vm_compute. done. Qed.

Lemma sample_sealed : sealed sample_transcript.
Proof. apply Digest_sealed. vm_compute. reflexivity. Defined.

Lemma sealed_commands_witness :
  (steer_all (Session_New "run-1" 1) (cd_Command <$> ct_Deliveries sample_transcript)).2 = [cd_Command sample_delivery].
Proof.
  destruct (sealed_commands sample_transcript (Session_New "run-1" 1)) as [Hs _]; [|reflexivity..|exact Hs].
  apply sample_sealed.
Defined.
