(* ===== verification/Sandbox.v ===== *)
(** [internal/sandbox]: offline profiles, results and build outputs
    ([profile.go], [build_outputs.go]) and the log stream of the container
    engine ([demultiplexBounded] of [engine.go]).

    A profile fixes everything a command may do; its digest names it.  The
    guard inside the container gets the output contract as one base64
    argument and answers with one canonical envelope: both directions decode
    to exactly one value, and only the canonical text is accepted. *)
From S2P Require Import Prelude Canonical Json StrictJson Core Verification Binding.

(** ** base64 ([base64.StdEncoding.Strict()]) *)

Definition b64_char (n : N) : ascii :=
  Stdlib.Strings.Ascii.ascii_of_N
    (if n <? 26 then 65 + n else if n <? 52 then 71 + n else if n <? 62 then n - 4 else if n =? 62 then 43 else 47)%N.
Definition b64_value (c : ascii) : option N :=
  if is_upper c then Some (byte_at c - 65)%N else if is_lower c then Some (byte_at c - 71)%N
  else if is_digit c then Some (byte_at c + 4)%N
  else if decide (c = "+"%char) then Some 62%N else if decide (c = "/"%char) then Some 63%N else None.

Fixpoint b64_encode (l : list ascii) : list ascii :=
  match l with
  | a :: b :: c :: r =>
    let '(a, b, c) := (byte_at a, byte_at b, byte_at c) in
    b64_char (a / 4) :: b64_char (a mod 4 * 16 + b / 16) :: b64_char (b mod 16 * 4 + c / 64) :: b64_char (c mod 64) :: b64_encode r
  | [a; b] =>
    let '(a, b) := (byte_at a, byte_at b) in
    [b64_char (a / 4); b64_char (a mod 4 * 16 + b / 16); b64_char (b mod 16 * 4); "="%char]
  | [a] => let a := byte_at a in [b64_char (a / 4); b64_char (a mod 4 * 16); "="%char; "="%char]
  | [] => []
  end%N.

Definition byte_of (n : N) : ascii := Stdlib.Strings.Ascii.ascii_of_N n.

(** Groups of four; padding only at the end, its unused bits zero. *)
Fixpoint b64_groups (l : list ascii) : option (list ascii) :=
  match l with
  | [] => Some []
  | a :: b :: c :: d :: r =>
    x ← b64_value a; y ← b64_value b;
    if decide (c = "="%char) then
      if decide (d = "="%char /\ r = [] /\ (y mod 16 = 0)%N) then Some [byte_of (x * 4 + y / 16)] else None
    else
      z ← b64_value c;
      if decide (d = "="%char) then
        if decide (r = [] /\ (z mod 4 = 0)%N) then Some [byte_of (x * 4 + y / 16); byte_of (y mod 16 * 16 + z / 4)] else None
      else
        w ← b64_value d; rest ← b64_groups r;
        Some (byte_of (x * 4 + y / 16) :: byte_of (y mod 16 * 16 + z / 4) :: byte_of (z mod 4 * 64 + w) :: rest)
  | _ => None
  end%N.
(** The decoder skips line ends. *)
Definition b64_decode (l : list ascii) : option (list ascii) :=
  b64_groups (filter (fun c => c <> "010"%char /\ c <> "013"%char) l).

Definition base64 (s : string) : string := unbytes (b64_encode (bytes s)).
Definition from_base64 (s : string) : option string := unbytes <$> b64_decode (bytes s).

(** ** profile.go and build_outputs.go *)

Definition ErrPolicy : goerr := ESentinel "sandbox.ErrPolicy" "invalid offline sandbox policy".
Definition ErrUnknown : goerr := ESentinel "sandbox.ErrUnknown" "sandbox outcome or cleanup is unknown".
Definition SandboxRecipe : string := "docker-offline-readonly-v1".
Definition KiB (n : Z) : Z := Z.shiftl n 10.
Definition OutputLimit : Z := KiB 128.
Definition BuildOutputLimit : Z := KiB 256.
Definition BuildFileLimit : Z := KiB 128.
Definition BuildMemberLimit : nat := 8.
Definition BuildWireLimit : Z := KiB 768.
Definition BuildGuardMode : string := "--build-output-v1".

(** A slice that may be nil, where the code or its JSON can tell. *)
Abbreviation slice A := (option (list A)) (only parsing).
Definition items {A} (l : slice A) : list A := default [] l.
Definition blob (b : option string) : string := default "" b.
Definition blen (s : string) : Z := Z.of_nat (str_len s).

Record OutputSpec := mkOutputSpec { os_Name : string; os_MaxBytes : Z }.
#[export] Instance OutputSpec_eq_dec : EqDecision OutputSpec.
Proof. solve_decision. Defined.
Record OutputFile := mkOutputFile { of_Name : string; of_Size : Z; of_Digest : string; of_Bytes : option string }.
Record BuildOutputs := mkBuildOutputs {
  bo_Contract : slice OutputSpec; bo_ContractDigest : string; bo_State : string; bo_ChildrenReaped : bool;
  bo_Files : slice OutputFile
}.
Record BuildEnvelope := mkEnvelope {
  be_Version : Z; be_ExitCode : Z; be_Stdout : option string; be_Stderr : option string; be_Outputs : BuildOutputs
}.
Record OfflineProfile := mkOfflineProfile {
  op_Image : string; op_GuardDigest : string; op_Argv : list string; op_Seconds : Z; op_Outputs : slice OutputSpec
}.
Record OfflineResult := mkOfflineResult {
  or_Recipe : string; or_ProfileDigest : string; or_ContainerID : string; or_ExitCode : Z;
  or_Stdout : option string; or_Stderr : option string; or_StdoutDigest : string; or_StderrDigest : string;
  or_UserID : Z; or_BuildOutputs : option BuildOutputs
}.

Definition buildName (s : string) : bool :=
  matches_name is_alnum (fun c => is_alnum c || one_of "._-" c) 63 s.
Definition containerID (s : string) : bool := (str_len s =? 64)%nat && str_forall is_lower_hex s.

(** The loop of [ValidateOutputContract], with [total] and [previous]. *)
Fixpoint contract_loop (total : Z) (previous : string) (l : list OutputSpec) : outcome Z :=
  match l with
  | [] => Ok total
  | spec :: r =>
    if decide (buildName (os_Name spec) = false \/ String.le (os_Name spec) previous \/ (os_MaxBytes spec < 1)%Z
               \/ (BuildFileLimit < os_MaxBytes spec)%Z)
    then Err ErrPolicy else contract_loop (total + os_MaxBytes spec) (os_Name spec) r
  end.
Definition ValidateOutputContract (contract : list OutputSpec) : outcome unit :=
  if decide (length contract < 1 \/ BuildMemberLimit < length contract) then Err ErrPolicy else
  total ← contract_loop 0 "" contract;
  if decide (BuildOutputLimit < total)%Z then Err ErrPolicy else Ok tt.

(** ** Their JSON *)

Definition jblob (k : string) (b : option string) : list (string * jval) :=
  [(k, match b with Some s => JStr (base64 s) | None => JNull end)].
Definition jslice {A} (f : A -> jval) (k : string) (l : slice A) : list (string * jval) :=
  [(k, match l with Some l => JArr (f <$> l) | None => JNull end)].

Definition OutputSpec_json (s : OutputSpec) : jval := JObj
  (jstr "name" (os_Name s) ++ [("max_bytes", JNum (os_MaxBytes s))]).
Definition contract_json (l : list OutputSpec) : jval := JArr (OutputSpec_json <$> l).
Definition OutputFile_json (f : OutputFile) : jval := JObj
  (jstr "name" (of_Name f) ++ [("size", JNum (of_Size f))] ++ jstr "digest" (of_Digest f) ++ jblob "bytes" (of_Bytes f)).
Definition BuildOutputs_json (b : BuildOutputs) : jval := JObj
  (jslice OutputSpec_json "contract" (bo_Contract b) ++ jstr "contract_digest" (bo_ContractDigest b)
   ++ jstr "state" (bo_State b) ++ [("children_reaped", JBool (bo_ChildrenReaped b))]
   ++ jslice OutputFile_json "files" (bo_Files b)).
Definition BuildEnvelope_json (e : BuildEnvelope) : jval := JObj
  ([("version", JNum (be_Version e)); ("exit_code", JNum (be_ExitCode e))] ++ jblob "stdout" (be_Stdout e)
   ++ jblob "stderr" (be_Stderr e) ++ [("outputs", BuildOutputs_json (be_Outputs e))]).
Definition OfflineProfile_json (p : OfflineProfile) : jval := JObj
  (jstr "image_id" (op_Image p) ++ jstr "guard_digest" (op_GuardDigest p) ++ jstrs "argv" (op_Argv p)
   ++ [("timeout_seconds", JNum (op_Seconds p))] ++ jobjs_omit "outputs" (OutputSpec_json <$> items (op_Outputs p))).
Definition OfflineResult_json (r : OfflineResult) : jval := JObj
  (jstr "recipe" (or_Recipe r) ++ jstr "profile_digest" (or_ProfileDigest r) ++ jstr "container_id" (or_ContainerID r)
   ++ [("exit_code", JNum (or_ExitCode r))] ++ jblob "stdout" (or_Stdout r) ++ jblob "stderr" (or_Stderr r)
   ++ jstr "stdout_digest" (or_StdoutDigest r) ++ jstr "stderr_digest" (or_StderrDigest r)
   ++ [("user_id", JNum (or_UserID r))]
   ++ match or_BuildOutputs r with Some b => [("build_outputs", BuildOutputs_json b)] | None => [] end).

(** ** Their typed decoding ([encoding/json] with [DisallowUnknownFields])

    A null leaves the zero value.  Every caller prints the value again and
    compares the text, so nothing depends on how numbers that are not printed
    integers or base64 with line ends are read. *)

Definition mistyped : goerr := ENew "json: cannot unmarshal".
Definition as_str (v : jval) : outcome string := match v with JStr s => Ok s | JNull => Ok "" | _ => Err mistyped end.
Definition as_int (v : jval) : outcome Z := match v with JNum n => Ok n | JNull => Ok 0%Z | _ => Err mistyped end.
Definition as_bool (v : jval) : outcome bool := match v with JBool b => Ok b | JNull => Ok false | _ => Err mistyped end.
Definition as_blob (v : jval) : outcome (option string) :=
  match v with JStr s => b ← of_option mistyped (from_base64 s); Ok (Some b) | JNull => Ok None | _ => Err mistyped end.
Fixpoint as_list {A} (f : jval -> outcome A) (l : list jval) : outcome (list A) :=
  match l with [] => Ok [] | v :: r => a ← f v; l ← as_list f r; Ok (a :: l) end.
Definition as_slice {A} (f : jval -> outcome A) (v : jval) : outcome (slice A) :=
  match v with JArr l => l ← as_list f l; Ok (Some l) | JNull => Ok None | _ => Err mistyped end.
Definition as_struct (known : list string) (v : jval) : outcome (list (string * jval)) :=
  match v with
  | JObj fs => if forallb (fun kv => bool_decide (kv.1 ∈ known)) fs then Ok fs else Err (ENew "json: unknown field")
  | JNull => Ok []
  | _ => Err mistyped
  end.

Definition as_OutputSpec (v : jval) : outcome OutputSpec :=
  fs ← as_struct ["name"; "max_bytes"] v;
  name ← as_str (get "name" fs); n ← as_int (get "max_bytes" fs); Ok (mkOutputSpec name n).
Definition as_OutputFile (v : jval) : outcome OutputFile :=
  fs ← as_struct ["name"; "size"; "digest"; "bytes"] v;
  name ← as_str (get "name" fs); n ← as_int (get "size" fs); d ← as_str (get "digest" fs); b ← as_blob (get "bytes" fs);
  Ok (mkOutputFile name n d b).
Definition as_BuildOutputs (v : jval) : outcome BuildOutputs :=
  fs ← as_struct ["contract"; "contract_digest"; "state"; "children_reaped"; "files"] v;
  c ← as_slice as_OutputSpec (get "contract" fs); d ← as_str (get "contract_digest" fs); s ← as_str (get "state" fs);
  r ← as_bool (get "children_reaped" fs); f ← as_slice as_OutputFile (get "files" fs);
  Ok (mkBuildOutputs c d s r f).
Definition as_BuildEnvelope (v : jval) : outcome BuildEnvelope :=
  fs ← as_struct ["version"; "exit_code"; "stdout"; "stderr"; "outputs"] v;
  n ← as_int (get "version" fs); x ← as_int (get "exit_code" fs); o ← as_blob (get "stdout" fs);
  e ← as_blob (get "stderr" fs); b ← as_BuildOutputs (get "outputs" fs);
  Ok (mkEnvelope n x o e b).

(** ** The operations *)

(** [path.Clean] and [path.IsAbs]. *)
Fixpoint path_parts (cur : list ascii) (l : list ascii) : list (list ascii) :=
  match l with
  | [] => [rev cur]
  | c :: r => if decide (c = "/"%char) then rev cur :: path_parts [] r else path_parts (c :: cur) r
  end.
Definition dotdot : list ascii := ["."; "."]%char.
(** One element of the path, on the stack of the elements kept so far. *)
Definition path_step (rooted : bool) (stack : list (list ascii)) (part : list ascii) : list (list ascii) :=
  if decide (part = [] \/ part = ["."%char]) then stack
  else if decide (part = dotdot) then
    match stack with
    | top :: rest => if decide (top = dotdot) then part :: stack else rest
    | [] => if rooted then [] else [part]
    end
  else part :: stack.
Definition IsAbs (p : string) : bool := str_prefix "/" p.
Definition Clean (p : string) : string :=
  let parts := rev (foldl (path_step (IsAbs p)) [] (path_parts [] (bytes p))) in
  let body := join "/" (unbytes <$> parts) in
  if IsAbs p then "/" +:+ body else if decide (body = "") then "." else body.

Section operations.
Context `{Hash}.

(** [Hash] of profile.go. *)
Definition sandbox_Hash (data : string) : string := BytesDigest data.

Definition OutputContractDigest (contract : list OutputSpec) : outcome string :=
  ValidateOutputContract contract ;; Ok (sandbox_Hash (marshal (contract_json contract))).

Definition argv_size (argv : list string) : Z := foldr Z.add 0%Z (blen <$> argv).

Definition OfflineProfile_Validate (p : OfflineProfile) : outcome unit :=
  if match op_Outputs p with Some l => negb (is_ok (ValidateOutputContract l)) | None => false end then Err ErrPolicy else
  if decide (ValidDigest (op_Image p) = false \/ ValidDigest (op_GuardDigest p) = false
             \/ (op_Seconds p < 1)%Z \/ (45 < op_Seconds p)%Z \/ 32 < length (op_Argv p))
  then Err ErrPolicy else
  match op_Argv p with
  | [] => Err ErrPolicy
  | command :: _ =>
    if decide (IsAbs command = false \/ Clean command <> command \/ command = "/ep-guard") then Err ErrPolicy else
    if existsb (contains_any (bs [0]%N)) (op_Argv p) then Err ErrPolicy else
    if decide (8192 < argv_size (op_Argv p))%Z then Err ErrPolicy else Ok tt
  end.

Definition OfflineProfile_Digest (p : OfflineProfile) : outcome string :=
  OfflineProfile_Validate p ;; Ok (sandbox_Hash (marshal (OfflineProfile_json p))).

(** The loop over the files, paired with the contract. *)
Fixpoint files_loop (files : list OutputFile) (contract : list OutputSpec) : outcome unit :=
  match files, contract with
  | f :: files, spec :: contract =>
    if decide (of_Name f <> os_Name spec \/ (of_Size f < 0)%Z \/ (os_MaxBytes spec < of_Size f)%Z
               \/ blen (blob (of_Bytes f)) <> of_Size f \/ of_Digest f <> sandbox_Hash (blob (of_Bytes f)))
    then Err ErrPolicy else files_loop files contract
  | [], _ => Ok tt
  | _ :: _, [] => Err ErrPolicy
  end.

Definition BuildOutputs_Validate (b : BuildOutputs) (exitCode : Z) : outcome unit :=
  match OutputContractDigest (items (bo_Contract b)) with
  | Err _ => Err ErrPolicy
  | Ok digest =>
    if decide (digest <> bo_ContractDigest b \/ bo_ChildrenReaped b = false \/ (exitCode < 0)%Z \/ (255 < exitCode)%Z)
    then Err ErrPolicy else
    if decide (exitCode <> 0%Z) then
      if decide (bo_State b <> "NOT_COLLECTED_EXIT_NONZERO" \/ items (bo_Files b) <> []) then Err ErrPolicy else Ok tt
    else if decide (bo_State b <> "COLLECTED" \/ length (items (bo_Files b)) <> length (items (bo_Contract b)))
    then Err ErrPolicy else files_loop (items (bo_Files b)) (items (bo_Contract b))
  end.

Definition OfflineResult_Validate (r : OfflineResult) (p : OfflineProfile) : outcome unit :=
  let digest := OfflineProfile_Digest p in
  if decide (bool_decide (items (op_Outputs p) <> []) <> match or_BuildOutputs r with Some _ => true | None => false end)
  then Err ErrPolicy else
  if match or_BuildOutputs r with
     | Some b => negb (is_ok (BuildOutputs_Validate b (or_ExitCode r)))
                 || negb (bool_decide (items (bo_Contract b) = items (op_Outputs p)))
     | None => false
     end then Err ErrPolicy else
  match digest with
  | Err _ => Err ErrPolicy
  | Ok digest =>
    if decide (or_Recipe r <> SandboxRecipe \/ or_ProfileDigest r <> digest \/ containerID (or_ContainerID r) = false
               \/ (or_ExitCode r < 0)%Z \/ (255 < or_ExitCode r)%Z \/ or_ExitCode r = 122%Z \/ (or_UserID r < 1)%Z
               \/ (OutputLimit < blen (blob (or_Stdout r)))%Z \/ (OutputLimit < blen (blob (or_Stderr r)))%Z
               \/ sandbox_Hash (blob (or_Stdout r)) <> or_StdoutDigest r
               \/ sandbox_Hash (blob (or_Stderr r)) <> or_StderrDigest r)
    then Err ErrPolicy else Ok tt
  end.

Definition GuardArguments (p : OfflineProfile) : list string :=
  (if decide (items (op_Outputs p) = []) then []
   else [BuildGuardMode; base64 (marshal (contract_json (items (op_Outputs p)))); "--"]) ++ op_Argv p.

Definition DecodeOutputContract (encoded : string) : outcome (list OutputSpec) :=
  if decide (4096 < blen encoded)%Z then Err ErrPolicy else
  match from_base64 encoded with
  | None => Err ErrPolicy
  | Some raw =>
    if decide (base64 raw <> encoded) then Err ErrPolicy else
    let wrapped := ("{" +:+ quote "outputs" +:+ ":") +:+ raw +:+ "}" in
    match StrictDecode (fun data => v ← read_document data; fs ← as_struct ["outputs"] v;
                                    as_slice as_OutputSpec (get "outputs" fs)) wrapped with
    | Err _ => Err ErrPolicy
    | Ok outputs =>
      if negb (is_ok (ValidateOutputContract (items outputs))) then Err ErrPolicy
      else if decide (marshal (contract_json (items outputs)) <> raw) then Err ErrPolicy
      else Ok (items outputs)
    end
  end.

Definition BuildEnvelope_Validate (e : BuildEnvelope) : outcome unit :=
  if decide (be_Version e <> 1%Z \/ be_ExitCode e = 122%Z \/ (OutputLimit < blen (blob (be_Stdout e)))%Z
             \/ (OutputLimit < blen (blob (be_Stderr e)))%Z)
  then Err ErrPolicy else BuildOutputs_Validate (be_Outputs e) (be_ExitCode e).

Definition line_end : string := bs [10]%N.

Definition EncodeBuildEnvelope (e : BuildEnvelope) : outcome string :=
  if negb (is_ok (BuildEnvelope_Validate e)) then Err ErrPolicy else
  let raw := marshal (BuildEnvelope_json e) in
  if decide (BuildWireLimit < blen raw + 1)%Z then Err ErrPolicy else Ok (raw +:+ line_end).

Definition DecodeBuildEnvelope (raw : string) (p : OfflineProfile) (exitCode : Z) : outcome BuildEnvelope :=
  if decide ((BuildWireLimit < blen raw)%Z \/ is_ok (OfflineProfile_Validate p) = false \/ items (op_Outputs p) = [])
  then Err ErrPolicy else
  match StrictDecode (fun data => v ← read_document data; as_BuildEnvelope v) raw with
  | Err _ => Err ErrPolicy
  | Ok e =>
    if decide (is_ok (BuildEnvelope_Validate e) = false \/ be_ExitCode e <> exitCode
               \/ items (bo_Contract (be_Outputs e)) <> items (op_Outputs p))
    then Err ErrPolicy else
    match EncodeBuildEnvelope e with
    | Ok exact => if decide (raw = exact) then Ok e else Err ErrPolicy
    | Err _ => Err ErrPolicy
    end
  end.

End operations.

(** ** The log stream ([engine.go]) *)

Definition be32 (a b c d : ascii) : N :=
  (byte_at a * 16777216 + byte_at b * 65536 + byte_at c * 256 + byte_at d)%N.

(** [demultiplexBounded]: every turn consumes a header of eight bytes, so the
    length of the data is enough fuel. *)
Fixpoint demultiplex_loop (fuel : nat) (limit : Z) (out err data : list ascii) : outcome (list ascii * list ascii) :=
  match data, fuel with
  | [], _ => Ok (out, err)
  | stream :: z1 :: z2 :: z3 :: a :: b :: c :: d :: data, S fuel =>
    if decide (byte_at z1 <> 0%N \/ byte_at z2 <> 0%N \/ byte_at z3 <> 0%N) then Err ErrPolicy else
    let n := be32 a b c d in
    if decide (N.of_nat (length data) < n)%N then Err ErrPolicy else
    let payload := take (N.to_nat n) data in
    if decide (byte_at stream <> 1%N /\ byte_at stream <> 2%N) then Err ErrPolicy else
    let out := if decide (byte_at stream = 1%N) then out ++ payload else out in
    let err := if decide (byte_at stream = 2%N) then err ++ payload else err in
    if decide ((limit < Z.of_nat (length out))%Z \/ (limit < Z.of_nat (length err))%Z) then Err ErrPolicy
    else demultiplex_loop fuel limit out err (drop (N.to_nat n) data)
  | _, _ => Err ErrPolicy
  end.
Definition demultiplexBounded (data : string) (limit : Z) : outcome (string * string) :=
  r ← demultiplex_loop (str_len data) limit [] [] (bytes data); Ok (unbytes r.1, unbytes r.2).

(** ** What the engine sends: a frame per write *)

Definition byte_n (k : nat) (n : N) : ascii := byte_of (n / 256 ^ N.of_nat k mod 256)%N.
Definition header (stream : N) (n : N) : list ascii :=
  [byte_of stream; byte_of 0; byte_of 0; byte_of 0; byte_n 3 n; byte_n 2 n; byte_n 1 n; byte_n 0 n].
Definition frame (f : bool * list ascii) : list ascii :=
  header (if f.1 then 2 else 1) (N.of_nat (length f.2)) ++ f.2.
Definition frame_ok (f : bool * list ascii) : Prop := (N.of_nat (length f.2) < 2 ^ 32)%N.
Definition stream_of (b : bool) (l : list (bool * list ascii)) : list ascii :=
  concat ((fun f => if bool_decide (f.1 = b) then f.2 else []) <$> l).

Lemma byte_at_of n : (n < 256)%N -> byte_at (byte_of n) = n.
Proof. apply Stdlib.Strings.Ascii.N_ascii_embedding. Qed.
Lemma byte_of_at c : byte_of (byte_at c) = c.
Proof. apply Stdlib.Strings.Ascii.ascii_N_embedding. Qed.
Lemma byte_at_lt c : (byte_at c < 256)%N.
Proof. unfold byte_at. destruct c as [[] [] [] [] [] [] [] []]; reflexivity. Qed.

Lemma be32_bytes n : (n < 2 ^ 32)%N -> be32 (byte_n 3 n) (byte_n 2 n) (byte_n 1 n) (byte_n 0 n) = n.
Proof.
  intros Hn. unfold be32, byte_n. rewrite !byte_at_of by (apply N.mod_lt; done).
  change (256 ^ N.of_nat 3)%N with 16777216%N. change (256 ^ N.of_nat 2)%N with 65536%N.
  change (256 ^ N.of_nat 1)%N with 256%N. change (256 ^ N.of_nat 0)%N with 1%N. change (2 ^ 32)%N with 4294967296%N in Hn.
  zify; Z.to_euclidean_division_equations; lia.
Qed.
Lemma bytes_be32 a b c d : let n := be32 a b c d in
  (n < 2 ^ 32)%N /\ byte_n 3 n = a /\ byte_n 2 n = b /\ byte_n 1 n = c /\ byte_n 0 n = d.
Proof.
  pose proof (byte_at_lt a). pose proof (byte_at_lt b). pose proof (byte_at_lt c). pose proof (byte_at_lt d).
  unfold byte_n, be32. change (256 ^ N.of_nat 3)%N with 16777216%N. change (256 ^ N.of_nat 2)%N with 65536%N.
  change (256 ^ N.of_nat 1)%N with 256%N. change (256 ^ N.of_nat 0)%N with 1%N. change (2 ^ 32)%N with 4294967296%N.
  split_and!; [lia | rewrite <- (byte_of_at a) at 2 | rewrite <- (byte_of_at b) at 2 | rewrite <- (byte_of_at c) at 2
              | rewrite <- (byte_of_at d) at 2]; f_equal; zify; Z.to_euclidean_division_equations; lia.
Qed.

Lemma stream_cons b f l : stream_of b (f :: l) = (if bool_decide (f.1 = b) then f.2 else []) ++ stream_of b l.
Proof. done. Qed.

Lemma frames_cons f l : concat (frame <$> f :: l) = frame f ++ concat (frame <$> l).
Proof. done. Qed.

Definition within (limit : Z) (out err : list ascii) : Prop :=
  (Z.of_nat (length out) <= limit)%Z /\ (Z.of_nat (length err) <= limit)%Z.

Lemma demultiplex_nil fuel limit out err : demultiplex_loop fuel limit out err [] = Ok (out, err).
Proof. by destruct fuel. Qed.

Lemma demultiplex_short fuel limit out err data : data <> [] -> fuel = 0 \/ length data < 8 ->
  demultiplex_loop fuel limit out err data = Err ErrPolicy.
Proof.
  intros Hn Hl. destruct fuel, data as [|? [|? [|? [|? [|? [|? [|? [|? ?]]]]]]]]; try done. simpl in Hl. lia.
Qed.

Lemma data_cases (data : list ascii) : data = [] \/ (data <> [] /\ length data < 8)
  \/ exists s z1 z2 z3 a b c d r, data = s :: z1 :: z2 :: z3 :: a :: b :: c :: d :: r.
Proof.
  destruct data as [|? [|? [|? [|? [|? [|? [|? [|? ?]]]]]]]]; [by left | right; left; split; [done | simpl; lia].. |].
  right. right. eauto 20.
Qed.

Lemma demultiplex_sound fuel limit out err data o e : demultiplex_loop fuel limit out err data = Ok (o, e) ->
  exists frames, Forall frame_ok frames /\ data = concat (frame <$> frames)
  /\ o = out ++ stream_of false frames /\ e = err ++ stream_of true frames /\ (frames = [] \/ within limit o e).
Proof.
  revert out err data. induction fuel as [|fuel IH]; intros out err data;
    (destruct (data_cases data) as [->|[[??]|(s & z1 & z2 & z3 & a & b & c & d & r & ->)]];
     [rewrite demultiplex_nil; intros [= <- <-]; exists []; unfold stream_of; simpl; rewrite !app_nil_r; auto 10
     | by rewrite demultiplex_short by auto |]); [by rewrite demultiplex_short by auto|].
  cbn [demultiplex_loop].
  case_decide as Hz; [done|]. case_decide as Hn; [done|]. case_decide as Hs; [done|]. case_decide as Hlim; [done|].
  intros (frames & Hf & Hd & Ho & He & Hw)%IH. destruct (bytes_be32 a b c d) as (Hlt & Ha & Hb & Hc & Hd').
  set (n := be32 a b c d) in *. set (payload := take (N.to_nat n) r) in *.
  assert (length payload = N.to_nat n) as Hlen by (unfold payload; rewrite length_take; lia).
  assert (byte_at s = 1%N \/ byte_at s = 2%N) as Hst.
  { destruct (decide (byte_at s = 1%N)); [by left|]. right. apply dec_stable. tauto. }
  exists ((bool_decide (byte_at s = 2%N), payload) :: frames).
  split_and!.
  - constructor; [|done]. unfold frame_ok. simpl. lia.
  - rewrite frames_cons. unfold frame at 1, header. cbn [fst snd]. rewrite Hlen, N2Nat.id, Ha, Hb, Hc, Hd'.
    guards. assert (byte_of (if bool_decide (byte_at s = 2%N) then 2 else 1) = s) as Hsb
      by (transitivity (byte_of (byte_at s)); [f_equal; by destruct Hst as [E|E]; rewrite E | apply byte_of_at]).
    rewrite Hsb.
    repeat match goal with H : byte_at ?z = 0%N |- _ => apply (f_equal byte_of) in H; rewrite byte_of_at in H; subst z end.
    cbn [app]. do 8 f_equal. rewrite <- Hd. unfold payload. by rewrite take_drop.
  - rewrite stream_cons. cbn [fst snd]. rewrite Ho. by destruct Hst as [->| ->]; simpl; rewrite <- ?app_assoc.
  - rewrite stream_cons. cbn [fst snd]. rewrite He. by destruct Hst as [->| ->]; simpl; rewrite <- ?app_assoc.
  - right. destruct Hw as [->|Hw]; [|done]. rewrite Ho, He. unfold stream_of, within. simpl. rewrite !app_nil_r. lia.
Qed.

Lemma demultiplex_complete fuel limit out err frames : Forall frame_ok frames ->
  length (concat (frame <$> frames)) <= fuel ->
  frames = [] \/ within limit (out ++ stream_of false frames) (err ++ stream_of true frames) ->
  demultiplex_loop fuel limit out err (concat (frame <$> frames))
  = Ok (out ++ stream_of false frames, err ++ stream_of true frames).
Proof.
  revert out err frames. induction fuel as [|fuel IH]; intros out err [|[b payload] frames] Hf Hl Hw;
    [by rewrite demultiplex_nil; unfold stream_of; simpl; rewrite !app_nil_r | by simpl in Hl; lia
    | by rewrite demultiplex_nil; unfold stream_of; simpl; rewrite !app_nil_r |].
  inversion Hf as [|? ? Hp Hf']; subst. unfold frame_ok in Hp. cbn [snd] in Hp. destruct Hw as [|Hw]; [done|].
  rewrite frames_cons in *. unfold frame at 1 in Hl; unfold frame at 1; unfold header in *. cbn [fst snd app] in *. cbn [demultiplex_loop].
  rewrite !byte_at_of by (first [done | by destruct b]). rewrite be32_bytes by done.
  rewrite decide_False by tauto. rewrite decide_False by (rewrite length_app; lia).
  rewrite decide_False by (destruct b; intuition discriminate).
  rewrite Nat2N.id, take_app_length, drop_app_length.
  rewrite !stream_cons in *. cbn [fst snd] in *. cbn [length] in Hl. rewrite length_app in Hl.
  assert (within limit (out ++ (if bool_decide (b = false) then payload else []))
                       (err ++ (if bool_decide (b = true) then payload else []))) as Hw'.
  { unfold within in *. rewrite !length_app in *. lia. }
  destruct b; simpl in *; rewrite ?app_nil_r in Hw'.
  - rewrite decide_False by (unfold within in Hw'; lia). rewrite IH; [by rewrite <- !app_assoc | done | lia|].
    right. by rewrite <- !app_assoc.
  - rewrite decide_False by (unfold within in Hw'; lia). rewrite IH; [by rewrite <- !app_assoc | done | lia|].
    right. by rewrite <- !app_assoc.
Qed.

(** C33: The log of a container is taken apart exactly: a stream is accepted if
    and only if it is a sequence of whole frames on the two outputs, and what
    is returned are the frames' payloads in order, each output by itself and
    both within the limit; nothing is lost, invented or cut. *)
Theorem demultiplex_correct data limit o e : demultiplexBounded data limit = Ok (o, e) <->
  exists frames, Forall frame_ok frames /\ bytes data = concat (frame <$> frames)
  /\ bytes o = stream_of false frames /\ bytes e = stream_of true frames
  /\ (frames = [] \/ within limit (bytes o) (bytes e)).
Proof.
  unfold demultiplexBounded. split.
  - intros ([o' e'] & Hd & [= <- <-])%bind_ok. rewrite !bytes_unbytes. by apply demultiplex_sound in Hd.
  - intros (frames & Hf & Hd & Ho & He & Hw). rewrite Ho, He in Hw.
    rewrite Hd, (demultiplex_complete _ _ [] [] frames Hf); [|by rewrite <- Hd, bytes_length | done].
    simpl. rewrite <- Ho, <- He. unfold unbytes, bytes. by rewrite !Stdlib.Strings.String.string_of_list_ascii_of_string.
Qed.

(** ** base64 inverts *)

Definition b64_letter (c : ascii) : bool := is_alnum c || one_of "+/" c.
Lemma b64_char_ok n : (n < 64)%N -> b64_value (b64_char n) = Some n /\ b64_letter (b64_char n) = true.
Proof.
  assert (forallb (fun k => let n := N.of_nat k in
    bool_decide (b64_value (b64_char n) = Some n) && b64_letter (b64_char n)) (seq 0 64) = true) as Hall by (vm_compute; reflexivity).
  intros Hn. rewrite forallb_forall in Hall. specialize (Hall (N.to_nat n)). rewrite N2Nat.id in Hall.
  assert (In (N.to_nat n) (seq 0 64)) as Hin by (apply in_seq; lia). apply Hall in Hin.
  apply andb_true_iff in Hin as [H1%bool_decide_eq_true H2]. done.
Qed.
Lemma letter_not_pad c : b64_letter c = true -> c <> "="%char /\ c <> "010"%char /\ c <> "013"%char.
Proof. by intros Hc; split_and!; intros ->. Qed.

Lemma b64_induction (P : list ascii -> Prop) : P [] -> (forall a, P [a]) -> (forall a b, P [a; b]) ->
  (forall a b c r, P r -> P (a :: b :: c :: r)) -> forall l, P l.
Proof. intros H0 H1 H2 H3. fix IH 1. intros [|a [|b [|c r]]]; [exact H0 | apply H1 | apply H2 | apply H3, IH]. Qed.

(** The values of the letters of a group are below 64. *)
Lemma b64_bounds a b c : let '(a, b, c) := (byte_at a, byte_at b, byte_at c) in
  (a / 4 < 64 /\ a mod 4 * 16 < 64 /\ a mod 4 * 16 + b / 16 < 64 /\ b mod 16 * 4 < 64 /\ b mod 16 * 4 + c / 64 < 64 /\ c mod 64 < 64)%N.
Proof.
  pose proof (byte_at_lt a). pose proof (byte_at_lt b). pose proof (byte_at_lt c).
  cbv beta iota. split_and!; zify; Z.to_euclidean_division_equations; lia.
Qed.

Ltac b64_step := match goal with
  | |- context [b64_value (b64_char ?n)] => rewrite (proj1 (b64_char_ok n ltac:(assumption)))
  | |- context [decide (b64_char ?n = "="%char)] =>
      rewrite (decide_False (P := b64_char n = "="%char)) by (apply letter_not_pad, b64_char_ok; assumption)
  end.
Ltac byte_eq := match goal with |- byte_of ?x = ?c => transitivity (byte_of (byte_at c));
  [f_equal; zify; Z.to_euclidean_division_equations; lia | apply byte_of_at] end.

Lemma b64_groups_encode l : b64_groups (b64_encode l) = Some l.
Proof.
  induction l as [|a|a b|a b c r IH] using b64_induction; [done|..];
    cbn [b64_encode b64_groups].
  - destruct (b64_bounds a a a) as (? & ? & ? & ? & ? & ?). pose proof (byte_at_lt a). do 2 b64_step. cbn [mbind option_bind].
    rewrite decide_True by done. rewrite decide_True by (split_and!; [done | done | zify; Z.to_euclidean_division_equations; lia]).
    do 2 f_equal. byte_eq.
  - destruct (b64_bounds a b b) as (? & ? & ? & ? & ? & ?). pose proof (byte_at_lt a). pose proof (byte_at_lt b).
    repeat (b64_step; cbn [mbind option_bind]).
    rewrite decide_True by done. rewrite decide_True by (split; [done | zify; Z.to_euclidean_division_equations; lia]).
    f_equal. f_equal; [|f_equal]; byte_eq.
  - destruct (b64_bounds a b c) as (? & ? & ? & ? & ? & ?). pose proof (byte_at_lt a). pose proof (byte_at_lt b). pose proof (byte_at_lt c).
    repeat (b64_step; cbn [mbind option_bind]). rewrite IH. cbn [mbind option_bind].
    f_equal. f_equal; [|f_equal; [|f_equal]]; byte_eq.
Qed.

Ltac b64_each :=
  repeat (apply Forall_cons_2; [first [by right | left; by apply b64_char_ok]|]); first [assumption | apply Forall_nil_2].
Lemma b64_letters l : Forall (fun c => b64_letter c = true \/ c = "="%char) (b64_encode l).
Proof.
  induction l as [|a|a b|a b c r IH] using b64_induction; cbn [b64_encode]; [constructor|..].
  - destruct (b64_bounds a a a) as (? & ? & ? & ? & ? & ?). b64_each.
  - destruct (b64_bounds a b b) as (? & ? & ? & ? & ? & ?). b64_each.
  - destruct (b64_bounds a b c) as (? & ? & ? & ? & ? & ?). b64_each.
Qed.

Lemma from_base64_base64 s : from_base64 (base64 s) = Some s.
Proof.
  unfold from_base64, base64, b64_decode. rewrite bytes_unbytes.
  assert (filter (fun c => c <> "010"%char /\ c <> "013"%char) (b64_encode (bytes s)) = b64_encode (bytes s)) as ->.
  { pose proof (b64_letters (bytes s)) as Hl. induction Hl as [|c l Hc Hl IH]; [done|].
    rewrite filter_cons_True, IH; [done|]. destruct Hc as [Hc| ->]; [by apply letter_not_pad in Hc as (_ & ? & ?) | done]. }
  rewrite b64_groups_encode. simpl. f_equal. unfold unbytes, bytes. apply Stdlib.Strings.String.string_of_list_ascii_of_string.
Qed.

Lemma base64_utf8 s : utf8_valid (base64 s) = true.
Proof.
  apply ascii_utf8; [|by rewrite bytes_length]. unfold base64. rewrite bytes_unbytes. apply forallb_forall.
  intros c Hc%list_elem_of_In. pose proof (b64_letters (bytes s)) as Hl. rewrite Forall_forall in Hl.
  destruct (Hl c Hc) as [Hb| ->]; [|done]. clear -Hb. destruct c as [[] [] [] [] [] [] [] []]; first [reflexivity | discriminate Hb].
Qed.
Lemma base64_length s : (blen (base64 s) = 4 * ((blen s + 2) / 3))%Z.
Proof.
  unfold blen, base64. rewrite <- !bytes_length, bytes_unbytes. generalize (bytes s). clear s.
  intros l. induction l as [|a|a b|a b c r IH] using b64_induction; try done. cbn [b64_encode length]. 
  rewrite !Nat2Z.inj_succ, IH. zify; Z.to_euclidean_division_equations; lia.
Qed.

(** ** The output contract comes back from the guard's argument *)

Definition name_char (c : ascii) : bool := is_alnum c || one_of "._-" c.
Lemma name_char_plain c : name_char c = true -> (byte_at c <? 128)%N = true /\ escape_ascii c = [c].
Proof. destruct c as [[] [] [] [] [] [] [] []]; intros Hc; first [discriminate Hc | by split]. Qed.

Lemma buildName_ok s : buildName s = true -> forallb name_char (bytes s) = true /\ str_len s <= 64.
Proof.
  unfold buildName, matches_name, str_forall. destruct s as [|c r]; [done|].
  rewrite !andb_true_iff, Nat.leb_le. intros [[Hc Hl] Hr]. cbn [bytes Stdlib.Strings.String.list_ascii_of_string forallb].
  split; [|simpl; lia]. apply andb_true_iff. split; [by unfold name_char; rewrite Hc | done].
Qed.

Lemma escape_plain n l : forallb name_char l = true -> length l <= n -> escape_fuel n l = l.
Proof.
  revert l. induction n as [|n IH]; intros [|c l] Hp Hl; simpl in Hl; try done; [lia|].
  apply andb_true_iff in Hp as [[Hc He]%name_char_plain Hp]. cbn [escape_fuel]. rewrite Hc, He, IH; [done | done | lia].
Qed.
Lemma quote_length s : buildName s = true -> str_len (quote s) <= 66.
Proof.
  intros [Hp Hl]%buildName_ok. unfold quote. rewrite escape_plain by (done || by rewrite bytes_length).
  rewrite !str_len_app. unfold unbytes, bytes. rewrite Stdlib.Strings.String.string_of_list_ascii_of_string.
  change (str_len dquote) with 1. lia.
Qed.

Lemma pretty_N_go_length k (x : N) s : (x < 10 ^ N.of_nat k)%N -> str_len (pretty_N_go x s) <= k + str_len s.
Proof.
  revert x s. induction k as [|k IH]; intros x s Hx.
  { replace x with 0%N by (change (10 ^ N.of_nat 0)%N with 1%N in Hx; lia). by rewrite pretty_N_go_0. }
  destruct (decide (x = 0%N)) as [->|Hn]; [rewrite pretty_N_go_0; lia|]. rewrite pretty_N_go_step by lia.
  etrans; [apply IH | simpl; lia]. apply N.Div0.div_lt_upper_bound. rewrite Nat2N.inj_succ, N.pow_succ_r' in Hx. lia.
Qed.
Lemma pretty_length (n : Z) : (1 <= n < 10 ^ 6)%Z -> str_len (pretty n) <= 6.
Proof.
  intros Hn. destruct n as [|p|p]; [lia | | lia]. change (pretty (Z.pos p)) with (pretty (N.pos p)).
  unfold pretty, pretty_N. rewrite decide_False by done. etrans; [apply (pretty_N_go_length 6) | simpl; lia].
  change (10 ^ N.of_nat 6)%N with 1000000%N. change (10 ^ 6)%Z with 1000000%Z in Hn. lia.
Qed.

Definition spec_ok (s : OutputSpec) : Prop := buildName (os_Name s) = true /\ (1 <= os_MaxBytes s <= BuildFileLimit)%Z.

Lemma contract_loop_ok total prev l t : contract_loop total prev l = Ok t -> Forall spec_ok l.
Proof.
  revert total prev. induction l as [|s l IH]; intros total prev; cbn [contract_loop]; [constructor|].
  case_decide as Hb; [done|]. intros Hl%IH. guards. rewrite not_false_iff_true in *. constructor; [split; [done | lia] | done].
Qed.
Lemma contract_ok l : ValidateOutputContract l = Ok tt -> Forall spec_ok l /\ 1 <= length l <= 8.
Proof.
  unfold ValidateOutputContract, BuildMemberLimit. intros Hv. ok_inv. guards.
  split; [by eapply contract_loop_ok | lia].
Qed.

Lemma OutputSpec_length s : spec_ok s -> str_len (marshal (OutputSpec_json s)) <= 96.
Proof.
  intros [Hn [H1 H2]]. unfold OutputSpec_json, jstr. cbn [app marshal List.map join fst snd].
  rewrite !str_len_app. pose proof (quote_length _ Hn). change BuildFileLimit with 131072%Z in H2.
  pose proof (pretty_length (os_MaxBytes s)) as Hp. change (10 ^ 6)%Z with 1000000%Z in Hp.
  specialize (Hp ltac:(lia)). change (str_len (quote "name")) with 6. change (str_len (quote "max_bytes")) with 11.
  change (str_len "{") with 1. change (str_len ":") with 1. change (str_len ",") with 1. change (str_len "}") with 1. lia.
Qed.
Lemma join_length k l : Forall (fun s => str_len s <= k) l -> str_len (join "," l) <= length l * S k.
Proof.
  induction 1 as [|s l Hs Hl IH]; [done|]. destruct l as [|s' l]; [simpl in *; nia|].
  change (join "," (s :: s' :: l)) with (s +:+ "," +:+ join "," (s' :: l)). rewrite !str_len_app. cbn [length] in *. change (str_len ",") with 1. nia.
Qed.
Lemma contract_length l : ValidateOutputContract l = Ok tt -> (blen (base64 (marshal (contract_json l))) <= 4096)%Z.
Proof.
  intros [Hf Hl]%contract_ok. rewrite base64_length. unfold contract_json. cbn [marshal].
  assert (str_len (join "," (List.map marshal (OutputSpec_json <$> l))) <= 8 * 97) as Hj.
  { etrans; [apply (join_length 96)|].
    - rewrite List.Forall_map, Forall_fmap. eapply Forall_impl; [exact Hf | apply OutputSpec_length].
    - rewrite length_map, length_fmap. lia. }
  unfold blen. rewrite !str_len_app. change (str_len "[") with 1. change (str_len "]") with 1.
  zify; Z.to_euclidean_division_equations; lia.
Qed.

Lemma as_list_inv {A} (f : jval -> outcome A) (g : A -> jval) l : (forall a, f (g a) = Ok a) -> as_list f (g <$> l) = Ok l.
Proof. intros Hfg. induction l as [|a l IH]; [done|]. csimpl. rewrite Hfg. simpl. by rewrite IH. Qed.
Lemma as_slice_inv {A} (f : jval -> outcome A) (g : A -> jval) (l : slice A) : (forall a, f (g a) = Ok a) ->
  as_slice f (match l with Some l => JArr (g <$> l) | None => JNull end) = Ok l.
Proof. intros Hfg. destruct l; [|done]. cbn [as_slice]. by rewrite as_list_inv. Qed.
Lemma as_blob_inv b : as_blob (match b with Some s => JStr (base64 s) | None => JNull end) = Ok b.
Proof. destruct b; [|done]. simpl. by rewrite from_base64_base64. Qed.

Lemma as_OutputSpec_inv s : as_OutputSpec (OutputSpec_json s) = Ok s.
Proof. by destruct s. Qed.
Definition blob_json (b : option string) : jval := match b with Some s => JStr (base64 s) | None => JNull end.
Definition slice_json {A} (f : A -> jval) (l : slice A) : jval := match l with Some l => JArr (f <$> l) | None => JNull end.

Lemma as_OutputFile_inv f : as_OutputFile (OutputFile_json f) = Ok f.
Proof.
  destruct f as [n z d b]. transitivity (b' ← as_blob (blob_json b); Ok (mkOutputFile n z d b')); [reflexivity|].
  unfold blob_json. by rewrite as_blob_inv.
Qed.
Lemma as_BuildOutputs_inv b : as_BuildOutputs (BuildOutputs_json b) = Ok b.
Proof.
  destruct b as [c d s r f].
  transitivity (c' ← as_slice as_OutputSpec (slice_json OutputSpec_json c);
                f' ← as_slice as_OutputFile (slice_json OutputFile_json f); Ok (mkBuildOutputs c' d s r f')); [reflexivity|].
  unfold slice_json. rewrite (as_slice_inv as_OutputSpec OutputSpec_json) by apply as_OutputSpec_inv.
  cbn [mbind outcome_bind]. by rewrite (as_slice_inv as_OutputFile OutputFile_json) by apply as_OutputFile_inv.
Qed.
Lemma as_BuildEnvelope_inv e : as_BuildEnvelope (BuildEnvelope_json e) = Ok e.
Proof.
  destruct e as [v x o e b].
  transitivity (o' ← as_blob (blob_json o); e' ← as_blob (blob_json e); b' ← as_BuildOutputs (BuildOutputs_json b);
                Ok (mkEnvelope v x o' e' b')); [reflexivity|].
  unfold blob_json. by rewrite !as_blob_inv, as_BuildOutputs_inv.
Qed.

Lemma string_app_nil s : s +:+ "" = s.
Proof. induction s as [|c s IH]; [done|]. change (String c s +:+ "") with (String c (s +:+ "")). by rewrite IH. Qed.

(** The strict decoder reads back what the platform prints. *)
Lemma strict_reads {A} fs (decode : jval -> outcome A) tail : well_encoded (JObj fs) = true -> tail = "" \/ tail = line_end ->
  (blen (marshal (JObj fs)) + 1 <= Z.of_nat MaxBytes)%Z -> members_admissible validKey 1 ∅ fs = true ->
  StrictDecode (fun data => v ← read_document data; decode v) (marshal (JObj fs) +:+ tail) = decode (JObj fs).
Proof.
  intros Hw Ht Hl Ha. unfold StrictDecode, ValidateObject.
  assert (read_document (marshal (JObj fs) +:+ tail) = Ok (JObj fs)) as Hr.
  { destruct Ht as [->| ->]; [|by apply read_marshal_line].
    rewrite string_app_nil. by apply read_marshal. }
  assert (str_len tail <= 1) as Htl by (destruct Ht as [->| ->]; simpl; lia).
  rewrite (proj2 (validateObject_reads _ validKey _)).
  - cbn [mbind outcome_bind]. by rewrite Hr.
  - assert (0 < str_len (marshal (JObj fs))) as Hpos by (cbn [marshal]; rewrite str_len_app; simpl; lia).
    unfold blen in Hl. rewrite str_len_app. split; [lia|].
    split; [|by exists fs]. unfold utf8_valid. rewrite <- bytes_length.
    change (utf8 (bytes (marshal (JObj fs) +:+ tail))). rewrite bytes_app. apply utf8_app.
    + pose proof (marshal_utf8 (JObj fs)) as Hu. unfold utf8. by rewrite bytes_length.
    + by destruct Ht as [->| ->].
Qed.

Lemma MaxBytes_value : Z.of_nat MaxBytes = 1048576%Z.
Proof. unfold MaxBytes. by rewrite Nat2Z.inj_pow. Qed.

Lemma name_utf8 s : buildName s = true -> utf8_valid s = true.
Proof.
  intros [Hp _]%buildName_ok. apply ascii_utf8; [|by rewrite bytes_length]. rewrite forallb_forall in *.
  intros c Hc. destruct (name_char_plain c (Hp c Hc)) as [Hl%N.ltb_lt _]. unfold in_range. rewrite andb_true_iff, !N.leb_le. lia.
Qed.
Lemma specs_encoded l : Forall spec_ok l -> forallb well_encoded (OutputSpec_json <$> l) = true.
Proof.
  induction 1 as [|s l [Hn _] Hl IH]; [done|]. csimpl. rewrite IH, andb_true_r. unfold OutputSpec_json, jstr.
  cbn [app well_encoded forallb fst snd]. by rewrite name_utf8.
Qed.
Lemma map_admissible {A} (g : A -> jval) k l : (forall a, admissible validKey k (g a) = true) ->
  forallb (admissible validKey k) (g <$> l) = true.
Proof. intros Hg. induction l as [|a l IH]; [done|]. csimpl. by rewrite Hg, IH. Qed.

(** The guard gets exactly the contract of the profile.  An argument is
    decoded to a contract if and only if the contract is valid and the
    argument is its canonical base64 text, so a valid profile's argument always
    comes back, two contracts never share one, and no other text is accepted. *)
Theorem guard_contract_exact encoded contract :
  DecodeOutputContract encoded = Ok contract <->
  ValidateOutputContract contract = Ok tt /\ encoded = base64 (marshal (contract_json contract)).
Proof.
  unfold DecodeOutputContract. split.
  - case_decide; [done|]. destruct (from_base64 encoded) as [raw|]; [|done]. case_decide as He; [done|].
    destruct (StrictDecode _ _) as [o|]; [|done]. destruct (ValidateOutputContract (items o)) as [[]|] eqn:Hv; [|done]. cbn [is_ok negb].
    case_decide as Hr; [done|]. intros [= <-]. split; [done|]. by rewrite Hr, He.
  - intros [Hv ->]. rewrite decide_False by (pose proof (contract_length _ Hv); lia).
    rewrite from_base64_base64, decide_False by tauto. pose proof (contract_ok _ Hv) as [Hs _].
    pose proof (contract_length _ Hv) as Hlen. rewrite base64_length in Hlen.
    set (raw := marshal (contract_json contract)) in *.
    assert (("{" +:+ quote "outputs" +:+ ":") +:+ raw +:+ "}" = marshal (JObj [("outputs", contract_json contract)]) +:+ "") as ->
      by (rewrite string_app_nil; reflexivity).
    rewrite (strict_reads [("outputs", contract_json contract)]
      (fun v => fs ← as_struct ["outputs"] v; as_slice as_OutputSpec (get "outputs" fs))).
    + change (as_struct ["outputs"] (JObj [("outputs", contract_json contract)])) with (Ok (A := list (string * jval)) [("outputs", contract_json contract)]).
      cbn [mbind outcome_bind]. change (get "outputs" [("outputs", contract_json contract)]) with (slice_json OutputSpec_json (Some contract)).
      unfold slice_json. rewrite (as_slice_inv as_OutputSpec OutputSpec_json (Some contract)) by apply as_OutputSpec_inv.
      unfold items. cbn [default]. simpl. rewrite Hv. cbn [is_ok negb]. by rewrite decide_False by tauto.
    + cbn [well_encoded forallb fst snd]. unfold contract_json. cbn [well_encoded]. by rewrite specs_encoded.
    + by left.
    + rewrite MaxBytes_value. cbn [marshal List.map join fst snd]. fold raw. unfold blen in *. rewrite !str_len_app.
      change (str_len "{") with 1. change (str_len (quote "outputs")) with 9. change (str_len ":") with 1. change (str_len "}") with 1.
      zify; Z.to_euclidean_division_equations; lia.
    + unfold members_admissible, contract_json. cbn [forallb fst snd admissible].
      rewrite map_admissible by (intros []; reflexivity). reflexivity.
Qed.

Lemma files_encoded `{Hash} files contract : files_loop files contract = Ok tt -> Forall spec_ok contract ->
  forallb well_encoded (OutputFile_json <$> files) = true.
Proof.
  revert contract. induction files as [|f files IH]; intros [|s contract]; try done. cbn [files_loop].
  case_decide as Hb; [done|]. intros Hl Hs. inversion Hs as [|? ? [Hn _] Hs']; subst. guards. csimpl.
  rewrite (IH contract) by done. rewrite andb_true_r. unfold OutputFile_json, jstr, jblob.
  cbn [app well_encoded forallb fst snd]. rewrite H0, name_utf8 by done.
  rewrite H4, ValidDigest_utf8 by apply BytesDigest_ValidDigest.
  destruct (of_Bytes f); [cbn [well_encoded]; by rewrite base64_utf8 | done].
Qed.

Lemma BuildOutputs_encoded `{Hash} b x : BuildOutputs_Validate b x = Ok tt -> well_encoded (BuildOutputs_json b) = true.
Proof.
  unfold BuildOutputs_Validate. destruct (OutputContractDigest (items (bo_Contract b))) as [digest|] eqn:Hd; [|done].
  unfold OutputContractDigest in Hd. apply bind_ok in Hd as ([] & Hc & [= <-]). case_decide as Hb; [done|]. guards.
  apply contract_ok in Hc as [Hs _]. intros Hf.
  assert (utf8_valid (bo_ContractDigest b) = true) as Hdig.
  { rewrite <- H0. apply ValidDigest_utf8, BytesDigest_ValidDigest. }
  assert (utf8_valid (bo_State b) = true /\ forallb well_encoded (OutputFile_json <$> items (bo_Files b)) = true) as [Hst Hfs].
  { case_decide; case_decide as Hg; try done; guards.
    - rewrite H5, H6. done.
    - rewrite H5. split; [done|]. by eapply files_encoded. }
  unfold BuildOutputs_json, jslice, jstr. cbn [app well_encoded forallb fst snd]. rewrite Hdig, Hst.
  destruct (bo_Contract b) as [c|]; destruct (bo_Files b) as [f|]; cbn [well_encoded items default] in *;
    unfold items in *; simpl in *; rewrite ?specs_encoded, ?Hfs by done; reflexivity.
Qed.

Lemma slice_admissible {A} (g : A -> jval) k (l : slice A) : (forall a, admissible validKey (S k) (g a) = true) -> (k <= 64)%nat ->
  admissible validKey k (slice_json g l) = true.
Proof.
  intros Hg Hk. destruct l as [l|]; cbn [slice_json admissible]; rewrite (proj2 (Nat.leb_le k 64)) by done; [|done].
  by rewrite map_admissible.
Qed.

Lemma BuildEnvelope_admissible e fs : BuildEnvelope_json e = JObj fs -> members_admissible validKey 1 ∅ fs = true.
Proof.
  intros [= <-]. unfold members_admissible.
  assert (admissible validKey 2 (BuildOutputs_json (be_Outputs e)) = true) as Hb.
  { unfold BuildOutputs_json, jslice, jstr. cbn [app admissible forallb fst snd].
    pose proof (slice_admissible OutputSpec_json 3 (bo_Contract (be_Outputs e))) as Hc.
    pose proof (slice_admissible OutputFile_json 3 (bo_Files (be_Outputs e))) as Hf. unfold slice_json in Hc, Hf.
    rewrite Hc, Hf; [reflexivity | intros [? ? ? []]; reflexivity | lia | intros []; reflexivity | lia]. }
  unfold jblob. cbn [app forallb fst snd]. rewrite Hb.
  destruct (be_Stdout e), (be_Stderr e); reflexivity.
Qed.

(** C34: The guard's answer is read back exactly.  A log is decoded to an
    envelope if and only if it is the canonical text of that envelope for the
    profile's own contract and the observed exit status, so what the guard
    encodes comes back and nothing else passes for it. *)
Theorem build_envelope_exact `{Hash} raw p exitCode e :
  DecodeBuildEnvelope raw p exitCode = Ok e <->
  OfflineProfile_Validate p = Ok tt /\ items (op_Outputs p) <> [] /\ EncodeBuildEnvelope e = Ok raw
  /\ be_ExitCode e = exitCode /\ items (bo_Contract (be_Outputs e)) = items (op_Outputs p).
Proof.
  assert (forall (o : outcome unit), is_ok o = true <-> o = Ok tt) as is_ok_unit by (intros [[]|]; split; done).
  unfold DecodeBuildEnvelope. split.
  - case_decide as Hp; [done|]. guards. destruct (StrictDecode _ _) as [e'|]; [|done]. case_decide as He; [done|]. guards.
    destruct (EncodeBuildEnvelope e') as [exact|] eqn:Hx; [|done]. case_decide; [|done]. intros [= ->]. subst.
    rewrite not_false_iff_true, is_ok_unit in *. done.
  - intros (Hp & Hn & Hx & <- & Hc). pose proof Hx as Hx'. unfold EncodeBuildEnvelope in Hx'.
    destruct (BuildEnvelope_Validate e) as [[]|] eqn:Hv; [|done]. cbn [is_ok negb] in Hx'. case_decide as Hl; [done|].
    assert (marshal (BuildEnvelope_json e) +:+ line_end = raw) as <- by congruence. clear Hx'. rewrite Hp, decide_False.
    2:{ unfold blen in *. rewrite str_len_app. change (str_len line_end) with 1. cbn [is_ok]. intros [?|[?|?]]; [lia | done | done]. }
    destruct (BuildEnvelope_json e) as [| | | | |fs] eqn:Hj; try discriminate.
    rewrite (strict_reads fs as_BuildEnvelope).
    + rewrite <- Hj, as_BuildEnvelope_inv, Hv. cbn [is_ok]. rewrite decide_False by intuition congruence.
      rewrite Hx. rewrite decide_True; [done | by rewrite Hj].
    + rewrite <- Hj. unfold BuildEnvelope_Validate in Hv. case_decide; [done|]. apply BuildOutputs_encoded in Hv.
      unfold BuildEnvelope_json, jblob. cbn [app well_encoded forallb fst snd]. rewrite Hv.
      destruct (be_Stdout e), (be_Stderr e); cbn [well_encoded]; by rewrite ?base64_utf8.
    + by right.
    + rewrite MaxBytes_value. change BuildWireLimit with 786432%Z in Hl. lia.
    + by eapply BuildEnvelope_admissible.
Qed.

(** ** A result belongs to one profile *)

Definition OutputSpec_of (v : jval) : OutputSpec :=
  let f k := get k (fields_of v) in mkOutputSpec (str_of (f "name")) (num_of (f "max_bytes")).
Definition OfflineProfile_of (v : jval) : OfflineProfile :=
  let f k := get k (fields_of v) in
  mkOfflineProfile (str_of (f "image_id")) (str_of (f "guard_digest")) (strs_of (f "argv")) (num_of (f "timeout_seconds"))
    (match items_of (f "outputs") with [] => None | l => Some (OutputSpec_of <$> l) end).

Lemma OfflineProfile_reads p : op_Outputs p <> Some [] -> OfflineProfile_of (OfflineProfile_json p) = p.
Proof.
  destruct p as [i g a s o]. simpl. intros Ho. unfold OfflineProfile_of, OfflineProfile_json. f_equal; try read_field.
  assert (items_of (get "outputs" (fields_of (OfflineProfile_json (mkOfflineProfile i g a s o)))) = OutputSpec_json <$> items o)
    as Hi by read_field.
  unfold OfflineProfile_json in Hi. rewrite Hi. destruct o as [[|x l]|]; [done | | done]. cbn [items default]. unfold items; simpl.
  f_equal. f_equal; [by destruct x|]. apply (reads_map OutputSpec_of OutputSpec_json); [done | by intros []].
Qed.

Lemma Profile_outputs `{Hash} p d : OfflineProfile_Digest p = Ok d -> op_Outputs p <> Some [] /\ d = sandbox_Hash (marshal (OfflineProfile_json p)).
Proof.
  unfold OfflineProfile_Digest. intros ([] & Hv & [= <-])%bind_ok. split; [|done]. intros He. unfold OfflineProfile_Validate in Hv.
  rewrite He in Hv. discriminate.
Qed.

Lemma BytesDigest_binds `{Hash} a b : BytesDigest a = BytesDigest b -> a = b \/ collision [a; b].
Proof. by intros Hab%BytesDigest_hash%same_hash. Qed.

(** What a result shows of the run of a profile. *)
Record result_of `{Hash} (r : OfflineResult) (p : OfflineProfile) : Prop := {
  ro_profile : OfflineProfile_Digest p = Ok (or_ProfileDigest r);
  ro_exit : (0 <= or_ExitCode r <= 255)%Z /\ or_ExitCode r <> 122%Z;
  ro_user : (1 <= or_UserID r)%Z;
  ro_logs : (blen (blob (or_Stdout r)) <= OutputLimit)%Z /\ (blen (blob (or_Stderr r)) <= OutputLimit)%Z;
  ro_digests : or_StdoutDigest r = BytesDigest (blob (or_Stdout r)) /\ or_StderrDigest r = BytesDigest (blob (or_Stderr r));
  ro_outputs : match or_BuildOutputs r with
               | Some b => items (op_Outputs p) <> [] /\ items (bo_Contract b) = items (op_Outputs p)
                           /\ BuildOutputs_Validate b (or_ExitCode r) = Ok tt
               | None => items (op_Outputs p) = []
               end
}.

Lemma offline_result_ok `{Hash} r q : OfflineResult_Validate r q = Ok tt -> result_of r q.
Proof.
  intros Hv. unfold OfflineResult_Validate in Hv. case_decide as Ho; [done|].
  destruct (OfflineProfile_Digest q) as [d|] eqn:Hd; [|ok_inv].
  ok_inv. guards. rewrite not_false_iff_true in *. subst. split; [congruence | split; [lia | done] | lia | split; lia | by split |].
  destruct (or_BuildOutputs r) as [b|].
  - apply orb_false_iff in E as [E1%negb_false_iff E2%negb_false_iff%bool_decide_eq_true].
    split; [by apply bool_decide_eq_true in Ho|]. split; [done|]. by destruct (BuildOutputs_Validate b _) as [[]|].
  - apply bool_decide_eq_false in Ho. by apply dec_stable in Ho.
Qed.

(** An offline result belongs to one profile.  A result that validates
    carries the profile's own digest, complete logs within the limit under
    their digests, a real exit status and exactly the build outputs the profile
    asked for; and it validates for one profile only, or the texts of two
    profiles have one hash. *)
Theorem offline_result_exact `{Hash} r p : OfflineResult_Validate r p = Ok tt ->
  result_of r p
  /\ forall p', well_encoded (OfflineProfile_json p) = true -> well_encoded (OfflineProfile_json p') = true ->
       OfflineResult_Validate r p' = Ok tt -> p' = p \/ collision [marshal (OfflineProfile_json p); marshal (OfflineProfile_json p')].
Proof.
  intros Hv. split; [by apply offline_result_ok|]. intros p' Hw Hw' Hv'. apply offline_result_ok in Hv, Hv'.
  destruct (Profile_outputs _ _ (ro_profile _ _ Hv)) as [Hn Hd]. destruct (Profile_outputs _ _ (ro_profile _ _ Hv')) as [Hn' Hd'].
  rewrite Hd in Hd'. apply BytesDigest_binds in Hd' as [Hm|?]; [left | by right].
  apply marshal_inj in Hm; [|done..]. by rewrite <- (OfflineProfile_reads p'), <- (OfflineProfile_reads p), Hm.
Qed.

Definition sample_profile : OfflineProfile :=
  mkOfflineProfile ("sha256:" +:+ sha256_hex "image") ("sha256:" +:+ sha256_hex "guard") ["/bin/make"; "all"] 30
    (Some [mkOutputSpec "firmware.bin" 4096]).
Definition sample_outputs : BuildOutputs :=
  mkBuildOutputs (Some [mkOutputSpec "firmware.bin" 4096])
    (BytesDigest (marshal (contract_json [mkOutputSpec "firmware.bin" 4096]))) "COLLECTED" true
    (Some [mkOutputFile "firmware.bin" 3 (BytesDigest "bin") (Some "bin")]).
Definition sample_result : OfflineResult :=
  mkOfflineResult SandboxRecipe (match OfflineProfile_Digest sample_profile with Ok d => d | Err _ => "" end)
    (sha256_hex "container") 0 (Some "ok") None (BytesDigest "ok") (BytesDigest "") 1000 (Some sample_outputs).

Lemma offline_result_exact_witness : result_of sample_result sample_profile.
Proof. apply offline_result_exact. vm_compute. reflexivity. Defined.

Example sample_guard_argument :
  DecodeOutputContract (default "" (GuardArguments sample_profile !! 1)) = Ok [mkOutputSpec "firmware.bin" 4096].
Proof. vm_compute. reflexivity. Qed.
