(* ===== verification/Offline.v ===== *)
(** [internal/offline/model.go]: the permit and the receipt of one offline
    execution.

    A permit ties a token, the frozen assignment, its preparation and one
    exact profile together; the assignment must itself name the profile's
    digest and allow the action.  A receipt repeats the token and carries a
    result that validates for the permit's profile. *)
From S2P Require Import Prelude Canonical Json StrictJson Core Run Session Verification Binding WorkerQueue Preparation Control Sandbox.

Definition offline_Action : string := "worker.offline-execute".
Definition offline_Kind : string := "WORKER_ATTESTED_OFFLINE_EXECUTION".
Definition Authorized : string := "AUTHORIZED".
Definition Finished : string := "FINISHED".
Definition exec_Unknown : string := "UNKNOWN".
Definition AbandonedReconciled : string := "ABANDONED_RECONCILED".

Record OfflineStart := mkOfflineStart { ost_RunID : string; ost_WorkerProfile : string; ost_Profile : OfflineProfile }.
Record OfflinePermit := mkOfflinePermit {
  opm_Token : ExecToken; opm_Assignment : Assignment; opm_Preparation : PreparationReceipt;
  opm_Profile : OfflineProfile; opm_LeaseUntil : time
}.
Record OfflineReport := mkOfflineReport { orp_Token : ExecToken; orp_Result : OfflineResult }.
Record OfflineReceipt := mkOfflineReceipt {
  orc_Kind : string; orc_Token : ExecToken; orc_Worker : string; orc_PreparationDigest : string;
  orc_Result : OfflineResult; orc_ResultDigest : string; orc_ReceivedAt : time
}.
Record OfflineStatus := mkOfflineStatus {
  oss_Token : ExecToken; oss_State : string; oss_LeaseUntil : time; oss_Receipt : option OfflineReceipt
}.

Definition OfflinePermit_json (p : OfflinePermit) : jval := JObj
  ([("token", ExecToken_json (opm_Token p)); ("assignment", Assignment_json (opm_Assignment p));
    ("preparation", PreparationReceipt_json (opm_Preparation p)); ("profile", OfflineProfile_json (opm_Profile p))]
   ++ jtime "lease_until" (opm_LeaseUntil p)).
Definition OfflineReceipt_json (r : OfflineReceipt) : jval := JObj
  (jstr "kind" (orc_Kind r) ++ [("token", ExecToken_json (orc_Token r))] ++ jstr "worker_subject" (orc_Worker r)
   ++ jstr "preparation_digest" (orc_PreparationDigest r) ++ [("result", OfflineResult_json (orc_Result r))]
   ++ jstr "result_digest" (orc_ResultDigest r) ++ jtime "received_at" (orc_ReceivedAt r)).
Definition OfflineStatus_json (s : OfflineStatus) : jval := JObj
  ([("token", ExecToken_json (oss_Token s))] ++ jstr "state" (oss_State s) ++ jtime "lease_until" (oss_LeaseUntil s)
   ++ match oss_Receipt s with Some r => [("receipt", OfflineReceipt_json r)] | None => [] end).

Section operations.
Context `{Hash}.

(** The immutable task and run input must opt into the same exact offline profile. *)
Definition offline_CheckAssignment (a : Assignment) (p : OfflineProfile) : outcome unit :=
  d ← OfflineProfile_Digest p;
  _ ← Validate a;
  if decide (ri_ToolProfile (as_Input a) <> "offline/" +:+ d) then Err wq_ErrIdentity
  else if decide (offline_Action ∈ tc_AllowedActions (as_Task a)) then Ok tt else Err wq_ErrIdentity.

Definition OfflinePermit_Check (p : OfflinePermit) (subject : string) (request : OfflineStart) : outcome unit :=
  match OfflineProfile_Digest (opm_Profile p), OfflineProfile_Digest (ost_Profile request) with
  | Ok digest, Ok want =>
    if decide (digest <> want \/ ExecToken_Valid (opm_Token p) = false \/ xt_ProfileDigest (opm_Token p) <> digest
               \/ xt_WorkerProfile (opm_Token p) <> ost_WorkerProfile request \/ xt_RunID (opm_Token p) <> ost_RunID request
               \/ it_RunID (as_Intent (opm_Assignment p)) <> ost_RunID request
               \/ ri_WorkerProfile (as_Input (opm_Assignment p)) <> ost_WorkerProfile request
               \/ IsZero (opm_LeaseUntil p) = true)
    then Err wq_ErrIdentity else
    _ ← offline_CheckAssignment (opm_Assignment p) (opm_Profile p);
    prep_Verify (opm_Assignment p) (opm_Preparation p) (pc_Facts (opm_Preparation p)) subject
  | _, _ => Err wq_ErrIdentity
  end.

Definition OfflineReceipt_Verify (r : OfflineReceipt) (subject : string) (p : OfflinePermit) (result : OfflineResult) : outcome unit :=
  let refuse := Err (EWrap "" wq_ErrIdentity ": offline receipt mismatch") in
  match Digest (OfflineResult_json result), Digest (OfflineResult_json (orc_Result r)) with
  | Ok digest, Ok actual =>
    if decide (digest <> actual \/ orc_ResultDigest r <> digest \/ orc_Kind r <> offline_Kind \/ orc_Worker r <> subject
               \/ orc_Token r <> opm_Token p \/ orc_PreparationDigest r <> pc_FactsDigest (opm_Preparation p)
               \/ IsZero (orc_ReceivedAt r) = true \/ is_ok (OfflineResult_Validate (orc_Result r) (opm_Profile p)) = false)
    then refuse else Ok tt
  | _, _ => refuse
  end.

End operations.

Section offline.
Context `{Hash}.

Lemma CheckAssignment_ok a p : offline_CheckAssignment a p = Ok tt <->
  exists d, OfflineProfile_Digest p = Ok d /\ Validate a = Ok (validation_of a)
  /\ ri_ToolProfile (as_Input a) = "offline/" +:+ d /\ offline_Action ∈ tc_AllowedActions (as_Task a).
Proof.
  unfold offline_CheckAssignment. split.
  - intros (d & Hd & (v & Hv & Hr)%bind_ok)%bind_ok. case_decide as Ht; [done|]. case_decide; [|done].
    pose proof Hv as (_ & _ & ->)%Validate_spec. by exists d.
  - intros (d & -> & -> & Ht & Ha). cbn [mbind outcome_bind]. rewrite decide_False by tauto. by rewrite decide_True.
Qed.

(** Everything a permit ties together. *)
Record permitted (p : OfflinePermit) (subject : string) (request : OfflineStart) : Prop := {
  pm_profile : exists d, OfflineProfile_Digest (opm_Profile p) = Ok d /\ OfflineProfile_Digest (ost_Profile request) = Ok d
               /\ xt_ProfileDigest (opm_Token p) = d /\ ri_ToolProfile (as_Input (opm_Assignment p)) = "offline/" +:+ d;
  pm_run : xt_RunID (opm_Token p) = ost_RunID request /\ it_RunID (as_Intent (opm_Assignment p)) = ost_RunID request
           /\ ri_RunID (as_Input (opm_Assignment p)) = ost_RunID request;
  pm_worker : xt_WorkerProfile (opm_Token p) = ost_WorkerProfile request
              /\ ri_WorkerProfile (as_Input (opm_Assignment p)) = ost_WorkerProfile request
              /\ tk_Profile (as_Token (opm_Assignment p)) = ost_WorkerProfile request;
  pm_action : offline_Action ∈ tc_AllowedActions (as_Task (opm_Assignment p));
  pm_prepared : rc_Worker (pc_Admission (opm_Preparation p)) = subject
                /\ Facts_Check (pc_Facts (opm_Preparation p)) (opm_Assignment p) = Ok tt
                /\ Digest (Facts_json (pc_Facts (opm_Preparation p))) = Ok (pc_FactsDigest (opm_Preparation p))
}.

Lemma offline_permit_ok p subject request : OfflinePermit_Check p subject request = Ok tt -> permitted p subject request.
Proof.
  unfold OfflinePermit_Check. intros Hc.
  destruct (OfflineProfile_Digest (opm_Profile p)) as [d|] eqn:Hd; [|done].
  destruct (OfflineProfile_Digest (ost_Profile request)) as [want|] eqn:Hw; [|done].
  case_decide as Hb; [done|]. guards. apply bind_ok in Hc as ([] & (d' & Hd' & Hv & Ht & Ha)%CheckAssignment_ok & Hp).
  apply Validate_spec in Hv as ([_ _ _ Hrun _ Hprof] & _ & _). apply prep_Verify_ok in Hp as (_ & Hs & _ & Hf & Hc').
  split; [exists d; split_and!; congruence | split_and!; congruence | split_and!; congruence | done | done].
Qed.

(** One permit, one profile, one receipt.  A permit that checks ties the
    token, the run, the worker and the preparation to one exact profile which
    the frozen run input itself names; the same assignment checks for no other
    profile; and a receipt that verifies repeats the permit's token and
    preparation and carries the expected result, valid for this profile; or
    the texts of two profiles or of two results have one hash. *)
Theorem offline_permit_exact p subject request : OfflinePermit_Check p subject request = Ok tt ->
  well_encoded (OfflineProfile_json (opm_Profile p)) = true ->
  permitted p subject request
  /\ (forall q, well_encoded (OfflineProfile_json q) = true -> offline_CheckAssignment (opm_Assignment p) q = Ok tt ->
       q = opm_Profile p \/ collision [marshal (OfflineProfile_json q); marshal (OfflineProfile_json (opm_Profile p))])
  /\ (forall r result, OfflineReceipt_Verify r subject p result = Ok tt ->
       orc_Token r = opm_Token p /\ orc_Worker r = rc_Worker (pc_Admission (opm_Preparation p))
       /\ Digest (Facts_json (pc_Facts (opm_Preparation p))) = Ok (orc_PreparationDigest r)
       /\ result_of (orc_Result r) (opm_Profile p)
       /\ (well_encoded (OfflineResult_json result) = true -> well_encoded (OfflineResult_json (orc_Result r)) = true ->
           OfflineResult_json (orc_Result r) = OfflineResult_json result
           \/ collision [marshal (OfflineResult_json (orc_Result r)); marshal (OfflineResult_json result)])).
Proof.
  intros Hc Hw. apply offline_permit_ok in Hc. split; [done|]. destruct Hc as [(d & Hd & _ & _ & Ht) _ _ _ (Hs & _ & Hf)].
  split.
  - intros q Hq (d' & Hd' & _ & Ht' & _)%CheckAssignment_ok.
    assert (d' = d) as ->.
    { rewrite Ht in Ht'. cbn in Ht'. by injection Ht'. }
    destruct (Profile_outputs _ _ Hd) as [Hn Hm], (Profile_outputs _ _ Hd') as [Hn' Hm']. rewrite Hm in Hm'.
    apply BytesDigest_binds in Hm' as [Hm'|?]; [left | right; eapply collision_incl; [|done]; set_solver]. apply marshal_inj in Hm'; [|done..].
    by rewrite <- (OfflineProfile_reads q), <- Hm', OfflineProfile_reads.
  - intros r result Hr. unfold OfflineReceipt_Verify in Hr. ok_inv. guards. rewrite not_false_iff_true in *.
    destruct (OfflineResult_Validate (orc_Result r) (opm_Profile p)) as [[]|] eqn:Hv; [|done].
    apply offline_result_ok in Hv. split_and!; try congruence.
    intros Hx Hy. apply Digest_binds; [done..|]. congruence.
Qed.

End offline.

(** ** A permit *)

Definition value_of (o : outcome string) : string := match o with Ok d => d | Err _ => "" end.
Definition offline_profile_digest : string := Eval vm_compute in value_of (OfflineProfile_Digest sample_profile).
Definition offline_input : RunInputManifest :=
  mkRunInput None "run-1" sample_task_digest [] "runtime" ("offline/" +:+ offline_profile_digest) "worker-1" "policy".
Definition offline_input_digest : string := Eval vm_compute in value_of (RunInputManifest_Digest offline_input).
Definition offline_intent : Intent := mkIntent "run-1" sample_task_digest offline_input_digest 1.
Definition offline_intent_digest : string := Eval vm_compute in value_of (Intent_Digest offline_intent).
Definition offline_assignment : Assignment :=
  mkAssignment (mkToken "worker-1" 7 1 0) 100 offline_intent offline_intent_digest offline_input sample_task.
Definition offline_manifest : Manifest := mkManifest 1 offline_input_digest [].
Definition offline_bundle : string := Eval vm_compute in BytesDigest (marshal (Manifest_json offline_manifest)).
Definition offline_facts : Facts :=
  mkFacts "" "" 1 offline_intent_digest offline_input_digest sample_task_digest offline_bundle
    "0123456789abcdef0123456789abcdef01234567" "0123456789abcdef0123456789abcdef01234567" Recipe
    offline_bundle offline_bundle offline_bundle offline_manifest false false.
Definition offline_preparation : PreparationReceipt :=
  mkPreparationReceipt prep_Kind (mkReceipt (as_Token offline_assignment) "urn:worker" Validated (validation_of offline_assignment) 50)
    offline_facts (value_of (Digest (Facts_json offline_facts))) 60.
Definition offline_token : ExecToken :=
  mkExecToken "00112233445566778899aabbccddeeff00112233445566778899aabbccddeeff" "run-1" "worker-1" offline_profile_digest 0.
Definition sample_permit : OfflinePermit := mkOfflinePermit offline_token offline_assignment offline_preparation sample_profile 100.
Definition sample_start : OfflineStart := mkOfflineStart "run-1" "worker-1" sample_profile.

Lemma offline_permit_exact_witness : permitted sample_permit "urn:worker" sample_start.
Proof. apply offline_permit_exact; vm_compute; reflexivity. Defined.
