(* ===== verification/Journal.v ===== *)
(** [internal/audit/journal.go]: the hash-chained journal.

    An event's digest covers its content, its number and the digest of the
    event before it.  Journals built by [AppendInput] verify; [Verify] accepts
    exactly the chains; and the digest of the last event binds the whole
    history, so a checkpoint is evidence of everything before it. *)
From S2P Require Import Prelude Canonical Json Core Verification Binding.

(** ** The program *)

Record Event := mkEvent {
  e_Sequence : N; e_Type : string; e_AggregateType : string; e_AggregateID : string;
  e_PayloadDigest : string; e_CorrelationID : string; e_CausationID : string;
  e_PreviousDigest : string; e_Digest : string; e_CreatedAt : time
}.

Record eventContent := mkEventContent {
  ec_Sequence : N; ec_Type : string; ec_AggregateType : string; ec_AggregateID : string;
  ec_PayloadDigest : string; ec_CorrelationID : string; ec_CausationID : string; ec_PreviousDigest : string
}.

Record Input := mkInput {
  in_Type : string; in_AggregateType : string; in_AggregateID : string;
  in_PayloadDigest : string; in_CorrelationID : string; in_CausationID : string
}.

Definition eventContent_json (c : eventContent) : jval := JObj
  (jnum "sequence" (ec_Sequence c) ++ jstr "type" (ec_Type c)
   ++ jstr_omit "aggregate_type" (ec_AggregateType c) ++ jstr_omit "aggregate_id" (ec_AggregateID c)
   ++ jstr "payload_digest" (ec_PayloadDigest c)
   ++ jstr_omit "correlation_id" (ec_CorrelationID c) ++ jstr_omit "causation_id" (ec_CausationID c)
   ++ jstr_omit "previous_digest" (ec_PreviousDigest c)).

Record JournalCheckpoint := mkJournalCheckpoint {
  jc_FirstSequence : N; jc_LastSequence : N; jc_EventCount : N; jc_RootDigest : string; jc_CreatedAt : time
}.

(** [len], converted to [uint64]. *)
Definition u64_len {A} (l : list A) : N := (N.of_nat (length l) mod u64_modulus)%N.

Section journal.
Context `{Hash}.

Definition Build (sequence : N) (previousDigest : string) (input : Input) (now : time) : outcome Event :=
  if decide (sequence = 0%N) then Err (ENew "audit sequence must be greater than zero")
  else if decide (in_Type input = "") then Err (ENew "audit event type is required")
  else if decide (in_PayloadDigest input = "") then Err (ENew "audit payload digest is required")
  else
    let content := mkEventContent sequence (in_Type input) (in_AggregateType input) (in_AggregateID input)
      (in_PayloadDigest input) (in_CorrelationID input) (in_CausationID input) previousDigest in
    digest ← Digest (eventContent_json content);
    Ok (mkEvent (ec_Sequence content) (ec_Type content) (ec_AggregateType content) (ec_AggregateID content)
      (ec_PayloadDigest content) (ec_CorrelationID content) (ec_CausationID content) (ec_PreviousDigest content)
      digest now).

(** A [Journal] is its slice of events; [AppendInput] returns the event and the journal after it. *)
Definition AppendInput (j : list Event) (input : Input) (now : time) : outcome (Event * list Event) :=
  let prev := match last j with Some e => e_Digest e | None => "" end in
  event ← Build (u64_succ (u64_len j)) prev input now;
  Ok (event, j ++ [event]).

Definition Append (j : list Event) (eventType payloadDigest : string) (now : time) : outcome (Event * list Event) :=
  AppendInput j (mkInput eventType "" "" payloadDigest "" "") now.

(** [Events] returns a copy. *)
Definition Events (j : list Event) : list Event := j.

Fixpoint Verify_loop (i : N) (prev : string) (events : list Event) : outcome unit :=
  match events with
  | [] => Ok tt
  | event :: r =>
    let expectedSequence := u64_succ i in
    if decide (e_Sequence event <> expectedSequence) then Err (ENew "audit sequence mismatch")
    else if decide (e_PreviousDigest event <> prev) then Err (ENew "audit previous digest mismatch")
    else
      rebuilt ← Build (e_Sequence event) (e_PreviousDigest event)
        (mkInput (e_Type event) (e_AggregateType event) (e_AggregateID event) (e_PayloadDigest event)
           (e_CorrelationID event) (e_CausationID event)) (e_CreatedAt event);
      if decide (e_Digest rebuilt <> e_Digest event) then Err (ENew "audit digest mismatch")
      else Verify_loop (i + 1) (e_Digest event) r
  end.
Definition Verify (events : list Event) : outcome unit := Verify_loop 0 "" events.

Definition NewCheckpoint (events : list Event) (now : time) : outcome JournalCheckpoint :=
  match events, last events with
  | first :: _, Some final =>
    _ ← Verify events;
    Ok (mkJournalCheckpoint (e_Sequence first) (e_Sequence final) (u64_len events) (e_Digest final) now)
  | _, _ => Err (ENew "cannot checkpoint empty audit stream")
  end.

(** ** What a chain is *)

(** The content an event's digest covers: everything but the digest itself and
    the time stamp, which the chain does not protect. *)
Definition content (e : Event) : eventContent :=
  mkEventContent (e_Sequence e) (e_Type e) (e_AggregateType e) (e_AggregateID e) (e_PayloadDigest e)
    (e_CorrelationID e) (e_CausationID e) (e_PreviousDigest e).

Record sealed (e : Event) : Prop := {
  se_number : e_Sequence e <> 0%N;
  se_type : e_Type e <> "";
  se_payload : e_PayloadDigest e <> "";
  se_digest : Digest (eventContent_json (content e)) = Ok (e_Digest e)
}.

(** Every event is sealed, has the next number and names the digest before it. *)
Inductive chain : N -> string -> list Event -> Prop :=
| chain_nil n d : chain n d []
| chain_cons n d e l : sealed e -> e_Sequence e = (n + 1)%N -> e_PreviousDigest e = d ->
    chain (n + 1) (e_Digest e) l -> chain n d (e :: l).

Definition event_input (e : Event) : Input :=
  mkInput (e_Type e) (e_AggregateType e) (e_AggregateID e) (e_PayloadDigest e) (e_CorrelationID e) (e_CausationID e).

Lemma Build_ok n d i now e :
  Build n d i now = Ok e <->
  e_Sequence e = n /\ e_PreviousDigest e = d /\ event_input e = i /\ e_CreatedAt e = now /\ sealed e.
Proof.
  unfold Build. split.
  - intros Hb. destruct i. simpl in *. repeat case_decide; ok_inv. simpl. split_and!; try done.
  - intros (<- & <- & <- & <- & [Hn Ht Hp Hd]). destruct e. unfold content in Hd. simpl in *.
    rewrite !decide_False by done. by rewrite Hd.
Qed.

Lemma Build_event e x : Build (e_Sequence e) (e_PreviousDigest e) (event_input e) (e_CreatedAt e) = Ok x ->
  e_Digest x = e_Digest e -> x = e.
Proof. intros (? & ? & Hi & ? & _)%Build_ok ?. destruct x, e. unfold event_input in Hi. simpl in *. by simplify_eq. Qed.

Lemma Verify_loop_chain i prev l : (i + N.of_nat (length l) < u64_modulus)%N ->
  Verify_loop i prev l = Ok tt <-> chain i prev l.
Proof.
  revert i prev. induction l as [|e l IH]; intros i prev Hi; cbn [Verify_loop].
  { split; [constructor | done]. }
  cbn [length] in Hi. rewrite u64_succ_small by lia. split.
  - intros Hv. case_decide as Hs; [done|]. case_decide as Hp; [done|].
    apply bind_ok in Hv as (x & Hb & Hv). case_decide as Hd; [done|].
    pose proof (Build_event e x Hb Hd) as ->. apply Build_ok in Hb as (_ & _ & _ & _ & Hse).
    constructor; [done..|]. apply IH; [lia | done].
  - inversion 1 as [|? ? ? ? Hse Hs Hp Hc]; subst. rewrite decide_False by (by intros []).
    rewrite decide_False by (by intros []).
    rewrite (proj2 (Build_ok _ _ (event_input e) _ e)) by done.
    simpl. rewrite decide_False by (by intros []). apply IH; [lia | done].
Qed.

Lemma chain_app n d l e : chain n d (l ++ [e]) <->
  chain n d l /\ sealed e /\ e_Sequence e = (n + N.of_nat (length l) + 1)%N
  /\ e_PreviousDigest e = match last l with Some x => e_Digest x | None => d end.
Proof.
  revert n d. induction l as [|x l IH]; intros n d; cbn [app].
  - split.
    + inversion 1; subst. rewrite N.add_0_r. split_and!; try done. constructor.
    + intros (_ & ? & Hs & Hp). rewrite N.add_0_r in Hs. constructor; try done. constructor.
  - assert (match last (x :: l) with Some x => e_Digest x | None => d end
            = match last l with Some y => e_Digest y | None => e_Digest x end) as Hlast.
    { rewrite last_cons. by destruct (last l). }
    rewrite Hlast. cbn [length]. split.
    + inversion 1 as [|? ? ? ? ? ? ? Hc]; subst. apply IH in Hc as (? & ? & ? & ?). split_and!; try done; [|lia].
      by constructor.
    + intros (Hc & ? & ? & ?). inversion Hc; subst. constructor; try done. apply IH. split_and!; try done. lia.
Qed.

(** ** Properties *)

Definition eventContent_of (v : jval) : eventContent :=
  let f k := str_of (get k (fields_of v)) in
  mkEventContent (Z.to_N (num_of (get "sequence" (fields_of v)))) (f "type") (f "aggregate_type") (f "aggregate_id")
    (f "payload_digest") (f "correlation_id") (f "causation_id") (f "previous_digest").

Lemma eventContent_reads c : eventContent_of (eventContent_json c) = c.
Proof. unfold eventContent_of, eventContent_json. destruct c. f_equal; read_field. Qed.

Definition utf8_event (e : Event) : Prop := well_encoded (eventContent_json (content e)) = true.

Definition event_texts (l : list Event) : list string := (fun e => marshal (eventContent_json (content e))) <$> l.

Lemma sealed_binds e e' : utf8_event e -> utf8_event e' -> sealed e -> sealed e' -> e_Digest e = e_Digest e' ->
  content e = content e' \/ collision (event_texts [e] ++ event_texts [e']).
Proof.
  intros Hu Hu' He He' Hd. apply (read_binds eventContent_json eventContent_of id (content e) (content e')); [apply eventContent_reads|done..|].
  rewrite (se_digest e He), (se_digest e' He'). by rewrite Hd.
Qed.

Lemma chain_root_binds l l' e e' : Forall utf8_event (l ++ [e]) -> Forall utf8_event (l' ++ [e']) ->
  chain 0 "" (l ++ [e]) -> chain 0 "" (l' ++ [e']) -> e_Digest e = e_Digest e' ->
  content <$> (l ++ [e]) = content <$> (l' ++ [e']) \/ collision (event_texts (l ++ [e]) ++ event_texts (l' ++ [e'])).
Proof.
  revert l' e e'. induction l as [|x l IH] using rev_ind; intros l' e e' Hu Hu' Hc Hc' Hd;
    apply Forall_app in Hu as [Hu [Hue _]%Forall_cons]; apply Forall_app in Hu' as [Hu' [Hue' _]%Forall_cons];
    apply chain_app in Hc as (Hc & Hse & Hn & Hp); apply chain_app in Hc' as (Hc' & Hse' & Hn' & Hp');
    (destruct (sealed_binds e e' Hue Hue' Hse Hse' Hd) as [He|?];
       [|right; eapply collision_incl; [|done]; unfold event_texts; rewrite !fmap_app; set_solver]);
    assert (e_Sequence e = e_Sequence e') as Hs by (by injection He).
  - left. destruct l' as [|? ?]; [by simpl; rewrite He | cbn [length] in Hn'; cbn [length] in Hn; lia].
  - destruct l' as [|x' l2 _] using rev_ind; [rewrite length_app in Hn; cbn [length] in *; lia|].
    rewrite !last_snoc in *.
    assert (e_Digest x = e_Digest x') as Hx by (rewrite <- Hp, <- Hp'; by injection He).
    destruct (IH l2 x x' Hu Hu' Hc Hc' Hx) as [Hl|?];
      [left | right; eapply collision_incl; [|done]; unfold event_texts; rewrite !fmap_app; set_solver].
    by rewrite fmap_app, (fmap_app _ (l2 ++ [x'])), Hl; simpl; rewrite He.
Qed.

(** A call of [AppendInput] that succeeded. *)
Definition appends (j j' : list Event) : Prop := exists i now e, AppendInput j i now = Ok (e, j').

Lemma AppendInput_ok j i now e j' : AppendInput j i now = Ok (e, j') <->
  j' = j ++ [e] /\ e_Sequence e = u64_succ (u64_len j) /\ event_input e = i /\ e_CreatedAt e = now /\ sealed e
  /\ e_PreviousDigest e = match last j with Some x => e_Digest x | None => "" end.
Proof.
  unfold AppendInput. split.
  - intros (x & Hb & Hj)%bind_ok. apply Build_ok in Hb. injection Hj as <- <-. tauto.
  - intros (-> & Hn & Hi & Ht & Hs & Hp). by rewrite (proj2 (Build_ok _ _ _ _ e)) by done.
Qed.

Lemma u64_len_small {A} (l : list A) : (N.of_nat (length l) < u64_modulus)%N -> u64_len l = N.of_nat (length l).
Proof. intros. unfold u64_len. by apply N.mod_small. Qed.

Lemma append_chain j i now e j' : (N.of_nat (length j') < u64_modulus)%N ->
  AppendInput j i now = Ok (e, j') -> chain 0 "" j -> chain 0 "" j'.
Proof.
  intros Hl (-> & Hn & _ & _ & Hs & Hp)%AppendInput_ok Hc. rewrite length_app in Hl. cbn [length] in Hl.
  rewrite u64_len_small, u64_succ_small in Hn by lia. apply chain_app. split_and!; [done..|lia|done].
Qed.

(** A journal that only grew through the append methods verifies, each
    append kept what was there, and an append is refused exactly when it lacks
    a type or a payload digest. *)
Theorem journals_verify j j' : Verify j = Ok tt -> rtc appends j j' -> (N.of_nat (length j') < u64_modulus)%N ->
  Verify j' = Ok tt /\ (exists l, j' = j ++ l)
  /\ forall i now, (exists e, AppendInput j' i now = Ok (e, j' ++ [e])) <->
       (u64_succ (u64_len j') <> 0%N /\ in_Type i <> "" /\ in_PayloadDigest i <> "").
Proof.
  intros Hv Hr Hl. split.
  - apply Verify_loop_chain; [lia|]. apply Verify_loop_chain in Hv.
    + revert Hl. induction Hr as [|x y z (i & now & e & Ha) Hr IH]; [done|]. intros Hz. apply IH; [|done].
      apply (append_chain x i now e); [|done..]. eapply N.le_lt_trans; [|exact Hz].
      clear -Hr. induction Hr as [|a b c (? & ? & ? & (-> & _)%AppendInput_ok) Hr IH]; [lia|].
      rewrite length_app in IH. lia.
    + eapply N.le_lt_trans; [|exact Hl]. clear -Hr.
      induction Hr as [|a b c (? & ? & ? & (-> & _)%AppendInput_ok) Hr IH]; [lia|]. rewrite length_app in IH. lia.
  - split.
    + clear -Hr. induction Hr as [x|x y z (i & now & e & (-> & _)%AppendInput_ok) Hr [l ->]]; [exists []; by rewrite app_nil_r|].
      exists (e :: l). by rewrite <- app_assoc.
    + intros i now. split.
      * intros (e & (_ & Hn & <- & _ & [? ? ? ?] & _)%AppendInput_ok). split; [by rewrite <- Hn | done].
      * intros (Hn & Ht & Hp). unfold AppendInput, Build. rewrite !decide_False by done.
        destruct (Digest_ok (eventContent_json (mkEventContent (u64_succ (u64_len j')) (in_Type i) (in_AggregateType i)
          (in_AggregateID i) (in_PayloadDigest i) (in_CorrelationID i) (in_CausationID i)
          match last j' with Some e => e_Digest e | None => "" end))) as (d & Hd & _).
        rewrite Hd. simpl. eauto.
Qed.

(** [Verify] accepts exactly the chains: event [k] has number [k+1], names
    the digest before it and carries the digest of its own content; and a
    checkpoint exists exactly for a non-empty chain, whose first and last
    number, length and last digest it records. *)
Theorem Verify_correct events : (N.of_nat (length events) < u64_modulus)%N ->
  (Verify events = Ok tt <-> chain 0 "" events)
  /\ forall c now, NewCheckpoint events now = Ok c <->
       exists l e, events = l ++ [e] /\ chain 0 "" events
                   /\ c = mkJournalCheckpoint 1 (N.of_nat (length events)) (N.of_nat (length events)) (e_Digest e) now.
Proof.
  intros Hl. assert (Verify events = Ok tt <-> chain 0 "" events) as Hv by (apply Verify_loop_chain; lia).
  split; [done|]. intros c now. destruct events as [|x l _] using rev_ind.
  { split; [done|]. by intros ([] & ? & ? & _). }
  assert (chain 0 "" (l ++ [x]) -> e_Sequence x = N.of_nat (length (l ++ [x]))
          /\ exists f r, l ++ [x] = f :: r /\ e_Sequence f = 1%N) as Hnum.
  { intros Hc. split; [apply chain_app in Hc as (_ & _ & -> & _); rewrite length_app; simpl; lia|].
    destruct (l ++ [x]) as [|f r] eqn:E; [by destruct l|]. inversion Hc; subst. eauto. }
  assert (NewCheckpoint (l ++ [x]) now = (_ ← Verify (l ++ [x]);
            Ok (mkJournalCheckpoint (e_Sequence (hd x l)) (e_Sequence x) (N.of_nat (length (l ++ [x]))) (e_Digest x) now)))
    as ->.
  { rewrite <- (u64_len_small (l ++ [x])) by done. pose proof (last_snoc x l) as Hlast. unfold NewCheckpoint.
    destruct l as [|y l]; cbn [app] in *; by rewrite Hlast. }
  assert (e_Sequence (hd x l) = 1%N <-> exists f r, l ++ [x] = f :: r /\ e_Sequence f = 1%N) as Hhd.
  { destruct l; simpl; split; naive_solver. }
  split.
  - intros ([] & Hc%Hv & Hcp)%bind_ok. destruct (Hnum Hc) as [Hx Hf%Hhd].
    exists l, x. split; [done|]. split; [done|]. injection Hcp as <-. by rewrite Hf, Hx.
  - intros (l2 & e & Heq & Hc & ->). apply app_inj_tail in Heq as [<- <-].
    destruct (Hnum Hc) as [Hx Hf%Hhd]. rewrite (proj2 Hv Hc). simpl. by rewrite Hf, Hx.
Qed.

(** C36: The last digest of a verified journal binds the whole history: two
    verified journals of UTF-8 events with the same last digest have the same
    length and agree on every event (all but the time stamps, which no digest
    covers), or the texts of two of their events have one hash. *)
Theorem journal_tamper_evident l l' : (N.of_nat (length l) < u64_modulus)%N -> (N.of_nat (length l') < u64_modulus)%N ->
  Forall utf8_event l -> Forall utf8_event l' -> Verify l = Ok tt -> Verify l' = Ok tt ->
  l <> [] -> l' <> [] -> e_Digest <$> last l = e_Digest <$> last l' ->
  (length l = length l' /\ content <$> l = content <$> l' /\ e_Digest <$> l = e_Digest <$> l')
  \/ collision (event_texts l ++ event_texts l').
Proof.
  intros Hl Hl' Hu Hu' Hv%Verify_loop_chain Hv'%Verify_loop_chain Hn Hn' Hd; [|lia..].
  destruct l as [|e l _] using rev_ind; [done|]. destruct l' as [|e' l' _] using rev_ind; [done|].
  rewrite !last_snoc in Hd. injection Hd as Hd.
  destruct (chain_root_binds l l' e e' Hu Hu' Hv Hv' Hd) as [Hc|?]; [left | by right].
  split; [apply (f_equal length) in Hc; by rewrite !length_fmap in Hc|]. split; [done|].
  assert (forall n d k, chain n d k -> (fun c => Digest (eventContent_json c)) <$> (content <$> k) = Ok <$> (e_Digest <$> k)) as Hdig.
  { clear. induction 1 as [|n d e l Hs _ _ _ IH]; csimpl; [done|]. by rewrite IH, (se_digest e Hs). }
  apply Hdig in Hv, Hv'. rewrite Hc, Hv' in Hv. symmetry.
  eapply (list_fmap_eq_inj Ok); [by intros ? ? [=] | exact Hv].
Qed.

End journal.

Definition appended (j : list Event) (i : Input) (now : time) : list Event :=
  match AppendInput j i now with Ok (_, j') => j' | Err _ => j end.
Definition work_created : Input := mkInput "work.created" "work" "W-1" "sha256:p" "" "".
Definition run_started : Input := mkInput "run.started" "" "" "sha256:q" "c-1" "".
Definition one_event : list Event := appended [] work_created 1.
Definition two_events : list Event := appended one_event run_started 2.

Lemma journals_verify_witness : Verify two_events = Ok tt.
Proof.
  refine (proj1 (journals_verify [] two_events _ _ _)); [reflexivity | | vm_compute; reflexivity].
  eapply (rtc_l _ _ one_event); [|apply rtc_once].
  - exists work_created, 1%Z, (default (mkEvent 0 "" "" "" "" "" "" "" "" 0) (last one_event)). vm_compute. reflexivity.
  - exists run_started, 2%Z, (default (mkEvent 0 "" "" "" "" "" "" "" "" 0) (last two_events)). vm_compute. reflexivity.
Defined.

Lemma Verify_correct_witness : Verify two_events = Ok tt <-> chain 0 "" two_events.
Proof. refine (proj1 (Verify_correct two_events _)). vm_compute. reflexivity. Defined.

Lemma utf8_events l : forallb (fun e => well_encoded (eventContent_json (content e))) l = true -> Forall utf8_event l.
Proof. intros Hl. apply Forall_forall. intros e He%list_elem_of_In. by apply (proj1 (forallb_forall _ _) Hl). Qed.

Lemma journal_tamper_evident_witness :
  (length two_events = length two_events /\ content <$> two_events = content <$> two_events
   /\ e_Digest <$> two_events = e_Digest <$> two_events)
  \/ collision (event_texts two_events ++ event_texts two_events).
Proof.
  refine (journal_tamper_evident two_events two_events _ _ (utf8_events _ _) (utf8_events _ _) _ _ _ _ eq_refl);
    [vm_compute; reflexivity .. | |]; vm_compute; discriminate.
Defined.
