(* ===== verification/Review.v ===== *)
(** [internal/review/review.go]: independent review reports. *)
From S2P Require Import Prelude Canonical.

Definition ResultPass : string := "PASS".
Definition ResultFail : string := "FAIL".
Definition SeverityInfo : string := "INFO".
Definition SeverityWarning : string := "WARNING".
Definition SeverityBlocking : string := "BLOCKING".

Record Finding := mkFinding { fi_ID : string; fi_Severity : string; fi_Summary : string }.

Record ReviewReport := mkReview {
  rv_ID : string; rv_DeliveryReceiptID : string; rv_VerificationReportID : string;
  rv_TaskContractDigest : string; rv_SubjectDigest : string; rv_Reviewer : string; rv_Result : string;
  rv_Findings : list Finding; rv_KnownLimits : list string; rv_CreatedAt : time
}.

#[export] Instance Finding_eq_dec : EqDecision Finding.
Proof. solve_decision. Defined.
#[export] Instance ReviewReport_eq_dec : EqDecision ReviewReport.
Proof. solve_decision. Defined.

(** The loop over the findings: the result is the number of blocking ones. *)
Fixpoint findings_loop (l : list Finding) (seen : gset string) (blocking : nat) : outcome nat :=
  match l with
  | [] => Ok blocking
  | finding :: r =>
    if decide (bounded (fi_ID finding) 256 = false \/ bounded (fi_Summary finding) 4096 = false
               \/ fi_ID finding ∈ seen)
    then Err (ENew "invalid or duplicate review finding")
    else
      let seen' := {[fi_ID finding]} ∪ seen in
      if decide (fi_Severity finding = SeverityInfo \/ fi_Severity finding = SeverityWarning)
      then findings_loop r seen' blocking
      else if decide (fi_Severity finding = SeverityBlocking)
      then findings_loop r seen' (Nat.succ blocking)
      else Err (ENew "invalid review severity")
  end.

Definition ReviewReport_Validate (r : ReviewReport) : outcome unit :=
  if decide (bounded (rv_ID r) 256 = false \/ bounded (rv_DeliveryReceiptID r) 256 = false
             \/ bounded (rv_VerificationReportID r) 256 = false
             \/ ValidDigest (rv_TaskContractDigest r) = false \/ ValidDigest (rv_SubjectDigest r) = false
             \/ bounded (rv_Reviewer r) 256 = false
             \/ (rv_Result r <> ResultPass /\ rv_Result r <> ResultFail)
             \/ IsZero (rv_CreatedAt r) = true)
  then Err (ENew "invalid review identity")
  else if decide (64 < length (rv_Findings r) \/ 64 < length (rv_KnownLimits r))
  then Err (ENew "review collection limit exceeded")
  else
    blocking ← findings_loop (rv_Findings r) ∅ 0;
    if negb (forallb (fun limit => bounded limit 4096) (rv_KnownLimits r))
    then Err (ENew "invalid review known limit")
    else if decide (rv_Result r = ResultPass /\ blocking <> 0)
    then Err (ENew "PASS review cannot contain blocking findings")
    else if decide (rv_Result r = ResultFail /\ blocking = 0)
    then Err (ENew "FAIL review requires a blocking finding")
    else Ok tt.

Definition Finding_json (f : Finding) : jval := JObj
  (jstr "finding_id" (fi_ID f) ++ jstr "severity" (fi_Severity f) ++ jstr "summary" (fi_Summary f)).

Definition ReviewReport_json (r : ReviewReport) : jval := JObj
  (jstr "review_report_id" (rv_ID r) ++ jstr "delivery_receipt_id" (rv_DeliveryReceiptID r)
   ++ jstr "verification_report_id" (rv_VerificationReportID r)
   ++ jstr "task_contract_digest" (rv_TaskContractDigest r) ++ jstr "subject_digest" (rv_SubjectDigest r)
   ++ jstr "reviewer" (rv_Reviewer r) ++ jstr "result" (rv_Result r)
   ++ jobjs_omit "findings" (Finding_json <$> rv_Findings r)
   ++ jstrs_omit "known_limits" (rv_KnownLimits r) ++ jtime "created_at" (rv_CreatedAt r)).

Definition ReviewReport_Digest `{Hash} (r : ReviewReport) : outcome string :=
  _ ← ReviewReport_Validate r; Digest (ReviewReport_json r).

Definition blocking_findings (l : list Finding) : list Finding :=
  filter (fun f => fi_Severity f = SeverityBlocking) l.

(** ** Theorems *)

Lemma fresh_cons (x : string) l (seen : gset string) :
  NoDup (x :: l) /\ (forall y, y ∈ x :: l -> y ∉ seen) <->
  (x ∉ seen) /\ NoDup l /\ (forall y, y ∈ l -> y ∉ {[x]} ∪ seen).
Proof.
  rewrite NoDup_cons. split.
  - intros [[Hn Hd] Hx]. split_and!; [apply Hx; by left | done |]. intros y Hy [->%elem_of_singleton|Hs]%elem_of_union; [done|].
    by eapply Hx; [right|].
  - intros (Hx & Hd & Hy). split_and!; [|done|].
    + intros Hin. by eapply Hy, elem_of_union_l, elem_of_singleton.
    + intros y [->|Hin]%elem_of_cons; [done|]. intros Hs. by eapply Hy, elem_of_union_r.
Qed.

Lemma findings_loop_spec l seen b n :
  findings_loop l seen b = Ok n ->
  NoDup (fi_ID <$> l) /\ (forall x, x ∈ fi_ID <$> l -> x ∉ seen)
  /\ n = b + length (blocking_findings l)
  /\ Forall (fun f => fi_Severity f ∈ [SeverityInfo; SeverityWarning; SeverityBlocking]) l.
Proof.
  revert seen b. induction l as [|f l IH]; intros seen b; cbn [findings_loop].
  { intros [= ->]. split_and!; [constructor | set_solver | simpl; lia | constructor]. }
  intros H. unfold blocking_findings in *.
  case_decide as Hd; [done|]. guards.
  case_decide as Hs; [|case_decide as Hb; [|done]]; apply IH in H as (Hn & Hx & -> & Hf);
    rewrite fmap_cons, filter_cons;
    (assert (NoDup (fi_ID f :: (fi_ID <$> l)) /\ (forall y, y ∈ fi_ID f :: (fi_ID <$> l) -> y ∉ seen)) as [Hn' Hx']
      by by apply fresh_cons).
  - split_and!; [done | done | | constructor; [|done]].
    + rewrite decide_False; [done|]. destruct Hs as [-> | ->]; done.
    + destruct Hs as [-> | ->]; [by left | by right; left].
  - split_and!; [done | done | | constructor; [|done]].
    + rewrite decide_True by done. simpl. lia.
    + rewrite Hb. by right; right; left.
Qed.

(** An accepted review: PASS exactly when no finding is blocking. *)
Lemma ReviewReport_Validate_sound r :
  ReviewReport_Validate r = Ok tt ->
  (rv_Result r = ResultPass <-> blocking_findings (rv_Findings r) = [])
  /\ (rv_Result r = ResultPass \/ rv_Result r = ResultFail)
  /\ NoDup (fi_ID <$> rv_Findings r)
  /\ ValidDigest (rv_TaskContractDigest r) = true /\ ValidDigest (rv_SubjectDigest r) = true
  /\ rv_ID r <> "" /\ rv_Reviewer r <> "".
Proof.
  unfold ReviewReport_Validate. intros H. ok_inv. guards. apply findings_loop_spec in E as (Hn & _ & -> & _).
  assert (forall s n, bounded s n <> false -> s <> "") as Hb by (by intros ? ? ? ->).
  assert (rv_Result r = ResultPass \/ rv_Result r = ResultFail) as Hres.
  { destruct (decide (rv_Result r = ResultPass)); [by left|].
    destruct (decide (rv_Result r = ResultFail)); [by right|tauto]. }
  assert (forall b, b <> false -> b = true) as Ht by (by intros []).
  split; [|split_and!; eauto]. rewrite <- length_zero_iff_nil. simpl in *. split.
  - intros Hp. destruct (decide (length (blocking_findings (rv_Findings r)) = 0)); [done|tauto].
  - intros Hz. destruct Hres; [done|tauto].
Qed.

Lemma findings_loop_complete l seen b :
  Forall (fun f => bounded (fi_ID f) 256 = true /\ bounded (fi_Summary f) 4096 = true
    /\ fi_Severity f ∈ [SeverityInfo; SeverityWarning; SeverityBlocking]) l ->
  NoDup (fi_ID <$> l) -> (forall x, x ∈ fi_ID <$> l -> x ∉ seen) ->
  findings_loop l seen b = Ok (b + length (blocking_findings l)).
Proof.
  revert seen b. induction l as [|f l IH]; intros seen b; cbn [findings_loop]; [by rewrite Nat.add_0_r|].
  rewrite Forall_cons, fmap_cons. intros [(Hid & Hsum & Hsev) Hf] Hn Hx.
  assert ((fi_ID f ∉ seen) /\ NoDup (fi_ID <$> l) /\ (forall y, y ∈ fi_ID <$> l -> y ∉ {[fi_ID f]} ∪ seen))
    as (Hnew & Hnd & Hrest') by by apply fresh_cons.
  rewrite decide_False by (rewrite Hid, Hsum; by intros [|[|Hs]]).
  assert (forall b', findings_loop l ({[fi_ID f]} ∪ seen) b' = Ok (b' + length (blocking_findings l))) as Hrest.
  { intros b'. by apply IH. }
  unfold blocking_findings in *. rewrite filter_cons.
  case_decide as Hs; rewrite ?Hrest.
  - rewrite decide_False; [done|]. by destruct Hs as [-> | ->].
  - assert (fi_Severity f = SeverityBlocking) as Hb.
    { rewrite !elem_of_cons in Hsev. destruct Hsev as [|[|[|[]%elem_of_nil]]]; tauto. }
    rewrite !decide_True by done. f_equal. simpl. lia.
Qed.

(** ** Properties *)

(** What an acceptable review report is. *)
Record review_valid (r : ReviewReport) : Prop := {
  rvv_ids : Forall (fun s => bounded s 256 = true)
    [rv_ID r; rv_DeliveryReceiptID r; rv_VerificationReportID r; rv_Reviewer r];
  rvv_digests : ValidDigest (rv_TaskContractDigest r) = true /\ ValidDigest (rv_SubjectDigest r) = true;
  rvv_time : IsZero (rv_CreatedAt r) = false;
  rvv_sizes : length (rv_Findings r) <= 64 /\ length (rv_KnownLimits r) <= 64;
  rvv_limits : Forall (fun s => bounded s 4096 = true) (rv_KnownLimits r);
  rvv_findings : Forall (fun f => bounded (fi_ID f) 256 = true /\ bounded (fi_Summary f) 4096 = true
    /\ fi_Severity f ∈ [SeverityInfo; SeverityWarning; SeverityBlocking]) (rv_Findings r);
  rvv_distinct : NoDup (fi_ID <$> rv_Findings r);
  rvv_verdict : (rv_Result r = ResultPass /\ blocking_findings (rv_Findings r) = [])
    \/ (rv_Result r = ResultFail /\ blocking_findings (rv_Findings r) <> [])
}.

Lemma findings_loop_bounded l seen b n : findings_loop l seen b = Ok n ->
  Forall (fun f => bounded (fi_ID f) 256 = true /\ bounded (fi_Summary f) 4096 = true) l.
Proof.
  revert seen b. induction l as [|f l IH]; intros seen b; cbn [findings_loop]; [constructor|].
  case_decide as Hd; [done|]. guards. intros Hl. constructor.
  - by destruct (bounded (fi_ID f) 256), (bounded (fi_Summary f) 4096).
  - case_decide; [by eapply IH|]. case_decide; [by eapply IH | done].
Qed.

(** A review report is accepted exactly when it is well formed and its
    verdict is that of its findings: PASS with no blocking finding, or FAIL
    with at least one. *)
Theorem ReviewReport_Validate_correct r : ReviewReport_Validate r = Ok tt <-> review_valid r.
Proof.
  assert (forall b, b <> false -> b = true) as Ht by (by intros []).
  assert (forall b, b <> true -> b = false) as Hf by (by intros []).
  split.
  - intros Hv. pose proof (ReviewReport_Validate_sound r Hv) as (Hpass & Hres & Hn & Hd1 & Hd2 & _).
    unfold ReviewReport_Validate in Hv. ok_inv. guards.
    match goal with E : findings_loop _ _ _ = Ok _ |- _ =>
      pose proof (findings_loop_bounded _ _ _ _ E) as Hb; apply findings_loop_spec in E as (_ & _ & _ & Hsev) end.
    split; try done; auto; try lia.
    + repeat constructor; auto.
    + match goal with E : negb (forallb _ _) = false |- _ => apply negb_false_iff in E; rewrite forallb_forall in E;
        apply Forall_forall; intros s Hs%list_elem_of_In; by apply E end.
    + rewrite !Forall_forall in *. intros f Hin. destruct (Hb f Hin). auto.
    + destruct Hres as [Hr|Hr]; [left; tauto|]. right. split; [done|]. intros Hnil.
      apply Hpass in Hnil. rewrite Hr in Hnil. done.
  - intros [Hids [Hd1 Hd2] Ht0 [Hl1 Hl2] Hlim Hfind Hn Hverdict].
    rewrite !Forall_cons in Hids. destruct Hids as (H1 & H2 & H3 & H4 & _). unfold ReviewReport_Validate.
    rewrite H1, H2, H3, H4, Hd1, Hd2, Ht0.
    rewrite decide_False by (destruct Hverdict as [[-> _]|[-> _]]; intros [|[|[|[|[|[|[[]|]]]]]]]; done).
    rewrite decide_False by lia. rewrite findings_loop_complete by (done || set_solver). simpl.
    assert (forallb (fun limit => bounded limit 4096) (rv_KnownLimits r) = true) as ->.
    { apply forallb_forall. intros s Hs%list_elem_of_In. rewrite Forall_forall in Hlim. by apply Hlim. }
    simpl. destruct Hverdict as [[-> Hb]|[-> Hb]].
    + rewrite Hb. by rewrite !decide_False by naive_solver.
    + rewrite decide_False by naive_solver. rewrite decide_False; [done|]. by intros [_ ?%length_zero_iff_nil].
Qed.
