(* ===== verification/Material.v ===== *)
(** [internal/material/readiness.go]: material readiness, which fails closed. *)
From S2P Require Import Prelude Canonical.

Definition mat_Ready : string := "READY".
Definition mat_Blocked : string := "BLOCKED".
Definition mat_Degraded : string := "DEGRADED".

Record Manifest := mkManifest {
  mm_TaskType : string; mm_Repository : string; mm_BaseCommit : string; mm_TargetID : string;
  mm_AcceptanceCriteria : list string; mm_HasAuthoritativeLog : bool; mm_HasReproduction : bool;
  mm_RequiresDevice : bool; mm_DeviceID : string; mm_FirmwareIdentity : string;
  mm_DegradationApprovedBy : string; mm_DegradationReason : string
}.

Record MaterialResult := mkMaterialResult { ms_Status : string; ms_Reasons : list string }.

Definition isCanonicalSHA256 (v : string) : bool :=
  (str_len v =? 71)%nat && str_prefix "sha256:" v && str_forall is_lower_hex (str_drop 7 v).

Definition isFullCommit (v : string) : bool := (str_len v =? 40)%nat && str_forall is_hex v.

(** [if cond { list = append(list, reason) }]. *)
Definition add_when (cond : bool) (reason : string) : list string := if cond then [reason] else [].

Definition is_empty (s : string) : bool := bool_decide (s = "").

Definition hard_reasons (m : Manifest) : list string :=
  add_when (is_empty (mm_Repository m)) "missing repository"
  ++ add_when (negb (isFullCommit (mm_BaseCommit m))) "missing exact full commit SHA"
  ++ add_when (bool_decide (mm_AcceptanceCriteria m = [])) "missing acceptance criteria"
  ++ (if decide (to_upper (mm_TaskType m) = "DEVICE_TEST") then
        add_when (is_empty (mm_DeviceID m)) "device test requires exact device identity"
        ++ add_when (negb (isCanonicalSHA256 (mm_FirmwareIdentity m)))
             "device test requires exact firmware identity"
      else [])
  ++ add_when (mm_RequiresDevice m && is_empty (mm_DeviceID m)) "task requires exact device identity".

Definition degradable_reasons (m : Manifest) : list string :=
  if decide (to_upper (mm_TaskType m) = "DEBUG")
  then add_when (negb (mm_HasAuthoritativeLog m) && negb (mm_HasReproduction m))
         "debug requires authoritative log or reproduction"
  else [].

Definition Material_Evaluate (m : Manifest) : MaterialResult :=
  let hard := hard_reasons m in
  let degradable := degradable_reasons m in
  if decide (0 < length hard) then mkMaterialResult mat_Blocked (hard ++ degradable)
  else if decide (length degradable = 0) then mkMaterialResult mat_Ready []
  else if decide (mm_DegradationApprovedBy m <> "" /\ mm_DegradationReason m <> "")
  then mkMaterialResult mat_Degraded degradable
  else mkMaterialResult mat_Blocked (degradable ++ ["degradation requires approver and reason"]).

Definition MaterialResult_Error (r : MaterialResult) : option goerr :=
  if decide (ms_Status r = mat_Ready) then None
  else Some (ENew (ms_Status r +:+ ": " +:+ join "; " (ms_Reasons r))).

(** The material every task needs, and what a device test needs on top. *)
Record material_exact (m : Manifest) : Prop := {
  me_repository : mm_Repository m <> "";
  me_commit : str_len (mm_BaseCommit m) = 40 /\ str_forall is_hex (mm_BaseCommit m) = true;
  me_criteria : mm_AcceptanceCriteria m <> [];
  me_device : to_upper (mm_TaskType m) = "DEVICE_TEST" ->
    mm_DeviceID m <> "" /\ isCanonicalSHA256 (mm_FirmwareIdentity m) = true;
  me_required : mm_RequiresDevice m = true -> mm_DeviceID m <> ""
}.

Definition debug_observed (m : Manifest) : Prop :=
  to_upper (mm_TaskType m) = "DEBUG" -> mm_HasAuthoritativeLog m = true \/ mm_HasReproduction m = true.

(** ** Theorems *)

Lemma add_when_nil c r : add_when c r = [] <-> c = false.
Proof. by destruct c. Qed.

Lemma is_empty_false s : is_empty s = false <-> s <> "".
Proof. unfold is_empty. by rewrite bool_decide_eq_false. Qed.

Lemma hard_reasons_nil m : hard_reasons m = [] <-> material_exact m.
Proof.
  unfold hard_reasons. rewrite !app_nil, !add_when_nil, is_empty_false, negb_false_iff, bool_decide_eq_false.
  rewrite andb_false_iff, is_empty_false. unfold isFullCommit at 1. rewrite andb_true_iff, Nat.eqb_eq.
  split.
  - intros (H1 & H2 & H3 & H4 & H5). constructor; try done.
    + intros Ht. rewrite decide_True in H4 by done.
      by rewrite app_nil, !add_when_nil, is_empty_false, negb_false_iff in H4.
    + intros Hr. destruct H5 as [H5|]; [by rewrite Hr in H5 | done].
  - intros [H1 [] H3 H4 H5]. split_and!; try done.
    + case_decide as Ht; [|done]. by rewrite app_nil, !add_when_nil, is_empty_false, negb_false_iff; apply H4.
    + destruct (mm_RequiresDevice m); [right; by apply H5 | by left].
Qed.

Lemma degradable_reasons_nil m : degradable_reasons m = [] <-> debug_observed m.
Proof.
  unfold degradable_reasons, debug_observed. case_decide as Ht; [|done].
  rewrite add_when_nil, andb_false_iff, !negb_false_iff. tauto.
Qed.

Lemma Material_ready m :
  ms_Status (Material_Evaluate m) = mat_Ready <-> material_exact m /\ debug_observed m.
Proof.
  rewrite <- hard_reasons_nil, <- degradable_reasons_nil, <- !length_zero_iff_nil. unfold Material_Evaluate.
  case_decide; [split; [done|lia]|]. case_decide; [split; [lia|done]|]. case_decide; split; done || lia.
Qed.

(** The status is never BLOCKED only when the exact material is there; a missing
    observation of a debug task can be waived, by a named approver with a reason. *)
Lemma Material_not_blocked m :
  ms_Status (Material_Evaluate m) <> mat_Blocked <->
  material_exact m /\ (debug_observed m \/ (mm_DegradationApprovedBy m <> "" /\ mm_DegradationReason m <> "")).
Proof.
  rewrite <- hard_reasons_nil, <- degradable_reasons_nil, <- !length_zero_iff_nil. unfold Material_Evaluate.
  case_decide; [split; [done|lia]|]. case_decide; [split; [by split; [lia|left]|done]|].
  case_decide; simpl; (split; [|done || intros; tauto]); intros; split; try lia; auto; done.
Qed.

(** ** Properties *)

(** Material is READY exactly when the repository, the full commit, the
    acceptance criteria, and (for a device test) the device and its firmware
    are named and a debug task has a log or a reproduction; the one thing that
    can be waived, by a named approver with a reason, is that last
    observation; a status other than READY always comes with reasons. *)
Theorem Material_Evaluate_correct m :
  (ms_Status (Material_Evaluate m) = mat_Ready <-> material_exact m /\ debug_observed m)
  /\ (ms_Status (Material_Evaluate m) = mat_Degraded <->
      material_exact m /\ ~ debug_observed m /\ mm_DegradationApprovedBy m <> "" /\ mm_DegradationReason m <> "")
  /\ (ms_Status (Material_Evaluate m) = mat_Ready <-> ms_Reasons (Material_Evaluate m) = [])
  /\ (MaterialResult_Error (Material_Evaluate m) = None <-> ms_Status (Material_Evaluate m) = mat_Ready).
Proof.
  split; [apply Material_ready|]. rewrite <- hard_reasons_nil, <- degradable_reasons_nil, <- !length_zero_iff_nil.
  unfold Material_Evaluate, MaterialResult_Error. split_and!.
  - case_decide; [split; [done|lia]|]. case_decide; [split; [done|lia]|].
    case_decide as Hw; simpl; split; try done; [intros _; split_and!; [lia | lia | apply Hw..] | tauto].
  - case_decide; [|case_decide; [done|]; case_decide]; simpl; rewrite ?length_app; simpl; (split; [done|lia]).
  - case_decide; split; done.
Qed.
