(* ===== verification/Routing.v ===== *)
(** [internal/routing/router.go]: the explicit routing of tasks to
    capabilities and skills. *)
From S2P Require Import Prelude.

Record Route := mkRoute { rt_TaskType : string; rt_CapabilityIDs : list string; rt_SkillIDs : list string }.

#[export] Instance Route_eq_dec : EqDecision Route.
Proof. solve_decision. Defined.

Definition linux_family (sub : string) : bool :=
  contains "linux" sub || contains "bsp" sub || contains "storage" sub || contains "ubi" sub.
Definition mcu_family (sub : string) : bool :=
  contains "mcu" sub || contains "rtos" sub || contains "motor" sub.

Definition Resolve (taskType subsystem : string) : outcome Route :=
  let task := to_upper taskType in
  let sub := to_lower subsystem in
  if decide (task = "DEBUG") then
    if linux_family sub then
      Ok (mkRoute task ["embedded.debug-reliability"; "embedded.linux-bsp"]
            ["material-readiness"; "log-triage"; "linux-bsp-debug"])
    else if mcu_family sub then
      Ok (mkRoute task ["embedded.debug-reliability"; "embedded.mcu-rtos"]
            ["material-readiness"; "log-triage"; "mcu-rtos-debug"])
    else
      Ok (mkRoute task ["embedded.debug-reliability"] ["material-readiness"; "log-triage"])
  else if decide (task = "FEATURE" \/ task = "BRINGUP" \/ task = "COMPATIBILITY") then
    let caps := ["embedded.architecture"; "embedded.driver-component"] in
    let skills := ["material-readiness"; "architecture-impact-analysis"; "interface-contract-review";
                   "driver-integration-review"] in
    if linux_family sub then
      Ok (mkRoute task (caps ++ ["embedded.linux-bsp"]) (skills ++ ["linux-bsp-integration"]))
    else if mcu_family sub then
      Ok (mkRoute task (caps ++ ["embedded.mcu-rtos"]) (skills ++ ["mcu-rtos-integration"]))
    else Ok (mkRoute task caps skills)
  else if decide (task = "DEVICE_TEST" \/ task = "RELEASE") then
    Ok (mkRoute task ["embedded.verification"] ["material-readiness"; "verification-plan-builder"])
  else if decide (task = "PERFORMANCE" \/ task = "REFACTOR") then
    Ok (mkRoute task ["embedded.debug-reliability"; "embedded.verification"]
          ["material-readiness"; "verification-plan-builder"])
  else Err (ENew ("unsupported task type " +:+ taskType)).

Record TargetContext := mkTarget { tg_TargetID : string; tg_Platform : string }.

Definition PlatformLinuxBSP : string := "linux-bsp".
Definition PlatformMCURTOS : string := "mcu-rtos".

Definition ResolveForTarget (taskType subsystem : string) (target : option TargetContext) : outcome Route :=
  match target with
  | None => Resolve taskType subsystem
  | Some t =>
    if decide (tg_TargetID t = "" \/ 128 < str_len (tg_TargetID t)
               \/ tg_TargetID t <> trim_space (tg_TargetID t)
               \/ contains_any (bs [0; 13; 10; 9]%N) (tg_TargetID t) = true)
    then Err (ENew "target_context requires bounded exact target_id")
    else if decide (tg_Platform t <> PlatformLinuxBSP /\ tg_Platform t <> PlatformMCURTOS)
    then Err (ENew ("unsupported target_context platform " +:+ tg_Platform t))
    else
      let sub := to_lower subsystem in
      let linux := linux_family sub in
      let mcu := mcu_family sub in
      if linux && mcu then Err (ENew "ambiguous subsystem families for declared target")
      else if decide ((linux = true /\ tg_Platform t <> PlatformLinuxBSP)
                      \/ (mcu = true /\ tg_Platform t <> PlatformMCURTOS))
      then Err (ENew "subsystem conflicts with declared target platform")
      else Resolve taskType (tg_Platform t)
  end.

Definition all_routes : list (list string * list string) := [
  (["embedded.debug-reliability"; "embedded.linux-bsp"], ["material-readiness"; "log-triage"; "linux-bsp-debug"]);
  (["embedded.debug-reliability"; "embedded.mcu-rtos"], ["material-readiness"; "log-triage"; "mcu-rtos-debug"]);
  (["embedded.debug-reliability"], ["material-readiness"; "log-triage"]);
  (["embedded.architecture"; "embedded.driver-component"; "embedded.linux-bsp"],
   ["material-readiness"; "architecture-impact-analysis"; "interface-contract-review";
    "driver-integration-review"; "linux-bsp-integration"]);
  (["embedded.architecture"; "embedded.driver-component"; "embedded.mcu-rtos"],
   ["material-readiness"; "architecture-impact-analysis"; "interface-contract-review";
    "driver-integration-review"; "mcu-rtos-integration"]);
  (["embedded.architecture"; "embedded.driver-component"],
   ["material-readiness"; "architecture-impact-analysis"; "interface-contract-review";
    "driver-integration-review"]);
  (["embedded.verification"], ["material-readiness"; "verification-plan-builder"]);
  (["embedded.debug-reliability"; "embedded.verification"],
   ["material-readiness"; "verification-plan-builder"])].

(** ** Theorems *)

Lemma Resolve_routes taskType subsystem r :
  Resolve taskType subsystem = Ok r ->
  rt_TaskType r = to_upper taskType /\ (rt_CapabilityIDs r, rt_SkillIDs r) ∈ all_routes.
Proof.
  unfold Resolve. generalize (to_upper taskType). intros task H.
  ok_inv;
    (split; [done|]); apply (bool_decide_unpack _); vm_compute; exact I.
Qed.

Lemma ResolveForTarget_routes taskType subsystem t r :
  ResolveForTarget taskType subsystem t = Ok r ->
  rt_TaskType r = to_upper taskType /\ (rt_CapabilityIDs r, rt_SkillIDs r) ∈ all_routes.
Proof.
  unfold ResolveForTarget. intros H. destruct t as [t|]; [|by eapply Resolve_routes].
  ok_inv. by eapply Resolve_routes.
Qed.
