(* ===== verification/Embedded.v ===== *)
(** [internal/embedded]: the capability and skill catalog ([domain.go]) and the
    digest of the routed skill contracts ([contract_digest.go]). *)
From S2P Require Import Prelude Canonical Routing.

Record Capability := mkCapability {
  ca_ID : string; ca_Name : string; ca_Description : string; ca_SkillIDs : list string
}.

Record Skill := mkSkill {
  sk_ID : string; sk_Version : Z; sk_OwnerCapability : string; sk_Purpose : string;
  sk_InputContract : list string; sk_RequiredMaterial : list string; sk_Method : list string;
  sk_OutputContract : list string; sk_BlockConditions : list string; sk_AllowedActions : list string;
  sk_ProhibitedActions : list string; sk_EvaluationMethod : string; sk_Maturity : string
}.

#[export] Instance Skill_eq_dec : EqDecision Skill.
Proof. solve_decision. Defined.

Definition skills : list Skill := [
  {| sk_ID := "material-readiness"; sk_Version := 1; sk_OwnerCapability := "embedded.verification";
     sk_Purpose := "Validate required engineering material before formal execution.";
     sk_InputContract := ["WorkItem"; "TaskContract"; "MaterialManifest"];
     sk_RequiredMaterial := ["repository"; "full source SHA"; "acceptance criteria"];
     sk_Method := ["compare required material by task and device policy"; "emit READY/BLOCKED/approved DEGRADED with missing facts"];
     sk_OutputContract := ["material readiness result"; "missing-material reasons"];
     sk_BlockConditions := ["missing exact source"; "missing acceptance criteria"];
     sk_AllowedActions := [];
     sk_ProhibitedActions := ["invent-evidence"; "privileged-action-without-Action-Gateway"];
     sk_EvaluationMethod := "curated ready, blocked and approved-degraded scenarios";
     sk_Maturity := "DEFINED" |};
  {| sk_ID := "architecture-impact-analysis"; sk_Version := 1; sk_OwnerCapability := "embedded.architecture";
     sk_Purpose := "Analyze subsystem, interface, resource and verification impact of a change.";
     sk_InputContract := ["requirement change"; "target architecture"];
     sk_RequiredMaterial := ["source baseline"; "target identity"; "acceptance criteria"];
     sk_Method := ["trace affected components and interfaces"; "separate observed architecture from inferred dependencies"];
     sk_OutputContract := ["impact report"; "verification scope"];
     sk_BlockConditions := ["missing baseline"; "unknown ownership of affected interface"];
     sk_AllowedActions := [];
     sk_ProhibitedActions := ["invent-evidence"; "privileged-action-without-Action-Gateway"];
     sk_EvaluationMethod := "review impact against independently checked interfaces and scope";
     sk_Maturity := "DEFINED" |};
  {| sk_ID := "interface-contract-review"; sk_Version := 1; sk_OwnerCapability := "embedded.architecture";
     sk_Purpose := "Review lifecycle, compatibility, error and version contracts.";
     sk_InputContract := ["old and new interface contract"];
     sk_RequiredMaterial := ["producer and consumer identities"; "interface version"];
     sk_Method := ["compare signatures and wire lifecycle"; "identify breaking transitions and rollback risks"];
     sk_OutputContract := ["compatibility findings"; "migration requirements"];
     sk_BlockConditions := ["no producer or consumer identity"];
     sk_AllowedActions := [];
     sk_ProhibitedActions := ["invent-evidence"; "privileged-action-without-Action-Gateway"];
     sk_EvaluationMethod := "golden compatibility cases and negative lifecycle tests";
     sk_Maturity := "DEFINED" |};
  {| sk_ID := "linux-bsp-debug"; sk_Version := 1; sk_OwnerCapability := "embedded.linux-bsp";
     sk_Purpose := "Diagnose boot, kernel, storage, driver and system failures with evidence.";
     sk_InputContract := ["Linux symptoms"; "logs and kernel context"];
     sk_RequiredMaterial := ["target BSP and kernel identity"; "authoritative log or reproduction"];
     sk_Method := ["locate last observed state and subsystem layer"; "generate discriminating experiment for hypotheses"];
     sk_OutputContract := ["layer findings"; "hypothesis evidence"];
     sk_BlockConditions := ["no authoritative symptom material"];
     sk_AllowedActions := [];
     sk_ProhibitedActions := ["invent-evidence"; "privileged-action-without-Action-Gateway"];
     sk_EvaluationMethod := "replay against independent boot, UBI and kernel fixtures";
     sk_Maturity := "DEFINED" |};
  {| sk_ID := "linux-bsp-integration"; sk_Version := 1; sk_OwnerCapability := "embedded.linux-bsp";
     sk_Purpose := "Review Linux/BSP/storage/driver integration for changes and bring-up.";
     sk_InputContract := ["Linux feature or bring-up diff"];
     sk_RequiredMaterial := ["source base SHA"; "BSP and target identity"];
     sk_Method := ["check boot and driver lifecycle"; "analyze storage, resource and upgrade impact"];
     sk_OutputContract := ["integration impact"; "build and verification plan"];
     sk_BlockConditions := ["missing source base"];
     sk_AllowedActions := [];
     sk_ProhibitedActions := ["invent-evidence"; "privileged-action-without-Action-Gateway"];
     sk_EvaluationMethod := "compare cross-target build and interface regression Evidence";
     sk_Maturity := "DEFINED" |};
  {| sk_ID := "mcu-rtos-debug"; sk_Version := 1; sk_OwnerCapability := "embedded.mcu-rtos";
     sk_Purpose := "Diagnose MCU startup, ISR, memory, timing and RTOS faults.";
     sk_InputContract := ["MCU symptom and code"];
     sk_RequiredMaterial := ["firmware and target identity"; "map, register trace or reproduction"];
     sk_Method := ["separate ISR/task/timing observations from hypotheses"; "design bounded discriminating test"];
     sk_OutputContract := ["fault hypothesis registry"; "required measurements"];
     sk_BlockConditions := ["no authoritative MCU evidence"];
     sk_AllowedActions := [];
     sk_ProhibitedActions := ["invent-evidence"; "privileged-action-without-Action-Gateway"];
     sk_EvaluationMethod := "compare reproducible fault injection and restored register evidence";
     sk_Maturity := "DEFINED" |};
  {| sk_ID := "mcu-rtos-integration"; sk_Version := 1; sk_OwnerCapability := "embedded.mcu-rtos";
     sk_Purpose := "Review MCU/RTOS/control and firmware integration.";
     sk_InputContract := ["firmware change"; "build target"];
     sk_RequiredMaterial := ["target MCU and toolchain identity"; "source base SHA"];
     sk_Method := ["inspect startup/linker/ISR contracts"; "assess control timing and memory budgets"];
     sk_OutputContract := ["integration impact"; "firmware verification plan"];
     sk_BlockConditions := ["missing target or toolchain"];
     sk_AllowedActions := [];
     sk_ProhibitedActions := ["invent-evidence"; "privileged-action-without-Action-Gateway"];
     sk_EvaluationMethod := "independent ELF/map checks and target-specific build Evidence";
     sk_Maturity := "DEFINED" |};
  {| sk_ID := "driver-integration-review"; sk_Version := 1; sk_OwnerCapability := "embedded.driver-component";
     sk_Purpose := "Review component integration, lifecycle and error recovery.";
     sk_InputContract := ["driver diff"; "interface requirements"];
     sk_RequiredMaterial := ["component and target identity"; "source baseline"];
     sk_Method := ["compare init and shutdown sequences"; "trace error paths and fallback policy"];
     sk_OutputContract := ["integration findings"; "interface test scope"];
     sk_BlockConditions := ["no component interface contract"];
     sk_AllowedActions := [];
     sk_ProhibitedActions := ["invent-evidence"; "privileged-action-without-Action-Gateway"];
     sk_EvaluationMethod := "fault-path coverage and versioned interface fixtures";
     sk_Maturity := "DEFINED" |};
  {| sk_ID := "log-triage"; sk_Version := 1; sk_OwnerCapability := "embedded.debug-reliability";
     sk_Purpose := "Derive an observed timeline and evidence gaps from immutable raw logs.";
     sk_InputContract := ["raw log or trace"];
     sk_RequiredMaterial := ["log bytes"; "timebase provenance"];
     sk_Method := ["normalize without rewriting raw data"; "classify observed versus inferred events"];
     sk_OutputContract := ["timeline"; "hypothesis candidates"];
     sk_BlockConditions := ["missing raw log"];
     sk_AllowedActions := [];
     sk_ProhibitedActions := ["invent-evidence"; "privileged-action-without-Action-Gateway"];
     sk_EvaluationMethod := "lineage-checked replay with ambiguous timestamp cases";
     sk_Maturity := "DEFINED" |};
  {| sk_ID := "verification-plan-builder"; sk_Version := 1; sk_OwnerCapability := "embedded.verification";
     sk_Purpose := "Map acceptance criteria to independent engineering Evidence.";
     sk_InputContract := ["TaskContract"; "acceptance criteria"];
     sk_RequiredMaterial := ["frozen criteria"; "target identity"; "risk class"];
     sk_Method := ["map each criterion to test and issuer"; "state negative and blocked outcomes explicitly"];
     sk_OutputContract := ["VerificationPlan"; "independent Evidence requirements"];
     sk_BlockConditions := ["unverifiable acceptance criterion"];
     sk_AllowedActions := [];
     sk_ProhibitedActions := ["invent-evidence"; "privileged-action-without-Action-Gateway"];
     sk_EvaluationMethod := "plan coverage, mismatch rejection and independent verifier review";
     sk_Maturity := "DEFINED" |}].

Definition capabilities : list Capability := [
  {| ca_ID := "embedded.architecture"; ca_Name := "Embedded Architecture";
     ca_Description := "System boundaries, interfaces, compatibility and engineering impact.";
     ca_SkillIDs := ["architecture-impact-analysis"; "interface-contract-review"] |};
  {| ca_ID := "embedded.linux-bsp"; ca_Name := "Linux / BSP";
     ca_Description := "Boot, kernel, BSP, storage, driver and Linux system integration.";
     ca_SkillIDs := ["linux-bsp-debug"; "linux-bsp-integration"] |};
  {| ca_ID := "embedded.mcu-rtos"; ca_Name := "MCU / RTOS";
     ca_Description := "Startup, memory, concurrency, timing, control and MCU firmware.";
     ca_SkillIDs := ["mcu-rtos-debug"; "mcu-rtos-integration"] |};
  {| ca_ID := "embedded.driver-component"; ca_Name := "Driver / Component";
     ca_Description := "Peripheral and component integration, lifecycle and recovery.";
     ca_SkillIDs := ["driver-integration-review"] |};
  {| ca_ID := "embedded.debug-reliability"; ca_Name := "Debug / Reliability";
     ca_Description := "Evidence-driven failure analysis and regression prevention.";
     ca_SkillIDs := ["log-triage"] |};
  {| ca_ID := "embedded.verification"; ca_Name := "Verification";
     ca_Description := "Material readiness, acceptance-to-evidence planning and independent verification.";
     ca_SkillIDs := ["material-readiness"; "verification-plan-builder"] |}].

(** [Capabilities] and [Skills] return copies; a value is its own copy. *)
Definition Capabilities : list Capability := capabilities.
Definition Skills : list Skill := skills.

Definition SkillContractDigestVersion : Z := 1.

Definition Skill_json (s : Skill) : jval := JObj
  (jstr "id" (sk_ID s) ++ [("version", JNum (sk_Version s))] ++ jstr "owner_capability" (sk_OwnerCapability s)
   ++ jstr "purpose" (sk_Purpose s) ++ jstrs "input_contract" (sk_InputContract s)
   ++ jstrs "required_material" (sk_RequiredMaterial s) ++ jstrs "method" (sk_Method s)
   ++ jstrs "output_contract" (sk_OutputContract s) ++ jstrs "block_conditions" (sk_BlockConditions s)
   ++ jstrs "allowed_actions" (sk_AllowedActions s) ++ jstrs "prohibited_actions" (sk_ProhibitedActions s)
   ++ jstr "evaluation_method" (sk_EvaluationMethod s) ++ jstr "maturity" (sk_Maturity s)).

Definition skillContractSet_json (version : Z) (selected : list Skill) : jval := JObj
  ([("version", JNum version)] ++ jobjs "skills" (Skill_json <$> selected)).

Definition skill_incomplete (s : Skill) : Prop :=
  sk_ID s = "" \/ (sk_Version s <= 0)%Z \/ sk_OwnerCapability s = "" \/ sk_Purpose s = ""
  \/ sk_Maturity s = "" \/ sk_EvaluationMethod s = "" \/ sk_InputContract s = []
  \/ sk_RequiredMaterial s = [] \/ sk_Method s = [] \/ sk_OutputContract s = []
  \/ sk_BlockConditions s = [] \/ sk_ProhibitedActions s = [].
#[export] Instance skill_incomplete_dec s : Decision (skill_incomplete s).
Proof. unfold skill_incomplete. apply _. Defined.

Fixpoint known_skills (catalog : list Skill) (known : gmap string Skill) : outcome (gmap string Skill) :=
  match catalog with
  | [] => Ok known
  | skill :: r =>
    if decide (skill_incomplete skill) then Err (ENew "invalid catalog Skill contract")
    else match known !! sk_ID skill with
    | Some _ => Err (ENew ("duplicate catalog Skill " +:+ sk_ID skill))
    | None => known_skills r (<[sk_ID skill := skill]> known)
    end
  end.

Fixpoint select_skills (ids : list string) (known : gmap string Skill) (seen : gset string)
    : outcome (list Skill) :=
  match ids with
  | [] => Ok []
  | id :: r =>
    match known !! id with
    | None => Err (ENew ("unknown or repeated routed Skill " +:+ id))
    | Some skill =>
      if decide (id ∈ seen) then Err (ENew ("unknown or repeated routed Skill " +:+ id))
      else rest ← select_skills r known ({[id]} ∪ seen); Ok (skill :: rest)
    end
  end.

Section digests.
Context `{Hash}.

Definition selectedSkillContracts (ids : list string) (catalog : list Skill) : outcome (list Skill * string) :=
  if decide (length ids = 0 \/ length catalog = 0 \/ length catalog < length ids \/ 256 < length catalog)
  then Err (ENew "bounded nonempty selected Skill contract set required")
  else
    known ← known_skills catalog ∅;
    selected ← select_skills ids known ∅;
    digest ← Digest (skillContractSet_json SkillContractDigestVersion selected);
    Ok (selected, digest).

Definition digestRoutedSkills (ids : list string) (catalog : list Skill) : outcome string :=
  p ← selectedSkillContracts ids catalog; Ok p.2.

Definition RoutedSkillContractDigest (ids : list string) : outcome string := digestRoutedSkills ids Skills.
Definition RoutedSkillContracts (ids : list string) : outcome (list Skill * string) :=
  selectedSkillContracts ids Skills.

End digests.

(** ** Theorems *)

(** Every route the router can produce selects distinct skills of the catalog,
    owned by catalog capabilities. *)
Lemma routes_in_catalog :
  Forall (fun r =>
    is_ok (known ← known_skills skills ∅; select_skills r.2 known ∅) = true
    /\ 0 < length r.2 <= length skills
    /\ Forall (fun c => c ∈ ca_ID <$> capabilities) r.1) all_routes.
Proof. apply (bool_decide_unpack _). vm_compute. exact I. Qed.

Lemma catalog_skills_owned :
  Forall (fun s => exists c, c ∈ capabilities /\ ca_ID c = sk_OwnerCapability s /\ sk_ID s ∈ ca_SkillIDs c) skills
  /\ Forall (fun s => sk_AllowedActions s = [] /\ sk_Maturity s = "DEFINED") skills.
Proof.
  split; [|apply (bool_decide_unpack _); vm_compute; exact I].
  assert (Forall (fun s => Exists (fun c => ca_ID c = sk_OwnerCapability s /\ sk_ID s ∈ ca_SkillIDs c) capabilities) skills) as Hs.
  { apply (bool_decide_unpack _). vm_compute. exact I. }
  eapply Forall_impl; [exact Hs|]. intros s Hc. apply Exists_exists in Hc as (c & ? & ? & ?). eauto.
Qed.

(** ** Properties *)

Lemma select_skills_ids ids known seen l : (forall id s, known !! id = Some s -> sk_ID s = id) ->
  select_skills ids known seen = Ok l -> sk_ID <$> l = ids /\ NoDup ids /\ (forall id, id ∈ ids -> id ∉ seen).
Proof.
  intros Hk. revert seen l. induction ids as [|id ids IH]; intros seen l; simpl.
  { intros [= <-]. split_and!; [done | constructor | set_solver]. }
  destruct (known !! id) as [s|] eqn:E; [|done]. case_decide as Hs; [done|]. intros Hl. ok_inv.
  match goal with E : select_skills _ _ _ = Ok _ |- _ => apply IH in E as (<- & Hn & Hx) end.
  rewrite fmap_cons. split_and!; [by rewrite (Hk _ _ E) | constructor; [|done] | set_solver].
  intros Hin. specialize (Hx _ Hin). set_solver.
Qed.

Lemma known_skills_keys catalog known known' : (forall id s, known !! id = Some s -> sk_ID s = id) ->
  known_skills catalog known = Ok known' -> forall id s, known' !! id = Some s -> sk_ID s = id.
Proof.
  revert known. induction catalog as [|c catalog IH]; intros known Hk; simpl; [by intros [= <-]|].
  case_decide; [done|]. destruct (known !! sk_ID c) eqn:E; [done|]. apply IH.
  intros id s [[<- <-]|[_ Hs]]%lookup_insert_Some; [done | by apply Hk].
Qed.

(** Whatever the task type, the subsystem and the target, a route the
    router resolves selects distinct skills that all have complete contracts
    in the catalog, in the order of the route, and a digest of that selection:
    the handler that freezes a task never meets an invalid catalog. *)
Theorem routes_have_contracts `{Hash} taskType subsystem target r :
  ResolveForTarget taskType subsystem target = Ok r ->
  exists selected d, RoutedSkillContracts (rt_SkillIDs r) = Ok (selected, d)
    /\ sk_ID <$> selected = rt_SkillIDs r /\ NoDup (rt_SkillIDs r) /\ rt_SkillIDs r <> []
    /\ RoutedSkillContractDigest (rt_SkillIDs r) = Ok d /\ ValidDigest d = true.
Proof.
  intros [_ Hr]%ResolveForTarget_routes. pose proof routes_in_catalog as Hall. rewrite Forall_forall in Hall.
  destruct (Hall _ Hr) as (Hsel & Hlen & _). cbn [fst snd] in Hsel, Hlen.
  destruct (known_skills skills ∅) as [known|] eqn:Ek; [|done].
  change (is_ok (select_skills (rt_SkillIDs r) known ∅) = true) in Hsel.
  destruct (select_skills (rt_SkillIDs r) known ∅) as [selected|] eqn:Es; [|done].
  destruct (Digest_ok (skillContractSet_json SkillContractDigestVersion selected)) as (d & Hd & Hv).
  assert (RoutedSkillContracts (rt_SkillIDs r) = Ok (selected, d)) as Hc.
  { unfold RoutedSkillContracts, selectedSkillContracts.
    assert (length skills <= 256) by (apply Nat.leb_le; vm_compute; reflexivity).
    unfold Skills. rewrite decide_False by lia. rewrite Ek. simpl. rewrite Es. simpl. by rewrite Hd. }
  apply select_skills_ids in Es as (Hids & Hn & _).
  - exists selected, d. unfold RoutedSkillContractDigest, digestRoutedSkills. fold (RoutedSkillContracts (rt_SkillIDs r)).
    rewrite Hc. split_and!; try done. intros Hnil. rewrite Hnil in Hlen. simpl in Hlen. lia.
  - eapply known_skills_keys; [|exact Ek]. intros id s Hs. by rewrite lookup_empty in Hs.
Qed.

Lemma routes_have_contracts_witness : exists d, RoutedSkillContractDigest ["material-readiness"; "log-triage"; "linux-bsp-debug"] = Ok d.
Proof.
  destruct (ResolveForTarget "DEBUG" "linux" None) as [r|] eqn:E; [|discriminate E].
  destruct (routes_have_contracts "DEBUG" "linux" None r E) as (selected & d & _ & _ & _ & _ & Hd & _).
  exists d. injection E as <-. exact Hd.
Defined.
