(* ===== verification/Codex.v ===== *)
(** [internal/codexexec/model.go], [skill_guidance.go], [prompt_binding.go],
    with the identities they bind ([internal/provideridentity],
    [EngineeringReceipt] of [internal/runtime/codexapp], [ChangeFacts] of
    [internal/workspace]).

    One model turn is tied to one profile, one frozen assignment, one prompt
    and one transcript of its live controls: the permit before it starts, the
    result and the receipt after it ended, and the final check that publication
    and evidence import make. *)
From S2P Require Import Prelude Canonical Json StrictJson Core Run Session Verification Binding Routing Embedded WorkerQueue Preparation Control Sandbox Offline.

(** ** provideridentity *)

Definition ProviderOpenAICodex : string := "openai-codex".
Definition CredentialChatGPTSession : string := "chatgpt-session".
Definition CredentialWorkloadIdentity : string := "workload-identity".
Definition ExecutionTrustedSelfHosted : string := "trusted-self-hosted".
Definition ExecutionUnattended : string := "unattended".

Definition lines (l : list string) : string := foldr (fun s r => s +:+ line_end +:+ r) "" l.
Definition quoted (s : string) : string := dquote +:+ s +:+ dquote.

Definition openAICodexProviderContract : string :=
  lines ["version=1"; "provider=openai-codex"; "transport=codex-app-server"; "endpoint=builtin"].

Record ProviderIdentity := mkProvider {
  pi_Version : Z; pi_ProviderID : string; pi_CredentialMode : string; pi_ExecutionMode : string; pi_ConfigDigest : string
}.
#[export] Instance ProviderIdentity_eq_dec : EqDecision ProviderIdentity.
Proof. solve_decision. Defined.
Definition ProviderIdentity_json (i : ProviderIdentity) : jval := JObj
  ([("version", JNum (pi_Version i))] ++ jstr "provider_id" (pi_ProviderID i) ++ jstr "credential_mode" (pi_CredentialMode i)
   ++ jstr "execution_mode" (pi_ExecutionMode i) ++ jstr "provider_config_digest" (pi_ConfigDigest i)).

(** ** codexapp: the pinned configuration and the receipt of a turn *)

Definition engineeringConfig : string := lines [
  "cli_auth_credentials_store = " +:+ quoted "file"; "";
  "approval_policy = " +:+ quoted "never"; "sandbox_mode = " +:+ quoted "workspace-write";
  "web_search = " +:+ quoted "disabled"; "allow_login_shell = false"; "";
  "[sandbox_workspace_write]"; "network_access = false"; "";
  "[features]"; "shell_tool = true"; "view_image = false"; "standalone_web_search = false"; "web_search_request = false"; "";
  "[shell_environment_policy]"; "inherit = " +:+ quoted "none"; "";
  "[shell_environment_policy.set]"; "PATH = " +:+ quoted "/usr/local/bin:/usr/bin:/bin"; "LANG = " +:+ quoted "C.UTF-8";
  "LC_ALL = " +:+ quoted "C.UTF-8"; "TZ = " +:+ quoted "UTC"].

(** [codexVersionPattern]: three dotted numbers and an optional suffix. *)
Definition number_then (k : list ascii -> bool) (l : list ascii) : bool :=
  let '(ds, r) := take_digits l in bool_decide (ds <> []) && k r.
Definition dot_then (k : list ascii -> bool) (l : list ascii) : bool :=
  match l with c :: r => bool_decide (c = "."%char) && k r | [] => false end.
Definition version_suffix (l : list ascii) : bool :=
  match l with
  | [] => true
  | c :: r => one_of "-+" c && bool_decide (r <> []) && forallb (fun c => is_alnum c || one_of ".-" c) r
  end.
Definition ValidCodexVersion (version : string) : bool :=
  (str_len version <=? 64)%nat
  && number_then (dot_then (number_then (dot_then (number_then version_suffix)))) (bytes version).

Definition remoteID (id : string) : bool := bounded id 256.
Definition validFederationRuleID (value : string) : bool :=
  bounded value 256 && str_forall (fun c => negb (in_range 0 31 c || in_range 127 127 c)) value.
Definition MaxEngineeringHistoryItems : Z := 2048.

Record EngineeringReceipt := mkEngineeringReceipt {
  er_ProcessScope : ScopeProof; er_SchemaVersion : Z; er_CLI : string; er_Version : string; er_BinaryDigest : string;
  er_QualificationDigest : string; er_EngineeringConfigDigest : string; er_Provider : ProviderIdentity;
  er_FederationRuleID : string; er_Model : string; er_PromptDigest : string; er_ItemHistoryDigest : string;
  er_ItemHistoryCount : Z; er_ThreadID : string; er_TurnID : string; er_TurnStatus : string; er_Output : string;
  er_OutputDigest : string; er_CommandCount : Z; er_FailedCommands : Z; er_FileChangeCount : Z; er_ApprovalRequests : Z;
  er_AssertionRemoved : bool; er_BootstrapRemoved : bool
}.
Definition EngineeringReceipt_json (r : EngineeringReceipt) : jval := JObj
  ([("process_scope", ScopeProof_json (er_ProcessScope r)); ("schema_version", JNum (er_SchemaVersion r))]
   ++ jstr "cli" (er_CLI r) ++ jstr "version" (er_Version r) ++ jstr "binary_digest" (er_BinaryDigest r)
   ++ jstr "qualification_digest" (er_QualificationDigest r) ++ jstr "engineering_config_digest" (er_EngineeringConfigDigest r)
   ++ [("provider", ProviderIdentity_json (er_Provider r))] ++ jstr "federation_rule_id" (er_FederationRuleID r)
   ++ jstr "model" (er_Model r) ++ jstr "prompt_digest" (er_PromptDigest r) ++ jstr "item_history_digest" (er_ItemHistoryDigest r)
   ++ [("item_history_count", JNum (er_ItemHistoryCount r))] ++ jstr "thread_id" (er_ThreadID r) ++ jstr "turn_id" (er_TurnID r)
   ++ jstr "turn_status" (er_TurnStatus r) ++ jstr "output" (er_Output r) ++ jstr "output_digest" (er_OutputDigest r)
   ++ [("command_count", JNum (er_CommandCount r)); ("failed_commands", JNum (er_FailedCommands r));
       ("file_change_count", JNum (er_FileChangeCount r)); ("approval_requests", JNum (er_ApprovalRequests r));
       ("assertion_removed_before_turn", JBool (er_AssertionRemoved r));
       ("credential_bootstrap_removed_before_turn", JBool (er_BootstrapRemoved r))]).

(** [workspace.ChangeFacts]. *)
Definition FinalizeRecipe : string := "independent-git-finalize-v2-self-contained".
Record ChangeFacts := mkChange {
  ch_Recipe : string; ch_BaseCommit : string; ch_BaseTree : string; ch_BaseSourceDigest : string; ch_ResultCommit : string;
  ch_ResultTree : string; ch_ResultSourceDigest : string; ch_BundleDigest : string; ch_BundleSize : Z
}.
Definition ChangeFacts_json (c : ChangeFacts) : jval := JObj
  (jstr "recipe" (ch_Recipe c) ++ jstr "base_commit" (ch_BaseCommit c) ++ jstr "base_tree" (ch_BaseTree c)
   ++ jstr "base_source_digest" (ch_BaseSourceDigest c) ++ jstr "result_commit" (ch_ResultCommit c)
   ++ jstr "result_tree" (ch_ResultTree c) ++ jstr "result_source_digest" (ch_ResultSourceDigest c)
   ++ jstr "bundle_digest" (ch_BundleDigest c) ++ [("bundle_size", JNum (ch_BundleSize c))]).

Section identities.
Context `{Hash}.

Definition OpenAICodexConfigDigest : string := BytesDigest openAICodexProviderContract.
Definition providerConfigDigest (providerID : string) : string :=
  if decide (providerID = ProviderOpenAICodex) then OpenAICodexConfigDigest else "".

Definition ProviderIdentity_Validate (i : ProviderIdentity) : outcome unit :=
  if negb (bool_decide (pi_Version i = 1%Z) && bounded (pi_ProviderID i) 128 && bounded (pi_CredentialMode i) 128
           && bounded (pi_ExecutionMode i) 128 && ValidDigest (pi_ConfigDigest i))
  then Err (ENew "invalid provider identity") else
  if decide (pi_ProviderID i <> ProviderOpenAICodex \/ pi_ConfigDigest i <> OpenAICodexConfigDigest)
  then Err (ENew "provider is not qualified for Codex execution") else
  if decide (pi_CredentialMode i = CredentialChatGPTSession /\ pi_ExecutionMode i = ExecutionTrustedSelfHosted) then Ok tt
  else if decide (pi_CredentialMode i = CredentialWorkloadIdentity /\ pi_ExecutionMode i = ExecutionUnattended) then Ok tt
  else Err (ENew "provider credential/execution combination is not admitted").

Definition ProviderIdentity_New (providerID credentialMode executionMode : string) : outcome ProviderIdentity :=
  let identity := mkProvider 1 providerID credentialMode executionMode (providerConfigDigest providerID) in
  _ ← ProviderIdentity_Validate identity; Ok identity.

Definition EngineeringConfigDigest : string := BytesDigest engineeringConfig.

Definition EngineeringReceipt_Validate (r : EngineeringReceipt) : outcome unit :=
  if decide (er_SchemaVersion r <> 5%Z \/ Quiescent (er_ProcessScope r) = false \/ er_CLI r <> "codex-cli"
             \/ ValidCodexVersion (er_Version r) = false
             \/ ValidDigest (er_BinaryDigest r) = false \/ ValidDigest (er_QualificationDigest r) = false
             \/ er_EngineeringConfigDigest r <> EngineeringConfigDigest
             \/ is_ok (ProviderIdentity_Validate (er_Provider r)) = false
             \/ trim_space (er_Model r) = "" \/ 128 < str_len (er_Model r) \/ ValidDigest (er_PromptDigest r) = false
             \/ ValidDigest (er_ItemHistoryDigest r) = false \/ (er_ItemHistoryCount r <= 0)%Z
             \/ (MaxEngineeringHistoryItems < er_ItemHistoryCount r)%Z
             \/ remoteID (er_ThreadID r) = false \/ remoteID (er_TurnID r) = false \/ er_TurnStatus r <> "completed"
             \/ trim_space (er_Output r) = "" \/ (KiB 64 < blen (er_Output r))%Z
             \/ er_OutputDigest r <> BytesDigest (er_Output r) \/ (er_CommandCount r < 0)%Z
             \/ (er_FailedCommands r < 0)%Z \/ (er_CommandCount r < er_FailedCommands r)%Z \/ (er_FileChangeCount r < 0)%Z
             \/ er_ApprovalRequests r <> 0%Z)
  then Err (ENew "invalid engineering Codex receipt") else
  if decide (pi_CredentialMode (er_Provider r) = CredentialWorkloadIdentity) then
    if negb (validFederationRuleID (er_FederationRuleID r)) || negb (er_AssertionRemoved r) || er_BootstrapRemoved r
    then Err (ENew "invalid engineering workload-identity receipt") else Ok tt
  else if decide (pi_CredentialMode (er_Provider r) = CredentialChatGPTSession) then
    if bool_decide (er_FederationRuleID r <> "") || er_AssertionRemoved r || negb (er_BootstrapRemoved r)
    then Err (ENew "invalid engineering saved-login receipt") else Ok tt
  else Err (ENew "invalid engineering provider credential mode").

End identities.

(** ** model.go *)

Definition codex_Action : string := "worker.codex-execute".
Definition codex_Kind : string := "WORKER_ATTESTED_CODEX_EXECUTION".

Record CodexProfile := mkCodexProfile {
  xp_Version : Z; xp_Provider : ProviderIdentity; xp_CodexVersion : string; xp_BinaryDigest : string;
  xp_QualificationDigest : string; xp_EngineeringConfigDigest : string; xp_Model : string; xp_Sandbox : string;
  xp_ApprovalPolicy : string; xp_ToolNetwork : bool
}.
Definition CodexProfile_json (p : CodexProfile) : jval := JObj
  ([("version", JNum (xp_Version p)); ("provider", ProviderIdentity_json (xp_Provider p))]
   ++ jstr "codex_version" (xp_CodexVersion p) ++ jstr "binary_digest" (xp_BinaryDigest p)
   ++ jstr "qualification_digest" (xp_QualificationDigest p) ++ jstr "engineering_config_digest" (xp_EngineeringConfigDigest p)
   ++ jstr "model" (xp_Model p) ++ jstr "sandbox" (xp_Sandbox p) ++ jstr "approval_policy" (xp_ApprovalPolicy p)
   ++ [("tool_network", JBool (xp_ToolNetwork p))]).

Record CodexStart := mkCodexStart { xs_RunID : string; xs_WorkerProfile : string; xs_Profile : CodexProfile }.
Record CodexPermit := mkCodexPermit {
  xm_Token : ExecToken; xm_Assignment : Assignment; xm_Preparation : PreparationReceipt;
  xm_Profile : CodexProfile; xm_LeaseUntil : time
}.
Record PromptIdentity := mkPromptIdentity {
  pp_Continuation : option ContinuationRef; pp_Version : Z; pp_RunID : string; pp_TaskContractDigest : string;
  pp_RunInputDigest : string; pp_TaskType : string; pp_Repository : string; pp_BaseCommit : string; pp_TargetID : string;
  pp_CapabilityIDs : list string; pp_SkillIDs : list string; pp_SkillContractDigest : string; pp_SkillGuidanceVersion : Z;
  pp_AcceptanceCriteria : list string; pp_ExpectedOutputs : list string; pp_BundleDigest : string
}.
Record CodexResult := mkCodexResult {
  xr_ControlTranscriptDigest : string; xr_PromptIdentityDigest : string; xr_Codex : EngineeringReceipt; xr_Change : ChangeFacts
}.
Record CodexReport := mkCodexReport { xo_Token : ExecToken; xo_Result : CodexResult }.
Record CodexReceipt := mkCodexReceipt {
  xc_Kind : string; xc_Token : ExecToken; xc_Worker : string; xc_PreparationDigest : string; xc_Result : CodexResult;
  xc_ResultDigest : string; xc_ReceivedAt : time
}.
(** [ControlRuntime] of control.go. *)
Record ControlRuntime := mkRuntime {
  rn_Binding : ControlBinding; rn_State : string; rn_Transcript : option ControlTranscript; rn_Digest : string
}.
Record CodexStatus := mkCodexStatus {
  xu_SourceCheckpoint : option SourceCheckpoint; xu_Runtime : option ControlRuntime; xu_Token : ExecToken; xu_State : string;
  xu_LeaseUntil : time; xu_Receipt : option CodexReceipt
}.

Definition jopt {A} (f : A -> jval) (k : string) (o : option A) : list (string * jval) :=
  match o with Some a => [(k, f a)] | None => [] end.
Definition jint_omit (k : string) (n : Z) : list (string * jval) := if decide (n = 0%Z) then [] else [(k, JNum n)].
Definition PromptIdentity_json (p : PromptIdentity) : jval := JObj
  (jopt ContinuationRef_json "continuation" (pp_Continuation p) ++ [("version", JNum (pp_Version p))]
   ++ jstr "run_id" (pp_RunID p) ++ jstr "task_contract_digest" (pp_TaskContractDigest p)
   ++ jstr "run_input_manifest_digest" (pp_RunInputDigest p) ++ jstr "task_type" (pp_TaskType p)
   ++ jstr "repository" (pp_Repository p) ++ jstr "base_commit" (pp_BaseCommit p) ++ jstr_omit "target_id" (pp_TargetID p)
   ++ jstrs_omit "capability_ids" (pp_CapabilityIDs p) ++ jstrs_omit "skill_ids" (pp_SkillIDs p)
   ++ jstr_omit "skill_contract_digest" (pp_SkillContractDigest p) ++ jint_omit "skill_guidance_version" (pp_SkillGuidanceVersion p)
   ++ jstrs "acceptance_criteria" (pp_AcceptanceCriteria p) ++ jstrs_omit "expected_outputs" (pp_ExpectedOutputs p)
   ++ jstr "context_bundle_digest" (pp_BundleDigest p)).
Definition CodexResult_json (r : CodexResult) : jval := JObj
  (jstr_omit "control_transcript_digest" (xr_ControlTranscriptDigest r) ++ jstr "prompt_identity_digest" (xr_PromptIdentityDigest r)
   ++ [("codex", EngineeringReceipt_json (xr_Codex r)); ("change", ChangeFacts_json (xr_Change r))]).
Definition CodexReceipt_json (r : CodexReceipt) : jval := JObj
  (jstr "kind" (xc_Kind r) ++ [("token", ExecToken_json (xc_Token r))] ++ jstr "worker_subject" (xc_Worker r)
   ++ jstr "preparation_digest" (xc_PreparationDigest r) ++ [("result", CodexResult_json (xc_Result r))]
   ++ jstr "result_digest" (xc_ResultDigest r) ++ jtime "received_at" (xc_ReceivedAt r)).
Definition CodexPermit_json (p : CodexPermit) : jval := JObj
  ([("token", ExecToken_json (xm_Token p)); ("assignment", Assignment_json (xm_Assignment p));
    ("preparation", PreparationReceipt_json (xm_Preparation p)); ("profile", CodexProfile_json (xm_Profile p))]
   ++ jtime "lease_until" (xm_LeaseUntil p)).
Definition ControlRuntime_json (r : ControlRuntime) : jval := JObj
  ([("binding", ControlBinding_json (rn_Binding r))] ++ jstr "state" (rn_State r)
   ++ jopt ControlTranscript_json "transcript" (rn_Transcript r) ++ jstr_omit "transcript_digest" (rn_Digest r)).
Definition CodexStatus_json (s : CodexStatus) : jval := JObj
  (jopt SourceCheckpoint_json "source_checkpoint" (xu_SourceCheckpoint s) ++ jopt ControlRuntime_json "runtime" (xu_Runtime s)
   ++ [("token", ExecToken_json (xu_Token s))] ++ jstr "state" (xu_State s) ++ jtime "lease_until" (xu_LeaseUntil s)
   ++ jopt CodexReceipt_json "receipt" (xu_Receipt s)).

Section operations.
Context `{Hash}.

Definition CodexProfile_Validate (p : CodexProfile) : outcome unit :=
  if decide (xp_Version p <> 3%Z \/ is_ok (ProviderIdentity_Validate (xp_Provider p)) = false
             \/ ValidCodexVersion (xp_CodexVersion p) = false \/ ValidDigest (xp_BinaryDigest p) = false
             \/ ValidDigest (xp_QualificationDigest p) = false \/ xp_EngineeringConfigDigest p <> EngineeringConfigDigest
             \/ trim_space (xp_Model p) = "" \/ 128 < str_len (xp_Model p) \/ xp_Sandbox p <> "workspace-write"
             \/ xp_ApprovalPolicy p <> "never" \/ xp_ToolNetwork p = true)
  then Err wq_ErrIdentity else Ok tt.
Definition CodexProfile_Digest (p : CodexProfile) : outcome string := _ ← CodexProfile_Validate p; Digest (CodexProfile_json p).

Definition codex_CheckAssignment (a : Assignment) (p : CodexProfile) : outcome unit :=
  digest ← CodexProfile_Digest p;
  _ ← Validate a;
  if decide (ri_ToolProfile (as_Input a) <> "codex/" +:+ digest) then Err wq_ErrIdentity
  else if decide (codex_Action ∈ tc_AllowedActions (as_Task a)) then Ok tt else Err wq_ErrIdentity.

Definition CodexPermit_Check (p : CodexPermit) (subject : string) (request : CodexStart) : outcome unit :=
  match CodexProfile_Digest (xm_Profile p), CodexProfile_Digest (xs_Profile request) with
  | Ok digest, Ok want =>
    if decide (digest <> want \/ ExecToken_Valid (xm_Token p) = false \/ xt_ProfileDigest (xm_Token p) <> digest
               \/ xt_WorkerProfile (xm_Token p) <> xs_WorkerProfile request \/ xt_RunID (xm_Token p) <> xs_RunID request
               \/ it_RunID (as_Intent (xm_Assignment p)) <> xs_RunID request
               \/ ri_WorkerProfile (as_Input (xm_Assignment p)) <> xs_WorkerProfile request
               \/ IsZero (xm_LeaseUntil p) = true)
    then Err wq_ErrIdentity else
    _ ← codex_CheckAssignment (xm_Assignment p) (xm_Profile p);
    prep_Verify (xm_Assignment p) (xm_Preparation p) (pc_Facts (xm_Preparation p)) subject
  | _, _ => Err wq_ErrIdentity
  end.

Definition promptIdentity (a : Assignment) (prep : PreparationReceipt) : outcome (PromptIdentity * string) :=
  _ ← Validate a;
  if decide (is_ok (prep_Verify a prep (pc_Facts prep) (rc_Worker (pc_Admission prep))) = false
             \/ ValidDigest (fa_BundleDigest (pc_Facts prep)) = false)
  then Err wq_ErrIdentity else
  let task := as_Task a in
  let guided := bool_decide (tc_SkillGuidanceVersion task = 1%Z) in
  let identity := mkPromptIdentity (ri_Continuation (as_Input a)) 1 (it_RunID (as_Intent a)) (it_TaskDigest (as_Intent a))
    (it_InputDigest (as_Intent a)) (tc_TaskType task) (tc_Repository task) (to_lower (tc_BaseCommit task)) (tc_TargetID task)
    (tc_CapabilityIDs task) (tc_SkillIDs task) (if guided then tc_SkillContractDigest task else "")
    (if guided then tc_SkillGuidanceVersion task else 0%Z) (tc_AcceptanceCriteria task) (tc_ExpectedOutputs task)
    (fa_BundleDigest (pc_Facts prep)) in
  digest ← Digest (PromptIdentity_json identity);
  Ok (identity, digest).
Definition PromptIdentityDigest (a : Assignment) (prep : PreparationReceipt) : outcome string :=
  p ← promptIdentity a prep; Ok p.2.

(** ** skill_guidance.go *)

Definition selectedSkillsForTask (task : TaskContract) : outcome (list Skill) :=
  let refuse {A} (msg : string) : outcome A := Err (EWrap "" wq_ErrIdentity msg) in
  if decide (tc_SkillGuidanceVersion task = 0%Z) then Ok [] else
  if decide (tc_SkillGuidanceVersion task <> 1%Z) then refuse ": unknown Skill guidance delivery version" else
  if decide (ValidDigest (tc_SkillContractDigest task) = false \/ tc_TargetID task = ""
             \/ (tc_TargetPlatform task <> PlatformLinuxBSP /\ tc_TargetPlatform task <> PlatformMCURTOS))
  then refuse ": invalid typed Skill contract identity" else
  match ResolveForTarget (tc_TaskType task) "" (Some (mkTarget (tc_TargetID task) (tc_TargetPlatform task))) with
  | Err _ => refuse ": typed Task Capability/Skill route differs from frozen TargetContext"
  | Ok route =>
    if decide (tc_CapabilityIDs task <> rt_CapabilityIDs route \/ tc_SkillIDs task <> rt_SkillIDs route)
    then refuse ": typed Task Capability/Skill route differs from frozen TargetContext" else
    match RoutedSkillContracts (tc_SkillIDs task) with
    | Err e => Err (EWrap "" wq_ErrIdentity (": selected Skill methods differ from frozen Task: " +:+ error_text e))
    | Ok (skills, digest) =>
      if decide (digest <> tc_SkillContractDigest task)
      then refuse ": selected Skill methods differ from frozen Task: <nil>" else Ok skills
    end
  end.

Definition skill_methods (i : nat) (skill : Skill) : string :=
  lines [""; pretty (i + 1) +:+ ") Skill " +:+ sk_ID skill +:+ " v" +:+ pretty (sk_Version skill) +:+ " ["
             +:+ sk_OwnerCapability skill +:+ "; " +:+ sk_Maturity skill +:+ "]";
         "Purpose: " +:+ sk_Purpose skill; "Inputs: " +:+ join "; " (sk_InputContract skill);
         "Required materials: " +:+ join "; " (sk_RequiredMaterial skill); "Method: " +:+ join "; " (sk_Method skill);
         "Expected outputs: " +:+ join "; " (sk_OutputContract skill);
         "Block conditions: " +:+ join "; " (sk_BlockConditions skill);
         "Prohibited actions: " +:+ join "; " (sk_ProhibitedActions skill);
         "Evaluation method (not a result): " +:+ sk_EvaluationMethod skill].
Definition appendSelectedSkillMethods (task : TaskContract) (skills : list Skill) : string :=
  lines [""; "Selected Skill methods (contract v" +:+ pretty SkillContractDigestVersion +:+ "; frozen digest: "
             +:+ tc_SkillContractDigest task +:+ "):";
         "Use these as engineering reasoning and reporting methods, not permission to use tools.";
         "When any required material or blocking condition is unverified, state the gap and do not fabricate evidence or assert verification success.";
         "The frozen Task, approved context and existing tool/action policies remain the only execution constraints."]
  +:+ foldr (fun s r => s +:+ r) "" (imap skill_methods skills).

Definition line_if (b : bool) (s : string) : string := if b then s +:+ line_end else "".

Definition prompt_text (identity : PromptIdentity) (bundlePath : string) (guidance : string) : string :=
  lines ["You are executing one frozen embedded-software TaskContract.";
         "Modify only the current repository workspace. Do not commit, push, fetch, install packages, or use network access.";
         "Use local tools/tests as needed. Finish with a concise summary of changes and tests."; "";
         "Run: " +:+ pp_RunID identity; "Task type: " +:+ pp_TaskType identity; "Repository: " +:+ pp_Repository identity;
         "Base commit: " +:+ pp_BaseCommit identity]
  +:+ match pp_Continuation identity with
      | Some c => lines ["Explicit source continuation from stopped Run " +:+ co_SourceRunID c +:+ ", checkpoint "
                           +:+ co_CheckpointDigest c +:+ ".";
                         "The workspace includes that unfinished source. This is a NEW model turn, not replay/resume of prior model memory. Recheck ALL acceptance criteria and all source changes against the original base."]
      | None => "" end
  +:+ line_if (bool_decide (pp_TargetID identity <> "")) ("Target: " +:+ pp_TargetID identity)
  +:+ line_if (bool_decide (pp_CapabilityIDs identity <> [])) ("Capabilities: " +:+ join ", " (pp_CapabilityIDs identity))
  +:+ line_if (bool_decide (pp_SkillIDs identity <> [])) ("Skills: " +:+ join ", " (pp_SkillIDs identity))
  +:+ lines ["Approved context bundle: " +:+ bundlePath; "Context bundle digest: " +:+ pp_BundleDigest identity; "";
             "Acceptance criteria:"]
  +:+ lines (imap (fun i c => pretty (i + 1) +:+ ". " +:+ c) (pp_AcceptanceCriteria identity))
  +:+ (if decide (pp_ExpectedOutputs identity = []) then ""
       else lines ([""; "Expected outputs:"] ++ ((fun o => "- " +:+ o) <$> pp_ExpectedOutputs identity)))
  +:+ guidance.

Definition Prompt (a : Assignment) (prep : PreparationReceipt) (bundlePath : string) : outcome (string * string) :=
  if decide (trim_space bundlePath = "") then Err wq_ErrIdentity else
  selected ← selectedSkillsForTask (as_Task a);
  p ← promptIdentity a prep;
  let prompt := prompt_text p.1 bundlePath
    (if decide (pp_SkillGuidanceVersion p.1 = 1%Z) then appendSelectedSkillMethods (as_Task a) selected else "") in
  if decide (KiB 64 < blen prompt)%Z then Err (ENew "rendered Codex prompt exceeds limit") else Ok (prompt, p.2).

(** ** prompt_binding.go *)

Definition VerifyTurnPromptBinding (a : Assignment) (prep : PreparationReceipt)
    (rendered promptIdentityDigest observedPromptDigest : string) : outcome unit :=
  if decide (rendered = "" \/ (KiB 64 < blen rendered)%Z \/ utf8_valid rendered = false
             \/ ValidDigest observedPromptDigest = false)
  then Err (EWrap "" wq_ErrIdentity ": bounded rendered Codex prompt and observed digest required") else
  let refuse := Err (EWrap "" wq_ErrIdentity ": Codex turn prompt bytes/identity disagree with frozen Task") in
  match PromptIdentityDigest a prep with
  | Err _ => refuse
  | Ok expected =>
    if decide (promptIdentityDigest <> expected \/ observedPromptDigest <> BytesDigest rendered) then refuse else Ok tt
  end.

(** ** The result, its receipt and the final check *)

Definition CodexResult_Validate (r : CodexResult) (p : CodexProfile) (permit : CodexPermit) : outcome unit :=
  match CodexProfile_Digest p, PromptIdentityDigest (xm_Assignment permit) (xm_Preparation permit) with
  | Ok pd, Ok expectedPrompt =>
    let c := xr_Codex r in let f := pc_Facts (xm_Preparation permit) in
    if decide (ValidDigest (xr_ControlTranscriptDigest r) = false \/ xt_ProfileDigest (xm_Token permit) <> pd
               \/ xr_PromptIdentityDigest r <> expectedPrompt \/ is_ok (EngineeringReceipt_Validate c) = false
               \/ er_Provider c <> xp_Provider p \/ er_Version c <> xp_CodexVersion p \/ er_BinaryDigest c <> xp_BinaryDigest p
               \/ er_QualificationDigest c <> xp_QualificationDigest p
               \/ er_EngineeringConfigDigest c <> xp_EngineeringConfigDigest p \/ er_Model c <> xp_Model p
               \/ ch_Recipe (xr_Change r) <> FinalizeRecipe \/ ch_BaseCommit (xr_Change r) <> fa_BaseCommit f
               \/ ch_BaseTree (xr_Change r) <> fa_TreeCommit f \/ ch_BaseSourceDigest (xr_Change r) <> fa_SourceDigest f
               \/ ch_ResultCommit (xr_Change r) = ch_BaseCommit (xr_Change r) \/ ch_ResultTree (xr_Change r) = ch_BaseTree (xr_Change r)
               \/ ch_ResultSourceDigest (xr_Change r) = ch_BaseSourceDigest (xr_Change r)
               \/ ValidDigest (ch_ResultSourceDigest (xr_Change r)) = false \/ ValidDigest (ch_BundleDigest (xr_Change r)) = false
               \/ (ch_BundleSize (xr_Change r) <= 0)%Z)
    then Err wq_ErrIdentity else Ok tt
  | _, _ => Err wq_ErrIdentity
  end.

Definition CodexReceipt_Verify (r : CodexReceipt) (subject : string) (p : CodexPermit) (result : CodexResult) : outcome unit :=
  let refuse := Err (EWrap "" wq_ErrIdentity ": Codex receipt mismatch") in
  match Digest (CodexResult_json result), Digest (CodexResult_json (xc_Result r)) with
  | Ok digest, Ok actual =>
    if decide (digest <> actual \/ xc_ResultDigest r <> digest \/ xc_Kind r <> codex_Kind \/ xc_Worker r <> subject
               \/ xc_Token r <> xm_Token p \/ xc_PreparationDigest r <> pc_FactsDigest (xm_Preparation p)
               \/ IsZero (xc_ReceivedAt r) = true \/ is_ok (CodexResult_Validate (xc_Result r) (xm_Profile p) p) = false)
    then refuse else Ok tt
  | _, _ => refuse
  end.

Definition VerifyFinishedControls (s : CodexStatus) : outcome unit :=
  let refuse := Err (ENew "finished execution with sealed controls required") in
  match xu_Receipt s, xu_Runtime s with
  | Some receipt, Some runtime =>
    match rn_Transcript runtime with
    | Some t =>
      if decide (xu_State s <> Finished \/ xc_Token receipt <> xu_Token s \/ rn_State runtime <> "SEALED") then refuse else
      let mismatch := Err (ENew "finished result/control transcript mismatch") in
      let c := xr_Codex (xc_Result receipt) in
      match ControlTranscript_Digest t with
      | Err _ => mismatch
      | Ok digest =>
        if decide (AllowsDelivery t = false \/ cc_Binding (ct_Close t) <> rn_Binding runtime
                   \/ cb_Token (rn_Binding runtime) <> xu_Token s \/ cb_ThreadID (rn_Binding runtime) <> er_ThreadID c
                   \/ cb_TurnID (rn_Binding runtime) <> er_TurnID c \/ cc_ProcessScope (ct_Close t) <> er_ProcessScope c
                   \/ digest <> rn_Digest runtime \/ digest <> xr_ControlTranscriptDigest (xc_Result receipt))
        then mismatch else Ok tt
      end
    | None => refuse
    end
  | _, _ => refuse
  end.

End operations.

Section codex.
Context `{Hash}.

(** The two provider identities of [provideridentity]. *)
Definition OpenAIChatGPTTrustedSelfHosted : ProviderIdentity :=
  mkProvider 1 ProviderOpenAICodex CredentialChatGPTSession ExecutionTrustedSelfHosted OpenAICodexConfigDigest.
Definition OpenAIWIFUnattended : ProviderIdentity :=
  mkProvider 1 ProviderOpenAICodex CredentialWorkloadIdentity ExecutionUnattended OpenAICodexConfigDigest.

Lemma providers_admitted i : ProviderIdentity_Validate i = Ok tt <-> i = OpenAIChatGPTTrustedSelfHosted \/ i = OpenAIWIFUnattended.
Proof.
  split.
  - unfold ProviderIdentity_Validate. destruct (negb _) eqn:Hn; [done|]. apply negb_false_iff in Hn. guards.
    case_decide as Hp; [done|]. guards. case_decide as Hc1; [intros _; left | case_decide as Hc2; [intros _; right | done]];
      destruct i; simpl in *; guards; subst; done.
  - assert (ValidDigest OpenAICodexConfigDigest = true) as Hd by apply BytesDigest_ValidDigest.
    intros [->| ->]; unfold ProviderIdentity_Validate, OpenAIChatGPTTrustedSelfHosted, OpenAIWIFUnattended;
      cbn [pi_Version pi_ProviderID pi_CredentialMode pi_ExecutionMode pi_ConfigDigest];
      rewrite Hd; rewrite (decide_False (P := _ \/ _)) by (intros [?|?]; done); reflexivity.
Qed.

Lemma codex_CheckAssignment_ok a p : codex_CheckAssignment a p = Ok tt <->
  exists d, CodexProfile_Digest p = Ok d /\ Validate a = Ok (validation_of a)
  /\ ri_ToolProfile (as_Input a) = "codex/" +:+ d /\ codex_Action ∈ tc_AllowedActions (as_Task a).
Proof.
  unfold codex_CheckAssignment. split.
  - intros (d & Hd & (v & Hv & Hr)%bind_ok)%bind_ok. case_decide as Ht; [done|]. case_decide; [|done].
    pose proof Hv as (_ & _ & ->)%Validate_spec. by exists d.
  - intros (d & -> & -> & Ht & Ha). cbn [mbind outcome_bind]. rewrite decide_False by tauto. by rewrite decide_True.
Qed.

Definition ProviderIdentity_of (v : jval) : ProviderIdentity :=
  let f k := get k (fields_of v) in
  mkProvider (num_of (f "version")) (str_of (f "provider_id")) (str_of (f "credential_mode")) (str_of (f "execution_mode"))
    (str_of (f "provider_config_digest")).
Definition CodexProfile_of (v : jval) : CodexProfile :=
  let f k := get k (fields_of v) in let s k := str_of (f k) in
  mkCodexProfile (num_of (f "version")) (ProviderIdentity_of (f "provider")) (s "codex_version") (s "binary_digest")
    (s "qualification_digest") (s "engineering_config_digest") (s "model") (s "sandbox") (s "approval_policy")
    (bool_of (f "tool_network")).
Lemma CodexProfile_reads p : CodexProfile_of (CodexProfile_json p) = p.
Proof. by destruct p as [? []]. Qed.

Lemma CodexProfile_Digest_ok p d : CodexProfile_Digest p = Ok d -> CodexProfile_Validate p = Ok tt /\ Digest (CodexProfile_json p) = Ok d.
Proof. unfold CodexProfile_Digest. by intros ([] & ? & ?)%bind_ok. Qed.

(** C30: An assignment has one execution lane and one profile.  The frozen run
    input that admits a Codex turn admits no offline execution and no other
    Codex profile (or the texts of two profiles have one hash), and every admitted
    profile pins a workspace sandbox without network, no approvals, the
    platform's own configuration and one of the two admitted identities. *)
Theorem execution_lanes_exclusive a p : codex_CheckAssignment a p = Ok tt ->
  (forall q, offline_CheckAssignment a q <> Ok tt)
  /\ (forall p', well_encoded (CodexProfile_json p) = true -> well_encoded (CodexProfile_json p') = true ->
        codex_CheckAssignment a p' = Ok tt -> p' = p \/ collision [marshal (CodexProfile_json p'); marshal (CodexProfile_json p)])
  /\ (xp_Sandbox p = "workspace-write" /\ xp_ApprovalPolicy p = "never" /\ xp_ToolNetwork p = false
      /\ xp_EngineeringConfigDigest p = EngineeringConfigDigest
      /\ (xp_Provider p = OpenAIChatGPTTrustedSelfHosted \/ xp_Provider p = OpenAIWIFUnattended)).
Proof.
  intros (d & Hd & _ & Ht & _)%codex_CheckAssignment_ok. pose proof (CodexProfile_Digest_ok _ _ Hd) as [Hv Hdig]. split_and!.
  { intros q (d' & _ & _ & Ht' & _)%CheckAssignment_ok. rewrite Ht in Ht'. discriminate. }
  { intros p' Hw Hw' (d' & Hd' & _ & Ht' & _)%codex_CheckAssignment_ok. rewrite Ht in Ht'. cbn in Ht'. injection Ht' as He.
    apply CodexProfile_Digest_ok in Hd' as [_ Hd'].
    change (d = d') in He. apply (read_binds CodexProfile_json CodexProfile_of id); [apply CodexProfile_reads | done | done | congruence]. }
  all: unfold CodexProfile_Validate in Hv; case_decide; [done|]; guards; try done.
  - by apply not_true_is_false.
  - by apply providers_admitted, is_ok_unit, not_false_is_true.
Qed.

Lemma AllowsDelivery_ok t : AllowsDelivery t = true ->
  sealed t /\ cc_TurnStatus (ct_Close t) = "completed" /\ Quiescent (cc_ProcessScope (ct_Close t)) = true
  /\ Forall (fun d => pl_Kind (cd_Payload d) = ControlSteer /\ cd_State d = ControlAccepted) (ct_Deliveries t).
Proof.
  unfold AllowsDelivery. rewrite !andb_true_iff, Digest_sealed, bool_decide_eq_true, forallb_forall, <- List.Forall_forall.
  setoid_rewrite bool_decide_eq_true. tauto.
Qed.

Lemma Transcript_Digest_ok t d : ControlTranscript_Digest t = Ok d -> Digest (ControlTranscript_json t) = Ok d.
Proof. unfold ControlTranscript_Digest. case_decide; [done|]. by intros (_ & _ & Hd)%bind_ok. Qed.

(** What publication and evidence import learn from [VerifyFinishedControls]. *)
Record published (s : CodexStatus) (receipt : CodexReceipt) (runtime : ControlRuntime) (t : ControlTranscript) : Prop := {
  pu_receipt : xu_Receipt s = Some receipt;
  pu_runtime : xu_Runtime s = Some runtime;
  pu_transcript : rn_Transcript runtime = Some t;
  pu_state : xu_State s = Finished /\ rn_State runtime = "SEALED";
  pu_token : xc_Token receipt = xu_Token s /\ cb_Token (cc_Binding (ct_Close t)) = xu_Token s;
  pu_turn : cb_ThreadID (cc_Binding (ct_Close t)) = er_ThreadID (xr_Codex (xc_Result receipt))
            /\ cb_TurnID (cc_Binding (ct_Close t)) = er_TurnID (xr_Codex (xc_Result receipt))
            /\ cc_ProcessScope (ct_Close t) = er_ProcessScope (xr_Codex (xc_Result receipt));
  pu_digest : ControlTranscript_Digest t = Ok (xr_ControlTranscriptDigest (xc_Result receipt))
}.

Lemma VerifyFinished_ok s : VerifyFinishedControls s = Ok tt <->
  exists receipt runtime t, published s receipt runtime t /\ AllowsDelivery t = true
    /\ cc_Binding (ct_Close t) = rn_Binding runtime /\ rn_Digest runtime = xr_ControlTranscriptDigest (xc_Result receipt).
Proof.
  unfold VerifyFinishedControls. split.
  - destruct (xu_Receipt s) as [receipt|] eqn:Hr; [|done]. destruct (xu_Runtime s) as [runtime|] eqn:Hu; [|done].
    destruct (rn_Transcript runtime) as [t|] eqn:Ht; [|done]. case_decide; [done|].
    destruct (ControlTranscript_Digest t) as [d|] eqn:Hd; [|done]. case_decide; [done|]. intros _. guards.
    rewrite not_false_iff_true in *. exists receipt, runtime, t. split; [|split_and!; congruence].
    split; [done..| | | |]; split_and?; congruence.
  - intros (receipt & runtime & t & [-> -> -> [? ?] [? ?] (? & ? & ?) Hd] & Ha & Hb & Hn).
    rewrite decide_False by (intuition congruence). rewrite Hd, decide_False; [done|].
    rewrite <- Hb, Hn, Ha. intuition congruence.
Qed.

(** C29: What is published was finished under control.  The final check accepts
    an execution exactly when it finished with a sealed transcript of the very
    turn and process tree its receipt reports, whose digest the result
    carries; then the turn completed, its process tree is gone, every control
    sent to it was a steering it accepted, and any other transcript with the
    digest of the result has the same text, or their two texts have one
    hash. *)
Theorem finished_controls s :
  (VerifyFinishedControls s = Ok tt <->
     exists receipt runtime t, published s receipt runtime t /\ AllowsDelivery t = true
       /\ cc_Binding (ct_Close t) = rn_Binding runtime /\ rn_Digest runtime = xr_ControlTranscriptDigest (xc_Result receipt))
  /\ (VerifyFinishedControls s = Ok tt -> forall receipt runtime t, published s receipt runtime t ->
        sealed t /\ cc_TurnStatus (ct_Close t) = "completed"
        /\ Quiescent (er_ProcessScope (xr_Codex (xc_Result receipt))) = true
        /\ Forall (fun d => pl_Kind (cd_Payload d) = ControlSteer /\ cd_State d = ControlAccepted) (ct_Deliveries t)
        /\ forall t', well_encoded (ControlTranscript_json t) = true -> well_encoded (ControlTranscript_json t') = true ->
             ControlTranscript_Digest t' = Ok (xr_ControlTranscriptDigest (xc_Result receipt)) ->
             ControlTranscript_json t' = ControlTranscript_json t
             \/ collision [marshal (ControlTranscript_json t'); marshal (ControlTranscript_json t)]).
Proof.
  split; [apply VerifyFinished_ok|]. intros (r' & u' & t0 & Hp' & Ha & _)%VerifyFinished_ok receipt runtime t Hp.
  assert (t0 = t) as ->.
  { destruct Hp as [_ Hu Ht _ _ _ _], Hp' as [_ Hu' Ht' _ _ _ _]. congruence. }
  apply AllowsDelivery_ok in Ha as (Hs & Hc & Hq & Hf). destruct Hp as [_ _ _ _ _ (_ & _ & Hps) Hd].
  split_and!; [done | done | by rewrite <- Hps | done|]. intros t' Hw Hw' Hd'%Transcript_Digest_ok.
  apply Transcript_Digest_ok in Hd. apply (read_binds ControlTranscript_json id ControlTranscript_json); [done..|congruence].
Qed.

End codex.

(** ** A turn *)

Definition codex_profile : CodexProfile :=
  mkCodexProfile 3 OpenAIChatGPTTrustedSelfHosted "0.20.1" sample_task_digest sample_task_digest EngineeringConfigDigest
    "gpt-5" "workspace-write" "never" false.
Definition codex_profile_digest : string := Eval vm_compute in value_of (CodexProfile_Digest codex_profile).
Definition codex_task : TaskContract :=
  mkTaskContract "T1" "W1" "DEBUG" ["embedded.linux-bsp"] ["log-triage"] "" 0 "repo"
    "0123456789abcdef0123456789abcdef01234567" "board-1" "" ["board boots"] [codex_Action] [] "P1" "" 1.
Definition codex_task_digest : string := Eval vm_compute in value_of (TaskContract_Digest codex_task).
Definition codex_input : RunInputManifest :=
  mkRunInput None "run-1" codex_task_digest [] "runtime" ("codex/" +:+ codex_profile_digest) "worker-1" "policy".
Definition codex_input_digest : string := Eval vm_compute in value_of (RunInputManifest_Digest codex_input).
Definition codex_intent : Intent := mkIntent "run-1" codex_task_digest codex_input_digest 1.
Definition codex_intent_digest : string := Eval vm_compute in value_of (Intent_Digest codex_intent).
Definition codex_assignment : Assignment :=
  mkAssignment (mkToken "worker-1" 7 1 0) 100 codex_intent codex_intent_digest codex_input codex_task.

Lemma execution_lanes_exclusive_witness :
  codex_CheckAssignment codex_assignment codex_profile = Ok tt
  /\ forall q, offline_CheckAssignment codex_assignment q <> Ok tt.
Proof.
  assert (codex_CheckAssignment codex_assignment codex_profile = Ok tt) as Hc by (vm_compute; reflexivity).
  split; [exact Hc|]. apply (execution_lanes_exclusive _ _ Hc).
Defined.

Definition turn_receipt (d : string) : CodexReceipt :=
  mkCodexReceipt codex_Kind sample_exec_token "urn:worker" sample_task_digest
    (mkCodexResult d sample_task_digest
       (mkEngineeringReceipt sample_scope 5 "codex-cli" "0.20.1" sample_task_digest sample_task_digest EngineeringConfigDigest
          OpenAIChatGPTTrustedSelfHosted "" "gpt-5" sample_task_digest sample_task_digest 3 "thread-1" "turn-1" "completed" "done"
          (BytesDigest "done") 1 0 1 0 false true)
       (mkChange FinalizeRecipe "" "" "" "" "" "" "" 0)) sample_task_digest 60.
Definition transcript_digest : string := Eval vm_compute in value_of (ControlTranscript_Digest sample_transcript).
Definition finished_status : CodexStatus :=
  mkCodexStatus None (Some (mkRuntime sample_binding "SEALED" (Some sample_transcript) transcript_digest)) sample_exec_token
    Finished 100 (Some (turn_receipt transcript_digest)).

Lemma finished_controls_witness :
  VerifyFinishedControls finished_status = Ok tt
  /\ exists receipt runtime t, published finished_status receipt runtime t /\ AllowsDelivery t = true.
Proof.
  assert (VerifyFinishedControls finished_status = Ok tt) as Hv by (vm_compute; reflexivity).
  split; [exact Hv|]. destruct (proj1 (proj1 (finished_controls finished_status)) Hv) as (receipt & runtime & t & Hp & Ha & _).
  exists receipt, runtime, t. split; [exact Hp | exact Ha].
Defined.
