(* ===== verification/Action.v ===== *)
(** [internal/action]: external operations ([ledger.go], [model.go]) and the
    action service that executes them at most once ([service.go]).

    The service's collaborators are Go interfaces; here they are records of
    operations.  A [Repository] is described by [RepositoryLaws]: each of its
    methods is one critical section that refines an operation of the abstract
    ledger [Ledger], which [MemoryRepository] implements as it stands. *)
From S2P Require Import Prelude Effects Canonical.

(** ** ledger.go and model.go *)

Definition op_Planned : string := "PLANNED".
Definition op_Dispatched : string := "DISPATCHED".
Definition op_Confirmed : string := "CONFIRMED".
Definition op_Unknown : string := "UNKNOWN".
Definition op_Reconciling : string := "RECONCILING".
Definition op_SafeToRetry : string := "SAFE_TO_RETRY".
Definition op_Manual : string := "MANUAL".
Definition op_AbandonedReconciled : string := "ABANDONED_RECONCILED".

Definition risk_Observe : string := "OBSERVE".
Definition risk_ControlledMutation : string := "CONTROLLED_MUTATION".
Definition risk_HighRisk : string := "HIGH_RISK".

Definition ErrInvalidTransition : goerr :=
  ESentinel "action.ErrInvalidTransition" "invalid external operation transition".

Record Operation := mkOperation {
  op_ID : string; op_RunID : string; op_ExecutionEpoch : N; op_RecoveryEpoch : N;
  op_Action : string; op_RiskClass : string; op_Capability : string; op_IdempotencyKey : string;
  op_RequestDigest : string; op_State : string; op_UpdatedAt : time;
  op_ExternalRef : string; op_ObservedState : string
}.

Record Request := mkRequest {
  q_ID : string; q_RunID : string; q_ExecutionEpoch : N; q_RecoveryEpoch : N; q_Action : string;
  q_RiskClass : string; q_Capability : string; q_ParametersDigest : string; q_IdempotencyKey : string;
  q_RequestedBy : string; q_RequestedAt : time
}.

Record Receipt := mkReceipt {
  rcpt_ID : string; rcpt_RequestID : string; rcpt_OperationID : string; rcpt_Result : string;
  rcpt_ExternalRef : string; rcpt_ObservedState : string; rcpt_CreatedAt : time
}.

#[export] Instance Operation_eq_dec : EqDecision Operation.
Proof. solve_decision. Defined.

Definition NewWithRequestDigest (req : Request) (requestDigest : string) (t : time) : Operation :=
  mkOperation (q_ID req) (q_RunID req) (q_ExecutionEpoch req) (q_RecoveryEpoch req) (q_Action req)
    (q_RiskClass req) (q_Capability req) (q_IdempotencyKey req) requestDigest op_Planned t "" "".

Definition Operation_New (id runID actionName idempotencyKey : string) (t : time) : Operation :=
  NewWithRequestDigest (mkRequest id runID 0 0 actionName "" "" "" idempotencyKey "" zero_time) "" t.

Definition set_op_State (s : string) (t : time) (o : Operation) : Operation :=
  mkOperation (op_ID o) (op_RunID o) (op_ExecutionEpoch o) (op_RecoveryEpoch o) (op_Action o)
    (op_RiskClass o) (op_Capability o) (op_IdempotencyKey o) (op_RequestDigest o) s t
    (op_ExternalRef o) (op_ObservedState o).
Definition set_op_Observation (ref obs : string) (o : Operation) : Operation :=
  mkOperation (op_ID o) (op_RunID o) (op_ExecutionEpoch o) (op_RecoveryEpoch o) (op_Action o)
    (op_RiskClass o) (op_Capability o) (op_IdempotencyKey o) (op_RequestDigest o) (op_State o)
    (op_UpdatedAt o) ref obs.

Definition op_transition_valid (o : Operation) (to : string) : bool :=
  if decide (op_State o = op_Planned) then bool_decide (to = op_Dispatched)
  else if decide (op_State o = op_Dispatched) then bool_decide (to = op_Confirmed \/ to = op_Unknown)
  else if decide (op_State o = op_Unknown) then bool_decide (to = op_Reconciling)
  else if decide (op_State o = op_Reconciling) then
    bool_decide (to = op_Manual \/ (to = op_Confirmed /\ op_RiskClass o = risk_Observe))
  else false.

Definition Operation_Transition (o : Operation) (to : string) (t : time) : outcome Operation :=
  if op_transition_valid o to then Ok (set_op_State to t o) else Err ErrInvalidTransition.

Definition SameReservation (o other : Operation) : bool :=
  bool_decide (op_ID o = op_ID other /\ op_RunID o = op_RunID other
    /\ op_ExecutionEpoch o = op_ExecutionEpoch other /\ op_RecoveryEpoch o = op_RecoveryEpoch other
    /\ op_Action o = op_Action other /\ op_RiskClass o = op_RiskClass other
    /\ op_Capability o = op_Capability other /\ op_IdempotencyKey o = op_IdempotencyKey other
    /\ op_RequestDigest o = op_RequestDigest other).

(** The abstract state machine of [Transition]. *)
Inductive op_step (risk : string) : string -> string -> Prop :=
| op_dispatch : op_step risk op_Planned op_Dispatched
| op_confirm : op_step risk op_Dispatched op_Confirmed
| op_lose : op_step risk op_Dispatched op_Unknown
| op_observe : op_step risk op_Unknown op_Reconciling
| op_manual : op_step risk op_Reconciling op_Manual
| op_reconfirm : risk = risk_Observe -> op_step risk op_Reconciling op_Confirmed.

(** ** service.go: errors and outcomes *)

Definition ErrDenied : goerr := ESentinel "action.ErrDenied" "action denied".
Definition ErrOperationExists : goerr := ESentinel "action.ErrOperationExists" "operation already exists".
Definition ErrOperationAbsent : goerr := ESentinel "action.ErrOperationAbsent" "operation not found".
Definition ErrIdempotencyConflict : goerr :=
  ESentinel "action.ErrIdempotencyConflict" "idempotency key reused for different request".
Definition ErrExternalEffectUnresolved : goerr :=
  ESentinel "action.ErrExternalEffectUnresolved" "external Action effect unresolved; exact readback required".

Definition unresolvedExternalEffect (e : goerr) : goerr := EWrap2 ErrExternalEffectUnresolved e.

Record DispatchResult := mkDispatchResult { ds_Outcome : string; ds_ExternalRef : string; ds_ObservedState : string }.
Record ReconcileResult := mkReconcileResult { re_Outcome : string; re_ExternalRef : string; re_ObservedState : string }.

Definition DispatchConfirmed : string := "CONFIRMED".
Definition DispatchUnknown : string := "UNKNOWN".
Definition ReconcileConfirmed : string := "CONFIRMED".
Definition ReconcileSafeToRetry : string := "SAFE_TO_RETRY".
Definition ReconcileManual : string := "MANUAL".

(** ** service.go: the ledger and its repositories *)

Record MemoryRepository := mkLedger {
  items : gmap string Operation;
  idempotency : gmap string string
}.
Abbreviation Ledger := MemoryRepository (only parsing).

Definition NewMemoryRepository : MemoryRepository := mkLedger ∅ ∅.

Definition ledger_create (op : Operation) (r : Ledger) : outcome (unit * Ledger) :=
  match items r !! op_ID op with
  | Some _ => Err ErrOperationExists
  | None =>
    match idempotency r !! op_IdempotencyKey op with
    | Some _ => Err ErrOperationExists
    | None => Ok (tt, mkLedger (<[op_ID op := op]> (items r)) (<[op_IdempotencyKey op := op_ID op]> (idempotency r)))
    end
  end.

Definition ledger_get (id : string) (r : Ledger) : outcome Operation :=
  of_option ErrOperationAbsent (items r !! id).

Definition ledger_get_by_key (key : string) (r : Ledger) : outcome Operation :=
  match idempotency r !! key with
  | None => Err ErrOperationAbsent
  | Some id => of_option ErrOperationAbsent (items r !! id)
  end.

Definition ledger_update (op : Operation) (r : Ledger) : outcome (unit * Ledger) :=
  match items r !! op_ID op with
  | None => Err ErrOperationAbsent
  | Some original =>
    if negb (SameReservation original op) then Err ErrInvalidTransition
    else
      _ ← Operation_Transition original (op_State op) (op_UpdatedAt op);
      Ok (tt, mkLedger (<[op_ID op := op]> (items r)) (idempotency r))
  end.

Definition MemoryRepository_CreateContext (op : Operation) : M MemoryRepository unit := locked (ledger_create op).
Definition MemoryRepository_GetContext (id : string) : M MemoryRepository Operation := rlocked (ledger_get id).
Definition MemoryRepository_GetByIdempotencyKeyContext (key : string) : M MemoryRepository Operation :=
  rlocked (ledger_get_by_key key).
Definition MemoryRepository_UpdateContext (op : Operation) : M MemoryRepository unit := locked (ledger_update op).

(** ** service.go: the interfaces *)

Record Repository (S : Type) := mkRepository {
  CreateContext : Operation -> M S unit;
  GetContext : string -> M S Operation;
  GetByIdempotencyKeyContext : string -> M S Operation;
  UpdateContext : Operation -> M S unit
}.
Arguments mkRepository {_} _ _ _ _.
Arguments CreateContext {_} _ _.
Arguments GetContext {_} _ _.
Arguments GetByIdempotencyKeyContext {_} _ _.
Arguments UpdateContext {_} _ _.

(** [m] is one critical section that does [spec] to the ledger of the state,
    and [touch] to the whole of it. *)
Definition refines_write {S A} (view : S -> Ledger) (touch : S -> S -> Prop) (m : M S A)
    (spec : Ledger -> outcome (A * Ledger)) : Prop :=
  exists body, m = locked body /\
    forall s, spec (view s) = (p ← body s; Ok (p.1, view p.2))
              /\ forall a s', body s = Ok (a, s') -> touch s s'.
Definition refines_read {S A} (view : S -> Ledger) (m : M S A) (spec : Ledger -> outcome A) : Prop :=
  m = rlocked (fun s => spec (view s)).

Class RepositoryLaws {S} (view : S -> Ledger) (r : Repository S) := {
  touches : S -> S -> Prop;
  CreateContext_law op : refines_write view touches (CreateContext r op) (ledger_create op);
  GetContext_law id : refines_read view (GetContext r id) (ledger_get id);
  GetByKey_law key : refines_read view (GetByIdempotencyKeyContext r key) (ledger_get_by_key key);
  UpdateContext_law op : refines_write view touches (UpdateContext r op) (ledger_update op)
}.

Record AuthorityGuard (S : Type) := mkGuard {
  CheckRunEpoch : string -> N -> M S unit;
  CheckRecoveryEpoch : N -> string -> M S unit
}.
Arguments mkGuard {_} _ _.
Arguments CheckRunEpoch {_} _ _ _.
Arguments CheckRecoveryEpoch {_} _ _ _.

(** A provider is code outside the service: it answers, at a moment, a
    dispatch or an observation. *)
Record Provider := mkProvider {
  Dispatch : nat -> Request -> outcome DispatchResult;
  Reconcile : nat -> Operation -> outcome ReconcileResult
}.

Definition call_Dispatch {S} (p : Provider) (req : Request) : M S DispatchResult :=
  emit (EffDispatch (q_ID req) (q_IdempotencyKey req)) ;; acquire ;;
  consult (fun t => Dispatch p t req).
Definition call_Reconcile {S} (p : Provider) (op : Operation) : M S ReconcileResult :=
  emit (EffReconcile (op_ID op)) ;; acquire ;;
  consult (fun t => Reconcile p t op).

Definition MemoryRepository_repository : Repository MemoryRepository :=
  mkRepository MemoryRepository_CreateContext MemoryRepository_GetContext
    MemoryRepository_GetByIdempotencyKeyContext MemoryRepository_UpdateContext.

(** The capability map as an authorizer. *)
Definition AllowCapabilities_Authorize {S} (a : gmap string bool) (req : Request) : M S unit :=
  if default false (a !! q_Capability req) then mret tt
  else fail (ENew ("capability " +:+ quote (q_Capability req) +:+ " is not allowed")).

(** ** service.go: the service *)

Definition requestIdentity_json (req : Request) : jval := JObj
  (jstr "action_request_id" (q_ID req) ++ jstr "run_id" (q_RunID req)
   ++ jnum "execution_epoch" (q_ExecutionEpoch req) ++ jnum "recovery_epoch" (q_RecoveryEpoch req)
   ++ jstr "action" (q_Action req) ++ jstr "risk_class" (q_RiskClass req)
   ++ jstr "capability" (q_Capability req) ++ jstr "parameters_digest" (q_ParametersDigest req)
   ++ jstr "requested_by" (q_RequestedBy req)).

Definition requestDigest `{Hash} (req : Request) : outcome string := Digest (requestIdentity_json req).

Definition receiptFromOperation (requestID : string) (op : Operation) (t : time) : Receipt :=
  let requestID := if decide (requestID = "") then op_ID op else requestID in
  mkReceipt ("receipt:" +:+ op_ID op +:+ ":" +:+ op_State op) requestID (op_ID op) (op_State op)
    (op_ExternalRef op) (op_ObservedState op) t.

Section service.
Context `{Hash} {S : Type}.

Record Service := mkService {
  sv_authorizer : option (Request -> M S unit);
  sv_guard : option (AuthorityGuard S);
  sv_provider : option Provider;
  sv_repository : option (Repository S)
}.

(** What an operation found under the request's idempotency key answers. *)
Definition replay (req : Request) (existing : Operation) : M S Receipt :=
  if decide (op_State existing = op_AbandonedReconciled)
  then fail (EWrap "" ErrDenied ": abandoned external reservation has no replay authority")
  else if decide (op_State existing = op_SafeToRetry)
  then fail (EWrap "" ErrDenied ": SAFE_TO_RETRY has no independent dispatch-quiescence proof")
  else t ← now; mret (receiptFromOperation (q_ID req) existing t).

Definition settleExternalEffect (repo : Repository S) (op : Operation) : M S unit :=
  detached (UpdateContext repo op).

Definition transition_or_unresolved (op : Operation) (to : string) : M S Operation :=
  t ← now;
  match Operation_Transition op to t with
  | Ok op' => mret op'
  | Err e => fail (unresolvedExternalEffect e)
  end.

(** The [switch result.Outcome] of [Execute]. *)
Definition dispatch_verdict (op : Operation) (result : DispatchResult) : M S (Operation * DispatchResult * bool) :=
  if decide (ds_Outcome result = DispatchConfirmed) then
    op' ← transition_or_unresolved op op_Confirmed; mret (op', result, false)
  else if decide (ds_Outcome result = DispatchUnknown) then
    op' ← transition_or_unresolved op op_Unknown; mret (op', result, false)
  else
    op' ← transition_or_unresolved op op_Unknown;
    mret (op', mkDispatchResult (ds_Outcome result) "" "INVALID_PROVIDER_DISPATCH_OUTCOME", true).

(** The provider call of [Execute] and its settlement. *)
Definition dispatch_and_settle (prov : Provider) (repo : Repository S) (req : Request) (op : Operation) : M S Receipt :=
  r ← observe (call_Dispatch prov req);
  match r with
  | Err _ =>
    op' ← transition_or_unresolved op op_Unknown;
    try_else (settleExternalEffect repo op')
      (fun x => fail (unresolvedExternalEffect (EWrap "cannot persist UNKNOWN external operation: " x "")))
      (fun _ => t ← now; mret (receiptFromOperation (q_ID req) op' t))
  | Ok result =>
    '(op', result', invalid) ← dispatch_verdict op result;
    let op'' := set_op_Observation (ds_ExternalRef result') (ds_ObservedState result') op' in
    try_else (settleExternalEffect repo op'')
      (fun x => fail (unresolvedExternalEffect x))
      (fun _ =>
        if (invalid : bool) then fail (unresolvedExternalEffect
          (ENew "unsupported provider dispatch outcome; durable reconciliation required"))
        else t ← now; mret (receiptFromOperation (q_ID req) op'' t))
  end.

(** [Execute] once the idempotency key is known to be unused. *)
Definition execute_absent (auth : Request -> M S unit) (guard : AuthorityGuard S) (prov : Provider)
    (repo : Repository S) (req : Request) (digest : string) : M S Receipt :=
  poll ;;
  try_else (auth req) (fun x => fail (EWrap "" ErrDenied (": " +:+ error_text x))) (fun _ =>
  poll ;;
  CheckRunEpoch guard (q_RunID req) (q_ExecutionEpoch req) ;;
  poll ;;
  CheckRecoveryEpoch guard (q_RecoveryEpoch req) (q_RiskClass req) ;;
  poll ;;
  t ← now;
  let op := NewWithRequestDigest req digest t in
  try_else (CreateContext repo op)
    (fun x =>
      if errors_is x ErrOperationExists then
        again ← observe (GetByIdempotencyKeyContext repo (q_IdempotencyKey req));
        match again with
        | Ok existing => if decide (op_RequestDigest existing = digest) then replay req existing else fail x
        | Err _ => fail x
        end
      else fail x)
    (fun _ =>
      poll ;;
      op' ← lift (Operation_Transition op op_Dispatched t);
      UpdateContext repo op' ;;
      poll ;;
      dispatch_and_settle prov repo req op')).

Definition Service_Execute (s : Service) (req : Request) : M S Receipt :=
  match sv_authorizer s, sv_guard s, sv_provider s, sv_repository s with
  | Some auth, Some guard, Some prov, Some repo =>
    if decide (q_IdempotencyKey req = "") then fail (ENew "idempotency key is required")
    else
      poll ;;
      digest ← lift (requestDigest req);
      found ← observe (GetByIdempotencyKeyContext repo (q_IdempotencyKey req));
      match found with
      | Ok existing =>
        if decide (op_RequestDigest existing <> digest) then fail ErrIdempotencyConflict
        else replay req existing
      | Err x =>
        if errors_is x ErrOperationAbsent then execute_absent auth guard prov repo req digest
        else fail x
      end
  | _, _, _, _ => fail (ENew "action service is not fully configured")
  end.

Definition Service_GetContext (s : Service) (operationID : string) : M S Operation :=
  match sv_repository s with
  | Some repo => poll ;; GetContext repo operationID
  | None => fail (ENew "action service repository is not configured")
  end.

(** The [switch result.Outcome] of [Reconcile]. *)
Definition reconcile_verdict (op : Operation) (result : ReconcileResult) : M S (Operation * ReconcileResult * bool) :=
  if decide (re_Outcome result = ReconcileConfirmed) then
    if decide (op_RiskClass op = risk_Observe) then
      op' ← transition_or_unresolved op op_Confirmed; mret (op', result, false)
    else
      op' ← transition_or_unresolved op op_Manual;
      mret (op', mkReconcileResult (re_Outcome result) "" "UNQUALIFIED_CONFIRMATION_VERDICT", true)
  else if decide (re_Outcome result = ReconcileSafeToRetry) then
    op' ← transition_or_unresolved op op_Manual;
    mret (op', mkReconcileResult (re_Outcome result) "" "UNQUALIFIED_RETRY_VERDICT", true)
  else if decide (re_Outcome result = ReconcileManual) then
    op' ← transition_or_unresolved op op_Manual; mret (op', result, false)
  else
    op' ← transition_or_unresolved op op_Manual;
    mret (op', mkReconcileResult (re_Outcome result) "" "INVALID_PROVIDER_RECONCILE_OUTCOME", true).

(** The observation of [Reconcile] and its settlement. *)
Definition observe_and_settle (prov : Provider) (repo : Repository S) (op : Operation) : M S Receipt :=
  r ← observe (call_Reconcile prov op);
  match r with
  | Err _ =>
    t ← now;
    let op' := set_op_State op_Manual t op in
    try_else (settleExternalEffect repo op')
      (fun x => fail (unresolvedExternalEffect (EWrap "cannot persist MANUAL external operation: " x "")))
      (fun _ => t' ← now; mret (receiptFromOperation "" op' t'))
  | Ok result =>
    '(op', result', invalid) ← reconcile_verdict op result;
    let op'' := set_op_Observation (re_ExternalRef result') (re_ObservedState result') op' in
    try_else (settleExternalEffect repo op'')
      (fun x => fail (unresolvedExternalEffect x))
      (fun _ =>
        if (invalid : bool) then fail (unresolvedExternalEffect
          (ENew "unsupported provider reconcile outcome; manual reconciliation required"))
        else t ← now; mret (receiptFromOperation "" op'' t))
  end.

Definition Service_Reconcile (s : Service) (operationID : string) : M S Receipt :=
  match sv_repository s, sv_provider s with
  | Some repo, Some prov =>
    poll ;;
    op ← GetContext repo operationID;
    poll ;;
    if decide (op_State op <> op_Unknown)
    then fail (ENew ("operation " +:+ op_ID op +:+ " is " +:+ op_State op +:+ ", not UNKNOWN"))
    else
      t ← now;
      op' ← lift (Operation_Transition op op_Reconciling t);
      poll ;;
      UpdateContext repo op' ;;
      poll ;;
      observe_and_settle prov repo op'
  | _, _ => fail (ENew "action reconcile service is not fully configured")
  end.

End service.
Arguments Service : clear implicits.

(** ** What the ledger promises *)

Definition op_rank (s : string) : nat :=
  if decide (s = op_Planned) then 0 else if decide (s = op_Dispatched) then 1
  else if decide (s = op_Unknown) then 2 else if decide (s = op_Reconciling) then 3 else 4.

(** The idempotency index is a bijection onto the operations. *)
Record ledger_wf (l : Ledger) : Prop := {
  wf_id id op : items l !! id = Some op -> op_ID op = id;
  wf_indexed id op : items l !! id = Some op -> idempotency l !! op_IdempotencyKey op = Some id;
  wf_index key id : idempotency l !! key = Some id ->
    exists op, items l !! id = Some op /\ op_IdempotencyKey op = key
}.

(** What may happen to a ledger, here or elsewhere: operations and keys are
    never removed, identities never change, states only move forward. *)
Record ledger_evolves (l l' : Ledger) : Prop := {
  ev_wf : ledger_wf l -> ledger_wf l';
  ev_keys key id : idempotency l !! key = Some id -> idempotency l' !! key = Some id;
  ev_items id op : items l !! id = Some op -> exists op', items l' !! id = Some op'
    /\ SameReservation op op' = true /\ op_rank (op_State op) <= op_rank (op_State op')
}.

(** The write that gives a call the right to dispatch operation [id]. *)
Definition claims (id key : string) (l l' : Ledger) : Prop :=
  exists op op', items l !! id = Some op /\ items l' !! id = Some op'
    /\ op_IdempotencyKey op = key /\ op_State op = op_Planned /\ op_State op' = op_Dispatched.

(** The state an answered dispatch is settled in, and whether it is reported. *)
Definition settled_dispatch (op : Operation) (answer : outcome DispatchResult) (t : time) : Operation * bool :=
  match answer with
  | Err _ => (set_op_State op_Unknown t op, true)
  | Ok r =>
    if decide (ds_Outcome r = DispatchConfirmed)
    then (set_op_Observation (ds_ExternalRef r) (ds_ObservedState r) (set_op_State op_Confirmed t op), true)
    else if decide (ds_Outcome r = DispatchUnknown)
    then (set_op_Observation (ds_ExternalRef r) (ds_ObservedState r) (set_op_State op_Unknown t op), true)
    else (set_op_Observation "" "INVALID_PROVIDER_DISPATCH_OUTCOME" (set_op_State op_Unknown t op), false)
  end.

(** ** The state machine *)

Lemma op_transition_valid_spec o to : op_transition_valid o to = true <-> op_step (op_RiskClass o) (op_State o) to.
Proof.
  unfold op_transition_valid. split.
  - repeat case_decide; try done; intros Hb%bool_decide_eq_true; destruct_or?; destruct_and?;
      subst; simplify_eq;
      repeat match goal with E : op_State _ = _ |- _ => rewrite E; clear E end; by constructor.
  - destruct o as [? ? ? ? ? risk ? ? ? st]; simpl. destruct 1; try reflexivity.
    simpl. apply bool_decide_eq_true. auto.
Qed.

Lemma Operation_Transition_inv o to t o' : Operation_Transition o to t = Ok o' ->
  o' = set_op_State to t o /\ op_step (op_RiskClass o) (op_State o) to.
Proof.
  unfold Operation_Transition. destruct (op_transition_valid o to) eqn:E; [|done].
  intros [= <-]. by apply op_transition_valid_spec in E.
Qed.

Lemma op_step_rank risk s t : op_step risk s t -> op_rank s < op_rank t.
Proof. destruct 1; vm_compute; lia. Qed.

Lemma SameReservation_spec o o' : SameReservation o o' = true <->
  NewWithRequestDigest (mkRequest (op_ID o) (op_RunID o) (op_ExecutionEpoch o) (op_RecoveryEpoch o)
    (op_Action o) (op_RiskClass o) (op_Capability o) "" (op_IdempotencyKey o) "" 0%Z) (op_RequestDigest o) 0%Z =
  NewWithRequestDigest (mkRequest (op_ID o') (op_RunID o') (op_ExecutionEpoch o') (op_RecoveryEpoch o')
    (op_Action o') (op_RiskClass o') (op_Capability o') "" (op_IdempotencyKey o') "" 0%Z) (op_RequestDigest o') 0%Z.
Proof.
  unfold SameReservation, NewWithRequestDigest. rewrite bool_decide_eq_true. simpl. split.
  - intros (-> & -> & -> & -> & -> & -> & -> & -> & ->). done.
  - intros [= -> -> -> -> -> -> -> -> ->]. done.
Qed.

Lemma SameReservation_refl o : SameReservation o o = true.
Proof. by apply SameReservation_spec. Qed.
Lemma SameReservation_trans a b c :
  SameReservation a b = true -> SameReservation b c = true -> SameReservation a c = true.
Proof. rewrite !SameReservation_spec. congruence. Qed.
Lemma SameReservation_ids o o' : SameReservation o o' = true ->
  op_ID o' = op_ID o /\ op_IdempotencyKey o' = op_IdempotencyKey o /\ op_RequestDigest o' = op_RequestDigest o
  /\ op_RiskClass o' = op_RiskClass o.
Proof. unfold SameReservation. rewrite bool_decide_eq_true. naive_solver. Qed.

#[export] Hint Resolve SameReservation_refl SameReservation_trans : go.

(** ** The ledger's operations evolve it *)

Lemma ledger_create_inv op l l' : ledger_create op l = Ok (tt, l') ->
  items l !! op_ID op = None /\ idempotency l !! op_IdempotencyKey op = None /\
  l' = mkLedger (<[op_ID op := op]> (items l)) (<[op_IdempotencyKey op := op_ID op]> (idempotency l)).
Proof. unfold ledger_create. intros. ok_inv. done. Qed.

Lemma ledger_update_inv op l l' : ledger_update op l = Ok (tt, l') ->
  exists original, items l !! op_ID op = Some original /\ SameReservation original op = true
    /\ op_step (op_RiskClass original) (op_State original) (op_State op)
    /\ l' = mkLedger (<[op_ID op := op]> (items l)) (idempotency l).
Proof.
  unfold ledger_update. intros. ok_inv. apply negb_false_iff in E0.
  apply Operation_Transition_inv in E1 as [_ Hstep]. eauto 10.
Qed.

Lemma ledger_create_wf op l l' : ledger_create op l = Ok (tt, l') -> ledger_wf l -> ledger_wf l'.
Proof.
  intros (Hi & Hk & ->)%ledger_create_inv [Hid Hix Hex]. split; simpl.
  - intros id o Ho'. destruct (decide (id = op_ID op)) as [->|]; simplify_map_eq; eauto.
  - intros id o. destruct (decide (id = op_ID op)) as [->|].
    + rewrite lookup_insert_eq. intros [= <-]. by rewrite lookup_insert_eq.
    + rewrite lookup_insert_ne by done. intros Ho. specialize (Hix _ _ Ho).
      rewrite lookup_insert_ne; [done|]. congruence.
  - intros key id. destruct (decide (key = op_IdempotencyKey op)) as [->|].
    + rewrite lookup_insert_eq. intros [= <-]. exists op. by rewrite lookup_insert_eq.
    + rewrite lookup_insert_ne by done. intros Ho. destruct (Hex _ _ Ho) as (o & Hio & <-).
      exists o. rewrite lookup_insert_ne; [done|]. congruence.
Qed.

Lemma ledger_update_wf op l l' : ledger_update op l = Ok (tt, l') -> ledger_wf l -> ledger_wf l'.
Proof.
  intros (o & Ho & Hs & _ & ->)%ledger_update_inv [Hid Hix Hex].
  destruct (SameReservation_ids _ _ Hs) as (_ & Hk & _). split; simpl.
  - intros id o' Ho'. destruct (decide (id = op_ID op)) as [->|]; simplify_map_eq; eauto.
  - intros id o'. destruct (decide (id = op_ID op)) as [->|].
    + rewrite lookup_insert_eq. intros [= <-]. rewrite Hk. eauto.
    + rewrite lookup_insert_ne by done. eauto.
  - intros key id Hki. destruct (Hex _ _ Hki) as (o' & Hio & <-).
    destruct (decide (id = op_ID op)) as [->|].
    + exists op. rewrite lookup_insert_eq. split; congruence.
    + exists o'. by rewrite lookup_insert_ne.
Qed.

Lemma ledger_evolves_refl l : ledger_evolves l l.
Proof. split; eauto with go. Qed.

Lemma ledger_evolves_trans a b c : ledger_evolves a b -> ledger_evolves b c -> ledger_evolves a c.
Proof.
  intros [W1 K1 I1] [W2 K2 I2]. split; eauto.
  intros id op (o1 & H1 & S1 & R1)%I1. destruct (I2 _ _ H1) as (o2 & H2 & S2 & R2).
  exists o2. split_and!; [done | by eapply SameReservation_trans | lia].
Qed.

Lemma ledger_create_evolves op l l' : ledger_create op l = Ok (tt, l') -> ledger_evolves l l'.
Proof.
  intros Hc. split; [by eapply ledger_create_wf | |];
    apply ledger_create_inv in Hc as (Hi & Hk & ->); simpl.
  - intros key id Hk'. rewrite lookup_insert_ne; [done|]. congruence.
  - intros id o Ho. exists o. rewrite lookup_insert_ne by congruence. auto with go.
Qed.

Lemma ledger_update_evolves op l l' : ledger_update op l = Ok (tt, l') -> ledger_evolves l l'.
Proof.
  intros Hc. split; [by eapply ledger_update_wf | |];
    apply ledger_update_inv in Hc as (o & Ho & Hs & Hst & ->); simpl; [done|].
  intros id o' Ho'. destruct (decide (id = op_ID op)) as [->|].
  - exists op. rewrite lookup_insert_eq. simplify_map_eq. apply op_step_rank in Hst.
    split_and!; [done | done | lia].
  - exists o'. rewrite lookup_insert_ne by done. auto with go.
Qed.

Lemma ledger_update_claims op l l' : ledger_update op l = Ok (tt, l') -> op_State op = op_Dispatched ->
  claims (op_ID op) (op_IdempotencyKey op) l l'.
Proof.
  intros (o & Ho & Hs & Hst & ->)%ledger_update_inv Hd. exists o, op. simpl.
  destruct (SameReservation_ids _ _ Hs) as (_ & Hk & _). rewrite lookup_insert_eq.
  split_and!; try done. rewrite Hd in Hst. inversion Hst; congruence.
Qed.

(** ** Calls through an interface *)

#[export] Instance MemoryRepository_laws : RepositoryLaws (fun l => l) MemoryRepository_repository.
Proof.
  unshelve eapply (Build_RepositoryLaws _ _ _ (fun _ _ => True)); intros; try done;
    eexists; (split; [reflexivity|]); intros s; (split; [|done]); simpl.
  - by destruct (ledger_create op s) as [[[] ?]|].
  - by destruct (ledger_update op s) as [[[] ?]|].
Qed.

(** A failure that says an external effect may have happened. *)
Definition tagged {A} (r : outcome A) : Prop :=
  forall x, r = Err x -> errors_is x ErrExternalEffectUnresolved = true.

Lemma tagged_ok {A} (a : A) : tagged (Ok a).
Proof. by intros ? [=]. Qed.
Lemma tagged_unresolved {A} x : tagged (A := A) (Err (unresolvedExternalEffect x)).
Proof. by intros ? [= <-]. Qed.
#[export] Hint Resolve tagged_ok tagged_unresolved : go.

(** A write that confirms no operation but observations. *)
Definition confirms_only_observations (l l' : Ledger) : Prop :=
  forall id op, items l' !! id = Some op -> op_State op = op_Confirmed ->
    op_RiskClass op = risk_Observe \/ items l !! id = Some op.
Definition observation_or_unconfirmed (op : Operation) : Prop :=
  op_State op = op_Confirmed -> op_RiskClass op = risk_Observe.
Definition reconcile_evolves (l l' : Ledger) : Prop :=
  ledger_evolves l l' /\ confirms_only_observations l l'.

Section calls.
Context `{Hash} {S : Type} (view : S -> Ledger) (e : Env S).

(** [R] relates the states around each write; [fit] says which operations a
    call may write back. *)
Context (repo : Repository S) `{!RepositoryLaws view repo}.
Context (R : S -> S -> Prop) (fit : Operation -> Prop).
Context (R_update : forall op s s', fit op -> ledger_update op (view s) = Ok (tt, view s') -> touches s s' -> R s s').

Definition writes (c : list (S * S)) : Prop := Forall (fun p => R p.1 p.2) c.
Definition claimed (id key : string) (c : list (S * S)) : Prop :=
  Exists (fun p => claims id key (view p.1) (view p.2)) c.

Lemma writes_app c s s' : writes c -> R s s' -> writes (c ++ [(s, s')]).
Proof. intros. apply Forall_app. split; [done|]. by constructor. Qed.
Lemma claimed_app id key c p : claimed id key c -> claimed id key (c ++ [p]).
Proof. intros. apply Exists_app. by left. Qed.
#[local] Hint Resolve claimed_app : go.

Lemma hoare_write {A} (en : Env S) (m : M S A) spec F (Q : outcome A -> list effect -> list (S * S) -> Prop) :
  refines_write view touches m spec ->
  (forall x log c, F log c -> Q (Err x) log c) ->
  (forall log c s a s', F log c -> spec (view s) = Ok (a, view s') -> touches s s' ->
     Q (Ok a) log (c ++ [(s, s')])) ->
  hoare en (tr F) m (fun r => tr (Q r)).
Proof.
  intros (body & -> & Hspec) Hx Hok. apply hoare_locked; [apply stable_tr | firstorder |].
  intros w a s Hw Hb. destruct (Hspec (w_state w)) as [Hv Ht]. apply Hok; [exact Hw | by rewrite Hv, Hb | by eapply Ht].
Qed.

Lemma silent_read {A} (m : M S A) spec : refines_read view m spec -> Silent m.
Proof. intros ->. apply _. Qed.

#[export] Instance silent_replay req existing : Silent (S := S) (replay req existing).
Proof. unfold replay. apply _. Qed.

(** A silent step whose every failure is tagged and whose every result is [P]. *)
Definition tagging {A} (P : A -> Prop) (m : M S A) : Prop :=
  Silent m /\ forall w, tagged (m e w).1 /\ forall a, (m e w).1 = Ok a -> P a.

Lemma tagging_ret {A} (P : A -> Prop) (a : A) : P a -> tagging P (mret a).
Proof. intros. split; [apply _|]. intros w. split; [apply tagged_ok|]. by intros ? [= <-]. Qed.
Lemma tagging_unresolved {A} (P : A -> Prop) x : tagging P (fail (unresolvedExternalEffect x)).
Proof. split; [apply _|]. intros w. split; [apply tagged_unresolved | done]. Qed.
Lemma tagging_now : tagging (fun _ => True) now.
Proof. split; [apply _|]. intros w. split; [apply tagged_ok | done]. Qed.
Lemma tagging_bind {A B} (P : A -> Prop) (Q : B -> Prop) (m : M S A) (f : A -> M S B) :
  tagging P m -> (forall a, P a -> tagging Q (f a)) -> (forall a, Silent (f a)) -> tagging Q (m ≫= f).
Proof.
  intros [Sm Tm] Hf Sf. split; [by apply silent_bind|].
  intros w. specialize (Tm w). unfold mbind, M_bind. destruct (m e w) as [[a|x] w'].
  - apply Hf. by apply Tm.
  - split; [|done]. intros y [= <-]. by apply Tm.
Qed.

Lemma tagging_transition op to :
  tagging (fun op' => exists t, op' = set_op_State to t op) (transition_or_unresolved op to).
Proof.
  assert (forall t, Silent (S := S) (match Operation_Transition op to t with
    | Ok op' => mret op' | Err x => fail (unresolvedExternalEffect x) end)).
  { intros t. destruct (Operation_Transition op to t); apply _. }
  eapply tagging_bind; [apply tagging_now | intros t _ | done].
  destruct (Operation_Transition op to t) eqn:E; [|apply tagging_unresolved].
  apply Operation_Transition_inv in E as [-> _]. apply tagging_ret. eauto.
Qed.

Lemma tagging_verdict {B} (Q : B -> Prop) op to (f : Operation -> B) :
  (forall t, Q (f (set_op_State to t op))) ->
  tagging Q (op' ← transition_or_unresolved op to; mret (f op')).
Proof.
  intros HQ. eapply tagging_bind; [apply tagging_transition | | intros; apply _].
  intros op' [t ->]. by apply tagging_ret.
Qed.

Lemma tagging_receipt (k : time -> Receipt) : tagging (fun _ => True) (t ← now; mret (k t)).
Proof. eapply tagging_bind; [apply tagging_now | intros; by apply tagging_ret | intros; apply _]. Qed.
#[local] Hint Resolve tagging_unresolved tagging_receipt : go.

Lemma tagging_dispatch_verdict op result : tagging (fun _ => True) (dispatch_verdict op result).
Proof. unfold dispatch_verdict. repeat case_decide; by apply tagging_verdict. Qed.

(** An observation never makes a possibly effectful operation look confirmed. *)
Lemma tagging_reconcile_verdict op result :
  tagging (fun v => observation_or_unconfirmed v.1.1) (reconcile_verdict op result).
Proof.
  unfold reconcile_verdict, observation_or_unconfirmed.
  repeat case_decide; by apply tagging_verdict.
Qed.

(** After the effect: what is known when the provider was called. *)
Definition after_effect (x : effect) (known : list (S * S) -> Prop) (l : list effect) (c : list (S * S)) : Prop :=
  writes c /\ l = [x] /\ known c.
Definition after_post (x : effect) (known : list (S * S) -> Prop) {A} (r : outcome A) l c : Prop :=
  after_effect x known l c /\ tagged r.

Lemma after_tagging_bind {A B} P x known (m : M S A) (f : A -> M S B) : tagging P m ->
  (forall a, P a -> hoare e (tr (after_effect x known)) (f a) (fun r => tr (after_post x known r))) ->
  hoare e (tr (after_effect x known)) (m ≫= f) (fun r => tr (after_post x known r)).
Proof.
  intros [Sm Tm] Hf w Hw. destruct (Tm w) as [Hx Hv]. pose proof (hoare_silent e m _ Sm w Hw) as Hs.
  unfold mbind, M_bind. destruct (m e w) as [[a|y] w']; [exact (Hf a (Hv a eq_refl) w' Hs)|].
  split; [exact Hs|]. intros z [= <-]. by apply Hx.
Qed.

Lemma after_tagging {A} P x known (m : M S A) : tagging P m ->
  hoare e (tr (after_effect x known)) m (fun r => tr (after_post x known r)).
Proof.
  intros [Sm Tm] w Hw. destruct (Tm w) as [Hx _]. pose proof (hoare_silent e m _ Sm w Hw) as Hs.
  destruct (m e w) as [r w']. by split.
Qed.

(** Settling keeps what is known and tags every failure. *)
Lemma after_settled {A} x known op (h : goerr -> goerr) (k : M S A) :
  fit op -> (forall c p, known c -> known (c ++ [p])) -> tagging (fun _ => True) k ->
  hoare e (tr (after_effect x known))
    (try_else (settleExternalEffect repo op) (fun y => fail (unresolvedExternalEffect (h y))) (fun _ => k))
    (fun r => tr (after_post x known r)).
Proof.
  intros Hfit Hd Hk. eapply hoare_try with (R := fun _ => tr (after_effect x known)).
  - apply hoare_detached.
    apply (hoare_write _ _ _ _ (fun _ => after_effect x known) (UpdateContext_law op)); [done|].
    intros log c s [] s' (Hg & Hl & Hdc) Hspec Ht. split_and!; [|done|by apply Hd].
    apply writes_app; eauto.
  - intros y. eapply after_tagging, (tagging_unresolved (fun _ => True)).
  - intros ?. by eapply after_tagging.
Qed.

Lemma hoare_call {A B} x (answer : nat -> outcome A) (k : outcome A -> M S B) F F' Q :
  (forall l c, F l c -> F' (l ++ [x]) c) -> (forall r, hoare e (tr F') (k r) Q) ->
  hoare e (tr F) (observe (emit x ;; acquire ;; consult answer) ≫= k) Q.
Proof. intros HF Hk w Hw. apply Hk, HF, Hw. Qed.

Lemma hoare_dispatch_and_settle prov req op : (forall o, fit o) ->
  let x := EffDispatch (q_ID req) (q_IdempotencyKey req) in
  let known := claimed (q_ID req) (q_IdempotencyKey req) in
  hoare e (tr (fun l c => writes c /\ l = [] /\ known c)) (dispatch_and_settle prov repo req op)
    (fun r => tr (after_post x known r)).
Proof.
  intros Hfit x known. eapply (hoare_call _ _ _ _ (after_effect x known)); [by intros l c (? & -> & ?)|].
  intros [result|y].
  - eapply after_tagging_bind; [apply tagging_dispatch_verdict|]. intros [[op' result'] invalid] _.
    apply (after_settled _ _ _ (fun y => y)); [done | apply claimed_app |]. destruct invalid; auto with go.
  - eapply after_tagging_bind; [apply tagging_transition|]. intros op' _.
    apply (after_settled _ _ _ (fun y => EWrap "cannot persist UNKNOWN external operation: " y ""));
      [done | apply claimed_app | auto with go].
Qed.

Lemma hoare_observe_and_settle prov op :
  (forall o, observation_or_unconfirmed o -> fit o) ->
  let x := EffReconcile (op_ID op) in
  hoare e (tr (fun l c => writes c /\ l = [])) (observe_and_settle prov repo op)
    (fun r => tr (after_post x (fun _ => True) r)).
Proof.
  intros Hfit x. eapply (hoare_call _ _ _ _ (after_effect x (fun _ => True))); [by intros l c (? & ->)|].
  intros [result|y].
  - eapply after_tagging_bind; [apply tagging_reconcile_verdict|]. intros [[op' result'] invalid] Hv.
    apply (after_settled _ _ _ (fun y => y)); [by apply Hfit | done |]. destruct invalid; auto with go.
  - eapply after_tagging_bind; [apply tagging_now|]. intros t _.
    apply (after_settled _ _ _ (fun y => EWrap "cannot persist MANUAL external operation: " y ""));
      [by apply Hfit; intros [=] | done | auto with go].
Qed.

(** Nothing was dispatched, or operation [id] was, once, after this call
    claimed it; then a failure is tagged. *)
Definition exec_post {A} (id key : string) (r : outcome A) (l : list effect) (c : list (S * S)) : Prop :=
  writes c /\
  (l = [] \/ (l = [EffDispatch id key] /\ claimed id key c /\ tagged r)).
Definition before_effect (l : list effect) (c : list (S * S)) : Prop := writes c /\ l = [].

Lemma exec_post_before {A} id key (r : outcome A) l c : before_effect l c -> exec_post id key r l c.
Proof. intros [? ->]. split; auto. Qed.
Lemma exec_post_after {A} id key (r : outcome A) l c :
  after_post (EffDispatch id key) (claimed id key) r l c -> exec_post id key r l c.
Proof. intros [(? & -> & ?) ?]. split; auto. Qed.
#[local] Hint Resolve exec_post_before exec_post_after : go.

Lemma exec_silent {A} id key (m : M S A) : Silent m ->
  hoare e (tr before_effect) m (fun r => tr (exec_post id key r)).
Proof. intros Sm. apply hoare_silent_done; [done|]. intros r w Hw. by apply exec_post_before. Qed.

Lemma exec_bind {A B} id key (m : M S A) (f : A -> M S B) : Silent m ->
  (forall a, hoare e (tr before_effect) (f a) (fun r => tr (exec_post id key r))) ->
  hoare e (tr before_effect) (m ≫= f) (fun r => tr (exec_post id key r)).
Proof. intros Sm Hf. apply hoare_silent_bind; [done | | done]. intros x w Hw. by apply exec_post_before. Qed.

Lemma before_write {A} (m : M S A) spec : refines_write view touches m spec ->
  (forall s a s', spec (view s) = Ok (a, view s') -> touches s s' -> R s s') ->
  hoare e (tr before_effect) m (fun _ => tr before_effect).
Proof.
  intros Hr Hs. apply (hoare_write _ _ _ _ (fun _ => before_effect) Hr); [done|].
  intros log c s a s' [Hg Hl] Hspec Ht. split; [|done]. apply writes_app; eauto.
Qed.

Section configured.
Context (auth : Request -> M S unit) (guard : AuthorityGuard S).
Context (all_fit : forall o, fit o).
Context (R_create : forall op s s', ledger_create op (view s) = Ok (tt, view s') -> touches s s' -> R s s').
Context `{!forall req, Silent (auth req)}
  `{!forall r n, Silent (CheckRunEpoch guard r n)} `{!forall n k, Silent (CheckRecoveryEpoch guard n k)}.

#[local] Instance silent_get id : Silent (GetContext repo id).
Proof. eapply silent_read, GetContext_law. Qed.
#[local] Instance silent_get_by_key key : Silent (GetByIdempotencyKeyContext repo key).
Proof. eapply silent_read, GetByKey_law. Qed.

Lemma hoare_execute_absent prov req digest :
  hoare e (tr before_effect) (execute_absent auth guard prov repo req digest)
    (fun r => tr (exec_post (q_ID req) (q_IdempotencyKey req) r)).
Proof.
  unfold execute_absent. apply exec_bind; [apply _|]. intros ?.
  eapply hoare_try; [by apply hoare_silent | intros x; by apply exec_silent, _ |]. intros ?.
  do 5 (apply exec_bind; [apply _|]; intros ?).
  apply exec_bind; [apply _|]. intros t.
  eapply hoare_try; [eapply before_write; [apply CreateContext_law | intros s []; apply R_create] | |].
  { intros x. destruct (errors_is x _); [|by apply exec_silent, _]. apply exec_bind; [apply _|].
    intros [existing|y]; apply exec_silent, _. }
  intros ?. apply exec_bind; [apply _|]. intros ?.
  destruct (Operation_Transition _ op_Dispatched t) as [op'|y] eqn:Ht; [|by apply exec_silent, _].
  apply Operation_Transition_inv in Ht as [-> _]. rewrite lift_ok.
  apply hoare_bind with (R := fun r => tr (fun l c => before_effect l c /\
    (is_ok r = true -> claimed (q_ID req) (q_IdempotencyKey req) c))).
  - apply (hoare_write _ _ _ _ (fun r l c => before_effect l c /\
      (is_ok r = true -> claimed (q_ID req) (q_IdempotencyKey req) c)) (UpdateContext_law _)); [done|].
    intros log c s [] s' [Hg Hl] Hspec Hto. split; [split; [|done]|].
    + apply writes_app; eauto.
    + intros ?. apply Exists_app. right. apply Exists_cons. left. by apply ledger_update_claims in Hspec.
  - intros []. apply hoare_silent_bind; [apply _ | |].
    + intros x w [Hw _]. by apply exec_post_before.
    + intros ?. eapply hoare_conseq; [by apply hoare_dispatch_and_settle | |].
      * intros w [[? ?] Hc]. split_and!; auto.
      * intros r w Hw. by apply exec_post_after.
  - intros x w [Hw _]. by apply exec_post_before.
Qed.

Lemma hoare_Execute prov req :
  hoare e (tr before_effect) (Service_Execute (mkService (Some auth) (Some guard) (Some prov) (Some repo)) req)
    (fun r => tr (exec_post (q_ID req) (q_IdempotencyKey req) r)).
Proof.
  unfold Service_Execute; simpl. case_decide; [by apply exec_silent, _|].
  do 2 (apply exec_bind; [apply _|]; intros ?). apply exec_bind; [apply _|].
  intros [existing|x].
  - case_decide; apply exec_silent, _.
  - destruct (errors_is x _); [apply hoare_execute_absent | apply exec_silent, _].
Qed.

End configured.

Definition reconcile_post {A} (r : outcome A) (l : list effect) (c : list (S * S)) : Prop :=
  writes c /\ (l = [] \/ exists id, l = [EffReconcile id] /\ tagged r).

Lemma reconcile_bind {A B} (m : M S A) (f : A -> M S B) : Silent m ->
  (forall a, hoare e (tr before_effect) (f a) (fun r => tr (reconcile_post r))) ->
  hoare e (tr before_effect) (m ≫= f) (fun r => tr (reconcile_post r)).
Proof. intros Sm Hf. apply hoare_silent_bind; [done | | done]. intros x w [? ?]. split; auto. Qed.

Lemma reconcile_silent {A} (m : M S A) : Silent m ->
  hoare e (tr before_effect) m (fun r => tr (reconcile_post r)).
Proof. intros Sm. apply hoare_silent_done; [done|]. intros r w [? ?]. split; auto. Qed.

Lemma hoare_Reconcile auth guard prov operationID :
  (forall o, observation_or_unconfirmed o -> fit o) ->
  hoare e (tr before_effect) (Service_Reconcile (mkService auth guard (Some prov) (Some repo)) operationID)
    (fun r => tr (reconcile_post r)).
Proof.
  intros Hfit. assert (Silent (GetContext repo operationID)) by (eapply silent_read, GetContext_law).
  unfold Service_Reconcile; simpl.
  apply reconcile_bind; [apply _|]; intros ?. apply reconcile_bind; [apply _|]; intros op.
  apply reconcile_bind; [apply _|]; intros ?. case_decide; [apply reconcile_silent, _|].
  apply reconcile_bind; [apply _|]; intros t.
  destruct (Operation_Transition op op_Reconciling t) as [op'|y] eqn:Ht;
    rewrite ?lift_ok, ?lift_err; [|apply reconcile_silent, _].
  apply Operation_Transition_inv in Ht as [-> _].
  apply reconcile_bind; [apply _|]; intros ?.
  eapply hoare_bind; [eapply before_write; [apply UpdateContext_law |] | |].
  - intros s [] s'. apply R_update, Hfit. by intros [=].
  - intros ?. apply reconcile_bind; [apply _|]; intros ?.
    eapply hoare_conseq; [by apply hoare_observe_and_settle | done |].
    intros r w [(? & ? & _) ?]. split; eauto.
  - intros x w [? ?]. split; auto.
Qed.

End calls.

(** ** Concurrent executions *)

(** A history of the shared state: each step is a write, tagged with the call
    that made it, or with nothing when someone else did. *)
Abbreviation history S := (list (option nat * S * S)) (only parsing).

Definition chained {S} (h : history S) : Prop :=
  forall i p q, h !! i = Some p -> h !! (Nat.succ i) = Some q -> p.2 = q.1.2.

Definition own {S} (t : nat) (h : history S) : list (S * S) :=
  (fun p => (p.1.2, p.2)) <$> filter (fun p => p.1.1 = Some t) h.

Record call S := mkCall { call_env : Env S; call_request : Request; call_start : S }.
Arguments mkCall {_} _ _ _.
Arguments call_env {_} _.
Arguments call_request {_} _.
Arguments call_start {_} _.

Definition executed `{Hash} {S} (svc : Service S) (c : call S) : World S :=
  (Service_Execute svc (call_request c) (call_env c) (start (call_start c))).2.

(** Calls of [Execute] that ran concurrently over the state with history [h]:
    each made exactly the writes tagged with it, and whatever else happened to
    the ledger evolved it. *)
Record concurrently `{Hash} {S} (view : S -> Ledger) (svc : Service S) (calls : list (call S)) (h : history S) : Prop := {
  co_chained : chained h;
  co_start p : head h = Some p -> ledger_wf (view p.1.2);
  co_others s s' : (None, s, s') ∈ h -> ledger_evolves (view s) (view s');
  co_tags t s s' : (Some t, s, s') ∈ h -> (t < length calls)%nat;
  co_own t c : calls !! t = Some c -> own t h = w_commits (executed svc c)
}.

Lemma elem_of_own {S} t (h : history S) s s' : (s, s') ∈ own t h <-> (Some t, s, s') ∈ h.
Proof.
  unfold own. rewrite list_elem_of_fmap. split.
  - intros ([[o a] b] & [= -> ->] & Hf). apply list_elem_of_filter in Hf as [Hs Hf]. simpl in Hs. by subst.
  - intros Hh. exists (Some t, s, s'). split; [done|]. by apply list_elem_of_filter.
Qed.

Section concurrency.
Context `{Hash} {S : Type} (view : S -> Ledger).

Lemma history_evolves (h : history S) i j p q :
  chained h -> (forall x, x ∈ h -> ledger_evolves (view x.1.2) (view x.2)) ->
  h !! i = Some p -> h !! j = Some q -> (i < j)%nat -> ledger_evolves (view p.2) (view q.1.2).
Proof.
  intros Hc Hs Hi Hj Hlt. revert q Hj. induction Hlt as [|j Hlt IH]; intros q Hj.
  - rewrite (Hc _ _ _ Hi Hj). apply ledger_evolves_refl.
  - destruct (lookup_lt_is_Some_2 h j) as [r Hr]; [apply lookup_lt_Some in Hj; lia|].
    rewrite <- (Hc _ _ _ Hr Hj). eapply ledger_evolves_trans; [by apply IH|].
    apply Hs. by eapply list_elem_of_lookup_2.
Qed.

Lemma history_wf (h : history S) i p :
  chained h -> (forall x, x ∈ h -> ledger_evolves (view x.1.2) (view x.2)) ->
  (forall p, head h = Some p -> ledger_wf (view p.1.2)) -> h !! i = Some p -> ledger_wf (view p.1.2).
Proof.
  intros Hc Hs H0 Hi. destruct i as [|i].
  - apply H0. by destruct h.
  - destruct h as [|p0 h]; [done|]. specialize (H0 p0 eq_refl).
    eapply (history_evolves _ 0 (Datatypes.S i) p0 p Hc Hs eq_refl Hi); [lia|].
    apply (Hs p0); [by left | done].
Qed.

Lemma claims_once l0 l1 l2 l3 id1 id2 key :
  ledger_wf l0 -> claims id1 key l0 l1 -> ledger_evolves l0 l1 -> ledger_evolves l1 l2 ->
  ledger_wf l2 -> claims id2 key l2 l3 -> False.
Proof.
  intros W0 (o & o' & H0 & H1 & Hk & _ & Hd) E01 E12 W2 (p & p' & H2 & _ & Hk2 & Hp & _).
  pose proof (wf_indexed _ W0 _ _ H0) as Hi. rewrite Hk in Hi.
  apply (ev_keys _ _ E01), (ev_keys _ _ E12) in Hi.
  pose proof (wf_indexed _ W2 _ _ H2) as Hi2. rewrite Hk2, Hi in Hi2. injection Hi2 as <-.
  destruct (ev_items _ _ E12 _ _ H1) as (q & Hq & _ & Hr). rewrite H2 in Hq. injection Hq as <-.
  rewrite Hd, Hp in Hr. vm_compute in Hr. lia.
Qed.

Context (auth : Request -> M S unit) (guard : AuthorityGuard S) (prov : Provider) (repo : Repository S).
Context `{!RepositoryLaws view repo} `{!forall req, Silent (auth req)}
  `{!forall r n, Silent (CheckRunEpoch guard r n)} `{!forall n k, Silent (CheckRecoveryEpoch guard n k)}.

Lemma executed_post c :
  let svc := mkService (Some auth) (Some guard) (Some prov) (Some repo) in
  let q := call_request c in
  exec_post view (fun s s' => ledger_evolves (view s) (view s')) (q_ID q) (q_IdempotencyKey q)
    (Service_Execute svc q (call_env c) (start (call_start c))).1
    (w_log (executed svc c)) (w_commits (executed svc c)).
Proof.
  intros svc q. unfold executed, svc.
  epose proof (hoare_Execute view (call_env c) repo (fun s s' => ledger_evolves (view s) (view s')) (fun _ => True)
    (fun op s s' _ Hu _ => ledger_update_evolves op (view s) (view s') Hu) auth guard (fun _ => I)
    (fun op s s' Hc _ => ledger_create_evolves op (view s) (view s') Hc) prov q) as Hh.
  specialize (Hh (start (call_start c))). unfold tr in Hh; simpl in Hh.
  fold q. destruct (Service_Execute _ q (call_env c) (start (call_start c))) as [r w]; simpl.
  apply Hh. split; [constructor | reflexivity].
Qed.

Lemma concurrent_dispatch (calls : list (call S)) h t c id key :
  let svc := mkService (Some auth) (Some guard) (Some prov) (Some repo) in
  concurrently view svc calls h -> calls !! t = Some c -> EffDispatch id key ∈ w_log (executed svc c) ->
  w_log (executed svc c) = [EffDispatch id key] /\ q_ID (call_request c) = id
  /\ exists i s s', h !! i = Some (Some t, s, s') /\ claims id key (view s) (view s').
Proof.
  intros svc Hc Ht Hd. destruct (executed_post c) as [_ Hor]. fold svc in Hor.
  destruct Hor as [Hl|(Hl & Hcl & _)]; rewrite Hl in Hd; [by apply elem_of_nil in Hd|].
  apply list_elem_of_singleton in Hd as [= -> ->]. split; [done|]. split; [done|].
  rewrite <- (co_own _ _ _ _ Hc _ _ Ht) in Hcl. apply Exists_exists in Hcl as ([s s'] & Hin & Hcl).
  apply elem_of_own, list_elem_of_lookup_1 in Hin as [i Hi]. eauto.
Qed.

Lemma concurrent_evolves (calls : list (call S)) h x :
  concurrently view (mkService (Some auth) (Some guard) (Some prov) (Some repo)) calls h ->
  x ∈ h -> ledger_evolves (view x.1.2) (view x.2).
Proof.
  intros Hc Hx. destruct x as [[[t|] s] s']; simpl; [|by eapply co_others].
  destruct (lookup_lt_is_Some_2 calls t) as [c Ht]; [by eapply co_tags|].
  destruct (executed_post c) as [Hw _]. rewrite <- (co_own _ _ _ _ Hc _ _ Ht) in Hw.
  apply elem_of_own in Hx. unfold writes in Hw. rewrite Forall_forall in Hw.
  exact (Hw (s, s') Hx).
Qed.

Lemma concurrent_positions (calls : list (call S)) h i j t1 t2 s1 s1' s2 s2' id1 id2 key :
  concurrently view (mkService (Some auth) (Some guard) (Some prov) (Some repo)) calls h ->
  h !! i = Some (Some t1, s1, s1') -> claims id1 key (view s1) (view s1') ->
  h !! j = Some (Some t2, s2, s2') -> claims id2 key (view s2) (view s2') -> ~ (i < j)%nat.
Proof.
  intros Hc Hi C1 Hj C2 Hlt.
  assert (forall x, x ∈ h -> ledger_evolves (view x.1.2) (view x.2)) as Hs.
  { intros x. by eapply concurrent_evolves. }
  eapply (claims_once (view s1) (view s1') (view s2) (view s2')); [| exact C1 | | | | exact C2].
  - exact (history_wf h i _ (co_chained _ _ _ _ Hc) Hs (co_start _ _ _ _ Hc) Hi).
  - exact (Hs _ (list_elem_of_lookup_2 _ _ _ Hi)).
  - exact (history_evolves h i j _ _ (co_chained _ _ _ _ Hc) Hs Hi Hj Hlt).
  - exact (history_wf h j _ (co_chained _ _ _ _ Hc) Hs (co_start _ _ _ _ Hc) Hj).
Qed.
End concurrency.

(** ** Calls that run alone *)

(** What a request finds under its idempotency key. *)
Definition replay_answer (req : Request) (digest : string) (existing : Operation) (t : time) : outcome Receipt :=
  if decide (op_RequestDigest existing <> digest) then Err ErrIdempotencyConflict
  else if decide (op_State existing = op_AbandonedReconciled)
  then Err (EWrap "" ErrDenied ": abandoned external reservation has no replay authority")
  else if decide (op_State existing = op_SafeToRetry)
  then Err (EWrap "" ErrDenied ": SAFE_TO_RETRY has no independent dispatch-quiescence proof")
  else Ok (receiptFromOperation (q_ID req) existing t).

Section alone.
Context `{Hash} {S : Type} (view : S -> Ledger) (clock : nat -> time).
Context (auth : Request -> M S unit) (guard : AuthorityGuard S) (prov : Provider) (repo : Repository S).
Context `{!RepositoryLaws view repo}.

(** A collaborator that answers yes at once. *)
Definition accepts {A} (m : M S A) (a : A) : Prop :=
  forall w, exists n, m (quiet_env clock) w = (Ok a, advance n w).

Lemma quiet_read {A} (m : M S A) spec w : refines_read view m spec ->
  m (quiet_env clock) w = (spec (view (w_state w)), advance 3 w).
Proof. intros ->. exact (quiet_rlocked clock (fun s => spec (view s)) w). Qed.

Lemma quiet_write {A} (m : M S A) spec w a l' : refines_write view touches m spec ->
  spec (view (w_state w)) = Ok (a, l') ->
  exists s', view s' = l' /\
    m (quiet_env clock) w = (Ok a, mkWorld (w_tick w + 3) s' (w_log w) (w_commits w ++ [(w_state w, s')])).
Proof.
  intros (body & -> & Hb) Hs. rewrite (proj1 (Hb _)) in Hs. apply bind_ok in Hs as ([a0 s'] & Hbody & [= <- <-]).
  exists s'. split; [done|]. by rewrite quiet_locked, Hbody.
Qed.

Lemma quiet_replay req existing (w : World S) :
  fst (replay req existing (quiet_env clock) w) =
    replay_answer req (op_RequestDigest existing) existing (clock (w_tick w))
  /\ exists n, snd (replay req existing (quiet_env clock) w) = advance n w.
Proof.
  assert (w = advance 0 w) as Hw by (unfold advance; rewrite Nat.add_0_r; by destruct w).
  unfold replay, replay_answer. destruct (decide (op_RequestDigest existing <> op_RequestDigest existing)) as [Hn|_]; [by destruct Hn|].
  repeat case_decide; (split; [reflexivity|]); [by exists 0 | by exists 0 | exists 1].
  exact (f_equal snd (quiet_now clock w)).
Qed.

Lemma quiet_transition op to (w : World S) : op_step (op_RiskClass op) (op_State op) to ->
  transition_or_unresolved op to (quiet_env clock) w = (Ok (set_op_State to (clock (w_tick w)) op), advance 1 w).
Proof.
  intros Hst. unfold transition_or_unresolved. rewrite (bind_run _ _ _ _ _ _ (quiet_now clock w)). simpl.
  unfold Operation_Transition. by apply op_transition_valid_spec in Hst as ->.
Qed.

Lemma observe_run {A} (m : M S A) e w r w' : m e w = (r, w') -> observe m e w = (Ok r, w').
Proof. unfold observe. by intros ->. Qed.

Lemma try_run {A B} (m : M S A) (h : goerr -> M S B) k e w r w' :
  m e w = (r, w') -> try_else m h k e w = match r with Ok a => k a e w' | Err x => h x e w' end.
Proof. unfold try_else. intros ->. by destruct r. Qed.

Lemma quiet_find req digest w : q_IdempotencyKey req <> "" -> requestDigest req = Ok digest ->
  Service_Execute (mkService (Some auth) (Some guard) (Some prov) (Some repo)) req (quiet_env clock) w =
  (match ledger_get_by_key (q_IdempotencyKey req) (view (w_state w)) with
   | Ok existing => if decide (op_RequestDigest existing <> digest) then fail ErrIdempotencyConflict
                    else replay req existing
   | Err x => if errors_is x ErrOperationAbsent then execute_absent auth guard prov repo req digest else fail x
   end) (quiet_env clock) (advance 4 w).
Proof.
  intros Hk Hd. unfold Service_Execute; simpl. rewrite decide_False by done.
  rewrite (bind_run _ _ _ _ _ _ (quiet_poll clock w)). rewrite Hd, lift_ok.
  erewrite bind_run by (apply observe_run, (quiet_read _ _ _ (GetByKey_law (q_IdempotencyKey req)))).
  rewrite advance_advance. simpl. by destruct (ledger_get_by_key _ _).
Qed.

(** The settlement of an answered dispatch: what is written and what is returned. *)
Definition settled_answer (req : Request) (v : Operation * bool) (r : outcome Receipt) : Prop :=
  if v.2 then exists t, r = Ok (receiptFromOperation (q_ID req) v.1 t) else tagged r /\ is_ok r = false.

Lemma quiet_settle op repo_w (h : goerr -> goerr) (k : M S Receipt) original :
  items (view (w_state repo_w)) !! op_ID op = Some original -> SameReservation original op = true ->
  op_step (op_RiskClass original) (op_State original) (op_State op) ->
  exists w', (try_else (settleExternalEffect repo op) (fun x => fail (h x)) (fun _ => k)) (quiet_env clock) repo_w
    = k (quiet_env clock) w' /\ items (view (w_state w')) !! op_ID op = Some op /\ w_log w' = w_log repo_w.
Proof.
  intros Ho Hs Hst. set (l := view (w_state repo_w)) in *.
  assert (ledger_update op l = Ok (tt, mkLedger (<[op_ID op := op]> (items l)) (idempotency l))) as Hu.
  { unfold ledger_update. rewrite Ho, Hs. simpl. unfold Operation_Transition.
    apply op_transition_valid_spec in Hst as ->. reflexivity. }
  destruct (quiet_write _ _ repo_w tt _ (UpdateContext_law op) Hu) as (s' & Hv & Hrun).
  eexists. split; [by erewrite try_run by exact Hrun|]. simpl. rewrite Hv. simpl.
  by rewrite lookup_insert_eq.
Qed.

Lemma quiet_dispatch_verdict op result (w : World S) : op_State op = op_Dispatched ->
  exists op' result' invalid, dispatch_verdict op result (quiet_env clock) w = (Ok (op', result', invalid), advance 1 w)
    /\ op_step (op_RiskClass op) (op_State op) (op_State op')
    /\ (set_op_Observation (ds_ExternalRef result') (ds_ObservedState result') op', negb invalid)
       = settled_dispatch op (Ok result) (clock (w_tick w)).
Proof.
  intros Hd. unfold dispatch_verdict, settled_dispatch.
  repeat case_decide; do 3 eexists;
    (split; [erewrite bind_run by (apply quiet_transition; rewrite Hd; constructor); reflexivity|]);
    (split; [rewrite Hd; constructor | reflexivity]).
Qed.

Lemma settled_dispatch_same op answer t : SameReservation op (settled_dispatch op answer t).1 = true.
Proof. apply SameReservation_spec. unfold settled_dispatch. destruct answer; [|done]. by repeat case_decide. Qed.

Lemma settled_receipt req op (k : bool) x (w : World S) :
  settled_answer req (op, negb k)
    ((if k then fail (unresolvedExternalEffect x)
      else t ← now; mret (receiptFromOperation (q_ID req) op t)) (quiet_env clock) w).1
  /\ w_state ((if k then fail (unresolvedExternalEffect x)
      else t ← now; mret (receiptFromOperation (q_ID req) op t)) (quiet_env clock) w).2 = w_state w
  /\ w_log ((if k then fail (unresolvedExternalEffect x)
      else t ← now; mret (receiptFromOperation (q_ID req) op t)) (quiet_env clock) w).2 = w_log w.
Proof.
  destruct k; unfold settled_answer; simpl; [by split_and!; auto with go|].
  split_and!; [by eexists | done | done].
Qed.

(** A dispatched operation is settled as its provider answered. *)
Lemma quiet_dispatch req op (w : World S) :
  items (view (w_state w)) !! op_ID op = Some op -> op_State op = op_Dispatched ->
  exists tick t r w', dispatch_and_settle prov repo req op (quiet_env clock) w = (r, w')
    /\ w_log w' = w_log w ++ [EffDispatch (q_ID req) (q_IdempotencyKey req)]
    /\ items (view (w_state w')) !! op_ID op = Some (settled_dispatch op (Dispatch prov tick req) t).1
    /\ settled_answer req (settled_dispatch op (Dispatch prov tick req) t) r.
Proof.
  intros Ho Hd. set (w1 := mkWorld (Datatypes.S (w_tick w)) (w_state w)
    (w_log w ++ [EffDispatch (q_ID req) (q_IdempotencyKey req)]) (w_commits w)).
  exists (w_tick w1), (clock (w_tick w1)). unfold dispatch_and_settle.
  assert (observe (call_Dispatch prov req) (quiet_env clock) w = (Ok (Dispatch prov (w_tick w1) req), w1)) as Hcall
    by reflexivity.
  rewrite (bind_run _ _ _ _ _ _ Hcall).
  pose proof (settled_dispatch_same op (Dispatch prov (w_tick w1) req) (clock (w_tick w1))) as Hsame.
  destruct (Dispatch prov (w_tick w1) req) as [result|x].
  - destruct (quiet_dispatch_verdict op result w1 Hd) as (op' & result' & invalid & Hrun & Hst & Hv).
    rewrite (bind_run _ _ _ _ _ _ Hrun). simpl fst in Hv. rewrite <- Hv in Hsame |- *. simpl fst in Hsame |- *.
    destruct (quiet_settle (set_op_Observation (ds_ExternalRef result') (ds_ObservedState result') op')
      (advance 1 w1) unresolvedExternalEffect
      (if invalid then fail (unresolvedExternalEffect
          (ENew "unsupported provider dispatch outcome; durable reconciliation required"))
       else t ← now; mret (receiptFromOperation (q_ID req)
         (set_op_Observation (ds_ExternalRef result') (ds_ObservedState result') op') t)) op)
      as (w' & Hset & Hi & Hl); [by destruct (SameReservation_ids _ _ Hsame) as [-> _] | done | done |].
    rewrite Hset. do 2 eexists. split; [apply surjective_pairing|].
    edestruct (settled_receipt req) as (Ha & Hs & Hlg).
    rewrite Hs, Hlg, Hl. split; [done|]. split; [|exact Ha].
    by destruct (SameReservation_ids _ _ Hsame) as [<- _].
  - rewrite (bind_run _ _ _ _ _ _ (quiet_transition op op_Unknown w1 ltac:(rewrite Hd; constructor))).
    destruct (quiet_settle (set_op_State op_Unknown (clock (w_tick w1)) op) (advance 1 w1)
      (fun y => unresolvedExternalEffect (EWrap "cannot persist UNKNOWN external operation: " y ""))
      (t ← now; mret (receiptFromOperation (q_ID req) (set_op_State op_Unknown (clock (w_tick w1)) op) t)) op)
      as (w' & Hset & Hi & Hl); [done | done | rewrite Hd; constructor |].
    rewrite Hset. do 2 eexists. split; [apply surjective_pairing|].
    destruct (settled_receipt req (set_op_State op_Unknown (clock (w_tick w1)) op) false ErrDenied w') as (Ha & Hs & Hlg).
    rewrite Hs, Hlg, Hl. split; [done|]. split; [exact Hi | exact Ha].
Qed.

Lemma quiet_accept {A B} (m : M S A) a (f : A -> M S B) (w : World S) :
  accepts m a -> exists n, (m ≫= f) (quiet_env clock) w = f a (quiet_env clock) (advance n w).
Proof. intros Hm. destruct (Hm w) as [n Hn]. exists n. by rewrite (bind_run _ _ _ _ _ _ Hn). Qed.

Lemma accepts_poll : accepts poll tt.
Proof. intros w. eexists. apply quiet_poll. Qed.

Ltac go_on lem :=
  match goal with |- context [mbind ?f ?m (quiet_env clock) ?w] =>
    destruct (quiet_accept m tt f w lem) as [? ->] end.

Lemma quiet_absent req digest (w : World S) :
  accepts (auth req) tt -> accepts (CheckRunEpoch guard (q_RunID req) (q_ExecutionEpoch req)) tt ->
  accepts (CheckRecoveryEpoch guard (q_RecoveryEpoch req) (q_RiskClass req)) tt ->
  items (view (w_state w)) !! q_ID req = None -> idempotency (view (w_state w)) !! q_IdempotencyKey req = None ->
  exists t w', let op := set_op_State op_Dispatched t (NewWithRequestDigest req digest t) in
    items (view (w_state w')) !! op_ID op = Some op /\ w_log w' = w_log w
    /\ execute_absent auth guard prov repo req digest (quiet_env clock) w =
       dispatch_and_settle prov repo req op (quiet_env clock) w'.
Proof.
  intros Ha Hr Hc Hi Hk. unfold execute_absent.
  go_on accepts_poll.
  match goal with |- context [try_else (auth req) ?h ?k _ ?w1] =>
    destruct (Ha w1) as [? Hn2]; erewrite (try_run _ _ _ _ _ _ _ Hn2) end.
  go_on accepts_poll.
  go_on Hr. go_on accepts_poll.
  go_on Hc. go_on accepts_poll.
  erewrite bind_run by apply quiet_now. rewrite !advance_advance. simpl.
  set (t := clock _). set (op := NewWithRequestDigest req digest t).
  assert (ledger_create op (view (w_state w)) = Ok (tt, mkLedger (<[op_ID op := op]> (items (view (w_state w))))
      (<[op_IdempotencyKey op := op_ID op]> (idempotency (view (w_state w)))))) as Hcr.
  { unfold ledger_create. change (op_ID op) with (q_ID req). change (op_IdempotencyKey op) with (q_IdempotencyKey req).
    by rewrite Hi, Hk. }
  match goal with |- context [try_else (CreateContext repo op) ?h ?k _ ?w1] =>
    destruct (quiet_write _ _ w1 tt _ (CreateContext_law op) Hcr) as (s1 & Hv1 & Hrun1);
    rewrite (try_run _ _ _ _ _ _ _ Hrun1) end.
  go_on accepts_poll.
  change (Operation_Transition op op_Dispatched t) with (Ok (set_op_State op_Dispatched t op)). rewrite lift_ok.
  set (op' := set_op_State op_Dispatched t op).
  match goal with |- context [(UpdateContext repo op' ≫= _) _ ?w] => set (w1 := w) end. assert (w_state w1 = s1) as Hw1 by done.
  assert (ledger_update op' (view (w_state w1)) = Ok (tt, mkLedger (<[op_ID op' := op']> (items (view s1))) (idempotency (view s1)))) as Hup.
  { rewrite Hw1. unfold ledger_update. rewrite Hv1. simpl. rewrite lookup_insert_eq.
    assert (SameReservation op op' = true) as -> by by apply SameReservation_spec. reflexivity. }
  destruct (quiet_write _ _ w1 tt _ (UpdateContext_law op') Hup) as (s2 & Hv2 & Hrun2).
  rewrite (bind_run _ _ _ _ _ _ Hrun2).
  go_on accepts_poll.
  eexists t, _. split; [|split; [|reflexivity]]; simpl; [|done].
  by rewrite Hv2; simpl; rewrite lookup_insert_eq.
Qed.

End alone.

(** ** Properties *)

(** C5: whatever other goroutines do to the ledger, among any number of
    concurrent [Service.Execute] calls at most one dispatches a given
    idempotency key to the provider, it dispatches it once, and for one
    operation id. *)
Theorem Execute_at_most_one_dispatch `{Hash} {S} (view : S -> Ledger)
    (auth : Request -> M S unit) (guard : AuthorityGuard S) (prov : Provider) (repo : Repository S)
    `{!RepositoryLaws view repo} `{!forall req, Silent (auth req)}
    `{!forall r n, Silent (CheckRunEpoch guard r n)} `{!forall n k, Silent (CheckRecoveryEpoch guard n k)}
    (calls : list (call S)) h t1 t2 c1 c2 id1 id2 key :
  let svc := mkService (Some auth) (Some guard) (Some prov) (Some repo) in
  concurrently view svc calls h -> calls !! t1 = Some c1 -> calls !! t2 = Some c2 ->
  EffDispatch id1 key ∈ w_log (executed svc c1) -> EffDispatch id2 key ∈ w_log (executed svc c2) ->
  t1 = t2 /\ id1 = id2 /\ w_log (executed svc c1) = [EffDispatch id1 key].
Proof.
  intros svc Hc Ht1 Ht2 D1 D2.
  destruct (concurrent_dispatch view auth guard prov repo calls h t1 c1 id1 key Hc Ht1 D1)
    as (L1 & Q1 & i & s1 & s1' & Hi & C1).
  destruct (concurrent_dispatch view auth guard prov repo calls h t2 c2 id2 key Hc Ht2 D2)
    as (L2 & Q2 & j & s2 & s2' & Hj & C2).
  pose proof (concurrent_positions view auth guard prov repo calls h) as Hp.
  assert (i = j) as <-.
  { destruct (Nat.lt_trichotomy i j) as [Hlt|[Heq|Hlt]]; [exfalso| exact Heq |exfalso];
      eapply Hp; [exact Hc | exact Hi | exact C1 | exact Hj | exact C2 | exact Hlt |
                  exact Hc | exact Hj | exact C2 | exact Hi | exact C1 | exact Hlt]. }
  rewrite Hi in Hj. injection Hj as <- <- <-. rewrite Ht1 in Ht2. injection Ht2 as <-.
  split; [done|]. split; [congruence | done].
Qed.

(** A concrete service over the memory repository, for the examples. *)
Module Example.

Definition clock (n : nat) : time := (1700000000000000000 + Z.of_nat n)%Z.
Definition env : Env MemoryRepository := quiet_env clock.
Definition open_guard {S} : AuthorityGuard S := mkGuard (fun _ _ => mret tt) (fun _ _ => mret tt).
Definition capabilities : gmap string bool := {[ "embedded.debug-reliability" := true ]}.
Definition provider : Provider := mkProvider
  (fun _ _ => Ok (mkDispatchResult DispatchConfirmed "ref-1" "done"))
  (fun _ _ => Ok (mkReconcileResult ReconcileConfirmed "ref-1" "seen")).
Definition service : Service MemoryRepository :=
  mkService (Some (AllowCapabilities_Authorize capabilities)) (Some open_guard) (Some provider)
    (Some MemoryRepository_repository).
Definition request : Request :=
  mkRequest "op-1" "run-1" 1 0 "publish" risk_HighRisk "embedded.debug-reliability" "" "key-1" "alice" zero_time.
Definition first : call MemoryRepository := mkCall env request NewMemoryRepository.
(** The second call starts on what the first one left. *)
Definition second : call MemoryRepository := mkCall env request (w_state (executed service first)).
Definition history : list (option nat * MemoryRepository * MemoryRepository) :=
  (fun p => (Some 0, p.1, p.2)) <$> w_commits (executed service first).

#[export] Instance silent_allow {S} a req : Silent (S := S) (AllowCapabilities_Authorize a req).
Proof. unfold AllowCapabilities_Authorize. apply _. Qed.
#[export] Instance silent_open_run {S} r n : Silent (CheckRunEpoch (S := S) open_guard r n).
Proof. apply _. Qed.
#[export] Instance silent_open_recovery {S} n k : Silent (CheckRecoveryEpoch (S := S) open_guard n k).
Proof. apply _. Qed.

Lemma first_dispatches : w_log (executed service first) = [EffDispatch "op-1" "key-1"].
Proof. vm_compute. reflexivity. Qed.
Lemma second_replays : w_log (executed service second) = [] /\ w_commits (executed service second) = [].
Proof. vm_compute. split; reflexivity. Qed.
Lemma ran : concurrently (fun l => l) service [first; second] history.
Proof.
  split.
  - intros i p q Hp Hq. unfold history in *. revert Hp Hq.
    rewrite !list_lookup_fmap. vm_compute (w_commits _).
    destruct i as [|[|[|[|i]]]]; simpl; intros; simplify_eq; reflexivity.
  - intros p. vm_compute (head _). intros [= <-]. split; simpl; intros; simplify_map_eq.
  - intros s s' Hs. apply list_elem_of_fmap in Hs as (? & [=] & _).
  - intros t s s' Hs. apply list_elem_of_fmap in Hs as (? & [= -> _ _] & _). simpl. lia.
  - intros [|[|t]] c; simpl; intros; simplify_eq.
    + vm_compute. reflexivity.
    + vm_compute. reflexivity.
Qed.
End Example.

Lemma Execute_at_most_one_dispatch_witness :
  (0 = 0)%nat /\ "op-1" = "op-1"
  /\ w_log (executed Example.service Example.first) = [EffDispatch "op-1" "key-1"].
Proof.
  apply (Execute_at_most_one_dispatch (fun l => l) (AllowCapabilities_Authorize Example.capabilities)
    Example.open_guard Example.provider MemoryRepository_repository [Example.first; Example.second] Example.history
    0 0 Example.first Example.first "op-1" "op-1" "key-1" Example.ran eq_refl eq_refl);
    (change (EffDispatch "op-1" "key-1" ∈ w_log (executed Example.service Example.first));
     rewrite Example.first_dispatches; by left).
Defined.

(** A call of [Service.Execute], whatever interferes and however its
    context behaves, calls the provider at most once, never without having
    moved its own reservation from PLANNED to DISPATCHED, changes the ledger
    only forwards, and every error it returns after the provider was called
    says that the external effect is unresolved. *)
Theorem Execute_effects `{Hash} {S} (view : S -> Ledger)
    (auth : Request -> M S unit) (guard : AuthorityGuard S) (prov : Provider) (repo : Repository S)
    `{!RepositoryLaws view repo} `{!forall req, Silent (auth req)}
    `{!forall r n, Silent (CheckRunEpoch guard r n)} `{!forall n k, Silent (CheckRecoveryEpoch guard n k)}
    (en : Env S) (req : Request) (s : S) :
  let '(r, w) := Service_Execute (mkService (Some auth) (Some guard) (Some prov) (Some repo)) req en (start s) in
  Forall (fun p => ledger_evolves (view p.1) (view p.2)) (w_commits w)
  /\ (w_log w = [] \/
      w_log w = [EffDispatch (q_ID req) (q_IdempotencyKey req)]
      /\ Exists (fun p => claims (q_ID req) (q_IdempotencyKey req) (view p.1) (view p.2)) (w_commits w)
      /\ forall x, r = Err x -> errors_is x ErrExternalEffectUnresolved = true).
Proof.
  pose proof (executed_post view auth guard prov repo (mkCall en req s)) as Hp. unfold executed in Hp. simpl in Hp.
  destruct (Service_Execute _ req en (start s)) as [r w]. exact Hp.
Qed.

Lemma Execute_effects_witness :
  let '(r, w) := Service_Execute Example.service Example.request Example.env (start NewMemoryRepository) in
  is_ok r = true /\ w_log w = [EffDispatch "op-1" "key-1"] /\
  Forall (fun p => ledger_evolves p.1 p.2) (w_commits w).
Proof.
  pose proof (Execute_effects (fun l => l) (AllowCapabilities_Authorize Example.capabilities)
    Example.open_guard Example.provider MemoryRepository_repository Example.env Example.request NewMemoryRepository) as Hp.
  assert (is_ok (fst (Service_Execute Example.service Example.request Example.env (start NewMemoryRepository))) = true
    /\ w_log (snd (Service_Execute Example.service Example.request Example.env (start NewMemoryRepository))) =
       [EffDispatch "op-1" "key-1"]) as [Hr Hl] by (split; vm_compute; reflexivity).
  unfold Example.service in *.
  destruct (Service_Execute _ Example.request Example.env (start NewMemoryRepository)) as [r w].
  split; [exact Hr|]. split; [exact Hl|]. exact (proj1 Hp).
Defined.

(** A call of [Service.Execute] that runs alone on an unused key and id,
    admitted by its collaborators, dispatches once and leaves the operation
    in the ledger as the provider answered: CONFIRMED or UNKNOWN with the
    provider's references, UNKNOWN after a provider error, and UNKNOWN with no
    reference and a tagged error after an outcome the service does not know. *)
Theorem Execute_settles `{Hash} {S} (view : S -> Ledger) (clock : nat -> time)
    (auth : Request -> M S unit) (guard : AuthorityGuard S) (prov : Provider) (repo : Repository S)
    `{!RepositoryLaws view repo} (req : Request) (s : S) :
  accepts clock (auth req) tt -> accepts clock (CheckRunEpoch guard (q_RunID req) (q_ExecutionEpoch req)) tt ->
  accepts clock (CheckRecoveryEpoch guard (q_RecoveryEpoch req) (q_RiskClass req)) tt ->
  q_IdempotencyKey req <> "" -> items (view s) !! q_ID req = None -> idempotency (view s) !! q_IdempotencyKey req = None ->
  exists digest tick t0 t, requestDigest req = Ok digest /\
    let op := set_op_State op_Dispatched t0 (NewWithRequestDigest req digest t0) in
    let settled := settled_dispatch op (Dispatch prov tick req) t in
    let '(r, w) := Service_Execute (mkService (Some auth) (Some guard) (Some prov) (Some repo)) req
                     (quiet_env clock) (start s) in
    w_log w = [EffDispatch (q_ID req) (q_IdempotencyKey req)]
    /\ items (view (w_state w)) !! q_ID req = Some settled.1
    /\ settled_answer req settled r.
Proof.
  intros Ha Hr Hc Hk Hi Hx. destruct (Digest_ok (requestIdentity_json req)) as (digest & Hd & _).
  pose proof (quiet_find view clock auth guard prov repo req digest (start s) Hk Hd) as Hrun0.
  unfold ledger_get_by_key in Hrun0. change (w_state (start s)) with s in Hrun0. rewrite Hx in Hrun0.
  change (errors_is ErrOperationAbsent ErrOperationAbsent) with true in Hrun0. cbv iota in Hrun0.
  destruct (quiet_absent view clock auth guard prov repo req digest (advance 4 (start s)) Ha Hr Hc Hi Hx)
    as (t0 & w1 & Hop & Hl & Hrun).
  destruct (quiet_dispatch view clock prov repo req _ w1 Hop eq_refl) as (tick & t & r & w' & Hrun' & Hl' & Hi' & Ha').
  exists digest, tick, t0, t. split; [exact Hd|]. cbv zeta. rewrite Hrun0, Hrun, Hrun', Hl', Hl. done.
Qed.

Lemma Execute_settles_witness : exists r w,
  Service_Execute Example.service Example.request Example.env (start NewMemoryRepository) = (r, w)
  /\ is_ok r = true /\ op_State <$> items (w_state w) !! "op-1" = Some op_Confirmed.
Proof.
  assert (Hyes : forall A (a : A), accepts (S := MemoryRepository) Example.clock (mret a) a).
  { intros A a w. exists 0. unfold advance. rewrite Nat.add_0_r. by destruct w. }
  destruct (Execute_settles (fun l => l) Example.clock (AllowCapabilities_Authorize Example.capabilities)
    Example.open_guard Example.provider MemoryRepository_repository Example.request NewMemoryRepository
    (Hyes _ tt) (Hyes _ tt) (Hyes _ tt) ltac:(discriminate) eq_refl eq_refl)
    as (d & tick & t0 & t & _ & Hrun).
  unfold Example.env, Example.service.
  destruct (Service_Execute _ Example.request _ (start NewMemoryRepository)) as [r w].
  destruct Hrun as (_ & Hi & t' & ->). exists (Ok (receiptFromOperation (q_ID Example.request)
    (settled_dispatch (set_op_State op_Dispatched t0 (NewWithRequestDigest Example.request d t0))
       (Dispatch Example.provider tick Example.request) t).1 t')), w.
  split; [reflexivity|]. split; [reflexivity|]. change "op-1" with (q_ID Example.request). rewrite Hi. reflexivity.
Defined.

(** Asking again with a used idempotency key, alone, performs no external
    effect and no write: the same request gets the receipt of the operation
    as the ledger has it, a different request a conflict, and an operation
    that was abandoned or marked for retry is denied, never dispatched again. *)
Theorem Execute_replays `{Hash} {S} (view : S -> Ledger) (clock : nat -> time)
    (auth : Request -> M S unit) (guard : AuthorityGuard S) (prov : Provider) (repo : Repository S)
    `{!RepositoryLaws view repo} (req : Request) (s : S) digest id existing :
  q_IdempotencyKey req <> "" -> requestDigest req = Ok digest ->
  idempotency (view s) !! q_IdempotencyKey req = Some id -> items (view s) !! id = Some existing ->
  exists t n, Service_Execute (mkService (Some auth) (Some guard) (Some prov) (Some repo)) req
                (quiet_env clock) (start s)
              = (replay_answer req digest existing t, advance n (start s)).
Proof.
  intros Hk Hd Hx Hi. pose proof (quiet_find view clock auth guard prov repo req digest (start s) Hk Hd) as Hrun.
  unfold ledger_get_by_key in Hrun. change (w_state (start s)) with s in Hrun. rewrite Hx, Hi in Hrun.
  cbn [of_option] in Hrun. rewrite Hrun.
  destruct (decide (op_RequestDigest existing <> digest)) as [Hne|He].
  - exists 0%Z, 4. unfold replay_answer. by destruct (decide (op_RequestDigest existing <> digest)).
  - apply dec_stable in He as <-.
    destruct (quiet_replay clock req existing (advance 4 (start s))) as [Hr [n Hw]].
    exists (clock (w_tick (advance 4 (start s)))), (4 + n).
    rewrite (surjective_pairing (replay _ _ _ _)), Hr, Hw. by rewrite advance_advance.
Qed.

Lemma Execute_replays_witness : exists t n r, r = Ok (mkReceipt "receipt:op-1:CONFIRMED" "op-1" "op-1" "CONFIRMED" "ref-1" "done" t)
  /\ Service_Execute Example.service Example.request Example.env (start (call_start Example.second))
     = (r, advance n (start (call_start Example.second))).
Proof.
  destruct (requestDigest Example.request) as [d|] eqn:Hd; [|discriminate Hd].
  set (s := call_start Example.second).
  destruct (items s !! "op-1") as [existing|] eqn:Hi; [|vm_compute in Hi; discriminate Hi].
  destruct (Execute_replays (fun l => l) Example.clock (AllowCapabilities_Authorize Example.capabilities)
    Example.open_guard Example.provider MemoryRepository_repository Example.request s d "op-1" existing
    ltac:(discriminate) Hd ltac:(vm_compute; reflexivity) Hi) as (t & n & Hrun).
  exists t, n, (replay_answer Example.request d existing t). split; [|exact Hrun].
  vm_compute in Hd. injection Hd as <-. vm_compute in Hi. injection Hi as <-. vm_compute. reflexivity.
Defined.

(** A call of [Service.Reconcile], whatever interferes, never dispatches:
    it makes at most one observation, changes the ledger only forwards, never
    turns an operation into CONFIRMED unless its risk class is OBSERVE, and
    tags every error after the observation as unresolved. *)
Theorem Reconcile_effects `{Hash} {S} (view : S -> Ledger)
    (auth : option (Request -> M S unit)) (guard : option (AuthorityGuard S)) (prov : Provider) (repo : Repository S)
    `{!RepositoryLaws view repo} (en : Env S) (operationID : string) (s : S) :
  let '(r, w) := Service_Reconcile (mkService auth guard (Some prov) (Some repo)) operationID en (start s) in
  Forall (fun p => ledger_evolves (view p.1) (view p.2)
                   /\ confirms_only_observations (view p.1) (view p.2)) (w_commits w)
  /\ (w_log w = [] \/ exists id, w_log w = [EffReconcile id]
      /\ forall x, r = Err x -> errors_is x ErrExternalEffectUnresolved = true).
Proof.
  assert (forall op s s', observation_or_unconfirmed op -> ledger_update op (view s) = Ok (tt, view s') ->
    touches s s' -> reconcile_evolves (view s) (view s')) as Hup.
  { intros op s1 s2 Hf Hu _. split; [by eapply ledger_update_evolves|].
    apply ledger_update_inv in Hu as (o & _ & _ & _ & ->). intros id op'. simpl.
    destruct (decide (id = op_ID op)) as [->|].
    - rewrite lookup_insert_eq. intros [= <-] Hc. left. by apply Hf.
    - rewrite lookup_insert_ne by done. auto. }
  pose proof (hoare_Reconcile view en repo (fun s s' => reconcile_evolves (view s) (view s')) observation_or_unconfirmed
    Hup auth guard prov operationID (fun o Ho => Ho) (start s)) as Hh.
  destruct (Service_Reconcile _ operationID en (start s)) as [r w].
  destruct Hh as [Hw Hor]; [by split; [constructor|]|]. split; [exact Hw | exact Hor].
Qed.

Lemma Reconcile_effects_witness :
  let lost := mkOperation "op-1" "run-1" 1 0 "publish" risk_HighRisk "c" "key-1" "" op_Unknown 0 "" "" in
  let s := mkLedger {[ "op-1" := lost ]} {[ "key-1" := "op-1" ]} in
  let w := (Service_Reconcile Example.service "op-1" Example.env (start s)).2 in
  w_log w = [EffReconcile "op-1"] /\ op_State <$> items (w_state w) !! "op-1" = Some op_Manual
  /\ Forall (fun p => confirms_only_observations p.1 p.2) (w_commits w).
Proof.
  intros lost s w. split; [vm_compute; reflexivity|]. split; [vm_compute; reflexivity|].
  pose proof (Reconcile_effects (fun l => l) (sv_authorizer Example.service) (sv_guard Example.service)
    Example.provider MemoryRepository_repository Example.env "op-1" s) as Hp.
  unfold w, Example.service in *. simpl sv_authorizer in Hp. simpl sv_guard in Hp.
  destruct (Service_Reconcile _ "op-1" Example.env (start s)) as [r w']. simpl snd.
  eapply Forall_impl; [exact (proj1 Hp)|]. intros p Hq. exact (proj2 Hq).
Defined.

(** [Operation.Transition] implements the operation state machine and
    nothing else: it succeeds exactly on the machine's edges, changes only the
    state and the time, strictly advances the rank (so no history of an
    operation has more than four transitions), and cannot enter
    SAFE_TO_RETRY or ABANDONED_RECONCILED. *)
Theorem Operation_Transition_machine o to t :
  (is_ok (Operation_Transition o to t) = true <-> op_step (op_RiskClass o) (op_State o) to)
  /\ forall o', Operation_Transition o to t = Ok o' ->
       o' = set_op_State to t o /\ SameReservation o o' = true
       /\ (op_rank (op_State o) < op_rank (op_State o') <= 4)%nat
       /\ op_State o' <> op_SafeToRetry /\ op_State o' <> op_AbandonedReconciled.
Proof.
  split.
  - unfold Operation_Transition. rewrite <- op_transition_valid_spec. by destruct (op_transition_valid o to).
  - intros o' (-> & Hst)%Operation_Transition_inv.
    pose proof (op_step_rank _ _ _ Hst) as Hr. split_and!; [done | by apply SameReservation_spec | done | | |].
    + simpl. unfold op_rank. repeat case_decide; lia.
    + simpl. by destruct Hst.
    + simpl. by destruct Hst.
Qed.

Lemma Operation_Transition_machine_witness :
  let o := NewWithRequestDigest Example.request "" zero_time in
  (op_rank (op_State o) < op_rank (op_State (set_op_State op_Dispatched 5 o)) <= 4)%nat.
Proof.
  intros o. destruct (Operation_Transition_machine o op_Dispatched 5) as [_ Hm].
  destruct (Hm (set_op_State op_Dispatched 5 o) eq_refl) as (_ & _ & Hr & _). exact Hr.
Defined.

(** A request whose context is already done reaches nobody: [Execute],
    [Reconcile] and [GetContext] return the context's error and leave the
    ledger, its history and the outside world untouched. *)
Theorem Action_cancelled `{Hash} {S} (svc : Service S) (en : Env S) (w : World S) x auth guard prov repo req id :
  svc = mkService (Some auth) (Some guard) (Some prov) (Some repo) ->
  env_ctx en (w_tick w) = Some x -> q_IdempotencyKey req <> "" ->
  Service_Execute svc req en w = (Err x, advance 1 w)
  /\ Service_Reconcile svc id en w = (Err x, advance 1 w)
  /\ Service_GetContext svc id en w = (Err x, advance 1 w).
Proof.
  intros -> Hx Hk.
  assert (poll en w = (Err x, advance 1 w)) as Hp.
  { unfold poll, advance. rewrite Hx. by rewrite Nat.add_1_r. }
  unfold Service_Execute, Service_Reconcile, Service_GetContext; simpl. rewrite decide_False by done.
  by rewrite !(bind_run _ _ _ _ _ _ Hp).
Qed.

Lemma Action_cancelled_witness :
  let en := mkEnv (S := MemoryRepository) (fun _ => Some ctx_Canceled) (fun _ => None) (fun _ s => s) Example.clock in
  Service_Execute Example.service Example.request en (start NewMemoryRepository)
  = (Err ctx_Canceled, advance 1 (start NewMemoryRepository)).
Proof.
  intros en. apply (Action_cancelled Example.service en (start NewMemoryRepository) ctx_Canceled
    (AllowCapabilities_Authorize Example.capabilities) Example.open_guard Example.provider
    MemoryRepository_repository Example.request "" eq_refl eq_refl). discriminate.
Defined.
