(* ===== verification/Outbox.v ===== *)
(** [internal/outbox]: delivery of queued messages by leased workers.

    [DispatchBatch] over any repository: the repository's three methods are a
    record of parameters (the only implementation is SQL), handlers are
    arbitrary calls.  The theorems are about what the dispatcher itself
    decides: when a handler runs, what becomes of a message, how long a retry
    waits, and that the summary accounts for every claimed message. *)
From S2P Require Import Prelude Effects Canonical Json Core Verification Binding Action.

(** ** dispatcher.go: data *)

Definition ob_Pending : string := "PENDING".
Definition ob_Leased : string := "LEASED".
Definition ob_Dispatched : string := "DISPATCHED".
Definition ob_DeadLetter : string := "DEAD_LETTER".

Definition ErrLeaseLost : goerr := ESentinel "outbox.ErrLeaseLost" "outbox lease lost".
Definition ErrNoHandler : goerr := ESentinel "outbox.ErrNoHandler" "outbox topic has no handler".
Definition ErrRiskClass : goerr :=
  ESentinel "outbox.ErrRiskClass" "outbox risk classification is missing or mismatched".
Definition ErrRecoveryBlocked : goerr :=
  ESentinel "outbox.ErrRecoveryBlocked" "outbox dispatch blocked by recovery authority".
Definition ErrOutcomeUnknown : goerr :=
  ESentinel "outbox.ErrOutcomeUnknown" "outbox recipient outcome requires reconciliation".

Record Message := mkMessage {
  m_ID : Z; m_Key : string; m_Topic : string; m_AggregateType : string; m_AggregateID : string;
  m_Payload : string; m_RiskClass : string; m_State : string; m_AttemptCount : N;
  m_LeaseOwner : string; m_LeaseUntil : time; m_LeaseRecoveryEpoch : N; m_NextAttemptAt : time;
  m_LastError : string; m_CreatedAt : time; m_DispatchedAt : time
}.

Record Lease := mkLease { l_ID : Z; l_Owner : string; l_Attempt : N }.
#[export] Instance Lease_eq_dec : EqDecision Lease.
Proof. solve_decision. Defined.
Definition Message_Lease (m : Message) : Lease := mkLease (m_ID m) (m_LeaseOwner m) (m_AttemptCount m).
Definition Lease_Valid (l : Lease) : bool :=
  bool_decide (0 < l_ID l)%Z && bool_decide (l_Owner l <> "") && bool_decide (0 < l_Attempt l)%N.

(** Durations are nanoseconds. *)
Definition Millisecond : Z := 1000000.
Definition Second : Z := 1000 * Millisecond.
Definition Minute : Z := 60 * Second.
Definition Hour : Z := 60 * Minute.

Record Resolution := mkResolution { rs_State : string; rs_RetryAfter : Z; rs_LastError : string }.

Definition Resolution_Validate (r : Resolution) : outcome unit :=
  if decide (rs_State r = ob_Dispatched \/ rs_State r = ob_DeadLetter) then
    if decide (rs_RetryAfter r <> 0)%Z then Err (ENew "terminal resolution cannot carry retry delay") else Ok tt
  else if decide (rs_State r = ob_Pending) then
    if decide (rs_RetryAfter r <= 0 \/ 24 * Hour < rs_RetryAfter r)%Z
    then Err (ENew "retry delay must be within (0,24h]") else Ok tt
  else Err (ENew "invalid outbox resolution state").

(** ** risk.go *)

Definition ValidRisk (risk : string) : bool :=
  bool_decide (risk = risk_Observe \/ risk = risk_ControlledMutation \/ risk = risk_HighRisk).

Definition required_risk (topic : string) : string :=
  if decide (topic = "run.started") then risk_ControlledMutation
  else if decide (topic = "work.created") then risk_Observe else "".

Definition Classify (topic declared : string) : outcome string :=
  let required := required_risk topic in
  if decide (required <> "") then
    if decide (declared <> "" /\ declared <> required) then Err ErrRiskClass else Ok required
  else if decide (topic = "" \/ ValidRisk declared = false) then Err ErrRiskClass
  else Ok declared.

(** ** Retry delays *)

(** [for i := 1; i < attempt && base < maximum; i++ { ... }] on [int64]; the
    loop doubles a positive delay, so 64 turns are enough ([retry_loop_fuel]). *)
Fixpoint retry_loop (fuel : nat) (base maximum : Z) (i attempt : N) : Z :=
  let done := if decide (maximum < base)%Z then maximum else base in
  match fuel with
  | O => done
  | S n =>
    if decide (i < attempt)%N then
      if decide (base < maximum)%Z then
        if decide (Z.quot maximum 2 < base)%Z then maximum
        else retry_loop n (base * 2) maximum (i + 1) attempt
      else done
    else done
  end.
Definition retryDelay (base maximum : Z) (attempt : N) : Z := retry_loop 64 base maximum 1 attempt.

(** ** DispatchBatch *)

Section dispatcher.
Context {St : Type}.

Record Repository := mkRepository {
  Claim : string -> Z -> Z -> M St (list Message);
  Dispatch : Lease -> string -> (Message -> M St Resolution) -> M St string;
  MarkDeadLetter : Lease -> string -> M St unit
}.

(** [Handler]: [None] is a nil interface. *)
Record Registration := mkRegistration { g_RiskClass : string; g_Handler : option (Message -> M St unit) }.

(** [Handlers] is a map; its entries are listed in the order one pass of
    [range] happens to visit them. *)
Record Dispatcher := mkDispatcher {
  di_Repository : option Repository; di_Handlers : list (string * Registration);
  di_LeaseDuration : Z; di_HandlerTimeout : Z; di_RetryDelay : Z; di_MaxRetryDelay : Z; di_MaxAttempts : N
}.

Record Summary := mkSummary {
  su_Claimed : nat; su_Dispatched : nat; su_Retried : nat; su_DeadLettered : nat; su_Deferred : nat
}.
Definition add_Dispatched (s : Summary) : Summary :=
  mkSummary (su_Claimed s) (S (su_Dispatched s)) (su_Retried s) (su_DeadLettered s) (su_Deferred s).
Definition add_Retried (s : Summary) : Summary :=
  mkSummary (su_Claimed s) (su_Dispatched s) (S (su_Retried s)) (su_DeadLettered s) (su_Deferred s).
Definition add_DeadLettered (s : Summary) : Summary :=
  mkSummary (su_Claimed s) (su_Dispatched s) (su_Retried s) (S (su_DeadLettered s)) (su_Deferred s).
Definition add_Deferred (s : Summary) : Summary :=
  mkSummary (su_Claimed s) (su_Dispatched s) (su_Retried s) (su_DeadLettered s) (S (su_Deferred s)).

Fixpoint handler_for (topic : string) (l : list (string * Registration)) : option Registration :=
  match l with
  | [] => None
  | (t, g) :: r => if decide (t = topic) then Some g else handler_for topic r
  end.

Fixpoint check_handlers (l : list (string * Registration)) : outcome unit :=
  match l with
  | [] => Ok tt
  | (topic, entry) :: r =>
    if decide (topic = "") then Err (ENew "handler and topic are required") else
    match g_Handler entry with
    | None => Err (ENew "handler and topic are required")
    | Some _ =>
      if is_ok (Classify topic (g_RiskClass entry)) && ValidRisk (g_RiskClass entry)
      then check_handlers r else Err ErrRiskClass
    end
  end.

(** The configured durations with their defaults. *)
Record Limits := mkLimits { li_lease : Z; li_timeout : Z; li_delay : Z; li_maxDelay : Z; li_maxAttempts : N }.
Definition limits (d : Dispatcher) : Limits :=
  let lease := if decide (di_LeaseDuration d = 0%Z) then (30 * Second)%Z else di_LeaseDuration d in
  let timeout := if decide (di_HandlerTimeout d = 0%Z) then Z.quot lease 2 else di_HandlerTimeout d in
  let delay := if decide (di_RetryDelay d = 0%Z) then (5 * Second)%Z else di_RetryDelay d in
  let maxDelay := if decide (di_MaxRetryDelay d = 0%Z) then Minute else di_MaxRetryDelay d in
  let maxAttempts := if decide (di_MaxAttempts d = 0%N) then 5%N else di_MaxAttempts d in
  mkLimits lease timeout delay maxDelay maxAttempts.

Definition limits_ok (x : Limits) : bool :=
  negb (bool_decide (li_lease x < Millisecond \/ 24 * Hour < li_lease x \/ li_timeout x <= 0
    \/ li_lease x <= li_timeout x \/ li_delay x <= 0 \/ li_maxDelay x < li_delay x \/ 24 * Hour < li_maxDelay x)%Z).

(** The callback handed to [Dispatch]. *)
Definition deliver (x : Limits) (message : Message) (handle : Message -> M St unit) (current : Message) : M St Resolution :=
  if decide (m_Topic current <> m_Topic message) then mret (mkResolution ob_DeadLetter 0 (error_text ErrRiskClass)) else
  if decide (li_maxAttempts x < m_AttemptCount current)%N
  then mret (mkResolution ob_DeadLetter 0 "attempt budget exhausted") else
  handleErr ← observe (emit (EffHandle (m_Key current)) ;; handle current);
  mret match handleErr with
       | Ok _ => mkResolution ob_Dispatched 0 ""
       | Err e =>
         if errors_is e ErrOutcomeUnknown then mkResolution ob_DeadLetter 0 (error_text ErrOutcomeUnknown)
         else if decide (li_maxAttempts x <= m_AttemptCount current)%N then mkResolution ob_DeadLetter 0 (error_text e)
         else mkResolution ob_Pending (retryDelay (li_delay x) (li_maxDelay x) (m_AttemptCount current)) (error_text e)
       end.

(** The result of a batch: the summary is returned with the error. *)
Definition batch_result : Type := Summary * option goerr.

Definition stop (s : Summary) (x : goerr) : M St batch_result := mret (s, Some x).

Fixpoint batch_loop (repo : Repository) (handlers : list (string * Registration)) (x : Limits)
    (messages : list Message) (s : Summary) : M St batch_result :=
  match messages with
  | [] => mret (s, None)
  | message :: r =>
    try_else poll (stop s) (fun _ =>
    match handler_for (m_Topic message) handlers with
    | None =>
      try_else (MarkDeadLetter repo (Message_Lease message) (error_text ErrNoHandler))
        (fun e => if errors_is e ErrLeaseLost then batch_loop repo handlers x r (add_Deferred s) else stop s e)
        (fun _ => batch_loop repo handlers x r (add_DeadLettered s))
    | Some entry =>
      let handle := default (fun _ => mret tt) (g_Handler entry) in
      try_else (detached (Dispatch repo (Message_Lease message) (g_RiskClass entry) (deliver x message handle)))
        (fun e => if errors_is e ErrOutcomeUnknown then stop s e
                  else if errors_is e ErrLeaseLost || errors_is e ErrRecoveryBlocked || errors_is e ErrRiskClass
                  then batch_loop repo handlers x r (add_Deferred s) else stop s e)
        (fun state =>
           if decide (state = ob_Dispatched) then batch_loop repo handlers x r (add_Dispatched s)
           else if decide (state = ob_Pending) then batch_loop repo handlers x r (add_Retried s)
           else if decide (state = ob_DeadLetter) then batch_loop repo handlers x r (add_DeadLettered s)
           else stop s (ENew "repository returned invalid settled state"))
    end)
  end.

Definition no_summary : Summary := mkSummary 0 0 0 0 0.

Definition DispatchBatch (d : Dispatcher) (workerID : string) (limit : Z) : M St batch_result :=
  match di_Repository d with
  | None => stop no_summary (ENew "outbox repository is required")
  | Some repo =>
    if decide (workerID = "" \/ limit <= 0 \/ 1000 < limit)%Z
    then stop no_summary (ENew "worker and claim limit in [1,1000] are required") else
    let x := limits d in
    if negb (limits_ok x) then stop no_summary (ENew "invalid outbox lease, timeout or retry bounds") else
    match check_handlers (di_Handlers d) with
    | Err e => stop no_summary e
    | Ok _ =>
      try_else poll (stop no_summary) (fun _ =>
      try_else (Claim repo workerID limit (li_lease x)) (stop no_summary) (fun messages =>
      batch_loop repo (di_Handlers d) x messages (mkSummary (length messages) 0 0 0 0)))
    end
  end.

End dispatcher.
Arguments Repository : clear implicits.
Arguments Registration : clear implicits.
Arguments Dispatcher : clear implicits.

(** ** Retry delays *)

Lemma retry_loop_correct fuel b m i attempt : (0 < b <= m)%Z -> (m < b * 2 ^ Z.of_nat fuel)%Z ->
  retry_loop fuel b m i attempt = Z.min m (b * 2 ^ Z.of_N (attempt - i)).
Proof.
  revert b i. induction fuel as [|n IH]; intros b i Hb Hf; cbn [retry_loop]; [simpl in Hf; lia|].
  rewrite !(decide_False (P := (m < b)%Z)) by lia.
  destruct (decide (i < attempt)%N) as [Hi|Hi].
  2: { replace (attempt - i)%N with 0%N by lia. simpl. lia. }
  assert (b * 2 ^ Z.of_N (attempt - i) = b * 2 * 2 ^ Z.of_N (attempt - (i + 1)))%Z as Hpow.
  { replace (attempt - i)%N with (N.succ (attempt - (i + 1))) by lia. rewrite N2Z.inj_succ, Z.pow_succ_r by lia. lia. }
  assert (1 <= 2 ^ Z.of_N (attempt - (i + 1)))%Z as Hone by (apply (Z.pow_le_mono_r 2 0); lia).
  assert (m = 2 * Z.quot m 2 + Z.rem m 2 /\ 0 <= Z.rem m 2 < 2)%Z as [Hq Hr]
    by (split; [apply Z.quot_rem'|]; apply Z.rem_bound_pos; lia).
  rewrite Hpow. case_decide as Hlt; [|nia]. case_decide as Hhalf; [nia|].
  apply IH; [lia|]. rewrite Nat2Z.inj_succ, Z.pow_succ_r in Hf by lia. lia.
Qed.

Lemma retry_loop_min k base maximum a : (0 < base <= maximum)%Z -> (maximum < 2 ^ 63)%Z ->
  retry_loop (64 + k) base maximum 1 a = Z.min maximum (base * 2 ^ Z.of_N (a - 1)).
Proof.
  intros Hb Hm. apply retry_loop_correct; [done|]. rewrite Nat2Z.inj_add, Z.pow_add_r by lia.
  assert (1 <= 2 ^ Z.of_nat k)%Z by (apply (Z.pow_le_mono_r 2 0); lia).
  change (2 ^ Z.of_nat 64)%Z with (2 * 2 ^ 63)%Z. nia.
Qed.
Lemma retryDelay_value base maximum a : (0 < base <= maximum)%Z -> (maximum < 2 ^ 63)%Z ->
  retryDelay base maximum a = Z.min maximum (base * 2 ^ Z.of_N (a - 1)).
Proof. apply (retry_loop_min 0). Qed.
Lemma retryDelay_bounds base maximum a : (0 < base <= maximum)%Z -> (maximum < 2 ^ 63)%Z ->
  (base <= retryDelay base maximum a <= maximum)%Z.
Proof.
  intros Hb Hm. rewrite retryDelay_value by done.
  assert (1 <= 2 ^ Z.of_N (a - 1))%Z by (apply (Z.pow_le_mono_r 2 0); lia). nia.
Qed.

(** A retry waits the base delay, doubled for every attempt before this one
    and capped: always positive and within the cap, whatever the attempt
    count; the loop ends within 64 turns and no turn leaves the 64-bit range. *)
Theorem retryDelay_correct base maximum attempt : (0 < base <= maximum)%Z -> (maximum < 2 ^ 63)%Z ->
  retryDelay base maximum attempt = Z.min maximum (base * 2 ^ Z.of_N (attempt - 1))
  /\ (base <= retryDelay base maximum attempt <= maximum)%Z
  /\ (forall k, retry_loop (64 + k) base maximum 1 attempt = retryDelay base maximum attempt)
  /\ (forall attempt', (attempt <= attempt')%N -> (retryDelay base maximum attempt <= retryDelay base maximum attempt')%Z).
Proof.
  intros Hb Hm. split_and!; try (by apply retryDelay_bounds).
  - by apply retryDelay_value.
  - intros k. by rewrite retry_loop_min, retryDelay_value.
  - intros a' Ha. rewrite !retryDelay_value by done.
    assert (2 ^ Z.of_N (attempt - 1) <= 2 ^ Z.of_N (a' - 1))%Z by (apply Z.pow_le_mono_r; lia). nia.
Qed.

Lemma retryDelay_correct_witness :
  retryDelay (5 * Second) Minute 3 = (20 * Second)%Z /\ retryDelay (5 * Second) Minute 18446744073709551615 = Minute.
Proof.
  split; [|reflexivity].
  rewrite (proj1 (retryDelay_correct (5 * Second) Minute 3 ltac:(vm_compute; split; congruence) ltac:(reflexivity))).
  reflexivity.
Defined.

(** ** Classification *)

(** A classification never weakens a risk: whatever a message or a handler
    declares, the two known topics keep the class the platform gives them, any
    other class is refused, and every class that is returned is a valid one. *)
Theorem Classify_no_downgrade topic declared risk : Classify topic declared = Ok risk ->
  ValidRisk risk = true /\ topic <> "" /\ (declared = "" \/ declared = risk)
  /\ (required_risk topic <> "" -> risk = required_risk topic)
  /\ Classify topic risk = Ok risk /\ (forall d r, Classify topic d = Ok r -> required_risk topic <> "" -> r = risk).
Proof.
  unfold Classify. intros Hc. destruct (decide (required_risk topic <> "")) as [Hr|Hr].
  - case_decide as Hd; [done|]. injection Hc as <-.
    assert (ValidRisk (required_risk topic) = true /\ topic <> "") as [??]
      by (unfold required_risk in *; repeat case_decide; subst; try done).
    split_and!; try done.
    + destruct (decide (declared = "")); [by left|]. right. apply dec_stable. tauto.
    + rewrite decide_False; [done|]. intros [_ []]. done.
    + intros d r. case_decide; [done|]. congruence.
  - case_decide as Hd; [done|]. injection Hc as <-. apply Decidable.not_or in Hd as [Ht Hv].
    apply not_false_iff_true in Hv. split_and!; auto; try done.
    rewrite decide_False; [done|]. intros [|]; congruence.
Qed.

Lemma Classify_no_downgrade_witness :
  ValidRisk "CONTROLLED_MUTATION" = true /\ Classify "run.started" "OBSERVE" = Err ErrRiskClass.
Proof.
  split; [|reflexivity].
  exact (proj1 (Classify_no_downgrade "run.started" "" "CONTROLLED_MUTATION" eq_refl)).
Defined.

(** ** Delivery and batches *)

Section batches.
Context {St : Type}.
Implicit Types (w : World St).

(** What becomes of a message after its handler answered. *)
Definition verdict (x : Limits) (current : Message) (answer : outcome unit) : Resolution :=
  match answer with
  | Ok _ => mkResolution ob_Dispatched 0 ""
  | Err e =>
    if errors_is e ErrOutcomeUnknown then mkResolution ob_DeadLetter 0 (error_text ErrOutcomeUnknown)
    else if decide (li_maxAttempts x <= m_AttemptCount current)%N then mkResolution ob_DeadLetter 0 (error_text e)
    else mkResolution ob_Pending (retryDelay (li_delay x) (li_maxDelay x) (m_AttemptCount current)) (error_text e)
  end.

Lemma limits_ok_bounds x : limits_ok x = true ->
  (0 < li_delay x <= li_maxDelay x)%Z /\ (li_maxDelay x <= 24 * Hour)%Z /\ (0 < li_timeout x < li_lease x)%Z
  /\ (li_lease x <= 24 * Hour)%Z.
Proof. unfold limits_ok. rewrite negb_true_iff, bool_decide_eq_false. intros Hx. lia. Qed.

Lemma verdict_valid x current answer : limits_ok x = true -> Resolution_Validate (verdict x current answer) = Ok tt.
Proof.
  intros (Hd & Hm & _)%limits_ok_bounds.
  assert (retryDelay (li_delay x) (li_maxDelay x) (m_AttemptCount current) <= li_maxDelay x
          /\ li_delay x <= retryDelay (li_delay x) (li_maxDelay x) (m_AttemptCount current))%Z as [? ?].
  { destruct (retryDelay_bounds (li_delay x) (li_maxDelay x) (m_AttemptCount current)); [done | | lia].
    unfold Hour, Minute, Second, Millisecond in Hm. lia. }
  destruct answer as [|e]; [done|]. simpl. case_match; [done|]. case_decide; [done|].
  unfold Resolution_Validate. cbn [rs_State rs_RetryAfter]. rewrite decide_False by (by intros [|]).
  rewrite decide_True, decide_False; [done | lia | done].
Qed.

(** C37: The callback given to the repository always answers with a resolution
    the repository accepts.  A message whose topic changed or whose attempts
    are used up goes to the dead letters and its handler does not run;
    otherwise the handler runs exactly once and decides: success is
    dispatched, an unknown outcome is never retried, and another error is
    retried only while attempts are left, after the capped delay. *)
Theorem deliver_correct x message handle current (e : Env St) w : limits_ok x = true ->
  let '(r, w') := deliver x message handle current e w in
  exists res, r = Ok res /\ Resolution_Validate res = Ok tt
  /\ (m_Topic current <> m_Topic message \/ (li_maxAttempts x < m_AttemptCount current)%N ->
       w' = w /\ rs_State res = ob_DeadLetter)
  /\ (m_Topic current = m_Topic message -> (m_AttemptCount current <= li_maxAttempts x)%N ->
       exists answer, (emit (EffHandle (m_Key current)) ;; handle current) e w = (answer, w')
         /\ (rs_State res = ob_Dispatched <-> answer = Ok tt)
         /\ (forall err, answer = Err err -> errors_is err ErrOutcomeUnknown = true -> rs_State res = ob_DeadLetter)
         /\ (rs_State res = ob_Pending ->
              (m_AttemptCount current < li_maxAttempts x)%N
              /\ rs_RetryAfter res = Z.min (li_maxDelay x) (li_delay x * 2 ^ Z.of_N (m_AttemptCount current - 1)))).
Proof.
  intros Hx. unfold deliver. case_decide as Ht.
  { eexists. split; [done|]. split; [done|]. split; [done|]. by intros ?. }
  case_decide as Ha.
  { eexists. split; [done|]. split; [done|]. split; [done|]. intros _ ?. lia. }
  unfold mbind at 1, M_bind at 1. unfold observe.
  destruct ((emit (EffHandle (m_Key current)) ;; handle current) e w) as [answer w'] eqn:Hrun.
  exists (verdict x current answer). split; [done|]. split; [by apply verdict_valid|].
  split; [intros [?|?]; [done|lia]|]. intros _ _. exists answer. split; [done|]. split_and!.
  - destruct answer as [[]|err]; simpl; [done|]. case_match; [by split|]. by case_decide; split.
  - intros err -> Hu. simpl. by rewrite Hu.
  - destruct answer as [[]|err]; simpl; [done|]. case_match; [done|]. case_decide; [done|]. intros _. split; [lia|].
    apply limits_ok_bounds in Hx as (Hd & Hm & _). cbn [rs_RetryAfter]. apply retryDelay_value; [done|].
    unfold Hour, Minute, Second, Millisecond in Hm. lia.
Qed.

(** ** Batches *)

Definition settled_count (s : Summary) : nat := su_Dispatched s + su_Retried s + su_DeadLettered s + su_Deferred s.

Definition is_handle (x : effect) : bool := match x with EffHandle _ => true | _ => false end.
Definition handles w : nat := length (List.filter is_handle (w_log w)).

(** A call that makes at most [n] deliveries. *)
Definition delivers {A} (n : nat) (m : M St A) : Prop := forall e w, (handles (m e w).2 <= handles w + n)%nat.

Lemma delivers_le {A} n k (m : M St A) : delivers n m -> (n <= k)%nat -> delivers k m.
Proof. intros Hm Hk e w. specialize (Hm e w). lia. Qed.
Lemma delivers_silent {A} (m : M St A) : Silent m -> delivers 0 m.
Proof. intros Hm e w. destruct (Hm e w) as [Hl _ _]. unfold handles. rewrite Hl. lia. Qed.
Lemma delivers_bind {A B} n k (m : M St A) (f : A -> M St B) :
  delivers n m -> (forall a, delivers k (f a)) -> delivers (n + k) (m ≫= f).
Proof.
  intros Hm Hf e w. specialize (Hm e w). unfold mbind, M_bind. destruct (m e w) as [[a|x] w']; simpl in *; [|lia].
  specialize (Hf a e w'). lia.
Qed.
Lemma delivers_try {A B} n k (m : M St A) (h : goerr -> M St B) (f : A -> M St B) :
  delivers n m -> (forall x, delivers k (h x)) -> (forall a, delivers k (f a)) -> delivers (n + k) (try_else m h f).
Proof.
  intros Hm Hh Hf e w. specialize (Hm e w). unfold try_else. destruct (m e w) as [[a|x] w']; simpl in *.
  - specialize (Hf a e w'). lia.
  - specialize (Hh x e w'). lia.
Qed.
Lemma delivers_observe {A} n (m : M St A) : delivers n m -> delivers n (observe m).
Proof. intros Hm e w. specialize (Hm e w). unfold observe. by destruct (m e w). Qed.
Lemma delivers_detached {A} n (m : M St A) : delivers n m -> delivers n (detached m).
Proof. intros Hm e w. apply Hm. Qed.
Lemma delivers_handle key : delivers 1 (emit (EffHandle key)).
Proof. intros e w. unfold handles, emit. simpl. rewrite List.filter_app, length_app. simpl. lia. Qed.

(** What the dispatcher relies on: [Dispatch] calls back at most once, and
    nothing else delivers. *)
Class Synchronous (repo : Repository St) : Prop := {
  claim_quiet : forall worker limit lease, delivers 0 (Claim repo worker limit lease);
  dead_letter_quiet : forall l reason, delivers 0 (MarkDeadLetter repo l reason);
  dispatch_once : forall l risk f n, (forall m, delivers n (f m)) -> delivers n (Dispatch repo l risk f)
}.

Definition quiet_handlers (l : list (string * Registration St)) : Prop :=
  forall t g h m, (t, g) ∈ l -> g_Handler g = Some h -> delivers 0 (h m).

Lemma handler_for_in t (l : list (string * Registration St)) g : handler_for t l = Some g -> (t, g) ∈ l.
Proof.
  induction l as [|[t' g'] l IH]; simpl; [done|]. case_decide; [subst; intros [= ->]; left | intros; right; auto].
Qed.

Lemma deliver_once x message handle current : (forall m, delivers 0 (handle m)) ->
  delivers 1 (deliver x message handle current).
Proof.
  intros Hh. unfold deliver. case_decide; [intros e w; simpl; lia|]. case_decide; [intros e w; simpl; lia|].
  apply (delivers_bind 1 0); [|intros a e w; simpl; lia]. apply delivers_observe.
  apply (delivers_bind 1 0); [apply delivers_handle | auto].
Qed.

Lemma batch_loop_delivers repo handlers x messages s : Synchronous repo -> quiet_handlers handlers ->
  delivers (length messages) (batch_loop repo handlers x messages s).
Proof.
  intros Hrepo Hq. revert s.
  assert (forall s x n, delivers n (stop (St := St) s x)) as Hstop by (intros s y n e w; simpl; lia).
  induction messages as [|message r IH]; intros s; cbn [batch_loop length]; [intros e w; simpl; lia|].
  apply (delivers_try 0 (S (length r))); [apply delivers_silent, _ | auto|]. intros _.
  destruct (handler_for _ handlers) as [g|] eqn:Hg.
  - apply (delivers_try 1 (length r)).
    + apply delivers_detached, dispatch_once. intros m. apply deliver_once. intros m'.
      destruct (g_Handler g) as [h|] eqn:Hh; simpl; [|intros e w; simpl; lia].
      eapply Hq; [by apply handler_for_in | done].
    + intros err. repeat case_match; auto.
    + intros state. repeat case_decide; auto.
  - apply (delivers_le (0 + length r)); [|lia].
    apply delivers_try; [apply dead_letter_quiet | intros err; case_match; auto | auto].
Qed.

Lemma batch_loop_counts repo handlers x messages s (e : Env St) w :
  (settled_count s + length messages <= su_Claimed s)%nat ->
  exists s' err, (batch_loop repo handlers x messages s e w).1 = Ok (s', err) /\ su_Claimed s' = su_Claimed s
    /\ (settled_count s' <= su_Claimed s)%nat
    /\ (err = None -> settled_count s' = settled_count s + length messages)%nat.
Proof.
  revert s w. induction messages as [|message r IH]; intros s w Hs; cbn [batch_loop length] in *.
  { exists s, None. split_and!; try done; lia. }
  assert (forall s' x w, su_Claimed s' = su_Claimed s -> settled_count s' = settled_count s ->
    exists s'' err, (stop s' x e w).1 = Ok (s'', err) /\ su_Claimed s'' = su_Claimed s
    /\ (settled_count s'' <= su_Claimed s)%nat
    /\ (err = None -> settled_count s'' = settled_count s + S (length r))%nat) as Hstop.
  { intros s' y w' Hc Hn. exists s', (Some y). split_and!; try done. lia. }
  assert (forall s' w, su_Claimed s' = su_Claimed s -> settled_count s' = S (settled_count s) ->
    exists s'' err, (batch_loop repo handlers x r s' e w).1 = Ok (s'', err) /\ su_Claimed s'' = su_Claimed s
    /\ (settled_count s'' <= su_Claimed s)%nat
    /\ (err = None -> settled_count s'' = settled_count s + S (length r))%nat) as Hnext.
  { intros s' w' Hc Hn. destruct (IH s' w') as (s'' & err & ? & ? & ? & ?); [lia|].
    exists s'', err. rewrite Hc in *. split_and!; try done. intros Herr. rewrite H2 by done. lia. }
  unfold try_else at 1. destruct (poll e w) as [[[]|y] w1]; [|by apply Hstop].
  destruct (handler_for _ handlers) as [g|]; unfold try_else.
  - destruct (detached _ e w1) as [[state|err] w2].
    + repeat case_decide; first [apply Hnext; [done | unfold settled_count; simpl; lia] | by apply Hstop].
    + repeat case_match; first [apply Hnext; [done | unfold settled_count; simpl; lia] | by apply Hstop].
  - destruct (MarkDeadLetter repo _ _ e w1) as [[[]|err] w2];
      [apply Hnext; [done | unfold settled_count; simpl; lia]|].
    case_match; [apply Hnext; [done | unfold settled_count; simpl; lia] | by apply Hstop].
Qed.

(** A batch accounts for every message it claimed: the four outcomes never
    add up to more than what was claimed, they add up to exactly that when the
    batch ends without an error, and over a repository that calls back at most
    once per dispatch no more handlers ran than messages were claimed. *)
Theorem batch_accounting (d : Dispatcher St) worker limit (e : Env St) w :
  let '(r, w') := DispatchBatch d worker limit e w in
  exists s err, r = Ok (s, err) /\ (settled_count s <= su_Claimed s)%nat
  /\ (err = None -> settled_count s = su_Claimed s)
  /\ (forall repo, di_Repository d = Some repo -> Synchronous repo -> quiet_handlers (di_Handlers d) ->
        (handles w' <= handles w + su_Claimed s)%nat).
Proof.
  destruct (DispatchBatch d worker limit e w) as [r w'] eqn:Hrun. unfold DispatchBatch in Hrun.
  assert (forall x, (r, w') = stop (St := St) no_summary x e w -> exists s err, r = Ok (s, err)
    /\ (settled_count s <= su_Claimed s)%nat /\ (err = None -> settled_count s = su_Claimed s)
    /\ (forall repo, di_Repository d = Some repo -> Synchronous repo -> quiet_handlers (di_Handlers d) ->
        (handles w' <= handles w + su_Claimed s)%nat)) as Hstop.
  { intros x [= -> ->]. exists no_summary, (Some x). split_and!; try done. intros. lia. }
  destruct (di_Repository d) as [repo|]; [|by eapply Hstop].
  case_decide; [by eapply Hstop|]. case_match; [by eapply Hstop|].
  destruct (check_handlers _) as [[]|x]; [|by eapply Hstop]. unfold try_else at 1 in Hrun.
  pose proof (delivers_silent poll _ e w) as Hpoll.
  destruct (poll e w) as [[[]|x] w1]; simpl in Hpoll.
  2: { injection Hrun as <- <-. exists no_summary, (Some x). split_and!; try done. }
  unfold try_else in Hrun.
  pose proof (fun H => @claim_quiet repo H worker limit (li_lease (limits d)) e w1) as Hclaim.
  destruct (Claim repo worker limit (li_lease (limits d)) e w1) as [[messages|x] w2]; simpl in Hclaim.
  2: { injection Hrun as <- <-. exists no_summary, (Some x). split_and!; try done.
       intros repo' [= <-] Hs _. specialize (Hclaim Hs). simpl. lia. }
  set (s0 := mkSummary (length messages) 0 0 0 0) in *.
  destruct (batch_loop_counts repo (di_Handlers d) (limits d) messages s0 e w2) as (s & err & Hr & Hc & Hle & Heq);
    [done|].
  rewrite Hrun in Hr. simpl in Hr. exists s, err. rewrite Hc. split_and!; try done.
  intros repo' [= <-] Hs Hq. specialize (Hclaim Hs).
  pose proof (batch_loop_delivers repo (di_Handlers d) (limits d) messages s0 Hs Hq e w2) as Hd.
  rewrite Hrun in Hd. simpl in Hd |- *. lia.
Qed.

End batches.

(** ** A repository for the witnesses: a queue in memory *)

Definition settle (id : Z) (state : string) (queue : list Message) : list Message :=
  (fun m => if decide (m_ID m = id) then
     mkMessage (m_ID m) (m_Key m) (m_Topic m) (m_AggregateType m) (m_AggregateID m) (m_Payload m) (m_RiskClass m)
       state (m_AttemptCount m) "" 0 (m_LeaseRecoveryEpoch m) (m_NextAttemptAt m) (m_LastError m) (m_CreatedAt m) 0
   else m) <$> queue.

Definition queue_repository : Repository (list Message) := {|
  Claim := fun worker limit lease => inspect (fun q => Ok (List.filter (fun m => bool_decide (m_State m = ob_Leased)) q));
  Dispatch := fun l risk f =>
    m ← inspect (fun q => of_option ErrLeaseLost (List.find (fun m => bool_decide (Message_Lease m = l /\ m_State m = ob_Leased)) q));
    r ← f m;
    atomically (fun q => _ ← Resolution_Validate r; Ok (rs_State r, settle (l_ID l) (rs_State r) q));
  MarkDeadLetter := fun l reason => atomically (fun q => Ok (tt, settle (l_ID l) ob_DeadLetter q))
|}.

Lemma delivers_atomically {A} (body : list Message -> outcome (A * list Message)) : delivers 0 (atomically body).
Proof. intros e w. unfold atomically, handles. destruct (body (w_state w)) as [[]|]; simpl; lia. Qed.

#[export] Instance queue_synchronous : Synchronous queue_repository.
Proof.
  constructor.
  - intros worker limit lease. apply delivers_silent, _.
  - intros l reason. apply delivers_atomically.
  - intros l risk f n Hf. apply (delivers_bind 0 n); [apply delivers_silent, _|]. intros m.
    apply (delivers_le (n + 0)); [|lia]. apply delivers_bind; [apply Hf|]. intros r. apply delivers_atomically.
Qed.

Definition leased_message (id : Z) (topic : string) (attempts : N) : Message :=
  mkMessage id "key" topic "" "" "{}" risk_Observe ob_Leased attempts "worker-1" 100 0 0 "" 0 0.
Definition failing_handler : Message -> M (list Message) unit := fun _ => fail (ENew "unreachable").
Definition sample_dispatcher : Dispatcher (list Message) :=
  mkDispatcher (Some queue_repository) [("work.created", mkRegistration risk_Observe (Some failing_handler))] 0 0 0 0 0.
Definition sample_queue : World (list Message) :=
  start [leased_message 1 "work.created" 1; leased_message 2 "work.created" 5; leased_message 3 "other" 1].

Lemma batch_accounting_witness :
  (DispatchBatch sample_dispatcher "worker-1" 10 (quiet_env (fun _ => 0%Z)) sample_queue).1
  = Ok (mkSummary 3 0 1 2 0, None)
  /\ (handles (DispatchBatch sample_dispatcher "worker-1" 10 (quiet_env (fun _ => 0%Z)) sample_queue).2 <= 3)%nat.
Proof.
  pose proof (batch_accounting sample_dispatcher "worker-1" 10 (quiet_env (fun _ => 0%Z)) sample_queue) as Hb.
  destruct (DispatchBatch sample_dispatcher "worker-1" 10 (quiet_env (fun _ => 0%Z)) sample_queue) as [r w'] eqn:Hrun.
  assert (r = Ok (mkSummary 3 0 1 2 0, None)) as ->
    by (apply (f_equal fst) in Hrun; vm_compute in Hrun; by rewrite <- Hrun).
  destruct Hb as (s & err & Hs & _ & _ & Hh). injection Hs as <- <-. split; [done|].
  apply (Hh queue_repository); [done | apply _ |].
  intros t g h m Hin Hg. apply list_elem_of_singleton in Hin as [= -> ->]. injection Hg as <-.
  intros e w. simpl. lia.
Defined.

Lemma deliver_correct_witness :
  let '(r, w') := deliver (limits sample_dispatcher) (leased_message 1 "work.created" 1) failing_handler
                    (leased_message 1 "work.created" 2) (quiet_env (fun _ => 0%Z)) sample_queue in
  exists res, r = Ok res /\ Resolution_Validate res = Ok tt /\ rs_RetryAfter res = (10 * Second)%Z.
Proof.
  pose proof (deliver_correct (limits sample_dispatcher) (leased_message 1 "work.created" 1) failing_handler
                (leased_message 1 "work.created" 2) (quiet_env (fun _ => 0%Z)) sample_queue eq_refl) as Hd.
  destruct (deliver _ _ _ _ _ _) as [r w'] eqn:Hrun. destruct Hd as (res & -> & Hv & _).
  exists res. split; [done|]. split; [done|]. apply (f_equal fst) in Hrun. vm_compute in Hrun. injection Hrun as <-. reflexivity.
Defined.
