(* ===== verification/Store.v ===== *)
(** [internal/store/memory.go]: the in-memory Core authority.

    A method [f] of the Go type is [Memory_f] here.  Its body under the lock is
    a function of the state, and its context checks and lock are those of
    [locked] and [rlocked]; the checks a method makes before it locks come
    first.  Go maps hold struct values; the slices inside them are never
    written through, so a stored value is its own copy. *)
From S2P Require Import Prelude Effects Canonical Core Run Session Recovery Verification Review Action.

Definition ErrExists : goerr := ESentinel "store.ErrExists" "record already exists".
Definition ErrNotFound : goerr := ESentinel "store.ErrNotFound" "record not found".
Definition ErrConflict : goerr := ESentinel "store.ErrConflict" "optimistic concurrency conflict".
Definition ErrCommitOutcomeUnknown : goerr :=
  ESentinel "store.ErrCommitOutcomeUnknown" "authority commit outcome unknown; exact readback required".

Record Memory := mkMemory {
  recoveryState : Manager;
  works : gmap string WorkItem;
  tasks : gmap string (gmap N TaskContract);
  latestTaskRev : gmap string N;
  tasksByDigest : gmap string TaskContract;
  verificationPlans : gmap string Plan;
  runs : gmap string Run;
  attempts : gmap string (gmap string Attempt);
  sessions : gmap string Session;
  runInputs : gmap string RunInputManifest;
  steeringCommands : gmap string SteeringCommand;
  checkpoints : gmap string Checkpoint;
  checkpointDigests : gmap string string;
  operations : gmap string Operation;
  actionIdempotency : gmap string string;
  deliveries : gmap string DeliveryReceipt;
  evidence : gmap string EvidenceRef;
  verificationReports : gmap string Report;
  reviewReports : gmap string ReviewReport;
  reviewByVerification : gmap string string;
  closures : gmap string ClosureReceipt
}.

Definition NewMemory : Memory := mkMemory Manager_New ∅ ∅ ∅ ∅ ∅ ∅ ∅ ∅ ∅ ∅ ∅ ∅ ∅ ∅ ∅ ∅ ∅ ∅ ∅ ∅.

Definition set_recoveryState (v : Manager) (m : Memory) : Memory :=
  mkMemory v (works m) (tasks m) (latestTaskRev m) (tasksByDigest m) (verificationPlans m) (runs m) (attempts m)
    (sessions m) (runInputs m) (steeringCommands m) (checkpoints m) (checkpointDigests m) (operations m)
    (actionIdempotency m) (deliveries m) (evidence m) (verificationReports m) (reviewReports m)
    (reviewByVerification m) (closures m).
Definition set_works (v : gmap string WorkItem) (m : Memory) : Memory :=
  mkMemory (recoveryState m) v (tasks m) (latestTaskRev m) (tasksByDigest m) (verificationPlans m) (runs m)
    (attempts m) (sessions m) (runInputs m) (steeringCommands m) (checkpoints m) (checkpointDigests m) (operations
    m) (actionIdempotency m) (deliveries m) (evidence m) (verificationReports m) (reviewReports m)
    (reviewByVerification m) (closures m).
Definition set_tasks (v : gmap string (gmap N TaskContract)) (m : Memory) : Memory :=
  mkMemory (recoveryState m) (works m) v (latestTaskRev m) (tasksByDigest m) (verificationPlans m) (runs m)
    (attempts m) (sessions m) (runInputs m) (steeringCommands m) (checkpoints m) (checkpointDigests m) (operations
    m) (actionIdempotency m) (deliveries m) (evidence m) (verificationReports m) (reviewReports m)
    (reviewByVerification m) (closures m).
Definition set_latestTaskRev (v : gmap string N) (m : Memory) : Memory :=
  mkMemory (recoveryState m) (works m) (tasks m) v (tasksByDigest m) (verificationPlans m) (runs m) (attempts m)
    (sessions m) (runInputs m) (steeringCommands m) (checkpoints m) (checkpointDigests m) (operations m)
    (actionIdempotency m) (deliveries m) (evidence m) (verificationReports m) (reviewReports m)
    (reviewByVerification m) (closures m).
Definition set_tasksByDigest (v : gmap string TaskContract) (m : Memory) : Memory :=
  mkMemory (recoveryState m) (works m) (tasks m) (latestTaskRev m) v (verificationPlans m) (runs m) (attempts m)
    (sessions m) (runInputs m) (steeringCommands m) (checkpoints m) (checkpointDigests m) (operations m)
    (actionIdempotency m) (deliveries m) (evidence m) (verificationReports m) (reviewReports m)
    (reviewByVerification m) (closures m).
Definition set_verificationPlans (v : gmap string Plan) (m : Memory) : Memory :=
  mkMemory (recoveryState m) (works m) (tasks m) (latestTaskRev m) (tasksByDigest m) v (runs m) (attempts m)
    (sessions m) (runInputs m) (steeringCommands m) (checkpoints m) (checkpointDigests m) (operations m)
    (actionIdempotency m) (deliveries m) (evidence m) (verificationReports m) (reviewReports m)
    (reviewByVerification m) (closures m).
Definition set_runs (v : gmap string Run) (m : Memory) : Memory :=
  mkMemory (recoveryState m) (works m) (tasks m) (latestTaskRev m) (tasksByDigest m) (verificationPlans m) v
    (attempts m) (sessions m) (runInputs m) (steeringCommands m) (checkpoints m) (checkpointDigests m) (operations
    m) (actionIdempotency m) (deliveries m) (evidence m) (verificationReports m) (reviewReports m)
    (reviewByVerification m) (closures m).
Definition set_attempts (v : gmap string (gmap string Attempt)) (m : Memory) : Memory :=
  mkMemory (recoveryState m) (works m) (tasks m) (latestTaskRev m) (tasksByDigest m) (verificationPlans m) (runs m)
    v (sessions m) (runInputs m) (steeringCommands m) (checkpoints m) (checkpointDigests m) (operations m)
    (actionIdempotency m) (deliveries m) (evidence m) (verificationReports m) (reviewReports m)
    (reviewByVerification m) (closures m).
Definition set_sessions (v : gmap string Session) (m : Memory) : Memory :=
  mkMemory (recoveryState m) (works m) (tasks m) (latestTaskRev m) (tasksByDigest m) (verificationPlans m) (runs m)
    (attempts m) v (runInputs m) (steeringCommands m) (checkpoints m) (checkpointDigests m) (operations m)
    (actionIdempotency m) (deliveries m) (evidence m) (verificationReports m) (reviewReports m)
    (reviewByVerification m) (closures m).
Definition set_runInputs (v : gmap string RunInputManifest) (m : Memory) : Memory :=
  mkMemory (recoveryState m) (works m) (tasks m) (latestTaskRev m) (tasksByDigest m) (verificationPlans m) (runs m)
    (attempts m) (sessions m) v (steeringCommands m) (checkpoints m) (checkpointDigests m) (operations m)
    (actionIdempotency m) (deliveries m) (evidence m) (verificationReports m) (reviewReports m)
    (reviewByVerification m) (closures m).
Definition set_steeringCommands (v : gmap string SteeringCommand) (m : Memory) : Memory :=
  mkMemory (recoveryState m) (works m) (tasks m) (latestTaskRev m) (tasksByDigest m) (verificationPlans m) (runs m)
    (attempts m) (sessions m) (runInputs m) v (checkpoints m) (checkpointDigests m) (operations m)
    (actionIdempotency m) (deliveries m) (evidence m) (verificationReports m) (reviewReports m)
    (reviewByVerification m) (closures m).
Definition set_checkpoints (v : gmap string Checkpoint) (m : Memory) : Memory :=
  mkMemory (recoveryState m) (works m) (tasks m) (latestTaskRev m) (tasksByDigest m) (verificationPlans m) (runs m)
    (attempts m) (sessions m) (runInputs m) (steeringCommands m) v (checkpointDigests m) (operations m)
    (actionIdempotency m) (deliveries m) (evidence m) (verificationReports m) (reviewReports m)
    (reviewByVerification m) (closures m).
Definition set_checkpointDigests (v : gmap string string) (m : Memory) : Memory :=
  mkMemory (recoveryState m) (works m) (tasks m) (latestTaskRev m) (tasksByDigest m) (verificationPlans m) (runs m)
    (attempts m) (sessions m) (runInputs m) (steeringCommands m) (checkpoints m) v (operations m) (actionIdempotency
    m) (deliveries m) (evidence m) (verificationReports m) (reviewReports m) (reviewByVerification m) (closures m).
Definition set_operations (v : gmap string Operation) (m : Memory) : Memory :=
  mkMemory (recoveryState m) (works m) (tasks m) (latestTaskRev m) (tasksByDigest m) (verificationPlans m) (runs m)
    (attempts m) (sessions m) (runInputs m) (steeringCommands m) (checkpoints m) (checkpointDigests m) v
    (actionIdempotency m) (deliveries m) (evidence m) (verificationReports m) (reviewReports m)
    (reviewByVerification m) (closures m).
Definition set_actionIdempotency (v : gmap string string) (m : Memory) : Memory :=
  mkMemory (recoveryState m) (works m) (tasks m) (latestTaskRev m) (tasksByDigest m) (verificationPlans m) (runs m)
    (attempts m) (sessions m) (runInputs m) (steeringCommands m) (checkpoints m) (checkpointDigests m) (operations
    m) v (deliveries m) (evidence m) (verificationReports m) (reviewReports m) (reviewByVerification m) (closures
    m).
Definition set_deliveries (v : gmap string DeliveryReceipt) (m : Memory) : Memory :=
  mkMemory (recoveryState m) (works m) (tasks m) (latestTaskRev m) (tasksByDigest m) (verificationPlans m) (runs m)
    (attempts m) (sessions m) (runInputs m) (steeringCommands m) (checkpoints m) (checkpointDigests m) (operations
    m) (actionIdempotency m) v (evidence m) (verificationReports m) (reviewReports m) (reviewByVerification m)
    (closures m).
Definition set_evidence (v : gmap string EvidenceRef) (m : Memory) : Memory :=
  mkMemory (recoveryState m) (works m) (tasks m) (latestTaskRev m) (tasksByDigest m) (verificationPlans m) (runs m)
    (attempts m) (sessions m) (runInputs m) (steeringCommands m) (checkpoints m) (checkpointDigests m) (operations
    m) (actionIdempotency m) (deliveries m) v (verificationReports m) (reviewReports m) (reviewByVerification m)
    (closures m).
Definition set_verificationReports (v : gmap string Report) (m : Memory) : Memory :=
  mkMemory (recoveryState m) (works m) (tasks m) (latestTaskRev m) (tasksByDigest m) (verificationPlans m) (runs m)
    (attempts m) (sessions m) (runInputs m) (steeringCommands m) (checkpoints m) (checkpointDigests m) (operations
    m) (actionIdempotency m) (deliveries m) (evidence m) v (reviewReports m) (reviewByVerification m) (closures m).
Definition set_reviewReports (v : gmap string ReviewReport) (m : Memory) : Memory :=
  mkMemory (recoveryState m) (works m) (tasks m) (latestTaskRev m) (tasksByDigest m) (verificationPlans m) (runs m)
    (attempts m) (sessions m) (runInputs m) (steeringCommands m) (checkpoints m) (checkpointDigests m) (operations
    m) (actionIdempotency m) (deliveries m) (evidence m) (verificationReports m) v (reviewByVerification m)
    (closures m).
Definition set_reviewByVerification (v : gmap string string) (m : Memory) : Memory :=
  mkMemory (recoveryState m) (works m) (tasks m) (latestTaskRev m) (tasksByDigest m) (verificationPlans m) (runs m)
    (attempts m) (sessions m) (runInputs m) (steeringCommands m) (checkpoints m) (checkpointDigests m) (operations
    m) (actionIdempotency m) (deliveries m) (evidence m) (verificationReports m) (reviewReports m) v (closures m).
Definition set_closures (v : gmap string ClosureReceipt) (m : Memory) : Memory :=
  mkMemory (recoveryState m) (works m) (tasks m) (latestTaskRev m) (tasksByDigest m) (verificationPlans m) (runs m)
    (attempts m) (sessions m) (runInputs m) (steeringCommands m) (checkpoints m) (checkpointDigests m) (operations
    m) (actionIdempotency m) (deliveries m) (evidence m) (verificationReports m) (reviewReports m)
    (reviewByVerification m) v.

(** ** Recovery *)

Definition Memory_GetRecoveryContext : M Memory Manager := rlocked (fun m => Ok (recoveryState m)).

Definition BeginRecovery (expectedEpoch : N) (m : Memory) : outcome (Manager * Memory) :=
  if decide (m_Epoch (recoveryState m) <> expectedEpoch) then Err ErrConflict
  else if decide (m_Mode (recoveryState m) <> mode_Normal) then Err ErrAlreadyRecovering
  else
    let r := (Manager_Begin (recoveryState m)).2 in
    Ok (r, set_recoveryState r m).
Definition Memory_BeginRecoveryContext (expectedEpoch : N) : M Memory Manager :=
  locked (BeginRecovery expectedEpoch).

Definition CompleteRecovery (epoch : N) (reconciled : bool) (m : Memory) : outcome (Manager * Memory) :=
  if decide (m_Epoch (recoveryState m) <> epoch) then Err ErrConflict
  else
    r ← Manager_Complete (recoveryState m) epoch reconciled;
    Ok (r, set_recoveryState r m).
Definition Memory_CompleteRecoveryContext (epoch : N) (reconciled : bool) : M Memory Manager :=
  locked (CompleteRecovery epoch reconciled).

(** ** Work items *)

Definition CreateWork (item : WorkItem) (m : Memory) : outcome (unit * Memory) :=
  match works m !! wi_ID item with
  | Some _ => Err ErrExists
  | None =>
    let item := if decide (wi_Version item = 0%N) then set_wi_Version 1 item else item in
    Ok (tt, set_works (<[wi_ID item := item]> (works m)) m)
  end.
Definition Memory_CreateWorkContext (item : WorkItem) : M Memory unit := locked (CreateWork item).

Definition Memory_GetWorkContext (id : string) : M Memory WorkItem :=
  rlocked (fun m => of_option ErrNotFound (works m !! id)).

Definition UpdateWork (id : string) (expectedVersion : N) (item : WorkItem) (m : Memory) : outcome (unit * Memory) :=
  current ← of_option ErrNotFound (works m !! id);
  if decide (wi_Version current <> expectedVersion) then Err ErrConflict
  else Ok (tt, set_works (<[id := set_wi_Version (u64_succ expectedVersion) item]> (works m)) m).
Definition Memory_UpdateWorkContext (id : string) (expectedVersion : N) (item : WorkItem) : M Memory unit :=
  locked (UpdateWork id expectedVersion item).

(** ** Task contracts and verification plans *)

Section tasks.
Context `{Hash}.

(** The checks before the lock: the digests of the task and of its plan. *)
Definition task_digests (task : TaskContract) (plan : Plan) : outcome (string * string) :=
  if decide (tc_Revision task = 0%N \/ tc_VerificationPlanDigest task = "" \/ tc_VerificationPlanID task = "")
  then Err ErrConflict
  else
    taskDigest ← TaskContract_Digest task;
    planDigest ← Plan_Digest plan;
    if decide (pl_ID plan <> tc_VerificationPlanID task \/ planDigest <> tc_VerificationPlanDigest task)
    then Err ErrConflict
    else Ok (taskDigest, planDigest).

(** The part of the critical section shared by the two ways to store a task. *)
Definition admit_revision (task : TaskContract) (taskDigest planDigest : string) (m : Memory)
    : outcome (gmap N TaskContract) :=
  match tasksByDigest m !! taskDigest with
  | Some _ => Err ErrExists
  | None =>
    _ ← match verificationPlans m !! planDigest with
        | Some existing =>
          match Plan_Digest existing with
          | Ok existingDigest => if decide (existingDigest <> planDigest) then Err ErrConflict else Ok tt
          | Err _ => Err ErrConflict
          end
        | None => Ok tt
        end;
    match tasks m !! tc_ID task with
    | None => if decide (tc_Revision task <> 1%N) then Err ErrConflict else Ok ∅
    | Some versions =>
      match versions !! tc_Revision task with
      | Some _ => Err ErrExists
      | None =>
        if decide (tc_Revision task <> u64_succ (default 0%N (latestTaskRev m !! tc_ID task)))
        then Err ErrConflict else Ok versions
      end
    end
  end.

Definition store_revision (task : TaskContract) (plan : Plan) (taskDigest planDigest : string)
    (versions : gmap N TaskContract) (m : Memory) : Memory :=
  set_verificationPlans (<[planDigest := plan]> (verificationPlans m))
    (set_tasksByDigest (<[taskDigest := task]> (tasksByDigest m))
       (set_latestTaskRev (<[tc_ID task := tc_Revision task]> (latestTaskRev m))
          (set_tasks (<[tc_ID task := <[tc_Revision task := task]> versions]> (tasks m)) m))).

(** [CreateTask] has no context: it only takes the lock. *)
Definition Memory_CreateTask (task : TaskContract) (plan : Plan) : M Memory unit :=
  d ← lift (task_digests task plan);
  acquire ;;
  atomically (fun m =>
    versions ← admit_revision task d.1 d.2 m;
    Ok (tt, store_revision task plan d.1 d.2 versions m)).

Definition CreateTaskAndUpdateWork (task : TaskContract) (plan : Plan) (taskDigest planDigest : string)
    (expectedWorkVersion : N) (work : WorkItem) (m : Memory) : outcome (unit * Memory) :=
  currentWork ← of_option ErrNotFound (works m !! wi_ID work);
  if decide (wi_Version currentWork <> expectedWorkVersion) then Err ErrConflict
  else if decide (wi_State currentWork <> WorkDraft /\ wi_State currentWork <> WorkReady) then Err ErrConflict
  else if decide (wi_ActiveRunID currentWork <> "") then Err ErrConflict
  else
    versions ← admit_revision task taskDigest planDigest m;
    let m' := store_revision task plan taskDigest planDigest versions m in
    Ok (tt, set_works (<[wi_ID work := set_wi_Version (u64_succ expectedWorkVersion) work]> (works m')) m').

Definition Memory_CreateTaskAndUpdateWorkContext (task : TaskContract) (plan : Plan) (expectedWorkVersion : N)
    (work : WorkItem) : M Memory unit :=
  poll ;;
  d ← lift (task_digests task plan);
  (if decide (tc_WorkItemID task <> wi_ID work \/ wi_ActiveTaskContractDigest work <> d.1
              \/ wi_State work <> WorkReady)
   then fail ErrConflict else mret tt) ;;
  acquire ;; poll ;;
  atomically (CreateTaskAndUpdateWork task plan d.1 d.2 expectedWorkVersion work).

End tasks.

Definition zero_TaskContract : TaskContract :=
  mkTaskContract "" "" "" [] [] "" 0 "" "" "" "" [] [] [] "" "" 0.

Definition Memory_GetTaskContext (id : string) : M Memory TaskContract :=
  rlocked (fun m =>
    latest ← of_option ErrNotFound (latestTaskRev m !! id);
    Ok (default zero_TaskContract (default ∅ (tasks m !! id) !! latest))).

Definition Memory_GetTaskRevisionContext (id : string) (revision : N) : M Memory TaskContract :=
  rlocked (fun m =>
    versions ← of_option ErrNotFound (tasks m !! id);
    of_option ErrNotFound (versions !! revision)).

Definition Memory_GetTaskByDigestContext (digest : string) : M Memory TaskContract :=
  rlocked (fun m => of_option ErrNotFound (tasksByDigest m !! digest)).

Definition Memory_GetVerificationPlanByDigestContext (digest : string) : M Memory Plan :=
  rlocked (fun m => of_option ErrNotFound (verificationPlans m !! digest)).

(** ** Runs, sessions and attempts *)

Section executions.
Context `{Hash}.

Definition absent_execution (id inputDigest : string) (m : Memory) : outcome unit :=
  match runs m !! id, sessions m !! id, runInputs m !! inputDigest with
  | None, None, None => Ok tt
  | _, _, _ => Err ErrExists
  end.

Definition default_run_version (value : Run) : Run :=
  if decide (r_Version value = 0%N) then set_r_Version 1 value else value.

Definition store_execution (value : Run) (sess : Session) (input : RunInputManifest) (inputDigest : string)
    (m : Memory) : Memory :=
  set_runInputs (<[inputDigest := input]> (runInputs m))
    (set_sessions (<[r_ID value := sess]> (sessions m))
       (set_runs (<[r_ID value := value]> (runs m)) m)).

(** [CreateExecution] has no context: it only takes the lock. *)
Definition Memory_CreateExecution (value : Run) (sess : Session) (input : RunInputManifest) : M Memory unit :=
  inputDigest ← lift (RunInputManifest_Digest input);
  (if decide (inputDigest <> r_RunInputManifestDigest value \/ ri_RunID input <> r_ID value
              \/ ri_TaskContractDigest input <> r_TaskContractDigest value)
   then fail ErrConflict else mret tt) ;;
  acquire ;;
  atomically (fun m =>
    _ ← absent_execution (r_ID value) inputDigest m;
    Ok (tt, store_execution (default_run_version value) sess input inputDigest m)).

Definition execution_consistent (value : Run) (attempt : Attempt) (sess : Session) (input : RunInputManifest)
    (inputDigest : string) (work : WorkItem) : Prop :=
  (inputDigest = r_RunInputManifestDigest value /\ ri_RunID input = r_ID value
   /\ ri_TaskContractDigest input = r_TaskContractDigest value
   /\ at_ID attempt = r_CurrentAttemptID value /\ at_Epoch attempt = r_CurrentEpoch value
   /\ s_RunID sess = r_ID value /\ s_ExecutionEpoch sess = r_CurrentEpoch value)
  /\ (wi_State work = WorkExecuting /\ wi_ActiveTaskContractDigest work = r_TaskContractDigest value
      /\ wi_ActiveRunID work = r_ID value).
#[export] Instance execution_consistent_dec value attempt sess input d work :
  Decision (execution_consistent value attempt sess input d work).
Proof. unfold execution_consistent. apply _. Defined.

Definition CreateExecutionAndUpdateWork (value : Run) (attempt : Attempt) (sess : Session)
    (input : RunInputManifest) (inputDigest : string) (expectedWorkVersion : N) (work : WorkItem)
    (m : Memory) : outcome (unit * Memory) :=
  currentWork ← of_option ErrNotFound (works m !! wi_ID work);
  if decide (wi_Version currentWork <> expectedWorkVersion \/ wi_State currentWork <> WorkReady
             \/ wi_ActiveTaskContractDigest currentWork <> r_TaskContractDigest value
             \/ wi_ActiveRunID currentWork <> "")
  then Err ErrConflict
  else
    _ ← of_option ErrNotFound (tasksByDigest m !! r_TaskContractDigest value);
    _ ← absent_execution (r_ID value) inputDigest m;
    let m' := store_execution (default_run_version value) sess input inputDigest m in
    Ok (tt, set_works (<[wi_ID work := set_wi_Version (u64_succ expectedWorkVersion) work]> (works m))
              (set_attempts (<[r_ID value := {[at_ID attempt := attempt]}]> (attempts m)) m')).

Definition Memory_CreateExecutionAndUpdateWorkContext (value : Run) (attempt : Attempt) (sess : Session)
    (input : RunInputManifest) (expectedWorkVersion : N) (work : WorkItem) : M Memory unit :=
  poll ;;
  match ri_Continuation input with
  | Some _ => fail ErrConflict
  | None =>
    inputDigest ← lift (RunInputManifest_Digest input);
    (if decide (execution_consistent value attempt sess input inputDigest work)
     then mret tt else fail ErrConflict) ;;
    acquire ;; poll ;;
    atomically (CreateExecutionAndUpdateWork value attempt sess input inputDigest expectedWorkVersion work)
  end.

End executions.

Definition Memory_GetAttemptContext (runID attemptID : string) : M Memory Attempt :=
  rlocked (fun m =>
    found ← of_option ErrNotFound (attempts m !! runID);
    of_option ErrNotFound (found !! attemptID)).

Definition find_execution (id : string) (m : Memory) : outcome (Run * Session) :=
  value ← of_option ErrNotFound (runs m !! id);
  sess ← of_option ErrNotFound (sessions m !! id);
  Ok (value, sess).
Definition Memory_GetExecutionContext (id : string) : M Memory (Run * Session) := rlocked (find_execution id).

Definition Memory_GetRunInputByDigestContext (digest : string) : M Memory RunInputManifest :=
  rlocked (fun m => of_option ErrNotFound (runInputs m !! digest)).

Definition same_frozen (current value : Run) : Prop :=
  r_TaskContractDigest current = r_TaskContractDigest value
  /\ r_RunInputManifestDigest current = r_RunInputManifestDigest value.
#[export] Instance same_frozen_dec current value : Decision (same_frozen current value).
Proof. unfold same_frozen. apply _. Defined.

Definition write_execution (id : string) (expectedVersion : N) (value : Run) (sess : Session) (m : Memory) : Memory :=
  set_sessions (<[id := sess]> (sessions m))
    (set_runs (<[id := set_r_Version (u64_succ expectedVersion) value]> (runs m)) m).

Definition UpdateExecution (id : string) (expectedVersion : N) (value : Run) (sess : Session)
    (m : Memory) : outcome (unit * Memory) :=
  '(current, _) ← find_execution id m;
  if decide (r_Version current <> expectedVersion) then Err ErrConflict
  else if decide (~ same_frozen current value) then Err ErrConflict
  else Ok (tt, write_execution id expectedVersion value sess m).
Definition Memory_UpdateExecutionContext (id : string) (expectedVersion : N) (value : Run) (sess : Session)
    : M Memory unit := locked (UpdateExecution id expectedVersion value sess).

Definition RecordSteering (id : string) (expectedVersion : N) (value : Run) (sess : Session)
    (cmd : SteeringCommand) (m : Memory) : outcome (unit * Memory) :=
  '(current, currentSession) ← find_execution id m;
  if decide (r_Version current <> expectedVersion) then Err ErrConflict
  else if decide (~ same_frozen current value \/ r_ID value <> id \/ s_RunID sess <> id \/ sc_RunID cmd <> id
                  \/ sc_ExecutionEpoch cmd <> r_CurrentEpoch current
                  \/ s_ExecutionEpoch sess <> r_CurrentEpoch current
                  \/ s_LastSequence sess <> sc_Sequence cmd
                  \/ (sc_Sequence cmd <= s_LastSequence currentSession)%N)
  then Err ErrConflict
  else match steeringCommands m !! sc_ID cmd with
  | Some _ => Err ErrExists
  | None => Ok (tt, set_steeringCommands (<[sc_ID cmd := cmd]> (steeringCommands m))
                      (write_execution id expectedVersion value sess m))
  end.
Definition Memory_RecordSteeringContext (id : string) (expectedVersion : N) (value : Run) (sess : Session)
    (cmd : SteeringCommand) : M Memory unit := locked (RecordSteering id expectedVersion value sess cmd).

Definition Memory_GetSteeringContext (id : string) : M Memory SteeringCommand :=
  rlocked (fun m => of_option ErrNotFound (steeringCommands m !! id)).

Definition UpdateExecutionAndWork (id : string) (expectedRunVersion : N) (value : Run) (sess : Session)
    (expectedWorkVersion : N) (work : WorkItem) (m : Memory) : outcome (unit * Memory) :=
  '(currentRun, _) ← find_execution id m;
  currentWork ← of_option ErrNotFound (works m !! wi_ID work);
  if decide (r_Version currentRun <> expectedRunVersion \/ wi_Version currentWork <> expectedWorkVersion)
  then Err ErrConflict
  else if decide (~ same_frozen currentRun value) then Err ErrConflict
  else if decide (wi_ActiveTaskContractDigest currentWork <> r_TaskContractDigest value
                  \/ wi_ActiveRunID currentWork <> r_ID value
                  \/ wi_ActiveTaskContractDigest work <> r_TaskContractDigest value
                  \/ wi_ActiveRunID work <> r_ID value)
  then Err ErrConflict
  else
    let m' := write_execution id expectedRunVersion value sess m in
    Ok (tt, set_works (<[wi_ID work := set_wi_Version (u64_succ expectedWorkVersion) work]> (works m')) m').
Definition Memory_UpdateExecutionAndWorkContext (id : string) (expectedRunVersion : N) (value : Run)
    (sess : Session) (expectedWorkVersion : N) (work : WorkItem) : M Memory unit :=
  locked (UpdateExecutionAndWork id expectedRunVersion value sess expectedWorkVersion work).

(** ** Checkpoints *)

Section checkpoints.
Context `{Hash}.

Definition CreateCheckpoint (item : Checkpoint) (digest : string) (m : Memory) : outcome (string * Memory) :=
  match checkpoints m !! cp_ID item, checkpointDigests m !! digest with
  | None, None =>
    Ok (digest, set_checkpointDigests (<[digest := cp_ID item]> (checkpointDigests m))
                  (set_checkpoints (<[cp_ID item := item]> (checkpoints m)) m))
  | _, _ => Err ErrExists
  end.
Definition Memory_CreateCheckpointContext (item : Checkpoint) : M Memory string :=
  poll ;;
  digest ← lift (Checkpoint_Digest item);
  acquire ;; poll ;;
  atomically (CreateCheckpoint item digest).

Definition Memory_GetCheckpointContext (id : string) : M Memory (Checkpoint * string) :=
  rlocked (fun m =>
    item ← of_option ErrNotFound (checkpoints m !! id);
    digest ← Checkpoint_Digest item;
    Ok (item, digest)).

End checkpoints.

(** ** The action ledger *)

Definition CreateOperation (op : Operation) (m : Memory) : outcome (unit * Memory) :=
  match operations m !! op_ID op with
  | Some _ => Err ErrOperationExists
  | None =>
    match actionIdempotency m !! op_IdempotencyKey op with
    | Some _ => Err ErrOperationExists
    | None => Ok (tt, set_actionIdempotency (<[op_IdempotencyKey op := op_ID op]> (actionIdempotency m))
                        (set_operations (<[op_ID op := op]> (operations m)) m))
    end
  end.
Definition Memory_CreateContext (op : Operation) : M Memory unit := locked (CreateOperation op).

Definition Memory_GetContext (id : string) : M Memory Operation :=
  rlocked (fun m => of_option ErrOperationAbsent (operations m !! id)).

Definition Memory_GetByIdempotencyKeyContext (key : string) : M Memory Operation :=
  rlocked (fun m =>
    match actionIdempotency m !! key with
    | None => Err ErrOperationAbsent
    | Some id => of_option ErrOperationAbsent (operations m !! id)
    end).

Definition UpdateOperation (op : Operation) (m : Memory) : outcome (unit * Memory) :=
  match operations m !! op_ID op with
  | None => Err ErrOperationAbsent
  | Some original =>
    if negb (SameReservation original op) then Err ErrInvalidTransition
    else
      _ ← Operation_Transition original (op_State op) (op_UpdatedAt op);
      Ok (tt, set_operations (<[op_ID op := op]> (operations m)) m)
  end.
Definition Memory_UpdateContext (op : Operation) : M Memory unit := locked (UpdateOperation op).

(** ** Deliveries, evidence and verification *)

Definition CreateDelivery (item : DeliveryReceipt) (m : Memory) : outcome (unit * Memory) :=
  match deliveries m !! dr_ID item with
  | Some _ => Err ErrExists
  | None => Ok (tt, set_deliveries (<[dr_ID item := item]> (deliveries m)) m)
  end.
Definition Memory_CreateDeliveryContext (item : DeliveryReceipt) : M Memory unit := locked (CreateDelivery item).

Definition Memory_GetDeliveryContext (id : string) : M Memory DeliveryReceipt :=
  rlocked (fun m => of_option ErrNotFound (deliveries m !! id)).

Definition CreateEvidence (item : EvidenceRef) (m : Memory) : outcome (unit * Memory) :=
  match evidence m !! ev_ID item with
  | Some _ => Err ErrExists
  | None =>
    delivery ← of_option ErrNotFound (deliveries m !! ev_DeliveryReceiptID item);
    if decide (ev_SubjectDigest item <> dr_SubjectDigest delivery) then Err ErrConflict
    else
      task ← of_option ErrNotFound (tasksByDigest m !! dr_TaskContractDigest delivery);
      plan ← of_option ErrNotFound (verificationPlans m !! tc_VerificationPlanDigest task);
      if negb (EvidenceMatchesPlan plan item) || negb (EvidenceArtifactsBelongToDelivery delivery item)
      then Err ErrConflict
      else Ok (tt, set_evidence (<[ev_ID item := item]> (evidence m)) m)
  end.
Definition Memory_CreateEvidenceContext (item : EvidenceRef) : M Memory unit := locked (CreateEvidence item).

Definition Memory_GetEvidenceContext (id : string) : M Memory EvidenceRef :=
  rlocked (fun m => of_option ErrNotFound (evidence m !! id)).

Definition CreateVerification (report : Report) (m : Memory) : outcome (unit * Memory) :=
  match verificationReports m !! vr_ID report with
  | Some _ => Err ErrExists
  | None => Ok (tt, set_verificationReports (<[vr_ID report := report]> (verificationReports m)) m)
  end.
Definition Memory_CreateVerificationContext (report : Report) : M Memory unit := locked (CreateVerification report).

Definition Memory_GetVerificationContext (id : string) : M Memory Report :=
  rlocked (fun m => of_option ErrNotFound (verificationReports m !! id)).

(** ** Reviews and closures *)

(** The authority conditions under which a review may be stored and move its work. *)
Definition review_authorized (report : ReviewReport) (expectedVersion : N) (work current : WorkItem)
    (delivery : DeliveryReceipt) (vr : Report) : Prop :=
  wi_Version current = expectedVersion /\ wi_State current = WorkVerifying
  /\ ~ (rv_Result report = ResultPass /\ wi_State work <> WorkReviewing)
  /\ ~ (rv_Result report = ResultFail /\ wi_State work <> WorkVerifying)
  /\ wi_ID current = dr_WorkItemID delivery /\ wi_ActiveRunID current = dr_RunID delivery
  /\ wi_ActiveTaskContractDigest current = dr_TaskContractDigest delivery
  /\ wi_ActiveRunID work = wi_ActiveRunID current
  /\ wi_ActiveTaskContractDigest work = wi_ActiveTaskContractDigest current
  /\ rv_TaskContractDigest report = dr_TaskContractDigest delivery
  /\ rv_SubjectDigest report = dr_SubjectDigest delivery
  /\ vr_Result vr = "PASS" /\ vr_DeliveryReceiptID vr = dr_ID delivery
  /\ vr_SubjectDigest vr = dr_SubjectDigest delivery
  /\ rv_Reviewer report <> vr_Verifier vr /\ rv_Reviewer report <> wi_HumanOwner current.
#[export] Instance review_authorized_dec report v work current delivery vr :
  Decision (review_authorized report v work current delivery vr).
Proof. unfold review_authorized. apply _. Defined.

Definition CreateReviewAndUpdateWork (report : ReviewReport) (expectedVersion : N) (work : WorkItem)
    (m : Memory) : outcome (unit * Memory) :=
  match reviewReports m !! rv_ID report, reviewByVerification m !! rv_VerificationReportID report with
  | None, None =>
    vr ← of_option ErrNotFound (verificationReports m !! rv_VerificationReportID report);
    delivery ← of_option ErrNotFound (deliveries m !! rv_DeliveryReceiptID report);
    current ← of_option ErrNotFound (works m !! wi_ID work);
    if decide (review_authorized report expectedVersion work current delivery vr) then
      let work' := set_wi_Version (u64_succ expectedVersion) work in
      Ok (tt, set_works (<[wi_ID work := work']> (works m))
                (set_reviewByVerification (<[rv_VerificationReportID report := rv_ID report]> (reviewByVerification m))
                   (set_reviewReports (<[rv_ID report := report]> (reviewReports m)) m)))
    else Err ErrConflict
  | _, _ => Err ErrExists
  end.
Definition Memory_CreateReviewAndUpdateWorkContext (report : ReviewReport) (expectedVersion : N) (work : WorkItem)
    : M Memory unit :=
  poll ;;
  lift (ReviewReport_Validate report) ;;
  acquire ;; poll ;;
  atomically (CreateReviewAndUpdateWork report expectedVersion work).

Definition Memory_GetReviewContext (id : string) : M Memory ReviewReport :=
  rlocked (fun m => of_option ErrNotFound (reviewReports m !! id)).

Definition closure_authorized (item : ClosureReceipt) (expectedVersion : N) (work current : WorkItem)
    (report : ReviewReport) : Prop :=
  wi_Version current = expectedVersion /\ wi_State current = WorkReviewing /\ wi_State work = WorkClosed
  /\ rv_Result report = ResultPass /\ rv_DeliveryReceiptID report = cl_DeliveryReceiptID item
  /\ rv_VerificationReportID report = cl_VerificationReportID item
  /\ rv_TaskContractDigest report = cl_TaskContractDigest item
  /\ rv_SubjectDigest report = cl_SubjectDigest item
  /\ wi_ActiveRunID current = cl_RunID item
  /\ wi_ActiveTaskContractDigest current = cl_TaskContractDigest item
  /\ wi_ActiveRunID work = wi_ActiveRunID current
  /\ wi_ActiveTaskContractDigest work = wi_ActiveTaskContractDigest current.
#[export] Instance closure_authorized_dec item v work current report :
  Decision (closure_authorized item v work current report).
Proof. unfold closure_authorized. apply _. Defined.

Definition CreateClosureAndUpdateWork (item : ClosureReceipt) (expectedVersion : N) (work : WorkItem)
    (m : Memory) : outcome (unit * Memory) :=
  match closures m !! cl_ID item with
  | Some _ => Err ErrExists
  | None =>
    current ← of_option ErrNotFound (works m !! wi_ID work);
    report ← of_option ErrNotFound (reviewReports m !! cl_ReviewReportID item);
    if decide (closure_authorized item expectedVersion work current report) then
      let work' := set_wi_Version (u64_succ expectedVersion) work in
      Ok (tt, set_works (<[wi_ID work := work']> (works m)) (set_closures (<[cl_ID item := item]> (closures m)) m))
    else Err ErrConflict
  end.
Definition Memory_CreateClosureAndUpdateWorkContext (item : ClosureReceipt) (expectedVersion : N) (work : WorkItem)
    : M Memory unit := locked (CreateClosureAndUpdateWork item expectedVersion work).

Definition Memory_GetClosureContext (id : string) : M Memory ClosureReceipt :=
  rlocked (fun m => of_option ErrNotFound (closures m !! id)).
