(* ===== verification/Lifecycle.v ===== *)
(** The life of the Core authority as a state machine.

    [step] lists the writes the control plane is meant to make to the memory
    store: each rule is one operation of [Store.v] together with what its
    caller in [internal/api] establishes first.  [Api.v] proves that the
    request handlers make no other write, whatever runs concurrently; this
    file proves what every reachable state and every step satisfy. *)
From S2P Require Import Prelude Effects Canonical Core Run Session Recovery Verification Review Routing Action Store.

(** The ledger inside the store. *)
Definition ledger (m : Memory) : MemoryRepository := mkLedger (operations m) (actionIdempotency m).

(** One control call, applied to a run and to its session. *)
Inductive control_call : Run * Session -> Run * Session -> Prop :=
| control_pause r s n r' s' : Run_Pause r n = Ok r' -> Session_Pause s n = Ok s' -> control_call (r, s) (r', s')
| control_resume r s n r' s' : Run_Resume r n = Ok r' -> Session_Resume s n = Ok s' -> control_call (r, s) (r', s')
| control_takeover r s n e r' s' : Run_Takeover r n = Ok (e, r') -> Session_Takeover s n = Ok (e, s') ->
    control_call (r, s) (r', s').

Definition started_work (run : string) (w : WorkItem) : WorkItem :=
  set_wi_State WorkExecuting (set_wi_Active (wi_ActiveTaskContractDigest w) run w).
Definition frozen_work (digest : string) (w : WorkItem) : WorkItem :=
  set_wi_State WorkReady (set_wi_Active digest "" w).

(** The version counter of a stored record has room for one more write. *)
Definition room (version : N) : Prop := (version + 1 < u64_modulus)%N.

Section lifecycle.
Context `{Hash}.

Inductive step (m : Memory) : Memory -> Prop :=
| step_begin_recovery epoch r m' : BeginRecovery epoch m = Ok (r, m') -> step m m'
| step_complete_recovery epoch r m' : CompleteRecovery epoch true m = Ok (r, m') -> step m m'
| step_create_work item m' : CreateWork item m = Ok (tt, m') -> step m m'
| step_freeze_task task plan d current m' :
    works m !! wi_ID current = Some current -> wi_ID current = tc_WorkItemID task -> room (wi_Version current) ->
    task_digests task plan = Ok d -> ValidatePlan plan (tc_AcceptanceCriteria task) = true ->
    (tc_CapabilityIDs task, tc_SkillIDs task) ∈ all_routes ->
    CreateTaskAndUpdateWork task plan d.1 d.2 (wi_Version current) (frozen_work d.1 current) m = Ok (tt, m') ->
    step m m'
| step_start_run id attempt_id t input d attempt value current m' :
    works m !! wi_ID current = Some current -> room (wi_Version current) ->
    (exists task, tasksByDigest m !! ri_TaskContractDigest input = Some task /\ tc_WorkItemID task = wi_ID current) ->
    RunInputManifest_Digest input = Ok d -> ri_RunID input = id ->
    StartAttempt (Run_New id (ri_TaskContractDigest input) d) attempt_id t = Ok (attempt, value) ->
    CreateExecutionAndUpdateWork value attempt (Session_New id (at_Epoch attempt)) input d
      (wi_Version current) (started_work id current) m = Ok (tt, m') ->
    step m m'
| step_control id current value m' :
    runs m !! id = Some current.1 -> sessions m !! id = Some current.2 -> room (r_Version current.1) ->
    control_call current value ->
    UpdateExecution id (r_Version current.1) value.1 value.2 m = Ok (tt, m') ->
    step m m'
| step_steer id current sess cmd m' :
    runs m !! id = Some current -> room (r_Version current) ->
    (exists cur, sessions m !! id = Some cur /\ ApplySteering cur cmd = Ok sess) ->
    RecordSteering id (r_Version current) current sess cmd m = Ok (tt, m') -> step m m'
| step_complete_run id n current sess value work m' :
    runs m !! id = Some current -> sessions m !! id = Some sess -> room (r_Version current) ->
    Run_Complete current n = Ok value ->
    works m !! wi_ID work = Some work -> room (wi_Version work) -> wi_State work = WorkExecuting ->
    UpdateExecutionAndWork id (r_Version current) value sess (wi_Version work) (set_wi_State WorkVerifying work) m
      = Ok (tt, m') ->
    step m m'
| step_checkpoint item d value sess m' :
    runs m !! cp_RunID item = Some value -> sessions m !! cp_RunID item = Some sess ->
    r_TaskContractDigest value = cp_TaskContractDigest item ->
    r_RunInputManifestDigest value = cp_RunInputManifestDigest item ->
    Checkpoint_Digest item = Ok d ->
    CreateCheckpoint item d m = Ok (d, m') -> step m m'
| step_reserve op m' : CreateOperation op m = Ok (tt, m') -> step m m'
| step_settle op m' : UpdateOperation op m = Ok (tt, m') -> step m m'
| step_deliver item value task m' :
    runs m !! dr_RunID item = Some value -> r_State value = run_Completed ->
    r_TaskContractDigest value = dr_TaskContractDigest item ->
    tasksByDigest m !! dr_TaskContractDigest item = Some task ->
    tc_WorkItemID task = dr_WorkItemID item -> tc_TargetID task = dr_TargetID item ->
    tc_BaseCommit task = dr_BaseCommit item ->
    CalculateSubjectDigest item = Ok (dr_SubjectDigest item) ->
    CreateDelivery item m = Ok (tt, m') -> step m m'
| step_evidence item m' : CreateEvidence item m = Ok (tt, m') -> step m m'
| step_verify delivery task plan items id verifier t m' :
    deliveries m !! dr_ID delivery = Some delivery ->
    tasksByDigest m !! dr_TaskContractDigest delivery = Some task ->
    verificationPlans m !! tc_VerificationPlanDigest task = Some plan ->
    Forall (fun i => evidence m !! ev_ID i = Some i) items ->
    let report := Evaluate plan (dr_SubjectDigest delivery) items in
    CreateVerification (mkReport id (dr_ID delivery) (vr_PlanID report) (tc_VerificationPlanDigest task)
      (vr_SubjectDigest report) (vr_Result report) verifier (vr_Criteria report) (vr_EvidenceIDs report) t) m
      = Ok (tt, m') ->
    step m m'
| step_review report current m' :
    works m !! wi_ID current = Some current -> room (wi_Version current) ->
    ReviewReport_Validate report = Ok tt ->
    CreateReviewAndUpdateWork report (wi_Version current)
      (if decide (rv_Result report = ResultPass) then set_wi_State WorkReviewing current else current) m = Ok (tt, m') ->
    step m m'
| step_close item delivery value current m' :
    works m !! wi_ID current = Some current -> wi_ID current = cl_WorkItemID item -> room (wi_Version current) ->
    deliveries m !! cl_DeliveryReceiptID item = Some delivery ->
    dr_WorkItemID delivery = cl_WorkItemID item -> dr_RunID delivery = cl_RunID item ->
    dr_TaskContractDigest delivery = cl_TaskContractDigest item ->
    dr_SubjectDigest delivery = cl_SubjectDigest item ->
    runs m !! cl_RunID item = Some value -> r_State value = run_Completed ->
    cl_Result item = "CLOSED" ->
    CreateClosureAndUpdateWork item (wi_Version current) (set_wi_State WorkClosed current) m = Ok (tt, m') ->
    step m m'.

Definition reachable (m : Memory) : Prop := rtc step NewMemory m.


(** ** What a step does to the records it finds *)

(** The values a work item may take after a step: unchanged, or one version
    later, one edge of the work state machine further, with its identity and
    its owner. *)
Definition work_moves (w w' : WorkItem) : Prop :=
  w' = w \/
  (wi_Version w' = wi_Version w + 1)%N /\ wi_ID w' = wi_ID w /\ wi_Title w' = wi_Title w
  /\ wi_HumanOwner w' = wi_HumanOwner w /\ wi_CreatedAt w' = wi_CreatedAt w
  /\ (wi_State w' = wi_State w \/ work_step (wi_State w) (wi_State w')).

(** The same for a run and its session. *)
Definition execution_moves (p p' : Run * Session) : Prop :=
  p' = p \/
  (r_Version p'.1 = r_Version p.1 + 1)%N /\ r_ID p'.1 = r_ID p.1 /\ same_frozen p.1 p'.1
  /\ s_RunID p'.2 = s_RunID p.2
  /\ (s_ExecutionEpoch p.2 = r_CurrentEpoch p.1 -> s_ExecutionEpoch p'.2 = r_CurrentEpoch p'.1)
  /\ (run_terminal p.1 -> r_State p'.1 = r_State p.1)
  /\ (r_CurrentEpoch p'.1 = r_CurrentEpoch p.1 \/ r_CurrentEpoch p'.1 = u64_succ (r_CurrentEpoch p.1))
  /\ (s_LastSequence p.2 <= s_LastSequence p'.2)%N.

Definition execution (m : Memory) (id : string) : option (Run * Session) :=
  match runs m !! id, sessions m !! id with Some r, Some s => Some (r, s) | _, _ => None end.

(** Records are only added; what was written stays, up to the moves above. *)
Record extends (m m' : Memory) : Prop := {
  ex_works id w : works m !! id = Some w -> exists w', works m' !! id = Some w' /\ work_moves w w';
  ex_executions id p : execution m id = Some p -> exists p', execution m' id = Some p' /\ execution_moves p p';
  ex_tasks : tasksByDigest m ⊆ tasksByDigest m';
  ex_plans d p : verificationPlans m !! d = Some p ->
    exists q, verificationPlans m' !! d = Some q /\ (q = p \/ Plan_Digest q = Ok d);
  ex_runs id : is_Some (runs m !! id) -> is_Some (runs m' !! id);
  ex_attempts id : is_Some (runs m !! id) -> attempts m' !! id = attempts m !! id;
  ex_inputs : runInputs m ⊆ runInputs m';
  ex_steering : steeringCommands m ⊆ steeringCommands m';
  ex_checkpoints : checkpoints m ⊆ checkpoints m';
  ex_checkpointDigests : checkpointDigests m ⊆ checkpointDigests m';
  ex_deliveries : deliveries m ⊆ deliveries m';
  ex_evidence : evidence m ⊆ evidence m';
  ex_verifications : verificationReports m ⊆ verificationReports m';
  ex_reviews : reviewReports m ⊆ reviewReports m';
  ex_reviewed : reviewByVerification m ⊆ reviewByVerification m';
  ex_closures : closures m ⊆ closures m';
  ex_ledger : ledger_evolves (ledger m) (ledger m')
}.

(** ** The operations, inverted *)

Lemma admit_revision_inv task td pd m versions : admit_revision task td pd m = Ok versions ->
  tasksByDigest m !! td = None /\
  ((tasks m !! tc_ID task = None /\ tc_Revision task = 1%N /\ versions = ∅)
   \/ (tasks m !! tc_ID task = Some versions /\ versions !! tc_Revision task = None
       /\ tc_Revision task = u64_succ (default 0%N (latestTaskRev m !! tc_ID task)))).
Proof.
  unfold admit_revision. intros Ha. destruct (tasksByDigest m !! td) eqn:Ht; [done|]. split; [done|].
  apply bind_ok in Ha as (u & _ & Ha).
  destruct (tasks m !! tc_ID task) as [vs|]; ok_inv; guards; [by right | by left].
Qed.

Lemma task_digests_inv task plan d : task_digests task plan = Ok d ->
  tc_Revision task <> 0%N /\ TaskContract_Digest task = Ok d.1 /\ Plan_Digest plan = Ok d.2
  /\ d.2 = tc_VerificationPlanDigest task /\ pl_ID plan = tc_VerificationPlanID task.
Proof. unfold task_digests. intros Hd. ok_inv. guards. simpl. subst. auto. Qed.

Lemma CreateWork_inv item m m' : CreateWork item m = Ok (tt, m') ->
  exists item', wi_ID item' = wi_ID item /\ (item' = item \/ item' = set_wi_Version 1 item)
    /\ works m !! wi_ID item = None /\ m' = set_works (<[wi_ID item := item']> (works m)) m.
Proof.
  unfold CreateWork. intros Hc. destruct (works m !! wi_ID item) eqn:E; [done|]. injection Hc as <-.
  case_decide; [exists (set_wi_Version 1 item) | exists item]; auto.
Qed.

Lemma CreateTaskAndUpdateWork_inv task plan td pd v work m m' :
  CreateTaskAndUpdateWork task plan td pd v work m = Ok (tt, m') ->
  exists current versions, works m !! wi_ID work = Some current /\ wi_Version current = v
    /\ (wi_State current = WorkDraft \/ wi_State current = WorkReady) /\ wi_ActiveRunID current = ""
    /\ admit_revision task td pd m = Ok versions
    /\ m' = set_works (<[wi_ID work := set_wi_Version (u64_succ v) work]> (works m))
               (store_revision task plan td pd versions m).
Proof.
  unfold CreateTaskAndUpdateWork. intros Hc. ok_inv. guards. eexists _, _. split_and!; eauto.
  destruct (decide (wi_State a = WorkDraft)); [by left|]. right.
  destruct (decide (wi_State a = WorkReady)); [done|tauto].
Qed.

Lemma absent_execution_inv id d m u : absent_execution id d m = Ok u ->
  runs m !! id = None /\ sessions m !! id = None /\ runInputs m !! d = None.
Proof. unfold absent_execution. intros Ha. destruct (runs m !! id), (sessions m !! id), (runInputs m !! d); by ok_inv. Qed.

Lemma CreateExecutionAndUpdateWork_inv value attempt sess input d v work m m' :
  CreateExecutionAndUpdateWork value attempt sess input d v work m = Ok (tt, m') ->
  exists current task, works m !! wi_ID work = Some current /\ wi_Version current = v
    /\ wi_State current = WorkReady /\ wi_ActiveTaskContractDigest current = r_TaskContractDigest value
    /\ wi_ActiveRunID current = "" /\ tasksByDigest m !! r_TaskContractDigest value = Some task
    /\ runs m !! r_ID value = None /\ sessions m !! r_ID value = None /\ runInputs m !! d = None
    /\ m' = set_works (<[wi_ID work := set_wi_Version (u64_succ v) work]> (works m))
              (set_attempts (<[r_ID value := {[at_ID attempt := attempt]}]> (attempts m))
                 (store_execution (default_run_version value) sess input d m)).
Proof.
  unfold CreateExecutionAndUpdateWork. intros Hc. ok_inv. guards.
  match goal with E : absent_execution _ _ _ = Ok _ |- _ => apply absent_execution_inv in E as (? & ? & ?) end.
  eexists _, _. split_and!; eauto.
Qed.

Lemma find_execution_inv id m p : find_execution id m = Ok p ->
  runs m !! id = Some p.1 /\ sessions m !! id = Some p.2.
Proof. unfold find_execution. intros Hf. by ok_inv. Qed.

Lemma UpdateExecution_inv id v value sess m m' : UpdateExecution id v value sess m = Ok (tt, m') ->
  exists current, runs m !! id = Some current /\ is_Some (sessions m !! id) /\ r_Version current = v
    /\ same_frozen current value /\ m' = write_execution id v value sess m.
Proof.
  unfold UpdateExecution. intros Hu. ok_inv. guards.
  match goal with E : find_execution _ _ = Ok _ |- _ => apply find_execution_inv in E as [? ?] end.
  simpl in *. eexists. split_and!; eauto.
Qed.

Lemma RecordSteering_inv id v value sess cmd m m' : RecordSteering id v value sess cmd m = Ok (tt, m') ->
  exists current cur, runs m !! id = Some current /\ sessions m !! id = Some cur /\ r_Version current = v
    /\ same_frozen current value /\ r_ID value = id /\ s_RunID sess = id /\ sc_RunID cmd = id
    /\ sc_ExecutionEpoch cmd = r_CurrentEpoch current /\ s_ExecutionEpoch sess = r_CurrentEpoch current
    /\ s_LastSequence sess = sc_Sequence cmd /\ (s_LastSequence cur < sc_Sequence cmd)%N
    /\ steeringCommands m !! sc_ID cmd = None
    /\ m' = set_steeringCommands (<[sc_ID cmd := cmd]> (steeringCommands m)) (write_execution id v value sess m).
Proof.
  unfold RecordSteering. intros Hu. ok_inv. guards.
  match goal with E : find_execution _ _ = Ok _ |- _ => apply find_execution_inv in E as [? ?] end.
  simpl in *. eexists _, _. split_and!; eauto; lia.
Qed.

Lemma UpdateExecutionAndWork_inv id v value sess wv work m m' :
  UpdateExecutionAndWork id v value sess wv work m = Ok (tt, m') ->
  exists current cw, runs m !! id = Some current /\ is_Some (sessions m !! id)
    /\ works m !! wi_ID work = Some cw /\ r_Version current = v /\ wi_Version cw = wv
    /\ same_frozen current value
    /\ wi_ActiveTaskContractDigest cw = r_TaskContractDigest value /\ wi_ActiveRunID cw = r_ID value
    /\ m' = set_works (<[wi_ID work := set_wi_Version (u64_succ wv) work]> (works m)) (write_execution id v value sess m).
Proof.
  unfold UpdateExecutionAndWork. intros Hu. ok_inv. guards.
  match goal with E : find_execution _ _ = Ok _ |- _ => apply find_execution_inv in E as [? ?] end.
  simpl in *. eexists _, _. split_and!; eauto.
Qed.

Lemma CreateReviewAndUpdateWork_inv report v work m m' :
  CreateReviewAndUpdateWork report v work m = Ok (tt, m') ->
  exists vr delivery current, reviewReports m !! rv_ID report = None
    /\ reviewByVerification m !! rv_VerificationReportID report = None
    /\ verificationReports m !! rv_VerificationReportID report = Some vr
    /\ deliveries m !! rv_DeliveryReceiptID report = Some delivery
    /\ works m !! wi_ID work = Some current /\ review_authorized report v work current delivery vr
    /\ m' = set_works (<[wi_ID work := set_wi_Version (u64_succ v) work]> (works m))
              (set_reviewByVerification (<[rv_VerificationReportID report := rv_ID report]> (reviewByVerification m))
                 (set_reviewReports (<[rv_ID report := report]> (reviewReports m)) m)).
Proof.
  unfold CreateReviewAndUpdateWork. intros Hc.
  destruct (reviewReports m !! rv_ID report), (reviewByVerification m !! rv_VerificationReportID report); try done.
  ok_inv. eexists _, _, _. split_and!; eauto.
Qed.

Lemma CreateClosureAndUpdateWork_inv item v work m m' :
  CreateClosureAndUpdateWork item v work m = Ok (tt, m') ->
  exists current report, closures m !! cl_ID item = None /\ works m !! wi_ID work = Some current
    /\ reviewReports m !! cl_ReviewReportID item = Some report /\ closure_authorized item v work current report
    /\ m' = set_works (<[wi_ID work := set_wi_Version (u64_succ v) work]> (works m))
              (set_closures (<[cl_ID item := item]> (closures m)) m).
Proof. unfold CreateClosureAndUpdateWork. intros Hc. ok_inv. eexists _, _. split_and!; eauto. Qed.

Lemma CreateCheckpoint_inv item d m m' r : CreateCheckpoint item d m = Ok (r, m') ->
  r = d /\ checkpoints m !! cp_ID item = None /\ checkpointDigests m !! d = None
  /\ m' = set_checkpointDigests (<[d := cp_ID item]> (checkpointDigests m))
            (set_checkpoints (<[cp_ID item := item]> (checkpoints m)) m).
Proof.
  unfold CreateCheckpoint. intros Hc.
  destruct (checkpoints m !! cp_ID item), (checkpointDigests m !! d); by ok_inv.
Qed.

Lemma CreateOperation_inv op m m' : CreateOperation op m = Ok (tt, m') ->
  ledger_create op (ledger m) = Ok (tt, ledger m')
  /\ m' = set_actionIdempotency (<[op_IdempotencyKey op := op_ID op]> (actionIdempotency m))
            (set_operations (<[op_ID op := op]> (operations m)) m).
Proof. unfold CreateOperation, ledger_create. intros Hc. ok_inv. simpl. by rewrite E, E0. Qed.

Lemma UpdateOperation_inv op m m' : UpdateOperation op m = Ok (tt, m') ->
  ledger_update op (ledger m) = Ok (tt, ledger m')
  /\ m' = set_operations (<[op_ID op := op]> (operations m)) m.
Proof. unfold UpdateOperation, ledger_update. intros Hc. ok_inv. simpl. by rewrite E, E0, E1. Qed.

Lemma CreateEvidence_inv item m m' : CreateEvidence item m = Ok (tt, m') ->
  exists delivery task plan, evidence m !! ev_ID item = None
    /\ deliveries m !! ev_DeliveryReceiptID item = Some delivery
    /\ ev_SubjectDigest item = dr_SubjectDigest delivery
    /\ tasksByDigest m !! dr_TaskContractDigest delivery = Some task
    /\ verificationPlans m !! tc_VerificationPlanDigest task = Some plan
    /\ EvidenceMatchesPlan plan item = true /\ EvidenceArtifactsBelongToDelivery delivery item = true
    /\ m' = set_evidence (<[ev_ID item := item]> (evidence m)) m.
Proof.
  unfold CreateEvidence. intros Hc. ok_inv. guards.
  match goal with E : _ || _ = false |- _ => apply orb_false_iff in E as [?%negb_false_iff ?%negb_false_iff] end.
  eexists _, _, _. split_and!; eauto.
Qed.


End lifecycle.

(** Takes a step apart: one goal per rule, with the state after the step written out. *)
Ltac step_cases H :=
  destruct H as [epoch r m' Hop | epoch r m' Hop | item m' Hop
    | task plan d current m' Hw Hid Hroom Hd Hv Hroute Hop
    | id aid t input d attempt value current m' Hw Hroom Htask Hi Hri Hs Hop
    | id current value m' Hr Hs Hroom Hctl Hop
    | id current sess cmd m' Hr Hroom (cur & Hcur & Hst) Hop
    | id n current sess value work m' Hr Hs Hroom Hdone Hw Hwroom Hstate Hop
    | item d value sess m' Hr Hs Ht Hi Hd Hop | op m' Hop | op m' Hop
    | item value task m' Hr Hs Htd Ht Hwi Hti Hb Hsub Hop | item m' Hop
    | delivery task plan items id verifier t m' Hd Ht Hp Hev report Hop
    | report current m' Hw Hroom Hval Hop
    | item delivery value current m' Hw Hid Hroom Hd Hdw Hdr Hdt Hds Hr Hs Hres Hop];
  [ unfold BeginRecovery in Hop; ok_inv
  | unfold CompleteRecovery in Hop; ok_inv
  | apply CreateWork_inv in Hop as (item' & Hid & Hitem & Hnone & ->)
  | apply CreateTaskAndUpdateWork_inv in Hop as (c & vs & Hc & Hver & Hst & Har & Had & ->);
    change (wi_ID (frozen_work d.1 current)) with (wi_ID current) in *;
    rewrite Hw in Hc; injection Hc as <-
  | apply CreateExecutionAndUpdateWork_inv in Hop
      as (c & task & Hc & Hver & Hst & Ha & Hnr & Htd & Hr & Hse & Hin & ->);
    change (wi_ID (started_work id current)) with (wi_ID current) in *;
    rewrite Hw in Hc; injection Hc as <-
  | apply UpdateExecution_inv in Hop as (c & _ & _ & _ & Hf & ->)
  | apply RecordSteering_inv in Hop as (c & cur' & Hc & Hcur' & _ & _ & _ & _ & Hcr & Hce & _ & Hls & Hlt & Hnone & ->);
    rewrite Hcur in Hcur'; injection Hcur' as <-; rewrite Hr in Hc; injection Hc as <-
  | apply UpdateExecutionAndWork_inv in Hop as (c & cw & _ & _ & _ & _ & _ & Hf & Hat & Har & ->);
    change (wi_ID (set_wi_State WorkVerifying work)) with (wi_ID work) in *
  | apply CreateCheckpoint_inv in Hop as (_ & Hn1 & Hn2 & ->)
  | apply CreateOperation_inv in Hop as [Hled ->]
  | apply UpdateOperation_inv in Hop as [Hled ->]
  | unfold CreateDelivery in Hop; ok_inv
  | apply CreateEvidence_inv in Hop as (dl & tk & pl & Hnone & Hdl & Hsd & Htk & Hpl & Hmatch & Hart & ->)
  | unfold CreateVerification in Hop; ok_inv
  | apply CreateReviewAndUpdateWork_inv in Hop as (vr & dl & c & Hn1 & Hn2 & Hvr & Hdl & Hc & Ha & ->)
  | apply CreateClosureAndUpdateWork_inv in Hop as (c & rp & Hn & Hc & Hrp & Ha & ->);
    change (wi_ID (set_wi_State WorkClosed current)) with (wi_ID current) in *;
    rewrite Hw in Hc; injection Hc as <- ].

Section moves.
Context `{Hash}.

(** ** Every step extends *)

Lemma work_moves_refl w : work_moves w w.
Proof. by left. Qed.
Lemma execution_moves_refl p : execution_moves p p.
Proof. by left. Qed.

Lemma works_insert_moves (ws : gmap string WorkItem) work w0 :
  ws !! wi_ID work = Some w0 -> work_moves w0 work ->
  forall id w, ws !! id = Some w -> exists w', <[wi_ID work := work]> ws !! id = Some w' /\ work_moves w w'.
Proof.
  intros H0 Hm id w Hw. destruct (decide (id = wi_ID work)) as [->|].
  - exists work. rewrite lookup_insert_eq. split; [done|]. congruence.
  - exists w. rewrite lookup_insert_ne by done. split; [done | apply work_moves_refl].
Qed.

Lemma works_moves_at (ws : gmap string WorkItem) w to digest run :
  ws !! wi_ID w = Some w -> room (wi_Version w) -> (wi_State w = to \/ work_step (wi_State w) to) ->
  let work := set_wi_Version (u64_succ (wi_Version w)) (set_wi_State to (set_wi_Active digest run w)) in
  forall id w1, ws !! id = Some w1 -> exists w', <[wi_ID w := work]> ws !! id = Some w' /\ work_moves w1 w'.
Proof.
  intros Hw Hr Hto work. change (wi_ID w) with (wi_ID work). apply (works_insert_moves ws work w Hw).
  right. simpl. rewrite u64_succ_small by done. split_and!; auto. destruct Hto; auto.
Qed.

Lemma works_moves_state (ws : gmap string WorkItem) w to :
  ws !! wi_ID w = Some w -> room (wi_Version w) -> (wi_State w = to \/ work_step (wi_State w) to) ->
  let work := set_wi_Version (u64_succ (wi_Version w)) (set_wi_State to w) in
  forall id w1, ws !! id = Some w1 -> exists w', <[wi_ID w := work]> ws !! id = Some w' /\ work_moves w1 w'.
Proof.
  intros Hw Hr Hto. pose proof (works_moves_at ws w to (wi_ActiveTaskContractDigest w) (wi_ActiveRunID w) Hw Hr Hto).
  by destruct w.
Qed.

Lemma execution_write id v value sess m id' :
  execution (write_execution id v value sess m) id' =
  if decide (id' = id) then Some (set_r_Version (u64_succ v) value, sess) else execution m id'.
Proof.
  unfold execution, write_execution; simpl. case_decide as Hid.
  - subst. by rewrite !lookup_insert_eq.
  - by rewrite !lookup_insert_ne by done.
Qed.

Lemma execution_write_moves id value sess m r s :
  runs m !! id = Some r -> sessions m !! id = Some s ->
  execution_moves (r, s) (set_r_Version (u64_succ (r_Version r)) value, sess) ->
  forall id' p, execution m id' = Some p -> exists p',
    execution (write_execution id (r_Version r) value sess m) id' = Some p' /\ execution_moves p p'.
Proof.
  intros Hr Hs Hm id' p Hp. rewrite execution_write. case_decide as Hid.
  - subst. unfold execution in Hp. rewrite Hr, Hs in Hp. injection Hp as <-. eauto.
  - exists p. split; [done | apply execution_moves_refl].
Qed.

Lemma control_call_moves p p' : control_call p p' -> room (r_Version p.1) ->
  execution_moves p (set_r_Version (u64_succ (r_Version p.1)) p'.1, p'.2).
Proof.
  intros Hc Hroom. right.
  destruct Hc as [r s n r' s' Hr Hs | r s n r' s' Hr Hs | r s n e r' s' Hr Hs];
    unfold Session_Pause, Session_Resume, Session_Takeover in Hs; run_inv;
    repeat case_decide; simplify_eq; simpl; rewrite ?u64_succ_small by done;
    split_and!; try done; auto; try lia; tauto.
Qed.

Lemma complete_moves r n r' s : Run_Complete r n = Ok r' -> room (r_Version r) ->
  execution_moves (r, s) (set_r_Version (u64_succ (r_Version r)) r', s).
Proof.
  intros Hc Hroom. right. run_inv. rewrite u64_succ_small by done.
  split_and!; try done; auto; try lia; tauto.
Qed.

Lemma steer_moves r s s' cmd : ApplySteering s cmd = Ok s' -> room (r_Version r) ->
  execution_moves (r, s) (set_r_Version (u64_succ (r_Version r)) r, s').
Proof.
  intros (He & Ho & Hlt & ->)%ApplySteering_inv Hroom. right. simpl. rewrite u64_succ_small by done.
  split_and!; try done; auto; lia.
Qed.

Lemma insert_keeps {A} (g : gmap string A) k v x : is_Some (g !! x) -> is_Some (<[k := v]> g !! x).
Proof. intros. apply lookup_insert_is_Some'. by right. Qed.

(** Solves the fields of [extends] a write leaves alone or only adds to. *)
Ltac extend :=
  split; simpl; first
    [ done
    | by intros; eexists; split; [eassumption | left]
    | by apply insert_subseteq
    | by intros; apply insert_keeps
    | apply ledger_evolves_refl
    | idtac ].

Lemma extends_refl m : extends m m.
Proof. split; eauto using work_moves_refl, execution_moves_refl, ledger_evolves_refl. Qed.


Lemma store_execution_extends value sess input d m :
  runs m !! r_ID value = None -> sessions m !! r_ID value = None ->
  forall id p, execution m id = Some p -> exists p',
    execution (store_execution (default_run_version value) sess input d m) id = Some p' /\ execution_moves p p'.
Proof.
  intros Hr Hs id p Hp. exists p. split; [|apply execution_moves_refl]. revert Hp.
  assert (r_ID (default_run_version value) = r_ID value) as Hid.
  { unfold default_run_version. by case_decide. }
  unfold execution, store_execution; simpl. rewrite Hid.
  destruct (decide (id = r_ID value)) as [->|]; [by rewrite Hr|]. by rewrite !lookup_insert_ne.
Qed.

Lemma plans_insert_moves (ps : gmap string Plan) digest plan : Plan_Digest plan = Ok digest ->
  forall d p, ps !! d = Some p -> exists q, <[digest := plan]> ps !! d = Some q /\ (q = p \/ Plan_Digest q = Ok d).
Proof.
  intros Hd d p Hp. destruct (decide (d = digest)) as [->|].
  - exists plan. rewrite lookup_insert_eq. auto.
  - exists p. rewrite lookup_insert_ne by done. auto.
Qed.

Lemma step_extends m m' : step m m' -> extends m m'.
Proof.
  intros H0. step_cases H0; try by extend.
  - extend. intros id w Hw. exists w. split; [|apply work_moves_refl]. rewrite lookup_insert_ne; [done|]. congruence.
  - apply admit_revision_inv in Had as [Hnone _]. apply task_digests_inv in Hd as (_ & _ & Hp & _). extend.
    + apply (works_moves_at (works m) current WorkReady d.1 ""); [done | done |].
      destruct Hst as [-> | ->]; [right; constructor | by left].
    + by apply plans_insert_moves.
  - extend.
    + apply (works_moves_at (works m) current WorkExecuting _ id); [done | done |]. right. rewrite Hst. constructor.
    + by apply store_execution_extends.
    + intros x Hx. rewrite lookup_insert_ne; [done|]. intros <-. rewrite Hr in Hx. by destruct Hx.
  - extend. destruct current as [r s]. simpl in *. eapply execution_write_moves; [done | done |].
    by apply (control_call_moves (r, s) value).
  - extend. eapply execution_write_moves; [done | done |]. by eapply steer_moves.
  - extend.
    + apply (works_moves_state (works m) work WorkVerifying); [done | done |]. right. rewrite Hstate. constructor.
    + eapply execution_write_moves; [done | done |]. by eapply complete_moves.
  - extend. by eapply ledger_create_evolves.
  - extend. by eapply ledger_update_evolves.
  - destruct Ha as (_ & Hst & _). case_decide as Hres; simpl in *; rewrite Hw in Hc; injection Hc as <-; extend.
    + apply (works_moves_state (works m) current WorkReviewing); [done | done |]. right. rewrite Hst. constructor.
    + pose proof (works_moves_state (works m) current (wi_State current) Hw Hroom (or_introl eq_refl)). by destruct current.
  - destruct Ha as (_ & Hst & _). extend.
    apply (works_moves_state (works m) current WorkClosed); [done | done |]. right. rewrite Hst. constructor.
Qed.

End moves.
