(* ===== verification/Demo.v ===== *)
(** One work item from creation to closure, computed: the states the memory
    store goes through and a proof that each is one [step] after the other.
    The examples of the other files start from here. *)
From S2P Require Import Prelude Effects Canonical Core Run Session Recovery Verification Review Routing Action Store Lifecycle.

(** The state a successful write leaves. *)
Definition after {A} (o : outcome (A * Memory)) (m : Memory) : Memory :=
  match o with Ok (_, m') => m' | Err _ => m end.
Definition digest_of (o : outcome string) : string := match o with Ok d => d | Err _ => "" end.

Definition demo_time : time := 1700000000000000000%Z.

Definition work0 : WorkItem := mkWorkItem "W1" "boot failure" "" "olga" "board-1" "" "" "" WorkDraft 1 demo_time.
Definition plan0 : Plan := mkPlan "P1" [mkCriterion "C1" "board boots" [mkRequirement "R1" "boot-test" "lab"]].
Definition plan_digest : string := Eval vm_compute in digest_of (Plan_Digest plan0).
Definition task0 : TaskContract :=
  mkTaskContract "T1" "W1" "DEBUG" ["embedded.debug-reliability"; "embedded.linux-bsp"]
    ["material-readiness"; "log-triage"; "linux-bsp-debug"] "" 0 "repo" "base" "board-1" ""
    ["board boots"] ["publish"] [] "P1" plan_digest 1.
Definition task_digest : string := Eval vm_compute in digest_of (TaskContract_Digest task0).
Definition input0 : RunInputManifest := mkRunInput None "run-1" task_digest [] "rt" "tool" "worker" "policy".
Definition input_digest : string := Eval vm_compute in digest_of (RunInputManifest_Digest input0).
Definition attempt0 : Attempt := mkAttempt "A1" 1 demo_time zero_time.
Definition run0 : Run := mkRun "run-1" task_digest input_digest run_Running 1 1 "A1" "RUNTIME".
Definition delivery_body (subject : string) : DeliveryReceipt :=
  mkDelivery "D1" "W1" task_digest "run-1" "board-1" "base" "" subject
    [mkArtifactRef "log-1" "sha256:00" "text/plain" ""] [] demo_time.
Definition subject0 : string := Eval vm_compute in digest_of (CalculateSubjectDigest (delivery_body "")).
Definition delivery0 : DeliveryReceipt := delivery_body subject0.
Definition evidence0 : EvidenceRef :=
  mkEvidenceRef "E1" "D1" "R1" subject0 "lab" "boot-test" "PASS" ["log-1"] true.
Definition report0 : Report :=
  let r := Evaluate plan0 subject0 [evidence0] in
  mkReport "V1" "D1" (vr_PlanID r) (tc_VerificationPlanDigest task0) (vr_SubjectDigest r) (vr_Result r) "vera"
    (vr_Criteria r) (vr_EvidenceIDs r) demo_time.
Definition review0 : ReviewReport :=
  mkReview "RV1" "D1" "V1" task_digest subject0 "rene" ResultPass [] [] demo_time.
Definition closure0 : ClosureReceipt :=
  mkClosure "CL1" "W1" task_digest "run-1" "D1" "V1" "RV1" subject0 "CLOSED" demo_time.

Definition work_in (m : Memory) : WorkItem := default work0 (works m !! "W1").
Definition run_in (m : Memory) : Run := default run0 (runs m !! "run-1").
Definition session_in (m : Memory) : Session := default (Session_New "run-1" 1) (sessions m !! "run-1").

Definition m1 : Memory := after (CreateWork work0 NewMemory) NewMemory.
Definition m2 : Memory :=
  after (CreateTaskAndUpdateWork task0 plan0 task_digest (tc_VerificationPlanDigest task0) (wi_Version (work_in m1))
           (frozen_work task_digest (work_in m1)) m1) m1.
Definition m3 : Memory :=
  after (CreateExecutionAndUpdateWork run0 attempt0 (Session_New "run-1" 1) input0 input_digest
           (wi_Version (work_in m2)) (started_work "run-1" (work_in m2)) m2) m2.
Definition m4 : Memory :=
  after (UpdateExecutionAndWork "run-1" (r_Version (run_in m3)) (set_r_State run_Completed (run_in m3))
           (session_in m3) (wi_Version (work_in m3)) (set_wi_State WorkVerifying (work_in m3)) m3) m3.
Definition m5 : Memory := after (CreateDelivery delivery0 m4) m4.
Definition m6 : Memory := after (CreateEvidence evidence0 m5) m5.
Definition m7 : Memory := after (CreateVerification report0 m6) m6.
Definition m8 : Memory :=
  after (CreateReviewAndUpdateWork review0 (wi_Version (work_in m7)) (set_wi_State WorkReviewing (work_in m7)) m7) m7.
Definition m9 : Memory :=
  after (CreateClosureAndUpdateWork closure0 (wi_Version (work_in m8)) (set_wi_State WorkClosed (work_in m8)) m8) m8.

Lemma after_ok (o : outcome (unit * Memory)) m : is_ok o = true -> o = Ok (tt, after o m).
Proof. by destruct o as [[[] ?]|]. Qed.

(** States are never written out: only flags and small records are computed. *)
Ltac computed :=
  first [ match goal with |- ?o = Ok (tt, ?m) => unfold m; apply after_ok; vm_compute; reflexivity end
        | vm_compute; reflexivity ].

Lemma demo1 : step NewMemory m1.
Proof. apply (step_create_work _ work0). computed. Qed.
Lemma demo2 : step m1 m2.
Proof.
  apply (step_freeze_task _ task0 plan0 (task_digest, tc_VerificationPlanDigest task0) (work_in m1));
    try computed. apply (bool_decide_unpack _). vm_compute. exact I.
Qed.
Lemma demo3 : step m2 m3.
Proof.
  apply (step_start_run _ "run-1" "A1" demo_time input0 input_digest attempt0 run0 (work_in m2)); try computed.
  exists task0. split; computed.
Qed.
Lemma demo4 : step m3 m4.
Proof.
  apply (step_complete_run _ "run-1" 1 (run_in m3) (session_in m3) (set_r_State run_Completed (run_in m3)) (work_in m3));
    computed.
Qed.
Lemma demo5 : step m4 m5.
Proof. apply (step_deliver _ delivery0 (run_in m4) task0); computed. Qed.
Lemma demo6 : step m5 m6.
Proof. apply (step_evidence _ evidence0). computed. Qed.
Lemma demo7 : step m6 m7.
Proof.
  apply (step_verify _ delivery0 task0 plan0 [evidence0] "V1" "vera" demo_time); try computed.
  constructor; [computed | constructor].
Qed.
Lemma demo8 : step m7 m8.
Proof. apply (step_review _ review0 (work_in m7)); computed. Qed.
Lemma demo9 : step m8 m9.
Proof. apply (step_close _ closure0 delivery0 (run_in m8) (work_in m8)); computed. Qed.

Lemma reachable_m7 : reachable m7.
Proof.
  eapply rtc_l, rtc_l, rtc_l, rtc_l, rtc_l, rtc_l, rtc_l, rtc_refl;
    [exact demo1 | exact demo2 | exact demo3 | exact demo4 | exact demo5 | exact demo6 | exact demo7].
Qed.
Lemma reachable_m9 : reachable m9.
Proof. unfold reachable. transitivity m7; [exact reachable_m7|]. eapply rtc_l, rtc_l, rtc_refl; [exact demo8 | exact demo9]. Qed.
