(* ===== verification/Authority.v ===== *)
(** What every reachable state of the Core authority satisfies: the invariant
    of [Lifecycle.step], by induction on the steps, and the chain of evidence
    behind every closure. *)
From S2P Require Import Prelude Effects Canonical Core Run Session Recovery Verification Review Routing Action Store Lifecycle Demo.

Section facts.
Context `{Hash}.

(** ** Stable facts about single records *)

Definition task_ok (m : Memory) (digest : string) (t : TaskContract) : Prop :=
  TaskContract_Digest t = Ok digest /\ is_Some (verificationPlans m !! tc_VerificationPlanDigest t)
  /\ (tc_CapabilityIDs t, tc_SkillIDs t) ∈ all_routes
  /\ exists plan, Plan_Digest plan = Ok (tc_VerificationPlanDigest t) /\ plan_covers plan (tc_AcceptanceCriteria t).

Definition execution_ok (m : Memory) (id : string) (p : Run * Session) : Prop :=
  r_ID p.1 = id /\ s_RunID p.2 = id /\ s_ExecutionEpoch p.2 = r_CurrentEpoch p.1
  /\ (exists input, runInputs m !! r_RunInputManifestDigest p.1 = Some input /\ ri_RunID input = id
      /\ ri_TaskContractDigest input = r_TaskContractDigest p.1)
  /\ is_Some (tasksByDigest m !! r_TaskContractDigest p.1).

Definition delivery_ok (m : Memory) (d : DeliveryReceipt) : Prop :=
  CalculateSubjectDigest d = Ok (dr_SubjectDigest d)
  /\ (exists task, tasksByDigest m !! dr_TaskContractDigest d = Some task
      /\ tc_WorkItemID task = dr_WorkItemID d /\ tc_BaseCommit task = dr_BaseCommit d)
  /\ exists p, execution m (dr_RunID d) = Some p /\ r_State p.1 = run_Completed
      /\ r_TaskContractDigest p.1 = dr_TaskContractDigest d.

Definition evidence_ok (m : Memory) (i : EvidenceRef) : Prop :=
  exists d task plan, deliveries m !! ev_DeliveryReceiptID i = Some d
    /\ ev_SubjectDigest i = dr_SubjectDigest d /\ artifacts_belong d i
    /\ tasksByDigest m !! dr_TaskContractDigest d = Some task
    /\ Plan_Digest plan = Ok (tc_VerificationPlanDigest task) /\ evidence_admissible plan i.

(** A report says what the plan and the stored evidence say. *)
Definition verification_ok (m : Memory) (v : Report) : Prop :=
  exists d task plan items, deliveries m !! vr_DeliveryReceiptID v = Some d
    /\ vr_SubjectDigest v = dr_SubjectDigest d
    /\ tasksByDigest m !! dr_TaskContractDigest d = Some task
    /\ vr_VerificationPlanDigest v = tc_VerificationPlanDigest task
    /\ Plan_Digest plan = Ok (tc_VerificationPlanDigest task)
    /\ Forall (fun i => evidence m !! ev_ID i = Some i) items
    /\ (vr_Result v = "PASS" <-> verified plan (dr_SubjectDigest d) items).

Definition review_ok (m : Memory) (r : ReviewReport) : Prop :=
  ReviewReport_Validate r = Ok tt /\ reviewByVerification m !! rv_VerificationReportID r = Some (rv_ID r)
  /\ exists v d w, verificationReports m !! rv_VerificationReportID r = Some v /\ vr_Result v = "PASS"
    /\ deliveries m !! rv_DeliveryReceiptID r = Some d
    /\ vr_DeliveryReceiptID v = rv_DeliveryReceiptID r
    /\ rv_TaskContractDigest r = dr_TaskContractDigest d /\ rv_SubjectDigest r = dr_SubjectDigest d
    /\ vr_SubjectDigest v = dr_SubjectDigest d
    /\ works m !! dr_WorkItemID d = Some w
    /\ rv_Reviewer r <> vr_Verifier v /\ rv_Reviewer r <> wi_HumanOwner w.

Definition closure_ok (m : Memory) (c : ClosureReceipt) : Prop :=
  cl_Result c = "CLOSED" /\ (exists w, works m !! cl_WorkItemID c = Some w /\ wi_State w = WorkClosed)
  /\ exists r d, reviewReports m !! cl_ReviewReportID c = Some r /\ rv_Result r = ResultPass
    /\ rv_DeliveryReceiptID r = cl_DeliveryReceiptID c /\ rv_VerificationReportID r = cl_VerificationReportID c
    /\ deliveries m !! cl_DeliveryReceiptID c = Some d
    /\ dr_WorkItemID d = cl_WorkItemID c /\ dr_RunID d = cl_RunID c
    /\ dr_TaskContractDigest d = cl_TaskContractDigest c /\ dr_SubjectDigest d = cl_SubjectDigest c.

(** ** The facts survive every step *)

Context (m m' : Memory) (E : extends m m').

Lemma execution_keeps id p : execution m id = Some p -> exists p', execution m' id = Some p'
  /\ r_ID p'.1 = r_ID p.1 /\ same_frozen p.1 p'.1 /\ (run_terminal p.1 -> r_State p'.1 = r_State p.1).
Proof.
  intros Hp. destruct (ex_executions _ _ E _ _ Hp) as (p' & Hp' & Hm). exists p'. split; [done|].
  destruct Hm as [-> | (_ & Hid & Hf & _ & _ & Ht & _)]; split_and!; done.
Qed.

Lemma works_keep id w : works m !! id = Some w -> exists w', works m' !! id = Some w'
  /\ wi_ID w' = wi_ID w /\ wi_HumanOwner w' = wi_HumanOwner w /\ (wi_State w = WorkClosed -> wi_State w' = WorkClosed).
Proof.
  intros Hw. destruct (ex_works _ _ E _ _ Hw) as (w' & Hw' & Hm). exists w'. split; [done|].
  destruct Hm as [-> | (_ & ? & _ & ? & _ & Hs)]; [done|]. split_and!; [done..|]. intros Hc. rewrite Hc in Hs.
  destruct Hs as [|Hs]; [done|]. by apply (proj1 (work_step_closed (wi_State w'))) in Hs.
Qed.

Lemma keep {A} (g g' : gmap string A) k x : g ⊆ g' -> g !! k = Some x -> g' !! k = Some x.
Proof. intros Hs Hk. by eapply lookup_weaken. Qed.

Ltac kept := eauto using keep, ex_tasks, ex_inputs, ex_deliveries, ex_evidence, ex_verifications,
  ex_reviews, ex_reviewed, ex_closures.

Lemma task_ok_step digest t : task_ok m digest t -> task_ok m' digest t.
Proof. intros (? & Hp & ? & ?). split_and!; try done. destruct Hp as [p Hp]. destruct (ex_plans _ _ E _ _ Hp) as (q & Hq & _). by exists q. Qed.

Lemma delivery_ok_step d : delivery_ok m d -> delivery_ok m' d.
Proof.
  intros (Hs & (task & Ht & Hx) & p & Hp & Hst & Htd). split; [done|]. split; [exists task; kept|].
  destruct (execution_keeps _ _ Hp) as (p' & Hp' & _ & [Hf _] & Hterm). exists p'. split; [done|].
  rewrite Hterm by (left; done). split; [done|]. congruence.
Qed.

Lemma evidence_ok_step i : evidence_ok m i -> evidence_ok m' i.
Proof. intros (d & task & plan & ? & ? & ? & ? & ? & ?). exists d, task, plan. split_and!; kept. Qed.

Lemma items_ok_step items : Forall (fun i => evidence m !! ev_ID i = Some i) items ->
  Forall (fun i => evidence m' !! ev_ID i = Some i) items.
Proof. intros Hf. eapply Forall_impl; [exact Hf|]. intros i Hi. simpl in *. kept. Qed.

Lemma verification_ok_step v : verification_ok m v -> verification_ok m' v.
Proof.
  intros (d & task & plan & items & ? & ? & ? & ? & ? & Hf & ?). exists d, task, plan, items.
  split_and!; kept. by apply items_ok_step.
Qed.

Lemma review_ok_step r : review_ok m r -> review_ok m' r.
Proof.
  intros (? & ? & v & d & w & ? & ? & ? & ? & ? & ? & ? & Hw & ? & Ho).
  destruct (works_keep _ _ Hw) as (w' & Hw' & _ & Hown & _). split; [done|]. split; [kept|].
  exists v, d, w'. rewrite Hown. split_and!; kept.
Qed.

Lemma closure_ok_step c : closure_ok m c -> closure_ok m' c.
Proof.
  intros (? & (w & Hw & Hcl) & r & d & ? & ? & ? & ? & ? & ? & ? & ? & ?). split; [done|].
  destruct (works_keep _ _ Hw) as (w' & Hw' & _ & _ & Hs). split; [eauto|]. exists r, d. split_and!; kept.
Qed.
End facts.

(** ** The invariant *)

Section invariant.
Context `{Hash}.

Record authority_ok (m : Memory) : Prop := {
  ok_works id w : works m !! id = Some w -> wi_ID w = id;
  ok_tasks d t : tasksByDigest m !! d = Some t -> task_ok m d t;
  ok_plans d p : verificationPlans m !! d = Some p -> Plan_Digest p = Ok d;
  ok_executions id p : execution m id = Some p -> execution_ok m id p;
  ok_pairs id : is_Some (runs m !! id) <-> is_Some (sessions m !! id);
  ok_inputs d i : runInputs m !! d = Some i -> RunInputManifest_Digest i = Ok d;
  ok_deliveries id d : deliveries m !! id = Some d -> dr_ID d = id /\ delivery_ok m d;
  ok_evidence id i : evidence m !! id = Some i -> ev_ID i = id /\ evidence_ok m i;
  ok_verifications id v : verificationReports m !! id = Some v -> vr_ID v = id /\ verification_ok m v;
  ok_reviews id r : reviewReports m !! id = Some r -> rv_ID r = id /\ review_ok m r;
  ok_reviewed v id : reviewByVerification m !! v = Some id -> exists r, reviewReports m !! id = Some r
    /\ rv_VerificationReportID r = v;
  ok_closures id c : closures m !! id = Some c -> cl_ID c = id /\ closure_ok m c;
  ok_ledger : ledger_wf (ledger m)
}.

Lemma insert_all {A} (g : gmap string A) k v (P : string -> A -> Prop) :
  P k v -> (forall x a, g !! x = Some a -> P x a) -> forall x a, <[k := v]> g !! x = Some a -> P x a.
Proof.
  intros Hv Hg x a. destruct (decide (x = k)) as [->|].
  - rewrite lookup_insert_eq. by intros [= <-].
  - rewrite lookup_insert_ne by done. apply Hg.
Qed.

Lemma authority_ok_new : authority_ok NewMemory.
Proof.
  split; simpl; try (intros ? ? Hl; rewrite lookup_empty in Hl; discriminate).
  - intros id p. unfold execution; simpl. by rewrite lookup_empty.
  - intros id. rewrite !lookup_empty. by split; intros [].
  - split; simpl; intros; simplify_map_eq.
Qed.

Lemma execution_write_ok id v value sess m r s id' p :
  authority_ok m -> runs m !! id = Some r -> sessions m !! id = Some s ->
  execution_moves (r, s) (set_r_Version (u64_succ v) value, sess) ->
  execution (write_execution id v value sess m) id' = Some p -> execution_ok m id' p.
Proof.
  intros Hok Hr Hs Hm. rewrite execution_write. case_decide as Hid; [|by apply ok_executions].
  intros [= <-]. subst id'. assert (execution m id = Some (r, s)) as Hx by by unfold execution; rewrite Hr, Hs.
  apply (ok_executions _ Hok) in Hx as (Hi & Hsi & Hep & (input & Hin & Hri & Htd) & Ht).
  destruct Hm as [Heq | (_ & Hid & [Hf1 Hf2] & Hsid & Hsync & _)].
  - rewrite Heq. split_and!; eauto.
  - simpl in *. split_and!; simpl; try congruence; [by apply Hsync |].
    exists input. by rewrite <- Hf2, <- Hf1.
Qed.

Lemma write_execution_pairs id v value sess m : authority_ok m -> is_Some (runs m !! id) ->
  forall id', is_Some (<[id := set_r_Version (u64_succ v) value]> (runs m) !! id') <->
    is_Some (<[id := sess]> (sessions m) !! id').
Proof. intros Hok Hr id'. rewrite !lookup_insert_is_Some'. pose proof (ok_pairs _ Hok id'). tauto. Qed.

(** ** The records the steps add *)

Lemma new_task_ok task plan d : task_digests task plan = Ok d ->
  ValidatePlan plan (tc_AcceptanceCriteria task) = true -> (tc_CapabilityIDs task, tc_SkillIDs task) ∈ all_routes ->
  forall m, is_Some (verificationPlans m !! d.2) -> task_ok m d.1 task.
Proof.
  intros (_ & Ht & Hp & Heq & _)%task_digests_inv Hv Hr m Hm. rewrite Heq in *. split_and!; try done.
  exists plan. split; [done|]. by apply ValidatePlan_sound.
Qed.

Lemma new_execution_ok id aid t input d attempt value m m' :
  StartAttempt (Run_New id (ri_TaskContractDigest input) d) aid t = Ok (attempt, value) ->
  ri_RunID input = id -> is_Some (tasksByDigest m' !! r_TaskContractDigest value) -> runInputs m' !! d = Some input ->
  (forall id p, execution m id = Some p -> execution_ok m' id p) ->
  forall id0 p, execution (store_execution (default_run_version value) (Session_New id (at_Epoch attempt)) input d m) id0
    = Some p -> execution_ok m' id0 p.
Proof.
  intros Hs Hri Ht Hin Hold id0 p Hp. unfold StartAttempt in Hs. ok_inv. revert Hp. unfold execution, default_run_version.
  rewrite decide_False by done. simpl.
  destruct (decide (id0 = ri_RunID input)) as [->|].
  - rewrite !lookup_insert_eq. intros [= <-]. split_and!; simpl; eauto.
  - rewrite !lookup_insert_ne by done. apply Hold.
Qed.

Lemma new_verification_ok m delivery task plan items id verifier t :
  authority_ok m -> deliveries m !! dr_ID delivery = Some delivery ->
  tasksByDigest m !! dr_TaskContractDigest delivery = Some task ->
  verificationPlans m !! tc_VerificationPlanDigest task = Some plan ->
  Forall (fun i => evidence m !! ev_ID i = Some i) items ->
  let report := Evaluate plan (dr_SubjectDigest delivery) items in
  verification_ok m (mkReport id (dr_ID delivery) (vr_PlanID report) (tc_VerificationPlanDigest task)
      (vr_SubjectDigest report) (vr_Result report) verifier (vr_Criteria report) (vr_EvidenceIDs report) t).
Proof.
  intros Hok Hd Ht Hp Hi report. exists delivery, task, plan, items. split_and!; try done.
  - simpl. unfold report, Evaluate. by case_decide.
  - by eapply ok_plans.
  - simpl. apply Evaluate_pass.
Qed.

Lemma new_review_ok m m' report v work current delivery vr :
  authority_ok m -> extends m m' -> ReviewReport_Validate report = Ok tt ->
  reviewByVerification m' !! rv_VerificationReportID report = Some (rv_ID report) ->
  verificationReports m !! rv_VerificationReportID report = Some vr ->
  deliveries m !! rv_DeliveryReceiptID report = Some delivery -> works m !! wi_ID current = Some current ->
  review_authorized report v work current delivery vr -> review_ok m' report.
Proof.
  intros Hok E Hval Hby Hvr Hdl Hw Ha. unfold review_authorized in Ha. destruct_and!.
  destruct (works_keep _ _ E _ _ Hw) as (w' & Hw' & _ & Hown & _).
  destruct (ok_deliveries _ Hok _ _ Hdl) as [Hdid _].
  split; [done|]. split; [done|]. exists vr, delivery, w'. rewrite Hown.
  split_and!; try done; try congruence.
  - eapply keep; [by apply ex_verifications | done].
  - eapply keep; [by apply ex_deliveries | done].
Qed.

Lemma new_closure_ok m item v work current report delivery closed :
  works m !! cl_WorkItemID item = Some closed -> wi_State closed = WorkClosed ->
  reviewReports m !! cl_ReviewReportID item = Some report ->
  closure_authorized item v work current report -> deliveries m !! cl_DeliveryReceiptID item = Some delivery ->
  dr_WorkItemID delivery = cl_WorkItemID item -> dr_RunID delivery = cl_RunID item ->
  dr_TaskContractDigest delivery = cl_TaskContractDigest item ->
  dr_SubjectDigest delivery = cl_SubjectDigest item -> cl_Result item = "CLOSED" -> closure_ok m item.
Proof.
  intros Hw Hcl Hr Ha Hd ? ? ? ? ?. unfold closure_authorized in Ha. destruct_and!.
  split; [done|]. split; [eauto|]. exists report, delivery. by split_and!.
Qed.

Lemma step_authority m m' : authority_ok m -> step m m' -> authority_ok m'.
Proof.
  intros Hok Hst. pose proof (step_extends _ _ Hst) as E.
  assert (forall d t, tasksByDigest m !! d = Some t -> task_ok m' d t) as Otasks.
  { intros d t Ht. eapply task_ok_step; [done | by eapply ok_tasks]. }
  assert (forall id p, execution_ok m id p -> execution_ok m' id p) as Oexecutions.
  { intros id p (? & ? & ? & (input & ? & ?) & [t ?]). split_and!; try done.
    - exists input. split; [|done]. eapply keep; [by apply ex_inputs | done].
    - exists t. eapply keep; [by apply ex_tasks | done]. }
  assert (forall id d, deliveries m !! id = Some d -> dr_ID d = id /\ delivery_ok m' d) as Odeliveries.
  { intros id d [? Hd]%(ok_deliveries _ Hok). split; [done|]. by eapply delivery_ok_step. }
  assert (forall id i, evidence m !! id = Some i -> ev_ID i = id /\ evidence_ok m' i) as Oevidence.
  { intros id d [? Hd]%(ok_evidence _ Hok). split; [done|]. by eapply evidence_ok_step. }
  assert (forall id i, verificationReports m !! id = Some i -> vr_ID i = id /\ verification_ok m' i) as Overifications.
  { intros id d [? Hd]%(ok_verifications _ Hok). split; [done|]. by eapply verification_ok_step. }
  assert (forall id i, reviewReports m !! id = Some i -> rv_ID i = id /\ review_ok m' i) as Oreviews.
  { intros id d [? Hd]%(ok_reviews _ Hok). split; [done|]. by eapply review_ok_step. }
  assert (forall id i, closures m !! id = Some i -> cl_ID i = id /\ closure_ok m' i) as Oclosures.
  { intros id d [? Hd]%(ok_closures _ Hok). split; [done|]. by eapply closure_ok_step. }
  assert (forall id p, execution m id = Some p -> execution_ok m' id p) as Oexec.
  { intros id p Hp. by apply Oexecutions, ok_executions. }
  pose proof (ok_works _ Hok) as Oworks. pose proof (ok_plans _ Hok) as Oplans.
  pose proof (ok_pairs _ Hok) as Opairs. pose proof (ok_inputs _ Hok) as Oinputs.
  pose proof (ok_reviewed _ Hok) as Oreviewed. pose proof (ev_wf _ _ (ex_ledger _ _ E) (ok_ledger _ Hok)) as Oledger.
  pose proof Hst as Hstep. step_cases Hst.
  all: split; simpl; try done.
  - apply (insert_all _ _ _ (fun id w => wi_ID w = id)); done.
  - apply (insert_all _ _ _ (fun id w => wi_ID w = id)); done.
  - apply insert_all; [|done]. eapply new_task_ok; [done..|]. simpl. rewrite lookup_insert_eq. eauto.
  - apply task_digests_inv in Hd as (_ & _ & Hp & _). by apply (insert_all _ _ _ (fun d p => Plan_Digest p = Ok d)).
  - apply (insert_all _ _ _ (fun id w => wi_ID w = id)); done.
  - eapply new_execution_ok; [done..| | |done]; simpl; [eauto|]. by rewrite lookup_insert_eq.
  - intros id0. rewrite !lookup_insert_is_Some'. specialize (Opairs id0). tauto.
  - by apply (insert_all _ _ _ (fun d i => RunInputManifest_Digest i = Ok d)).
  - destruct current as [r s]; simpl in *. intros id0 p Hp. apply Oexecutions. eapply execution_write_ok; try done.
    by apply (control_call_moves (r, s) value).
  - eapply write_execution_pairs; [done | eauto].
  - intros id0 p Hp. apply Oexecutions. 
    eapply execution_write_ok; [done | exact Hr | exact Hcur | by eapply steer_moves | exact Hp].
  - eapply write_execution_pairs; [done | eauto].
  - apply (insert_all _ _ _ (fun id w => wi_ID w = id)); done.
  - intros id0 p Hp. apply Oexecutions. 
    eapply execution_write_ok; [done | exact Hr | exact Hs | by eapply complete_moves | exact Hp].
  - eapply write_execution_pairs; [done | eauto].
  - apply (insert_all _ _ _ (fun id d => dr_ID d = id /\ delivery_ok _ d)); [|done]. split; [done|].
    eapply delivery_ok_step; [done|]. split; [done|]. split; [by exists task|].
    destruct (proj1 (Opairs (dr_RunID item)) ltac:(eauto)) as [s Hse].
    exists (value, s). unfold execution. by rewrite Hr, Hse.
  - apply (insert_all _ _ _ (fun id i => ev_ID i = id /\ evidence_ok _ i)); [|done]. split; [done|].
    eapply evidence_ok_step; [done|]. exists dl, tk, pl. split_and!; try done.
    + by apply EvidenceArtifactsBelongToDelivery_spec.
    + by eapply ok_plans.
    + by apply EvidenceMatchesPlan_sound.
  - apply (insert_all _ _ _ (fun id v => vr_ID v = id /\ verification_ok _ v)); [|done]. split; [done|].
    eapply verification_ok_step; [done|]. by apply new_verification_ok.
  - apply (insert_all _ _ _ (fun id w => wi_ID w = id)); [|done]. simpl. by case_decide.
  - apply (insert_all _ _ _ (fun id r => rv_ID r = id /\ review_ok _ r)); [|done]. split; [done|].
    assert (c = current) as ->. { revert Hc. case_decide; simpl; congruence. }
    eapply new_review_ok; try done. simpl. by rewrite lookup_insert_eq.
  - intros v id. destruct (decide (v = rv_VerificationReportID report)) as [->|].
    + rewrite lookup_insert_eq. intros [= <-]. exists report. by rewrite lookup_insert_eq.
    + rewrite lookup_insert_ne by done. intros (r & Hr & Hv)%Oreviewed. exists r.
      rewrite lookup_insert_ne; [done|]. congruence.
  - apply (insert_all _ _ _ (fun id w => wi_ID w = id)); done.
  - apply (insert_all _ _ _ (fun id c => cl_ID c = id /\ closure_ok _ c)); [|done]. split; [done|].
    eapply new_closure_ok; cycle 2; [done..|simpl; rewrite <- Hid; by rewrite lookup_insert_eq | done].
Qed.

Lemma reachable_ok m : reachable m -> authority_ok m.
Proof.
  unfold reachable. intros Hr. remember NewMemory as m0 eqn:Hm. assert (authority_ok m0) as Hok by (subst; apply authority_ok_new).
  clear Hm. induction Hr as [|m0 m1 m2 Hst _ IH]; [done|]. apply IH. by eapply step_authority.
Qed.
End invariant.

(** ** Histories *)

(** Where a work item may be after any number of steps. *)
Definition work_later (w w' : WorkItem) : Prop :=
  wi_ID w' = wi_ID w /\ wi_HumanOwner w' = wi_HumanOwner w /\ (wi_Version w <= wi_Version w')%N
  /\ (work_rank (wi_State w) <= work_rank (wi_State w'))%nat
  /\ (wi_Version w = wi_Version w' -> w' = w).

Definition execution_later (p p' : Run * Session) : Prop :=
  r_ID p'.1 = r_ID p.1 /\ same_frozen p.1 p'.1 /\ (r_Version p.1 <= r_Version p'.1)%N
  /\ (s_LastSequence p.2 <= s_LastSequence p'.2)%N
  /\ (run_terminal p.1 -> r_State p'.1 = r_State p.1)
  /\ (r_Version p.1 = r_Version p'.1 -> p' = p).

(** The stored records are append-only, and work items and executions only
    move forwards, with a version that tells any two values apart. *)
Record later `{Hash} (m m' : Memory) : Prop := {
  lt_works id w : works m !! id = Some w -> exists w', works m' !! id = Some w' /\ work_later w w';
  lt_executions id p : execution m id = Some p -> exists p', execution m' id = Some p' /\ execution_later p p';
  lt_tasks : tasksByDigest m ⊆ tasksByDigest m';
  lt_inputs : runInputs m ⊆ runInputs m';
  lt_plans d p : verificationPlans m !! d = Some p ->
    exists q, verificationPlans m' !! d = Some q /\ (q = p \/ Plan_Digest q = Ok d);
  lt_runs id : is_Some (runs m !! id) -> is_Some (runs m' !! id);
  lt_attempts id : is_Some (runs m !! id) -> attempts m' !! id = attempts m !! id;
  lt_steering : steeringCommands m ⊆ steeringCommands m';
  lt_checkpoints : checkpoints m ⊆ checkpoints m';
  lt_checkpointDigests : checkpointDigests m ⊆ checkpointDigests m';
  lt_deliveries : deliveries m ⊆ deliveries m';
  lt_evidence : evidence m ⊆ evidence m';
  lt_verifications : verificationReports m ⊆ verificationReports m';
  lt_reviews : reviewReports m ⊆ reviewReports m';
  lt_reviewed : reviewByVerification m ⊆ reviewByVerification m';
  lt_closures : closures m ⊆ closures m';
  lt_ledger : ledger_evolves (ledger m) (ledger m')
}.

Section histories.
Context `{Hash}.

Lemma work_later_refl w : work_later w w.
Proof. by split_and!. Qed.
Lemma work_later_trans a b c : work_later a b -> work_later b c -> work_later a c.
Proof.
  intros (I1 & O1 & V1 & R1 & E1) (I2 & O2 & V2 & R2 & E2). split_and!; try congruence; try lia.
  intros Heq. rewrite E2 by lia. apply E1. lia.
Qed.
Lemma execution_later_refl p : execution_later p p.
Proof. by split_and!. Qed.
Lemma execution_later_trans a b c : execution_later a b -> execution_later b c -> execution_later a c.
Proof.
  intros (I1 & [F1 G1] & V1 & S1 & T1 & E1) (I2 & [F2 G2] & V2 & S2 & T2 & E2).
  split_and!; try congruence; try lia; [by split; congruence | |].
  - intros Ht. rewrite T2; [by apply T1|]. unfold run_terminal in *. by rewrite (T1 Ht).
  - intros Heq. rewrite E2 by lia. apply E1. lia.
Qed.

Lemma later_refl m : later m m.
Proof. split; try done; eauto 6 using work_later_refl, execution_later_refl, ledger_evolves_refl. Qed.
Lemma later_trans a b c : later a b -> later b c -> later a c.
Proof.
  intros A B. split; try (etrans; [apply A | apply B]).
  - intros id w (w1 & H1 & L1)%(lt_works _ _ A). destruct (lt_works _ _ B _ _ H1) as (w2 & H2 & L2).
    eauto using work_later_trans.
  - intros id p (p1 & H1 & L1)%(lt_executions _ _ A). destruct (lt_executions _ _ B _ _ H1) as (p2 & H2 & L2).
    eauto using execution_later_trans.
  - intros d p (q & Hq & Hp)%(lt_plans _ _ A). destruct (lt_plans _ _ B _ _ Hq) as (r & Hr & [->|]); eauto.
  - intros id Hr. by apply (lt_runs _ _ B), (lt_runs _ _ A).
  - intros id Hr. rewrite (lt_attempts _ _ B) by by apply (lt_runs _ _ A). by apply (lt_attempts _ _ A).
  - eapply ledger_evolves_trans; [apply A | apply B].
Qed.

Lemma work_moves_later w w' : work_moves w w' -> work_later w w'.
Proof.
  intros [-> | (Hv & Hi & _ & Ho & _ & Hs)]; [apply work_later_refl|].
  split_and!; try done; try lia. destruct Hs as [-> | Hs]; [done|]. apply work_step_rank in Hs. lia.
Qed.
Lemma execution_moves_later p p' : execution_moves p p' -> execution_later p p'.
Proof.
  intros [-> | (Hv & Hi & Hf & _ & _ & Ht & _ & Hl)]; [apply execution_later_refl|].
  split_and!; try done; lia.
Qed.

Lemma extends_later m m' : extends m m' -> later m m'.
Proof.
  intros E. split; try apply E.
  - intros id w (w' & Hw & Hm)%(ex_works _ _ E). eauto using work_moves_later.
  - intros id p (p' & Hp & Hm)%(ex_executions _ _ E). eauto using execution_moves_later.
Qed.

Lemma steps_later m m' : rtc step m m' -> later m m'.
Proof.
  induction 1 as [|m0 m1 m2 Hst _ IH]; [apply later_refl|].
  eapply later_trans; [|exact IH]. by apply extends_later, step_extends.
Qed.

Lemma reachable_step m m' : reachable m -> rtc step m m' -> reachable m'.
Proof. unfold reachable. intros. by transitivity m. Qed.

End histories.

(** ** The history of a task contract *)

(** Revisions of a contract are numbered from 1 without gaps, every revision is
    kept, and the three indexes agree. *)
Record revisions_ok `{Hash} (m : Memory) : Prop := {
  rev_latest id n : latestTaskRev m !! id = Some n -> (n <> 0)%N /\ u64_ok n /\ exists vs, tasks m !! id = Some vs
    /\ forall k, is_Some (vs !! k) <-> (1 <= k <= n)%N;
  rev_tasks id vs : tasks m !! id = Some vs -> is_Some (latestTaskRev m !! id);
  rev_entry id vs k t : tasks m !! id = Some vs -> vs !! k = Some t ->
    tc_ID t = id /\ tc_Revision t = k /\ exists d, TaskContract_Digest t = Ok d /\ tasksByDigest m !! d = Some t;
  rev_digest d t : tasksByDigest m !! d = Some t ->
    exists vs, tasks m !! tc_ID t = Some vs /\ vs !! tc_Revision t = Some t
}.

Section revisions.
Context `{Hash}.

Definition task_indexes (m : Memory) := (tasks m, latestTaskRev m, tasksByDigest m).

Lemma revisions_ok_same m m' : task_indexes m' = task_indexes m -> revisions_ok m -> revisions_ok m'.
Proof. unfold task_indexes. intros [= H1 H2 H3] []. split; rewrite ?H1, ?H2, ?H3; done. Qed.

Lemma u64_succ_next n : u64_succ n <> 0%N -> (n < u64_modulus)%N -> u64_succ n = (n + 1)%N.
Proof.
  unfold u64_succ, u64_modulus. intros Hn Hlt.
  destruct (decide (n = 18446744073709551615)%N) as [->|]; [by destruct Hn|]. rewrite N.mod_small; lia.
Qed.

Lemma admit_revisions task td pd plan m versions :
  revisions_ok m -> TaskContract_Digest task = Ok td -> tc_Revision task <> 0%N ->
  admit_revision task td pd m = Ok versions -> revisions_ok (store_revision task plan td pd versions m).
Proof.
  intros [Hl Ht He Hd] Htd Hne [Hnone Hcase]%admit_revision_inv.
  (* the revisions kept so far, and the next number *)
  assert (exists n, tc_Revision task = (n + 1)%N /\ u64_ok (tc_Revision task) /\ (forall k, is_Some (versions !! k) <-> (1 <= k <= n)%N)
    /\ (tasks m !! tc_ID task = None \/ tasks m !! tc_ID task = Some versions)
    /\ (tasks m !! tc_ID task = None -> versions = ∅)) as (n & Hrev & Hok & Hvs & Hold & Hemp).
  { destruct Hcase as [(Hn & H1 & ->) | (Hs & Hf & Hr)].
    - exists 0%N. rewrite H1. split_and!; auto; [done|]. intros k. rewrite lookup_empty. split; [by intros []|lia].
    - destruct (Ht _ _ Hs) as [n Hn]. exists n. destruct (Hl _ _ Hn) as (_ & Hn64 & vs & Hvs & Hk).
      rewrite Hs in Hvs. injection Hvs as <-. rewrite Hn in Hr. simpl in Hr.
      assert (u64_ok (tc_Revision task)) by (rewrite Hr; apply u64_succ_ok).
      rewrite u64_succ_next in Hr; [| congruence | exact Hn64]. split_and!; try done; [by right | congruence]. }
  split; simpl.
  - intros id k. destruct (decide (id = tc_ID task)) as [->|]; [|rewrite !lookup_insert_ne by done; apply Hl].
    rewrite !lookup_insert_eq. intros [= <-]. split; [done|]. split; [done|]. eexists. split; [done|].
    intros k. rewrite lookup_insert_is_Some', Hvs. lia.
  - intros id vs. destruct (decide (id = tc_ID task)) as [->|].
    + rewrite !lookup_insert_eq. eauto.
    + rewrite !lookup_insert_ne by done. apply Ht.
  - assert (forall id vs k t, tasks m !! id = Some vs -> vs !! k = Some t -> tc_ID t = id /\ tc_Revision t = k
      /\ exists d, TaskContract_Digest t = Ok d /\ <[td:=task]> (tasksByDigest m) !! d = Some t) as Hkeep.
    { intros id vs k t H1 H2. destruct (He _ _ _ _ H1 H2) as (? & ? & d & ? & Hdt). split_and!; try done.
      exists d. split; [done|]. rewrite lookup_insert_ne; [done|]. congruence. }
    intros id vs k t. destruct (decide (id = tc_ID task)) as [->|];
      [rewrite lookup_insert_eq | rewrite lookup_insert_ne by done; apply Hkeep]. intros [= <-]. destruct (decide (k = tc_Revision task)) as [->|].
    + rewrite lookup_insert_eq. intros [= <-]. split_and!; try done. exists td. by rewrite lookup_insert_eq.
    + rewrite lookup_insert_ne by done. intros Hk. destruct Hold as [Hno|Hso]; [|by eapply Hkeep].
      rewrite (Hemp Hno), lookup_empty in Hk. discriminate.
  - intros d t. destruct (decide (d = td)) as [->|];
      [rewrite lookup_insert_eq | rewrite lookup_insert_ne by done].
    + intros [= <-]. eexists. rewrite lookup_insert_eq. split; [done|]. by rewrite lookup_insert_eq.
    + intros (vs & Hvs1 & Hr)%Hd. destruct (decide (tc_ID t = tc_ID task)) as [Heq|].
      * rewrite Heq, lookup_insert_eq. eexists. split; [done|]. rewrite Heq in Hvs1.
        assert (vs = versions) as -> by (destruct Hold; congruence).
        rewrite lookup_insert_ne; [done|]. intros Hk. assert (is_Some (versions !! tc_Revision t)) as Hs by eauto.
        apply Hvs in Hs. lia.
      * rewrite lookup_insert_ne by done. eauto.
Qed.

End revisions.

Section reachable_revisions.
Context `{Hash}.

Lemma revisions_ok_new : revisions_ok NewMemory.
Proof. split; simpl; intros *; rewrite lookup_empty; done. Qed.

Lemma step_revisions m m' : revisions_ok m -> step m m' -> revisions_ok m'.
Proof.
  intros Hok Hst. step_cases Hst; try by eapply revisions_ok_same; [|exact Hok].
  apply task_digests_inv in Hd as (Hne & Htd & _).
  eapply (revisions_ok_same (store_revision task plan d.1 d.2 vs m)); [done|]. by eapply admit_revisions.
Qed.

Lemma reachable_revisions m : reachable m -> revisions_ok m.
Proof.
  unfold reachable. intros Hr. remember NewMemory as m0 eqn:Hm. assert (revisions_ok m0) as Hok by (subst; apply revisions_ok_new).
  clear Hm. induction Hr as [|m0 m1 m2 Hst _ IH]; [done|]. apply IH. by eapply step_revisions.
Qed.

(** Only a run has attempts. *)
Lemma reachable_attempts m : reachable m -> forall id a, attempts m !! id = Some a -> is_Some (runs m !! id).
Proof.
  unfold reachable. intros Hr. remember NewMemory as m0 eqn:Hm.
  assert (forall id a, attempts m0 !! id = Some a -> is_Some (runs m0 !! id)) as Hok by (subst; intros *; cbn; by rewrite lookup_empty).
  clear Hm. induction Hr as [|m0 m1 m2 Hst _ IH]; [done|]. apply IH. clear IH. intros i at'. pose proof (step_extends _ _ Hst) as E.
  destruct (decide (is_Some (runs m0 !! i))) as [Hin|Hout]; [intros _; by apply (ex_runs _ _ E)|].
  intros Hwas. step_cases Hst; cbn in *; try (destruct Hout; by eapply Hok).
  replace (r_ID (default_run_version value)) with (r_ID value) by (unfold default_run_version; by case_decide).
  destruct (decide (i = r_ID value)) as [->|]; [by rewrite !lookup_insert_eq|].
  rewrite lookup_insert_ne in Hwas by done. destruct Hout. by eapply Hok.
Qed.

(** A stored plan that a later freeze replaced by a different plan of the same
    digest: the one thing a collision of the hash can do to the store. *)
Definition plan_replaced (m : Memory) : Prop :=
  exists m0 d p q, reachable m0 /\ rtc step m0 m /\ verificationPlans m0 !! d = Some p
    /\ verificationPlans m !! d = Some q /\ p <> q.

Lemma plan_replaced_collides m : plan_replaced m ->
  exists p q d, p <> q /\ Plan_Digest p = Ok d /\ Plan_Digest q = Ok d.
Proof.
  intros (m0 & d & p & q & Hr & Hs & Hp & Hq & Hne). exists p, q, d. split; [done|].
  assert (reachable m) as Hm by (unfold reachable in *; by etrans).
  split; [eapply ok_plans, Hp | eapply ok_plans, Hq]; by apply reachable_ok.
Qed.
End reachable_revisions.

(** A write of one work item, seen from any of them. *)
Lemma works_write (ws : gmap string WorkItem) k v id w w' :
  ws !! id = Some w -> <[k := v]> ws !! id = Some w' -> w' = w \/ (k = id /\ v = w').
Proof.
  destruct (decide (k = id)) as [->|]; [rewrite lookup_insert_eq | rewrite lookup_insert_ne by done]; [|left; congruence].
  intros _ [= ->]. by right.
Qed.

Lemma step_closes `{Hash} m m1 wid w0 w1 : step m m1 -> works m !! wid = Some w0 -> works m1 !! wid = Some w1 ->
  wi_State w1 = WorkClosed -> wi_State w0 <> WorkClosed ->
  exists c, closures m !! cl_ID c = None /\ closures m1 !! cl_ID c = Some c /\ cl_WorkItemID c = wid.
Proof.
  intros Hmoved Hwas Hnow Hclosed Hopen. step_cases Hmoved; simpl in Hnow; try congruence;
    destruct (works_write _ _ _ _ _ _ Hwas Hnow) as [-> | [Hk Hv']]; try done; subst w1; simpl in Hclosed; try done.
  - congruence.
  - destruct (decide (rv_Result report = ResultPass)); [done|]. simpl in *. congruence.
  - exists item. simpl. rewrite lookup_insert_eq. split_and!; congruence.
Qed.

(** ** Properties *)

(** C3: behind every closure a reachable authority holds, there is the whole
    chain of records for one subject.  The work item is closed, and stays so.
    The delivery names that work item, that run and that task contract, and
    hashes to the subject; the run, of that same contract, is completed.  The
    verification report is about that delivery and subject, says PASS under the
    frozen plan's digest, and says so rightly: by a plan of that digest each
    requirement is discharged by stored evidence for that very subject.  The
    review report is about that delivery and that verification, says PASS with
    no blocking finding, and is by somebody who is neither the verifier nor the
    owner of the work.  The plan that was frozen with the task covers its
    acceptance criteria. *)
Theorem closure_chain `{Hash} m id c :
  reachable m -> closures m !! id = Some c ->
  cl_ID c = id /\ cl_Result c = "CLOSED" /\
  exists w d task run review v plan frozen items,
    works m !! cl_WorkItemID c = Some w /\ wi_State w = WorkClosed
    /\ deliveries m !! cl_DeliveryReceiptID c = Some d /\ dr_WorkItemID d = cl_WorkItemID c /\ dr_RunID d = cl_RunID c
    /\ dr_TaskContractDigest d = cl_TaskContractDigest c
    /\ dr_SubjectDigest d = cl_SubjectDigest c /\ CalculateSubjectDigest d = Ok (cl_SubjectDigest c)
    /\ runs m !! cl_RunID c = Some run /\ r_State run = run_Completed /\ r_TaskContractDigest run = cl_TaskContractDigest c
    /\ tasksByDigest m !! cl_TaskContractDigest c = Some task /\ TaskContract_Digest task = Ok (cl_TaskContractDigest c)
    /\ tc_WorkItemID task = cl_WorkItemID c
    /\ verificationReports m !! cl_VerificationReportID c = Some v /\ vr_Result v = "PASS"
    /\ vr_DeliveryReceiptID v = cl_DeliveryReceiptID c /\ vr_SubjectDigest v = cl_SubjectDigest c
    /\ vr_VerificationPlanDigest v = tc_VerificationPlanDigest task
    /\ Forall (fun i => evidence m !! ev_ID i = Some i) items /\ verified plan (cl_SubjectDigest c) items
    /\ reviewReports m !! cl_ReviewReportID c = Some review /\ rv_Result review = ResultPass
    /\ rv_DeliveryReceiptID review = cl_DeliveryReceiptID c /\ rv_VerificationReportID review = cl_VerificationReportID c
    /\ rv_TaskContractDigest review = cl_TaskContractDigest c /\ rv_SubjectDigest review = cl_SubjectDigest c
    /\ blocking_findings (rv_Findings review) = []
    /\ rv_Reviewer review <> vr_Verifier v /\ rv_Reviewer review <> wi_HumanOwner w
    /\ plan_covers frozen (tc_AcceptanceCriteria task)
    /\ Plan_Digest frozen = Ok (tc_VerificationPlanDigest task) /\ Plan_Digest plan = Plan_Digest frozen.
Proof.
  intros Hr Hc. pose proof (reachable_ok _ Hr) as Hok.
  destruct (ok_closures _ Hok _ _ Hc) as (Hcid & Hres & (w & Hw & Hcl) & r & d & Hrv & Hpass & Hrd & Hrvr & Hd & Hdw & Hdr & Hdt & Hds).
  destruct (ok_reviews _ Hok _ _ Hrv) as (_ & Hval & _ & v & d' & w' & Hv & Hvp & Hd' & Hvd & Hrt & Hrs & Hvs & Hw' & Hne & Hown).
  rewrite Hrd, Hd in Hd'. injection Hd' as <-. rewrite Hdw, Hw in Hw'. injection Hw' as <-.
  destruct (ok_deliveries _ Hok _ _ Hd) as (_ & Hsub & (task & Ht & Htw & _) & [run sess] & Hrun & Hst & Hrt').
  destruct (ok_verifications _ Hok _ _ Hv) as (_ & d' & task' & plan & items & Hd' & _ & Ht' & Hvpd & Hplan & Hitems & Hver).
  rewrite Hvd, Hrd, Hd in Hd'. injection Hd' as <-. rewrite Ht in Ht'. injection Ht' as <-.
  destruct (ok_tasks _ Hok _ _ Ht) as (Htd & _ & _ & plan' & Hplan' & Hcov).
  apply ReviewReport_Validate_sound in Hval as (Hblock & _). split; [done|]. split; [done|].
  exists w, d, task, run, r, v, plan, plan', items. rewrite <- Hds, <- Hdt, <- Hrvr. cbn in Hrt', Hst.
  split_and!; try done; try congruence.
  - rewrite <- Hdr. unfold execution in Hrun. destruct (runs m !! dr_RunID d), (sessions m !! dr_RunID d); congruence.
  - by apply Hver.
  - by apply Hblock.
Qed.

Lemma closure_chain_witness : exists w review, works m9 !! "W1" = Some w /\ wi_State w = WorkClosed
  /\ reviewReports m9 !! "RV1" = Some review /\ rv_Reviewer review <> wi_HumanOwner w.
Proof.
  destruct (closure_chain m9 "CL1" closure0 reachable_m9 ltac:(vm_compute; reflexivity))
    as (_ & _ & w & d & task & run & review & v & plan & frozen & items & Hw & Hcl & _ & _ & _ & _ & _ & _ & _ & _ & _ & _ & _ & _
        & _ & _ & _ & _ & _ & _ & _ & Hr & _ & _ & _ & _ & _ & _ & _ & Hne & _).
  exists w, review. split; [exact Hw|]. split; [exact Hcl|]. split; [exact Hr | exact Hne].
Defined.

(** C25: a work item moves only along the edges of its state machine, one
    version at a time, and enters CLOSED only together with a new closure
    receipt for it; a closed or cancelled work item never moves again. *)
Theorem work_lifecycle `{Hash} m m' id w :
  step m m' -> works m !! id = Some w ->
  exists w', works m' !! id = Some w'
    /\ (w' = w \/ (wi_Version w' = wi_Version w + 1)%N)
    /\ (wi_State w' = wi_State w \/ work_step (wi_State w) (wi_State w'))
    /\ (wi_State w = WorkClosed \/ wi_State w = WorkCancelled -> wi_State w' = wi_State w)
    /\ (wi_State w' = WorkClosed -> wi_State w <> WorkClosed ->
          exists c, closures m !! cl_ID c = None /\ closures m' !! cl_ID c = Some c /\ cl_WorkItemID c = id).
Proof.
  intros Hst Hw. destruct (ex_works _ _ (step_extends _ _ Hst) _ _ Hw) as (w' & Hw' & Hm).
  exists w'. split; [done|]. split; [destruct Hm as [-> | (? & _)]; auto|].
  assert (wi_State w' = wi_State w \/ work_step (wi_State w) (wi_State w')) as Hs.
  { destruct Hm as [-> | (_ & _ & _ & _ & _ & ?)]; auto. }
  split; [done|]. split.
  { intros Hterm. destruct Hs as [|Hs]; [done|]. destruct (work_step_closed (wi_State w')) as [Hc Hx].
    destruct Hterm as [Heq|Heq]; rewrite Heq in Hs; [by destruct (Hc Hs) | by destruct (Hx Hs)]. }
  intros Hclosed Hopen. by eapply step_closes.
Qed.

Lemma work_lifecycle_witness : exists w', works m9 !! "W1" = Some w'
  /\ exists c, closures m8 !! cl_ID c = None /\ closures m9 !! cl_ID c = Some c /\ cl_WorkItemID c = "W1".
Proof.
  destruct (work_lifecycle m8 m9 "W1" (work_in m8) demo9 ltac:(vm_compute; reflexivity))
    as (w' & Hw' & _ & _ & _ & Hc).
  exists w'. split; [exact Hw'|]. apply Hc.
  - assert (works m9 !! "W1" = Some w') as Hw by exact Hw'. vm_compute in Hw. injection Hw as <-. reflexivity.
  - intros Heq. vm_compute in Heq. discriminate Heq.
Defined.

(** C27: whatever the authority does, it forgets nothing: frozen tasks and
    their revisions, run inputs, attempts, steering commands, checkpoints and
    deliveries, evidence, verification, review and closure records, with their
    indexes, are never changed or removed, the action ledger evolves, and work
    items and executions keep their identity and only move forwards, with
    versions that tell any two of their values apart.  A stored verification
    plan is the same for good, unless a different plan of the very same digest
    was frozen in its place. *)
Theorem history_append_only `{Hash} m m' : reachable m -> rtc step m m' ->
  later m m' /\ attempts m ⊆ attempts m'
  /\ (forall id vs k t, tasks m !! id = Some vs -> vs !! k = Some t ->
        exists vs', tasks m' !! id = Some vs' /\ vs' !! k = Some t)
  /\ forall d p, verificationPlans m !! d = Some p -> exists q, verificationPlans m' !! d = Some q
        /\ (q = p \/ q <> p /\ Plan_Digest p = Ok d /\ Plan_Digest q = Ok d).
Proof.
  intros Hr Hs. pose proof (steps_later _ _ Hs) as L. split; [done|]. split; [|split].
  - apply map_subseteq_spec. intros id a Ha. rewrite (lt_attempts _ _ L); [done|]. by eapply reachable_attempts.
  - intros id vs k t Hvs Ht. destruct (rev_entry _ (reachable_revisions _ Hr) _ _ _ _ Hvs Ht) as (<- & <- & d & _ & Hd).
    apply (rev_digest _ (reachable_revisions _ (reachable_step _ _ Hr Hs)) d). by eapply lookup_weaken, L.
  - intros d p Hp. destruct (lt_plans _ _ L _ _ Hp) as (q & Hq & Hor). exists q. split; [done|].
    destruct (decide (q = p)) as [|Hne]; [by left | right]. split; [done|].
    split; [by apply (ok_plans _ (reachable_ok _ Hr)) | by destruct Hor].
Qed.

Lemma history_append_only_witness : deliveries m9 !! "D1" = Some delivery0 /\ attempts m7 ⊆ attempts m9.
Proof.
  assert (rtc step m7 m9) as Hs by (eapply rtc_l, rtc_l, rtc_refl; [exact demo8 | exact demo9]).
  destruct (history_append_only m7 m9 reachable_m7 Hs) as (L & Ha & _). split; [|exact Ha].
  apply (lookup_weaken (deliveries m7)); [vm_compute; reflexivity|]. exact (lt_deliveries _ _ L).
Defined.

(** Optimistic concurrency loses no update: once an execution (or a work
    item) was written at version [v], no later write that expects [v] can
    succeed, whatever happened in between. *)
Theorem no_lost_update `{Hash} m m1 m2 id v wid wv :
  step m m1 -> rtc step m1 m2 ->
  (forall p p1, execution m id = Some p -> execution m1 id = Some p1 -> r_Version p.1 = v -> p1 <> p ->
     forall value sess, UpdateExecution id v value sess m2 = Err ErrConflict)
  /\ (forall w w1, works m !! wid = Some w -> works m1 !! wid = Some w1 -> wi_Version w = wv -> w1 <> w ->
     forall item, UpdateWork wid wv item m2 = Err ErrConflict).
Proof.
  intros Hst Hs. pose proof (step_extends _ _ Hst) as E. pose proof (steps_later _ _ Hs) as L. split.
  - intros p p1 Hp Hp1 Hv Hne value sess.
    destruct (ex_executions _ _ E _ _ Hp) as (p1' & Hp1' & [-> | (Hv1 & _)]); [congruence|].
    rewrite Hp1 in Hp1'. injection Hp1' as <-.
    destruct (lt_executions _ _ L _ _ Hp1) as ([r2 s2] & Hp2 & _ & _ & Hv2 & _).
    unfold execution in Hp2. unfold UpdateExecution, find_execution.
    destruct (runs m2 !! id), (sessions m2 !! id); try done. injection Hp2 as -> ->. simpl in *.
    rewrite decide_True; [done|]. lia.
  - intros w w1 Hw Hw1 Hv Hne item.
    destruct (ex_works _ _ E _ _ Hw) as (w1' & Hw1' & [-> | (Hv1 & _)]); [congruence|].
    rewrite Hw1 in Hw1'. injection Hw1' as <-.
    destruct (lt_works _ _ L _ _ Hw1) as (w2 & Hw2 & _ & _ & Hv2 & _).
    unfold UpdateWork. rewrite Hw2. simpl. rewrite decide_True; [done|]. lia.
Qed.

Lemma no_lost_update_witness : UpdateWork "W1" 1 work0 m9 = Err ErrConflict.
Proof.
  assert (rtc step m2 m9) as Hs.
  { eapply rtc_l, rtc_l, rtc_l, rtc_l, rtc_l, rtc_l, rtc_l, rtc_refl;
      [exact demo3 | exact demo4 | exact demo5 | exact demo6 | exact demo7 | exact demo8 | exact demo9]. }
  destruct (no_lost_update m1 m2 m9 "run-1" 0 "W1" 1 demo2 Hs) as [_ Hw].
  apply (Hw (work_in m1) (work_in m2)); try (vm_compute; reflexivity).
  intros Heq. assert (wi_State (work_in m2) = wi_State (work_in m1)) as Hst by by rewrite Heq.
  vm_compute in Hst. discriminate Hst.
Defined.

(** C28: the history of every task contract in a reachable authority is
    complete: its revisions are numbered 1 to the latest without gaps (and
    the number never wraps), each is kept under its own number, and the
    digest index finds exactly these values, each under its own digest. *)
Theorem task_history_complete `{Hash} m : reachable m -> revisions_ok m.
Proof. apply reachable_revisions. Qed.

Lemma task_history_complete_witness :
  exists vs, tasks m9 !! "T1" = Some vs /\ forall k, is_Some (vs !! k) <-> (1 <= k <= 1)%N.
Proof.
  destruct (rev_latest _ (task_history_complete m9 reachable_m9) "T1" 1%N ltac:(vm_compute; reflexivity)) as (_ & _ & Hv).
  exact Hv.
Defined.

(** C26: in every reachable authority each execution is consistent: the run and
    its session exist together, carry the same id and the same execution
    epoch, and point to a stored run input and a frozen task that name them. *)
Theorem execution_consistency `{Hash} m id : reachable m ->
  (is_Some (runs m !! id) <-> is_Some (sessions m !! id))
  /\ forall r s, runs m !! id = Some r -> sessions m !! id = Some s ->
     r_ID r = id /\ s_RunID s = id /\ s_ExecutionEpoch s = r_CurrentEpoch r
     /\ (exists input, runInputs m !! r_RunInputManifestDigest r = Some input
           /\ RunInputManifest_Digest input = Ok (r_RunInputManifestDigest r)
           /\ ri_RunID input = id /\ ri_TaskContractDigest input = r_TaskContractDigest r)
     /\ exists task, tasksByDigest m !! r_TaskContractDigest r = Some task
           /\ TaskContract_Digest task = Ok (r_TaskContractDigest r).
Proof.
  intros Hr. pose proof (reachable_ok _ Hr) as Hok. split; [apply (ok_pairs _ Hok)|].
  intros r s Hrun Hs. destruct (ok_executions _ Hok id (r, s)) as (Hi & Hsi & He & (input & Hin & ? & ?) & [task Ht]).
  { unfold execution. by rewrite Hrun, Hs. }
  split_and!; try done.
  - exists input. split_and!; try done. by eapply ok_inputs.
  - exists task. split; [done|]. apply (ok_tasks _ Hok _ _ Ht).
Qed.

Lemma execution_consistency_witness : s_ExecutionEpoch (session_in m9) = r_CurrentEpoch (run_in m9).
Proof.
  destruct (execution_consistency m9 "run-1" reachable_m9) as [_ Hc].
  apply (Hc (run_in m9) (session_in m9)); vm_compute; reflexivity.
Defined.

(** Creation checks no lifecycle: the store accepts a work item that its
    client declares CLOSED, with no closure receipt behind it. *)
Theorem created_closed : exists m id w, reachable m /\ works m !! id = Some w /\ wi_State w = WorkClosed
  /\ forall cid c, closures m !! cid = Some c -> cl_WorkItemID c <> id.
Proof.
  set (item := mkWorkItem "W2" "done" "" "olga" "" "" "" "" WorkClosed 1 demo_time).
  exists (after (CreateWork item NewMemory) NewMemory), "W2", item.
  split; [|split; [vm_compute; reflexivity|split; [reflexivity|]]].
  - eapply rtc_l, rtc_refl. apply (step_create_work _ item). apply after_ok. vm_compute. reflexivity.
  - intros cid c Hc. vm_compute in Hc. destruct cid; discriminate Hc.
Qed.
