(* ===== verification/Gateway.v ===== *)
(** [internal/gateway/authority.go]: the authority that admits an action
    before it is reserved.  Its view of the Core is the record [GwState]; the
    memory store is one, and its action methods are a [Repository], so the
    action service runs on it. *)
From S2P Require Import Prelude Effects Canonical Core Run Session Recovery Verification Review Routing Action Store Lifecycle Demo Authority.

Definition ErrActionNotAllowed : goerr :=
  ESentinel "gateway.ErrActionNotAllowed" "action is not allowed by frozen task contract".
Definition ErrInvalidRiskClass : goerr := ESentinel "gateway.ErrInvalidRiskClass" "invalid action risk class".
Definition ErrRunSessionEpochMismatch : goerr :=
  ESentinel "gateway.ErrRunSessionEpochMismatch" "run/session execution identity mismatch".

(** The three caller-bound reads. *)
Record GwState (S : Type) := mkGwState {
  gw_GetExecutionContext : string -> M S (Run * Session);
  gw_GetTaskByDigestContext : string -> M S TaskContract;
  gw_GetRecoveryContext : M S Manager
}.
Arguments mkGwState {_} _ _ _.
Arguments gw_GetExecutionContext {_} _ _.
Arguments gw_GetTaskByDigestContext {_} _ _.
Arguments gw_GetRecoveryContext {_} _.

(** What the gateway needs of its state: each read is one locked read. *)
Class GwStateLaws {S} (st : GwState S) := {
  gw_find_execution : string -> S -> outcome (Run * Session);
  gw_find_task : string -> S -> outcome TaskContract;
  gw_recovery : S -> Manager;
  gw_execution_law id : gw_GetExecutionContext st id = rlocked (gw_find_execution id);
  gw_task_law digest : gw_GetTaskByDigestContext st digest = rlocked (gw_find_task digest);
  gw_recovery_law : gw_GetRecoveryContext st = rlocked (fun s => Ok (gw_recovery s))
}.

Section authority.
Context {S : Type}.

(** [Authority] holds a state, or nil. *)
Definition Authority : Type := option (GwState S).

Definition Authority_execution (st : GwState S) (id : string) : M S (Run * Session) :=
  poll ;; gw_GetExecutionContext st id.
Definition Authority_frozenTask (st : GwState S) (digest : string) : M S TaskContract :=
  poll ;; gw_GetTaskByDigestContext st digest.
Definition Authority_recovery (st : GwState S) : M S Manager :=
  poll ;; gw_GetRecoveryContext st.

Definition valid_risk (risk : string) : Prop :=
  risk = risk_Observe \/ risk = risk_ControlledMutation \/ risk = risk_HighRisk.
#[export] Instance valid_risk_dec risk : Decision (valid_risk risk).
Proof. unfold valid_risk. apply _. Defined.

Definition not_configured : goerr := ENew "gateway authority state is not configured".

Definition Authority_Authorize (a : Authority) (req : Request) : M S unit :=
  match a with
  | None => fail not_configured
  | Some st =>
    poll ;;
    if decide (q_Action req = "" \/ q_Capability req = "") then fail ErrActionNotAllowed
    else if decide (~ valid_risk (q_RiskClass req)) then fail ErrInvalidRiskClass
    else
      p ← Authority_execution st (q_RunID req);
      task ← Authority_frozenTask st (r_TaskContractDigest p.1);
      poll ;;
      if decide (q_Action req ∈ tc_AllowedActions task) then mret tt
      else fail (EWrap "" ErrActionNotAllowed (": " +:+ q_Action req))
  end.

Definition Authority_CheckRunEpoch (a : Authority) (runID : string) (epoch : N) : M S unit :=
  match a with
  | None => fail not_configured
  | Some st =>
    p ← Authority_execution st runID;
    poll ;;
    lift (Run_CheckEpoch p.1 epoch) ;;
    if decide (r_ID p.1 <> runID \/ s_RunID p.2 <> runID \/ s_ExecutionEpoch p.2 <> epoch)
    then fail ErrRunSessionEpochMismatch else mret tt
  end.

Definition Authority_CheckRecoveryEpoch (a : Authority) (epoch : N) (risk : string) : M S unit :=
  match a with
  | None => fail not_configured
  | Some st =>
    state ← Authority_recovery st;
    poll ;;
    lift (Manager_CheckEpoch state epoch) ;;
    if decide (risk = risk_Observe) then mret tt
    else if decide (risk = risk_ControlledMutation \/ risk = risk_HighRisk)
    then lift (AuthorizeIrreversible state epoch)
    else fail ErrInvalidRiskClass
  end.

Definition Authority_guard (a : Authority) : AuthorityGuard S :=
  mkGuard (Authority_CheckRunEpoch a) (Authority_CheckRecoveryEpoch a).

(** What an admission means, of one state. *)
Definition run_epoch_current (find : string -> S -> outcome (Run * Session)) (runID : string) (epoch : N) (s : S) : Prop :=
  exists r sess, find runID s = Ok (r, sess) /\ r_CurrentEpoch r = epoch /\ ~ run_terminal r
    /\ r_ID r = runID /\ s_RunID sess = runID /\ s_ExecutionEpoch sess = epoch.
Definition recovery_admits (m : Manager) (epoch : N) (risk : string) : Prop :=
  m_Epoch m = epoch /\ valid_risk risk /\ (risk <> risk_Observe -> m_Mode m <> mode_RecoveryReconciliation).

(** ** Theorems *)

Context (st : GwState S) `{!GwStateLaws st}.

#[export] Instance silent_execution id : Silent (Authority_execution st id).
Proof. unfold Authority_execution. rewrite gw_execution_law. apply _. Qed.
#[export] Instance silent_frozenTask d : Silent (Authority_frozenTask st d).
Proof. unfold Authority_frozenTask. rewrite gw_task_law. apply _. Qed.
#[export] Instance silent_recovery : Silent (Authority_recovery st).
Proof. unfold Authority_recovery. rewrite gw_recovery_law. apply _. Qed.

(** The gateway only reads. *)
#[export] Instance silent_Authorize req : Silent (Authority_Authorize (Some st) req).
Proof. unfold Authority_Authorize. apply _. Qed.
#[export] Instance silent_CheckRunEpoch r n : Silent (CheckRunEpoch (Authority_guard (Some st)) r n).
Proof. unfold CheckRunEpoch; simpl. apply _. Qed.
#[export] Instance silent_CheckRecoveryEpoch n k : Silent (CheckRecoveryEpoch (Authority_guard (Some st)) n k).
Proof. unfold CheckRecoveryEpoch; simpl. apply _. Qed.

(** A successful run of a sequence, step by step: each part of it succeeded. *)
Lemma bind_done {A B} (m : M S A) (f : A -> M S B) e w b w' :
  (m ≫= f) e w = (Ok b, w') -> exists a w1, m e w = (Ok a, w1) /\ f a e w1 = (Ok b, w').
Proof. unfold mbind, M_bind. destruct (m e w) as [[a|x] w1]; [eauto | done]. Qed.

Lemma silent_elapsed {A} (m : M S A) e w r w' : Silent m -> m e w = (r, w') -> elapsed e w w'.
Proof. intros Sm Hm. specialize (Sm e w). by rewrite Hm in Sm. Qed.

Lemma poll_done e (w : World S) u w' : poll e w = (Ok u, w') -> w_state w' = w_state w.
Proof. unfold poll. destruct (env_ctx e (w_tick w)); intros [=]; by subst. Qed.

(** A successful locked read reports the state it leaves. *)
Lemma rlocked_done {A} (read : S -> outcome A) e w a w' :
  rlocked read e w = (Ok a, w') -> read (w_state w') = Ok a.
Proof.
  unfold rlocked. intros Hr. repeat (apply bind_done in Hr as (? & ? & ? & Hr)).
  unfold inspect in Hr. injection Hr as Hr <-. exact Hr.
Qed.

End authority.
Arguments Authority : clear implicits.

(** ** The memory store *)

Definition Memory_GwState : GwState Memory :=
  mkGwState Memory_GetExecutionContext Memory_GetTaskByDigestContext Memory_GetRecoveryContext.

#[export] Instance Memory_GwState_laws : GwStateLaws Memory_GwState :=
  Build_GwStateLaws _ Memory_GwState find_execution
    (fun digest m => of_option ErrNotFound (tasksByDigest m !! digest)) recoveryState
    (fun _ => eq_refl) (fun _ => eq_refl) eq_refl.

Definition Memory_repository : Repository Memory :=
  mkRepository Memory_CreateContext Memory_GetContext Memory_GetByIdempotencyKeyContext Memory_UpdateContext.

(** The store writes the ledger by exactly these operations. *)
Definition ledger_write (m m' : Memory) : Prop :=
  exists op, CreateOperation op m = Ok (tt, m') \/ UpdateOperation op m = Ok (tt, m').

#[export] Instance Memory_laws : RepositoryLaws ledger Memory_repository.
Proof.
  unshelve eapply (Build_RepositoryLaws _ _ _ ledger_write); intros; simpl; [| reflexivity | reflexivity |];
    eexists; (split; [reflexivity|]); intros s; (split; [|intros [] s' Hb; exists op; auto]).
  - unfold ledger_create, CreateOperation; simpl. by repeat case_match.
  - unfold ledger_update, UpdateOperation; simpl. repeat case_match; try done.
    by destruct (Operation_Transition _ _ _).
Defined.

(** The action service of the server: gateway, provider and memory store. *)
Definition core_service (prov : Provider) : Service Memory :=
  mkService (Some (Authority_Authorize (Some Memory_GwState))) (Some (Authority_guard (Some Memory_GwState)))
    (Some prov) (Some Memory_repository).

(** ** No dispatch without admission *)

Section admitted.
Context `{Hash} {S : Type}.

(** A silent step before an effect succeeded. *)
Lemma bind_effect {A B} (m : M S A) (f : A -> M S B) e w : Silent m -> w_log ((m ≫= f) e w).2 <> w_log w ->
  exists a w1, m e w = (Ok a, w1) /\ elapsed e w w1 /\ w_log (f a e w1).2 <> w_log w1.
Proof.
  intros Sm. specialize (Sm e w). unfold mbind, M_bind. destruct (m e w) as [[a|x] w1]; simpl in *;
    pose proof (el_log _ _ _ Sm); [|congruence]. intros Hn. exists a, w1. split_and!; congruence.
Qed.

Lemma try_effect {A B} (m : M S A) (h : goerr -> M S B) k e w : Silent m -> (forall x, Silent (h x)) ->
  w_log (try_else m h k e w).2 <> w_log w ->
  exists a w1, m e w = (Ok a, w1) /\ elapsed e w w1 /\ w_log (k a e w1).2 <> w_log w1.
Proof.
  intros Sm Sh. specialize (Sm e w). unfold try_else. destruct (m e w) as [[a|x] w1]; simpl in *;
    pose proof (el_log _ _ _ Sm); [|pose proof (el_log _ _ _ (Sh x e w1)); congruence].
  intros Hn. exists a, w1. split_and!; congruence.
Qed.

Lemma silent_effect {A} (m : M S A) e w : Silent m -> w_log (m e w).2 <> w_log w -> False.
Proof. intros Sm Hn. by destruct (Sm e w). Qed.

(** The three admissions, at three moments of the call in this order, each
    with a live context after it. *)
Definition admitted (auth : Request -> M S unit) (guard : AuthorityGuard S) (req : Request) (e : Env S) (w : World S) : Prop :=
  exists wa wa' wr wr' wc wc',
    elapsed e w wa /\ auth req e wa = (Ok tt, wa') /\ env_ctx e (w_tick wa') = None
    /\ elapsed e wa' wr /\ CheckRunEpoch guard (q_RunID req) (q_ExecutionEpoch req) e wr = (Ok tt, wr')
    /\ env_ctx e (w_tick wr') = None
    /\ elapsed e wr' wc /\ CheckRecoveryEpoch guard (q_RecoveryEpoch req) (q_RiskClass req) e wc = (Ok tt, wc')
    /\ env_ctx e (w_tick wc') = None.

Lemma poll_live e (w : World S) u w' : poll e w = (Ok u, w') -> env_ctx e (w_tick w) = None.
Proof. unfold poll. by destruct (env_ctx e (w_tick w)). Qed.

Lemma effect_admitted auth guard prov repo view `{!RepositoryLaws view repo} `{!forall req, Silent (auth req)}
    `{!forall r n, Silent (CheckRunEpoch guard r n)} `{!forall n k, Silent (CheckRecoveryEpoch guard n k)} req e (w : World S) :
  w_log (Service_Execute (mkService (Some auth) (Some guard) (Some prov) (Some repo)) req e w).2 <> w_log w ->
  admitted auth guard req e w.
Proof.
  assert (Silent (GetByIdempotencyKeyContext repo (q_IdempotencyKey req))) by (eapply silent_read, GetByKey_law).
  unfold Service_Execute; simpl. case_decide; [by intros []%silent_effect; apply _|]. intros Hl.
  apply bind_effect in Hl as (u0 & w0 & _ & E0 & Hl); [|apply _].
  apply bind_effect in Hl as (digest & w1 & _ & E1 & Hl); [|apply _].
  apply bind_effect in Hl as (found & w2 & _ & E2 & Hl); [|apply _].
  destruct found as [existing|x].
  { exfalso. revert Hl. case_decide; intros []%silent_effect; apply _. }
  destruct (errors_is x ErrOperationAbsent); [|by exfalso; revert Hl; intros []%silent_effect; apply _].
  unfold execute_absent in Hl.
  apply bind_effect in Hl as (u1 & w3 & _ & E3 & Hl); [|apply _].
  apply try_effect in Hl as ([] & wa & Ha & _ & Hl); [|apply _..].
  apply bind_effect in Hl as (u2 & w4 & Hp1 & E4 & Hl); [|apply _].
  apply bind_effect in Hl as ([] & wr & Hr & _ & Hl); [|apply _].
  apply bind_effect in Hl as (u3 & w5 & Hp2 & E5 & Hl); [|apply _].
  apply bind_effect in Hl as ([] & wc & Hc & _ & Hl); [|apply _].
  apply bind_effect in Hl as (u4 & w6 & Hp3 & _ & _); [|apply _].
  exists w3, wa, w4, wr, w5, wc. split_and!; try done; try by eapply poll_live.
  eapply elapsed_trans; [exact E0|]. eapply elapsed_trans; [exact E1|].
  eapply elapsed_trans; [exact E2 | exact E3].
Qed.
End admitted.

(** ** What the gateway's answers mean *)

Section meaning.
Context {S : Type} (st : GwState S) `{!GwStateLaws st}.

Lemma check_run_epoch_sound runID epoch e (w w' : World S) :
  Authority_CheckRunEpoch (Some st) runID epoch e w = (Ok tt, w') ->
  run_epoch_current gw_find_execution runID epoch (w_state w').
Proof.
  unfold Authority_CheckRunEpoch, Authority_execution. rewrite gw_execution_law. intros Hr.
  apply bind_done in Hr as ([r sess] & w1 & Hex & Hr). apply bind_done in Hex as (u & w0 & _ & Hex%rlocked_done).
  apply bind_done in Hr as (u1 & w2 & Hp%poll_done & Hr). apply bind_done in Hr as ([] & w3 & Hchk & Hr).
  injection Hchk as Hchk <-. apply Run_CheckEpoch_ok in Hchk as [He Ht].
  case_decide as Hd; [discriminate Hr|]. injection Hr as <-. guards. rewrite Hp. simpl in *.
  exists r, sess. by split_and!.
Qed.

Lemma check_recovery_epoch_sound epoch risk e (w w' : World S) :
  Authority_CheckRecoveryEpoch (Some st) epoch risk e w = (Ok tt, w') ->
  recovery_admits (gw_recovery (w_state w')) epoch risk.
Proof.
  unfold Authority_CheckRecoveryEpoch, Authority_recovery. rewrite gw_recovery_law. intros Hr.
  apply bind_done in Hr as (m & w1 & Hex & Hr). apply bind_done in Hex as (u & w0 & _ & Hex%rlocked_done).
  injection Hex as <-. apply bind_done in Hr as (u1 & w2 & Hp%poll_done & Hr).
  apply bind_done in Hr as ([] & w3 & Hchk & Hr). injection Hchk as Hchk <-. rewrite <- Hp in Hchk, Hr.
  apply Manager_CheckEpoch_ok in Hchk as He. unfold recovery_admits, valid_risk.
  case_decide as Hobs; [injection Hr as <-; split_and!; auto; tauto|].
  case_decide as Hrisk; [|discriminate Hr]. injection Hr as Hr <-.
  apply AuthorizeIrreversible_ok in Hr as [_ Hm]. split_and!; auto; tauto.
Qed.

Lemma authorize_sound req e (w w' : World S) :
  Authority_Authorize (Some st) req e w = (Ok tt, w') ->
  valid_risk (q_RiskClass req) /\ q_Action req <> "" /\ q_Capability req <> "" /\
  exists w1 r sess task, elapsed e w w1 /\ elapsed e w1 w'
    /\ gw_find_execution (q_RunID req) (w_state w1) = Ok (r, sess)
    /\ gw_find_task (r_TaskContractDigest r) (w_state w') = Ok task /\ q_Action req ∈ tc_AllowedActions task.
Proof.
  unfold Authority_Authorize. intros Hr. apply bind_done in Hr as (u0 & w0 & E0%silent_elapsed & Hr); [|apply _].
  case_decide as Hempty; [discriminate Hr|]. case_decide as Hrisk; [discriminate Hr|]. guards.
  apply bind_done in Hr as ([r sess] & w1 & Hex & Hr). pose proof Hex as E1%silent_elapsed; [|apply _]. unfold Authority_execution in Hex. rewrite gw_execution_law in Hex.
  apply bind_done in Hex as (u & wx & _ & Hex%rlocked_done).
  apply bind_done in Hr as (task & w2 & Ht & Hr). simpl in Ht. pose proof Ht as E2%silent_elapsed; [|apply _].
  pose proof Ht as Ht'. unfold Authority_frozenTask in Ht'.
  rewrite gw_task_law in Ht'. apply bind_done in Ht' as (u1 & wy & _ & Ht'%rlocked_done).
  apply bind_done in Hr as (u2 & w3 & Hpoll & Hr). pose proof Hpoll as E3%silent_elapsed; [|apply _].
  apply poll_done in Hpoll as Hp. case_decide as Ha; [|discriminate Hr]. injection Hr as <-.
  split_and!; try done. exists w1, r, sess, task. rewrite Hp. split_and!; try done.
  - by eapply elapsed_trans.
  - by eapply elapsed_trans.
Qed.
End meaning.

(** ** Properties *)

(** Other goroutines only take steps of the authority. *)
Definition lawful `{Hash} (e : Env Memory) : Prop :=
  forall n m, reachable m -> rtc step m (env_interfere e n m).

Lemma drift_steps `{Hash} e m m' : lawful e -> reachable m -> drift e m m' -> rtc step m m'.
Proof.
  intros Hl Hr Hd. induction Hd as [|m0 m1 m2 [n ->] _ IH]; [apply rtc_refl|].
  specialize (Hl n m0 Hr). etrans; [exact Hl|]. apply IH. by eapply reachable_step.
Qed.

(** C6: the action service of the server dispatches nothing that was not
    admitted by the authority as it was during the call: the run existed, was
    not finished, and run and session were both in exactly the execution epoch
    of the request; the recovery epoch was current and, unless the action only
    observes, no recovery was under way; and the frozen task of the run allows
    the action. *)
Theorem dispatch_fenced `{Hash} prov req e m :
  lawful e -> reachable m ->
  w_log (Service_Execute (core_service prov) req e (start m)).2 <> [] ->
  exists ma mr mc, rtc step m ma /\ rtc step ma mr /\ rtc step mr mc
    /\ (exists p task, execution ma (q_RunID req) = Some p
        /\ tasksByDigest ma !! r_TaskContractDigest p.1 = Some task /\ q_Action req ∈ tc_AllowedActions task)
    /\ run_epoch_current find_execution (q_RunID req) (q_ExecutionEpoch req) mr
    /\ recovery_admits (recoveryState mc) (q_RecoveryEpoch req) (q_RiskClass req).
Proof.
  intros Hlaw Hm Hl. unfold core_service in Hl.
  eapply (effect_admitted _ _ prov Memory_repository ledger) in Hl; try apply _.
  destruct Hl as (wa & wa' & wr & wr' & wc & wc' & Ea & Ha & _ & Er & Hr & _ & Ec & Hc & _).
  pose proof Hr as Er'%silent_elapsed; [|apply _]. pose proof Hc as Ec'%silent_elapsed; [|apply _].
  destruct (authorize_sound Memory_GwState req e wa wa' Ha) as (_ & _ & _ & w1 & r & sess & task & E1 & E2 & Hex & Ht & Hact).
  assert (forall x y, elapsed e x y -> reachable (w_state x) -> rtc step (w_state x) (w_state y)) as Hsteps.
  { intros x y Exy Hx. eapply drift_steps; [done | done | apply Exy]. }
  assert (rtc step m (w_state w1)) as S1.
  { apply (Hsteps (start m)); [|done]. by eapply elapsed_trans. }
  assert (rtc step (w_state w1) (w_state wa')) as S2.
  { apply Hsteps; [done|]. by eapply reachable_step. }
  assert (rtc step (w_state wa') (w_state wr')) as S3.
  { apply Hsteps; [by eapply elapsed_trans|]. eapply reachable_step; [exact Hm|]. by etrans. }
  assert (rtc step (w_state wr') (w_state wc')) as S4.
  { apply Hsteps; [by eapply elapsed_trans|]. eapply reachable_step; [exact Hm|]. etrans; [exact S1|]. by etrans. }
  exists (w_state wa'), (w_state wr'), (w_state wc'). split; [by etrans|]. split; [done|]. split; [done|]. split_and!.
  - apply find_execution_inv in Hex as [Hr1 Hs1].
    assert (execution (w_state w1) (q_RunID req) = Some (r, sess)) as Hx by by unfold execution; rewrite Hr1, Hs1.
    destruct (lt_executions _ _ (steps_later _ _ S2) _ _ Hx) as (p & Hp & _ & [Hf _] & _).
    exists p, task. split_and!; try done. simpl in Hf. rewrite <- Hf.
    exact (of_option_ok _ _ _ Ht).
  - exact (check_run_epoch_sound Memory_GwState _ _ e wr wr' Hr).
  - exact (check_recovery_epoch_sound Memory_GwState _ _ e wc wc' Hc).
Qed.

(** The memory store's action ledger is the reference ledger: each of its
    four operations is one critical section that does exactly what
    [MemoryRepository] does, errors included, and touches nothing else, so
    everything proved of a repository holds of it. *)
Theorem Memory_ledger_refines op id key m :
  refines_write ledger ledger_write (CreateContext Memory_repository op) (ledger_create op)
  /\ refines_read ledger (GetContext Memory_repository id) (ledger_get id)
  /\ refines_read ledger (GetByIdempotencyKeyContext Memory_repository key) (ledger_get_by_key key)
  /\ refines_write ledger ledger_write (UpdateContext Memory_repository op) (ledger_update op)
  /\ (forall m', CreateOperation op m = Ok (tt, m') \/ UpdateOperation op m = Ok (tt, m') ->
        ledger_evolves (ledger m) (ledger m')
        /\ works m' = works m /\ runs m' = runs m /\ sessions m' = sessions m
        /\ tasksByDigest m' = tasksByDigest m /\ recoveryState m' = recoveryState m).
Proof.
  split; [exact (CreateContext_law (RepositoryLaws := Memory_laws) op)|].
  split; [exact (GetContext_law (RepositoryLaws := Memory_laws) id)|].
  split; [exact (GetByKey_law (RepositoryLaws := Memory_laws) key)|].
  split; [exact (UpdateContext_law (RepositoryLaws := Memory_laws) op)|]. intros m' [Hop|Hop].
  - apply CreateOperation_inv in Hop as [Hl ->]. split; [by eapply ledger_create_evolves | done].
  - apply UpdateOperation_inv in Hop as [Hl ->]. split; [by eapply ledger_update_evolves | done].
Qed.

Lemma Memory_ledger_refines_witness :
  works (after (CreateOperation (NewWithRequestDigest Example.request "" 5) m3) m3) = works m3.
Proof.
  apply (Memory_ledger_refines (NewWithRequestDigest Example.request "" 5) "" "" m3). left. apply after_ok.
  vm_compute. reflexivity.
Defined.

Definition Gateway_demo_request : Request :=
  mkRequest "op-1" "run-1" 1 0 "publish" risk_HighRisk "embedded.linux-bsp" "p" "key-1" "alice" demo_time.

Lemma dispatch_fenced_witness : exists mr, run_epoch_current find_execution "run-1" 1 mr.
Proof.
  destruct (dispatch_fenced Example.provider Gateway_demo_request (quiet_env Example.clock) m3) as
    (ma & mr & mc & _ & _ & _ & _ & Hr & _).
  - intros n m _. apply rtc_refl.
  - unfold reachable. eapply rtc_l, rtc_l, rtc_l, rtc_refl; [exact demo1 | exact demo2 | exact demo3].
  - assert (length (w_log (Service_Execute (core_service Example.provider) Gateway_demo_request
      (quiet_env Example.clock) (start m3)).2) = 1) as Hl by (vm_compute; reflexivity).
    intros Hn. rewrite Hn in Hl. discriminate Hl.
  - exists mr. exact Hr.
Defined.
