(* ===== verification/Api.v ===== *)
(** [internal/api/server.go] and the [*_context.go] helpers: the request
    handlers of the control plane over the memory store.

    A handler is a call of the effect monad that always answers.  A request is
    its decoded body ([None] when the JSON was refused) and its path values.
    The routes that need another store than the memory store (proofs of
    recovery, reconciliation of executions, actions and publications, live
    control, operational status) answer 503 here after their own checks, as the
    code does when the store lacks the interface; some of them also answer 403
    to a caller whom nobody authenticated. *)
From S2P Require Import Prelude Effects Canonical Core Run Session Recovery Verification Review Material Routing Embedded Action Store Gateway.
From S2P Require Access Control.

(** ** Responses *)

Inductive payload :=
| PError (message : string)
| PBlocked (readiness : MaterialResult)
| PHealth
| PCapabilities (caps : list Capability) (sk : list Skill)
| PRecovery (m : Manager)
| PWork (w : WorkItem)
| PFrozen (contract : TaskContract) (digest : string) (readiness : MaterialResult)
| PTask (contract : TaskContract) (digest : string)
| PPlan (plan : Plan) (digest : string)
| PStarted (r : Run) (a : Attempt) (s : Session) (input : RunInputManifest)
| PRun (r : Run) (s : Session) (input : RunInputManifest)
| PExecution (r : Run) (s : Session)
| PTakeover (epoch : N)
| PSteering (c : SteeringCommand)
| PCheckpoint (c : Checkpoint) (digest : string)
| PReceipt (r : Receipt)
| POperation (o : Operation)
| PDelivery (d : DeliveryReceipt)
| PEvidence (i : EvidenceRef)
| PVerification (r : Report)
| PReview (r : ReviewReport)
| PClosure (c : ClosureReceipt).

Record Response := mkResponse { rs_Status : N; rs_Body : payload }.

Definition StatusOK : N := 200.
Definition StatusCreated : N := 201.
Definition StatusAccepted : N := 202.
Definition StatusBadRequest : N := 400.
Definition StatusForbidden : N := 403.
Definition StatusNotFound : N := 404.
Definition StatusConflict : N := 409.
Definition StatusUnprocessableEntity : N := 422.
Definition StatusInternalServerError : N := 500.
Definition StatusServiceUnavailable : N := 503.

Definition writeJSON (status : N) (value : payload) : Response := mkResponse status value.
Definition writeError (status : N) (message : string) : Response := writeJSON status (PError message).

Definition public_message (status : N) : string :=
  if decide (status = StatusBadRequest) then "invalid request"
  else if decide (status = StatusForbidden) then "operation forbidden"
  else if decide (status = StatusNotFound) then "resource not found"
  else if decide (status = StatusConflict) then "conflict with current authority or version"
  else if decide (status = StatusUnprocessableEntity) then "request rejected by current policy or contract"
  else if decide (status = StatusServiceUnavailable) then "service temporarily unavailable"
  else "internal operation failed".
Definition writePublicError (status : N) : Response := writeError status (public_message status).

Definition writeCommitOutcomeUnknown : Response :=
  writeError StatusServiceUnavailable
    "commit_outcome_unknown: read back the exact resource ID, epoch, idempotency key and audit record before considering any retry".

Definition writeCommitAwareInternalError (e : goerr) : Response :=
  if errors_is e ErrCommitOutcomeUnknown then writeCommitOutcomeUnknown
  else writeError StatusInternalServerError "internal Core authority operation failed".

Definition writeStoreError (e : goerr) : Response :=
  if errors_is e ErrCommitOutcomeUnknown then writeCommitOutcomeUnknown
  else if errors_is e ErrNotFound then writePublicError StatusNotFound
  else writePublicError StatusInternalServerError.

Definition writeMutationError (e : goerr) : Response :=
  if errors_is e ErrCommitOutcomeUnknown then writeCommitOutcomeUnknown
  else if errors_is e ErrNotFound then writePublicError StatusNotFound
  else if errors_is e ErrExists || errors_is e ErrConflict || errors_is e run_ErrStaleEpoch
          || errors_is e session_ErrStaleEpoch || errors_is e ErrSequence || errors_is e ErrRuntimeNotOwner
  then writePublicError StatusConflict
  else writePublicError StatusUnprocessableEntity.

Definition writeActionError (e : goerr) : Response :=
  if errors_is e ErrCommitOutcomeUnknown then writeCommitOutcomeUnknown
  else if errors_is e ErrExternalEffectUnresolved then
    writeError StatusServiceUnavailable
      "external_effect_unresolved: read back the exact original Action operation ID, idempotency key, Run/Recovery epochs, receipt and audit before any retry"
  else if errors_is e ErrDenied then writePublicError StatusForbidden
  else if errors_is e ErrIdempotencyConflict then writePublicError StatusConflict
  else if errors_is e ErrOperationAbsent || errors_is e ErrNotFound then writePublicError StatusNotFound
  else if errors_is e run_ErrStaleEpoch || errors_is e recovery_ErrStaleEpoch || errors_is e ErrRecoveryMode
  then writePublicError StatusConflict
  else writePublicError StatusUnprocessableEntity.

(** [if errors.Is(err, store.ErrExists)] and its variants before an internal error. *)
Definition exists_or_internal (e : goerr) : Response :=
  if errors_is e ErrExists then writePublicError StatusConflict else writeCommitAwareInternalError e.
Definition exists_or_conflict_or_internal (e : goerr) : Response :=
  if errors_is e ErrExists || errors_is e ErrConflict then writePublicError StatusConflict
  else writeCommitAwareInternalError e.

(** [decodeJSON] refused the body. *)
Definition invalid_json : Response := writeError StatusBadRequest "invalid JSON object".

(** ** The helpers: a context check, then the store *)

Definition for_request {A} (op : M Memory A) : M Memory A := poll ;; op.

Section helpers.
Context `{Hash}.

Definition getRecoveryForRequest : M Memory Manager := for_request Memory_GetRecoveryContext.
Definition beginRecoveryForRequest (epoch : N) : M Memory Manager := for_request (Memory_BeginRecoveryContext epoch).
Definition completeRecoveryForRequest (epoch : N) (reconciled : bool) : M Memory Manager :=
  for_request (Memory_CompleteRecoveryContext epoch reconciled).
Definition createWorkForRequest (item : WorkItem) : M Memory unit := for_request (Memory_CreateWorkContext item).
Definition getWorkForRequest (id : string) : M Memory WorkItem := for_request (Memory_GetWorkContext id).
Definition freezeTaskForRequest (task : TaskContract) (plan : Plan) (version : N) (work : WorkItem) : M Memory unit :=
  for_request (Memory_CreateTaskAndUpdateWorkContext task plan version work).
Definition getTaskForRequest (id : string) : M Memory TaskContract := for_request (Memory_GetTaskContext id).
Definition getFrozenTaskForRequest (digest : string) : M Memory TaskContract :=
  for_request (Memory_GetTaskByDigestContext digest).
Definition startRunForRequest (value : Run) (attempt : Attempt) (sess : Session) (input : RunInputManifest)
    (version : N) (work : WorkItem) : M Memory unit :=
  for_request (Memory_CreateExecutionAndUpdateWorkContext value attempt sess input version work).
Definition getRunForRequest (id : string) : M Memory (Run * Session) := for_request (Memory_GetExecutionContext id).
Definition getRunInputForRequest (digest : string) : M Memory RunInputManifest :=
  for_request (Memory_GetRunInputByDigestContext digest).
Definition updateRunForRequest (id : string) (version : N) (value : Run) (sess : Session) : M Memory unit :=
  for_request (Memory_UpdateExecutionContext id version value sess).
Definition completeRunForRequest (id : string) (runVersion : N) (value : Run) (sess : Session) (workVersion : N)
    (work : WorkItem) : M Memory unit :=
  for_request (Memory_UpdateExecutionAndWorkContext id runVersion value sess workVersion work).
Definition createCheckpointForRequest (item : Checkpoint) : M Memory string :=
  for_request (Memory_CreateCheckpointContext item).
Definition getCheckpointForRequest (id : string) : M Memory (Checkpoint * string) :=
  for_request (Memory_GetCheckpointContext id).
Definition createDeliveryForRequest (item : DeliveryReceipt) : M Memory unit :=
  for_request (Memory_CreateDeliveryContext item).
Definition getDeliveryForRequest (id : string) : M Memory DeliveryReceipt := for_request (Memory_GetDeliveryContext id).
Definition getVerificationPlanForRequest (digest : string) : M Memory Plan :=
  for_request (Memory_GetVerificationPlanByDigestContext digest).
Definition registerEvidenceForRequest (item : EvidenceRef) : M Memory unit :=
  for_request (Memory_CreateEvidenceContext item).
Definition getEvidenceForRequest (id : string) : M Memory EvidenceRef := for_request (Memory_GetEvidenceContext id).
Definition createVerificationForRequest (item : Report) : M Memory unit :=
  for_request (Memory_CreateVerificationContext item).
Definition getVerificationForRequest (id : string) : M Memory Report := for_request (Memory_GetVerificationContext id).
Definition createReviewForRequest (report : ReviewReport) (version : N) (work : WorkItem) : M Memory unit :=
  for_request (Memory_CreateReviewAndUpdateWorkContext report version work).
Definition getReviewForRequest (id : string) : M Memory ReviewReport := for_request (Memory_GetReviewContext id).
Definition createClosureForRequest (item : ClosureReceipt) (version : N) (work : WorkItem) : M Memory unit :=
  for_request (Memory_CreateClosureAndUpdateWorkContext item version work).
Definition getClosureForRequest (id : string) : M Memory ClosureReceipt := for_request (Memory_GetClosureContext id).
Definition getSteeringForRequest (id : string) : M Memory SteeringCommand :=
  for_request (Memory_GetSteeringContext id).

End helpers.

(** ** Requests: the decoded bodies *)

Record createTaskRequest := mkCreateTask {
  ctr_Contract : TaskContract; ctr_Material : Manifest; ctr_Subsystem : string;
  ctr_TargetContext : option TargetContext; ctr_VerificationPlan : Plan
}.
Record createRunRequest := mkCreateRun {
  crr_RunID : string; crr_TaskContractDigest : string; crr_AttemptID : string; crr_RunInput : RunInputManifest
}.
Record createCheckpointRequest := mkCreateCheckpoint {
  ccr_ID : string; ccr_ExecutionEpoch : N; ccr_SourceTreeDigest : string; ccr_DiffDigest : string;
  ccr_Objective : string; ccr_Completed : list string; ccr_Pending : list string; ccr_Questions : list string;
  ccr_LastEventSequence : N; ccr_ExternalOperationCursor : string
}.
Record createActionRequest := mkCreateAction {
  car_ID : string; car_ExecutionEpoch : N; car_RecoveryEpoch : option N; car_Action : string;
  car_RiskClass : string; car_Capability : string; car_ParametersDigest : string;
  car_IdempotencyKey : string; car_RequestedBy : string
}.
Record createDeliveryRequest := mkCreateDelivery {
  cdr_ID : string; cdr_RunID : string; cdr_ResultCommit : string; cdr_Artifacts : list ArtifactRef;
  cdr_KnownLimits : list string
}.
Record createEvidenceRequest := mkCreateEvidence { cer_DeliveryReceiptID : string; cer_Evidence : EvidenceRef }.
Record createVerificationRequest := mkCreateVerification {
  cvr_ReportID : string; cvr_DeliveryReceiptID : string; cvr_Verifier : string; cvr_EvidenceIDs : list string
}.
Record createReviewRequest := mkCreateReview {
  cwr_ReportID : string; cwr_DeliveryReceiptID : string; cwr_VerificationReportID : string;
  cwr_Reviewer : string; cwr_Result : string; cwr_Findings : list Finding; cwr_KnownLimits : list string
}.
Record createClosureRequest := mkCreateClosure {
  ckr_ID : string; ckr_DeliveryReceiptID : string; ckr_VerificationReportID : string; ckr_ReviewReportID : string
}.

(** [v, err := call(); if err != nil { answer; return }]. *)
Notation "'let?' x ':=' m 'orelse' h 'in' k" :=
  (try_else m (fun err => mret (h err)) (fun x => k))
  (at level 10, x pattern, m at level 100, h at level 100, k at level 200, only parsing).

Definition answer {S} (rs : Response) : M S Response := mret rs.
(** [if !decodeJSON(w, r, &req) { return }]. *)
Definition decodeJSON {S R} (body : option R) (k : R -> M S Response) : M S Response :=
  match body with None => answer invalid_json | Some req => k req end.

(** ** Health, capabilities and recovery *)

Definition handleHealth : M Memory Response := answer (writeJSON StatusOK PHealth).
Definition handleCapabilities : M Memory Response :=
  answer (writeJSON StatusOK (PCapabilities Capabilities Skills)).

Section handlers.
Context `{Hash}.

Definition handleGetRecovery : M Memory Response :=
  let? state := getRecoveryForRequest orelse (fun _ => writePublicError StatusServiceUnavailable) in
  answer (writeJSON StatusOK (PRecovery state)).

Definition writeBeginRecoveryError (e : goerr) : Response :=
  if errors_is e ErrCommitOutcomeUnknown then writeCommitOutcomeUnknown
  else if errors_is e ErrConflict || errors_is e ErrAlreadyRecovering then writePublicError StatusConflict
  else writePublicError StatusInternalServerError.
Definition handleBeginRecovery (body : option N) : M Memory Response :=
  decodeJSON body (fun epoch =>
  let? state := beginRecoveryForRequest epoch orelse writeBeginRecoveryError in
  answer (writeJSON StatusOK (PRecovery state))).

Definition writeCompleteRecoveryError (e : goerr) : Response :=
  if errors_is e ErrCommitOutcomeUnknown then writeCommitOutcomeUnknown
  else if errors_is e ErrConflict || errors_is e recovery_ErrStaleEpoch then writePublicError StatusConflict
  else if errors_is e ErrReconciliationRequired then writePublicError StatusUnprocessableEntity
  else writePublicError StatusInternalServerError.
Definition handleCompleteRecovery (body : option N) : M Memory Response :=
  decodeJSON body (fun epoch =>
  if decide (epoch = 0%N) then answer (writeError StatusBadRequest "recovery_epoch is required") else
  let? state := completeRecoveryForRequest epoch true orelse writeCompleteRecoveryError in
  answer (writeJSON StatusOK (PRecovery state))).

(** The memory store keeps no durable proofs: after the request is checked,
    the routes answer 503. *)
Definition handleCreateRecoveryProof (body : option (N * string)) : M Memory Response :=
  decodeJSON body (fun req =>
  if decide (req.1 = 0%N \/ req.2 = "")
  then answer (writeError StatusBadRequest "recovery_epoch and reconciler are required")
  else answer (writeError StatusServiceUnavailable "durable recovery proof store is not configured")).
Definition handleGetRecoveryProof (epoch : option N) : M Memory Response :=
  if decide (epoch = None \/ epoch = Some 0%N)
  then answer (writeError StatusBadRequest "valid recovery epoch required")
  else answer (writeError StatusServiceUnavailable "durable recovery proof store is not configured").
Definition handleOperationalStatus : M Memory Response :=
  answer (writeError StatusServiceUnavailable "operational status is unavailable").

(** [AuthenticatedIdentity] of the request, and a capability of it. *)
Definition caller_allows (who : option Access.Identity) (capability : string) : bool :=
  match who with Some id => Access.Allows id capability | None => false end.
Definition caller_subject (who : option Access.Identity) : string :=
  match who with Some id => Access.id_subject id | None => "" end.

Definition handleOperationalAttention (who : option Access.Identity) : M Memory Response :=
  if negb (caller_allows who Access.cap_Read) then answer (writeError StatusForbidden "read capability required")
  else answer (writeError StatusServiceUnavailable "operational status is unavailable").
Definition handleOperationalCapacity (who : option Access.Identity) : M Memory Response :=
  if negb (caller_allows who Access.cap_Read) then answer (writeError StatusForbidden "read capability required")
  else answer (writeError StatusServiceUnavailable "identified Core capacity source unavailable").

(** Nor does it settle what a restored or interrupted server left behind. *)
Definition handleExecutionAbandon (who : option Access.Identity) (body : option ExecutionAbandonRequest) : M Memory Response :=
  if negb (caller_allows who Access.cap_RecoveryReconcile) then answer (writeError StatusForbidden "recovery reconciliation denied") else
  decodeJSON body (fun request =>
  if negb (is_ok (ExecutionAbandonRequest_Validate request))
  then answer (writeError StatusBadRequest "invalid exact execution reconciliation request")
  else answer (writeError StatusServiceUnavailable "execution reconciliation store unavailable")).
Definition handleAbandonPlannedAction (who : option Access.Identity) (body : option ActionPlannedAbandonRequest) : M Memory Response :=
  if negb (caller_allows who Access.cap_RecoveryReconcile) then answer (writeError StatusForbidden "Recovery reconciliation denied") else
  decodeJSON body (fun request =>
  if negb (is_ok (ActionPlannedAbandonRequest_Validate request))
  then answer (writeError StatusBadRequest "invalid exact planned Action reconciliation request")
  else answer (writeError StatusServiceUnavailable "durable planned Action reconciliation unavailable")).
Definition handleGetAbandonedPlannedAction (who : option Access.Identity) (id : string) : M Memory Response :=
  if negb (caller_allows who Access.cap_Read) then answer (writeError StatusForbidden "read permission required")
  else answer (writeError StatusServiceUnavailable "durable Action readback unavailable").

(** A publication that was confirmed, and one that was never invoked. *)
Definition handlePublicationRecovery (who : option Access.Identity) (body : option PublicationRecoveryRequest) : M Memory Response :=
  if negb (caller_allows who Access.cap_RecoveryReconcile) then answer (writePublicError StatusForbidden) else
  decodeJSON body (fun request =>
  if negb (is_ok (PublicationRecoveryRequest_Validate request)) then answer (writePublicError StatusBadRequest)
  else answer (writePublicError StatusServiceUnavailable)).
Definition handleConfirmRecoveredPublication := handlePublicationRecovery.
Definition handleAbandonUninvokedPublication := handlePublicationRecovery.
Definition handleGetPublicationRecovery (who : option Access.Identity) (id : string) : M Memory Response :=
  if negb (caller_allows who Access.cap_Read) then answer (writePublicError StatusForbidden)
  else answer (writePublicError StatusServiceUnavailable).
Definition handleGetRecoveredPublication := handleGetPublicationRecovery.
Definition handleGetUninvokedPublication := handleGetPublicationRecovery.

(** ** Live control of a turn *)

Definition handleLiveControl (who : option Access.Identity) (id kind : string) (body : option Control.ControlInput) : M Memory Response :=
  if negb (caller_allows who Access.cap_RunControl) then answer (writeError StatusForbidden "authenticated RunControl required") else
  decodeJSON body (fun input =>
  if decide (Control.ci_Actor input <> caller_subject who) then answer (writeError StatusForbidden "control actor mismatch")
  else if negb (is_ok (Control.ControlInput_Validate input kind))
  then answer (writeError StatusBadRequest "exact live turn and bounded control input required")
  else answer (writeError StatusServiceUnavailable "live control delivery unavailable")).
Definition handleSteer who id := handleLiveControl who id Control.ControlSteer.
Definition handleInterrupt who id := handleLiveControl who id Control.ControlInterrupt.
Definition handleControlDelivery (who : option Access.Identity) (id : string) : M Memory Response :=
  if negb (caller_allows who Access.cap_Read) then answer (writeError StatusForbidden "read denied")
  else answer (writeError StatusServiceUnavailable "live control delivery unavailable").

(** ** Work items *)

Definition admit_work (item : WorkItem) (t : time) : WorkItem :=
  let item := if decide (wi_State item = "") then set_wi_State WorkDraft item else item in
  let item := if decide (wi_Version item = 0%N) then set_wi_Version 1 item else item in
  if IsZero (wi_CreatedAt item) then set_wi_CreatedAt t item else item.

Definition handleCreateWork (body : option WorkItem) : M Memory Response :=
  decodeJSON body (fun item =>
  if decide (wi_ID item = "" \/ wi_Title item = "" \/ wi_HumanOwner item = "")
  then answer (writeError StatusBadRequest "work_item_id, title and human_owner are required")
  else
    item ← (if IsZero (wi_CreatedAt item) then t ← now; mret (admit_work item t) else mret (admit_work item 0%Z));
    let? _ := createWorkForRequest item orelse exists_or_internal in
    answer (writeJSON StatusCreated (PWork item))).

Definition handleGetWork (id : string) : M Memory Response :=
  let? item := getWorkForRequest id orelse writeStoreError in
  answer (writeJSON StatusOK (PWork item)).

(** ** Task contracts *)

(** What the handler writes over the client's contract. *)
Definition frozen_contract (c : TaskContract) (mat : Manifest) (target : option TargetContext) (route : Route)
    (skills : string * Z) (plan : Plan) (planDigest : string) : TaskContract :=
  mkTaskContract (tc_ID c) (tc_WorkItemID c) (tc_TaskType c) (rt_CapabilityIDs route) (rt_SkillIDs route)
    skills.1 skills.2 (mm_Repository mat) (mm_BaseCommit mat) (mm_TargetID mat)
    (match target with Some t => tg_Platform t | None => "" end) (mm_AcceptanceCriteria mat)
    (tc_AllowedActions c) (tc_ExpectedOutputs c) (pl_ID plan) planDigest
    (if decide (tc_Revision c = 0%N) then 1%N else tc_Revision c).

Definition set_mm_TaskType (t : string) (m : Manifest) : Manifest :=
  mkManifest t (mm_Repository m) (mm_BaseCommit m) (mm_TargetID m) (mm_AcceptanceCriteria m)
    (mm_HasAuthoritativeLog m) (mm_HasReproduction m) (mm_RequiresDevice m) (mm_DeviceID m)
    (mm_FirmwareIdentity m) (mm_DegradationApprovedBy m) (mm_DegradationReason m).

Definition foreign_target (target : option TargetContext) (mat : Manifest) : bool :=
  match target with Some t => bool_decide (tg_TargetID t <> mm_TargetID mat) | None => false end.

(** The part between the read of the work item and the write: every refusal is
    an answer. *)
Definition freeze (req : createTaskRequest) (work : WorkItem)
    : sum Response (TaskContract * string * MaterialResult * WorkItem) :=
  let c := ctr_Contract req in
  let mat := set_mm_TaskType (tc_TaskType c) (ctr_Material req) in
  let readiness := Material_Evaluate mat in
  if decide (ms_Status readiness = mat_Blocked) then inl (writeJSON StatusUnprocessableEntity (PBlocked readiness))
  else if foreign_target (ctr_TargetContext req) mat
  then inl (writeError StatusUnprocessableEntity "target_context target_id must match material target_id")
  else match ResolveForTarget (tc_TaskType c) (ctr_Subsystem req) (ctr_TargetContext req) with
  | Err _ => inl (writePublicError StatusUnprocessableEntity)
  | Ok route =>
    match (match ctr_TargetContext req with
           | Some _ => d ← RoutedSkillContractDigest (rt_SkillIDs route); Ok (d, 1%Z)
           | None => Ok ("", 0%Z) end) with
    | Err _ => inl (writeError StatusServiceUnavailable "selected Skill contract catalog is invalid")
    | Ok skills =>
      if negb (ValidatePlan (ctr_VerificationPlan req) (mm_AcceptanceCriteria mat))
      then inl (writeError StatusUnprocessableEntity
        "verification plan must cover every acceptance criterion with at least one evidence requirement")
      else match Plan_Digest (ctr_VerificationPlan req) with
      | Err _ => inl (writePublicError StatusInternalServerError)
      | Ok planDigest =>
        let task := frozen_contract c mat (ctr_TargetContext req) route skills (ctr_VerificationPlan req) planDigest in
        match TaskContract_Digest task with
        | Err _ => inl (writePublicError StatusInternalServerError)
        | Ok digest =>
          let work := set_wi_Active digest "" work in
          match (if decide (wi_State work = WorkDraft) then WorkItem_Transition work WorkReady else Ok work) with
          | Err _ => inl (writePublicError StatusConflict)
          | Ok work => inr (task, digest, readiness, work)
          end
        end
      end
    end
  end.

Definition handleCreateTask (body : option createTaskRequest) : M Memory Response :=
  decodeJSON body (fun req =>
  let c := ctr_Contract req in
  if decide (tc_ID c = "" \/ tc_WorkItemID c = "" \/ tc_TaskType c = "")
  then answer (writeError StatusBadRequest "task_contract_id, work_item_id and task_type are required")
  else
  let? work := getWorkForRequest (tc_WorkItemID c) orelse writeStoreError in
  if decide (wi_State work <> WorkDraft /\ wi_State work <> WorkReady)
  then answer (writeError StatusConflict "task contract revisions are only accepted while work is DRAFT or READY")
  else match freeze req work with
  | inl refusal => answer refusal
  | inr (task, digest, readiness, frozen) =>
    let? _ := freezeTaskForRequest task (ctr_VerificationPlan req) (wi_Version work) frozen
      orelse exists_or_conflict_or_internal in
    answer (writeJSON StatusCreated (PFrozen task digest readiness))
  end).

Definition handleGetTask (id : string) : M Memory Response :=
  let? task := getTaskForRequest id orelse writeStoreError in
  let? digest := lift (TaskContract_Digest task) orelse (fun _ => writePublicError StatusInternalServerError) in
  answer (writeJSON StatusOK (PTask task digest)).

(** [frozen_contract_readback.go]: a stored contract is rehashed before it is shown. *)
Definition handleGetFrozenTaskByDigest (digest : string) : M Memory Response :=
  if negb (ValidDigest digest) then answer (writePublicError StatusBadRequest)
  else
  let? task := getFrozenTaskForRequest digest orelse writeStoreError in
  let? _ := poll orelse writeStoreError in
  match TaskContract_Digest task with
  | Ok actual => if decide (actual = digest) then answer (writeJSON StatusOK (PTask task digest))
                 else answer (writePublicError StatusInternalServerError)
  | Err _ => answer (writePublicError StatusInternalServerError)
  end.
Definition handleGetFrozenVerificationPlanByDigest (digest : string) : M Memory Response :=
  if negb (ValidDigest digest) then answer (writePublicError StatusBadRequest)
  else
  let? plan := getVerificationPlanForRequest digest orelse writeStoreError in
  let? _ := poll orelse writeStoreError in
  match Plan_Digest plan with
  | Ok actual => if decide (actual = digest) then answer (writeJSON StatusOK (PPlan plan digest))
                 else answer (writePublicError StatusInternalServerError)
  | Err _ => answer (writePublicError StatusInternalServerError)
  end.

(** ** Runs and their control *)

Definition set_ri_Subject (run digest : string) (i : RunInputManifest) : RunInputManifest :=
  mkRunInput (ri_Continuation i) run digest (ri_ContextRefs i) (ri_RuntimeProfile i) (ri_ToolProfile i)
    (ri_WorkerProfile i) (ri_PolicyProfile i).

(** Decoding runs [RunInputManifest.UnmarshalJSON]. *)
Definition handleCreateRun (body : option createRunRequest) : M Memory Response :=
  decodeJSON body (fun req =>
  match RunInputManifest_accept (crr_RunInput req) with
  | Err _ => answer invalid_json
  | Ok decoded =>
    if decide (is_Some (ri_Continuation decoded))
    then answer (writeError StatusBadRequest "source continuation requires the authorized continuation endpoint")
    else if decide (crr_RunID req = "" \/ crr_TaskContractDigest req = "" \/ crr_AttemptID req = "")
    then answer (writeError StatusBadRequest "run_id, task_contract_digest and attempt_id are required")
    else if decide (ri_RuntimeProfile decoded = "" \/ ri_ToolProfile decoded = ""
                    \/ ri_WorkerProfile decoded = "" \/ ri_PolicyProfile decoded = "")
    then answer (writeError StatusBadRequest
      "runtime_profile, tool_profile, worker_profile and policy_profile are required")
    else
    let input := set_ri_Subject (crr_RunID req) (crr_TaskContractDigest req) decoded in
    let? inputDigest := lift (RunInputManifest_Digest input)
      orelse (fun _ => writePublicError StatusInternalServerError) in
    let? task := getFrozenTaskForRequest (crr_TaskContractDigest req) orelse writeStoreError in
    let? work := getWorkForRequest (tc_WorkItemID task) orelse writeStoreError in
    if decide (wi_State work <> WorkReady)
    then answer (writeError StatusConflict "work must be READY before starting a run")
    else if decide (wi_ActiveTaskContractDigest work <> crr_TaskContractDigest req)
    then answer (writeError StatusConflict "run must use the current active task contract revision")
    else
    t ← now;
    let? (attempt, value) :=
      lift (StartAttempt (Run_New (crr_RunID req) (crr_TaskContractDigest req) inputDigest) (crr_AttemptID req) t)
      orelse (fun _ => writePublicError StatusConflict) in
    let sess := Session_New (crr_RunID req) (at_Epoch attempt) in
    let? started :=
      lift (WorkItem_Transition (set_wi_Active (wi_ActiveTaskContractDigest work) (crr_RunID req) work) WorkExecuting)
      orelse (fun _ => writePublicError StatusConflict) in
    let? _ := startRunForRequest value attempt sess input (wi_Version work) started
      orelse exists_or_conflict_or_internal in
    answer (writeJSON StatusCreated (PStarted value attempt sess input))
  end).

Definition handleGetRun (id : string) : M Memory Response :=
  let? p := getRunForRequest id orelse writeStoreError in
  let? input := getRunInputForRequest (r_RunInputManifestDigest p.1) orelse writeStoreError in
  answer (writeJSON StatusOK (PRun p.1 p.2 input)).

Definition codex_conflict : goerr :=
  EWrap "" ErrConflict
    ": Codex pause/resume/takeover needs a quiescent checkpoint protocol; interrupt is cancellation only".

(** [mutateExecution]: [fn] updates the run and the session it was given. *)
Definition mutateExecution {A} (id : string) (fn : Run -> Session -> outcome (A * Run * Session)) : M Memory A :=
  p ← getRunForRequest id;
  input ← getRunInputForRequest (r_RunInputManifestDigest p.1);
  if str_prefix "codex/sha256:" (ri_ToolProfile input) then fail codex_conflict
  else
    '(a, value, sess) ← lift (fn p.1 p.2);
    updateRunForRequest id (r_Version p.1) value sess ;;
    mret a.

Definition writeExecution (id : string) : M Memory Response :=
  let? p := getRunForRequest id orelse writeStoreError in
  answer (writeJSON StatusOK (PExecution p.1 p.2)).

Definition pause_execution (epoch : N) (value : Run) (sess : Session) : outcome (unit * Run * Session) :=
  value' ← Run_Pause value epoch; sess' ← Session_Pause sess epoch; Ok (tt, value', sess').
Definition resume_execution (epoch : N) (value : Run) (sess : Session) : outcome (unit * Run * Session) :=
  value' ← Run_Resume value epoch; sess' ← Session_Resume sess epoch; Ok (tt, value', sess').
Definition takeover_execution (epoch : N) (value : Run) (sess : Session) : outcome (N * Run * Session) :=
  '(e, value') ← Run_Takeover value epoch;
  '(se, sess') ← Session_Takeover sess epoch;
  if decide (e <> se) then Err (ENew "run/session epoch divergence") else Ok (e, value', sess').

Definition handlePause (id : string) (body : option N) : M Memory Response :=
  decodeJSON body (fun epoch =>
  let? _ := mutateExecution id (pause_execution epoch) orelse writeMutationError in writeExecution id).
Definition handleResume (id : string) (body : option N) : M Memory Response :=
  decodeJSON body (fun epoch =>
  let? _ := mutateExecution id (resume_execution epoch) orelse writeMutationError in writeExecution id).
Definition handleTakeover (id : string) (body : option N) : M Memory Response :=
  decodeJSON body (fun epoch =>
  let? newEpoch := mutateExecution id (takeover_execution epoch) orelse writeMutationError in
  answer (writeJSON StatusOK (PTakeover newEpoch))).

Definition handleGetSteering (id : string) : M Memory Response :=
  let? cmd := getSteeringForRequest id orelse writeStoreError in
  answer (writeJSON StatusOK (PSteering cmd)).

Definition handleCompleteRun (runID : string) (body : option N) : M Memory Response :=
  decodeJSON body (fun epoch =>
  let? p := getRunForRequest runID orelse writeStoreError in
  let? value := lift (Run_Complete p.1 epoch) orelse writeMutationError in
  let? task := getFrozenTaskForRequest (r_TaskContractDigest value) orelse writeStoreError in
  let? work := getWorkForRequest (tc_WorkItemID task) orelse writeStoreError in
  if decide (wi_State work <> WorkExecuting \/ wi_ActiveTaskContractDigest work <> r_TaskContractDigest value
             \/ wi_ActiveRunID work <> runID)
  then answer (writeError StatusConflict "work is not executing this run/task subject")
  else
  let? verifying := lift (WorkItem_Transition work WorkVerifying) orelse (fun _ => writePublicError StatusConflict) in
  let? _ := completeRunForRequest runID (r_Version p.1) value p.2 (wi_Version work) verifying
    orelse writeMutationError in
  writeExecution runID).

(** ** Checkpoints *)

Definition handleCreateCheckpoint (runID : string) (body : option createCheckpointRequest) : M Memory Response :=
  decodeJSON body (fun req =>
  if decide (ccr_ID req = "" \/ ccr_ExecutionEpoch req = 0%N \/ ccr_SourceTreeDigest req = "")
  then answer (writeError StatusBadRequest "checkpoint_id, execution_epoch and source_tree_digest are required")
  else
  let? p := getRunForRequest runID orelse writeStoreError in
  let? _ := lift (Run_CheckEpoch p.1 (ccr_ExecutionEpoch req)) orelse writeMutationError in
  if decide (s_ExecutionEpoch p.2 <> ccr_ExecutionEpoch req)
  then answer (writeError StatusConflict "session execution epoch does not match run")
  else
  t ← now;
  let item := mkCheckpoint (ccr_ID req) runID (r_TaskContractDigest p.1) (r_RunInputManifestDigest p.1)
    (ccr_ExecutionEpoch req) (ccr_SourceTreeDigest req) (ccr_DiffDigest req) (ccr_Objective req)
    (ccr_Completed req) (ccr_Pending req) (ccr_Questions req) (ccr_LastEventSequence req)
    (ccr_ExternalOperationCursor req) t in
  let? digest := createCheckpointForRequest item orelse exists_or_internal in
  answer (writeJSON StatusCreated (PCheckpoint item digest))).

Definition handleGetCheckpoint (id : string) : M Memory Response :=
  let? p := getCheckpointForRequest id orelse writeStoreError in
  answer (writeJSON StatusOK (PCheckpoint p.1 p.2)).

(** ** Actions: [actions] is the configured gateway, if any *)

Definition no_gateway : Response := writeError StatusServiceUnavailable "action gateway provider is not configured".

Definition handleCreateAction (actions : option (Service Memory)) (runID : string)
    (body : option createActionRequest) : M Memory Response :=
  match actions with
  | None => answer no_gateway
  | Some svc =>
    decodeJSON body (fun req =>
    match car_RecoveryEpoch req with
    | Some recoveryEpoch =>
      if decide (car_ID req = "" \/ car_ExecutionEpoch req = 0%N \/ car_Action req = "" \/ car_RiskClass req = ""
                 \/ car_Capability req = "" \/ car_ParametersDigest req = "" \/ car_IdempotencyKey req = ""
                 \/ car_RequestedBy req = "")
      then answer (writeError StatusBadRequest "action_request_id, execution_epoch, recovery_epoch, action, risk_class, capability, parameters_digest, idempotency_key and requested_by are required")
      else
      t ← now;
      let? receipt := Service_Execute svc (mkRequest (car_ID req) runID (car_ExecutionEpoch req) recoveryEpoch
          (car_Action req) (car_RiskClass req) (car_Capability req) (car_ParametersDigest req)
          (car_IdempotencyKey req) (car_RequestedBy req) t) orelse writeActionError in
      answer (writeJSON StatusAccepted (PReceipt receipt))
    | None => answer (writeError StatusBadRequest "action_request_id, execution_epoch, recovery_epoch, action, risk_class, capability, parameters_digest, idempotency_key and requested_by are required")
    end)
  end.

Definition getActionForRequest (svc : Service Memory) (operationID : string) : M Memory Operation :=
  for_request (Service_GetContext svc operationID).
Definition handleGetAction (actions : option (Service Memory)) (id : string) : M Memory Response :=
  match actions with
  | None => answer no_gateway
  | Some svc =>
    let? item := getActionForRequest svc id orelse writeActionError in
    answer (writeJSON StatusOK (POperation item))
  end.
Definition handleReconcileAction (actions : option (Service Memory)) (id : string) : M Memory Response :=
  match actions with
  | None => answer no_gateway
  | Some svc =>
    let? receipt := Service_Reconcile svc id orelse writeActionError in
    answer (writeJSON StatusOK (PReceipt receipt))
  end.

(** ** Deliveries and evidence *)

Definition handleCreateDelivery (body : option createDeliveryRequest) : M Memory Response :=
  decodeJSON body (fun req =>
  if decide (cdr_ID req = "" \/ cdr_RunID req = "")
  then answer (writeError StatusBadRequest "delivery_receipt_id and run_id are required")
  else
  let? p := getRunForRequest (cdr_RunID req) orelse writeStoreError in
  if decide (r_State p.1 <> run_Completed)
  then answer (writeError StatusConflict "run must be COMPLETED before creating delivery")
  else
  let? task := getFrozenTaskForRequest (r_TaskContractDigest p.1) orelse writeStoreError in
  if decide (cdr_ResultCommit req = "" /\ cdr_Artifacts req = [])
  then answer (writeError StatusBadRequest "delivery requires result_commit or at least one artifact")
  else if decide (Exists (fun a => ar_ID a = "" \/ ar_Digest a = "") (cdr_Artifacts req))
  then answer (writeError StatusBadRequest "artifact_id and digest are required")
  else
  t ← now;
  let draft d := mkDelivery (cdr_ID req) (tc_WorkItemID task) (r_TaskContractDigest p.1) (r_ID p.1)
    (tc_TargetID task) (tc_BaseCommit task) (cdr_ResultCommit req) d (cdr_Artifacts req) (cdr_KnownLimits req) t in
  let? subject := lift (CalculateSubjectDigest (draft "")) orelse (fun _ => writePublicError StatusInternalServerError) in
  let? _ := createDeliveryForRequest (draft subject) orelse exists_or_internal in
  answer (writeJSON StatusCreated (PDelivery (draft subject)))).

Definition handleGetDelivery (id : string) : M Memory Response :=
  let? item := getDeliveryForRequest id orelse writeStoreError in
  answer (writeJSON StatusOK (PDelivery item)).

Definition bind_evidence (delivery : DeliveryReceipt) (i : EvidenceRef) : EvidenceRef :=
  mkEvidenceRef (ev_ID i) (dr_ID delivery) (ev_RequirementID i) (dr_SubjectDigest delivery) (ev_Issuer i)
    (ev_Procedure i) (ev_Result i) (ev_ArtifactRefs i) (ev_Applicable i).

Definition writeEvidenceError (e : goerr) : Response :=
  if errors_is e ErrExists then writePublicError StatusConflict
  else if errors_is e ErrConflict then writePublicError StatusUnprocessableEntity
  else writeCommitAwareInternalError e.

Definition handleCreateEvidence (body : option createEvidenceRequest) : M Memory Response :=
  decodeJSON body (fun req =>
  let ev := cer_Evidence req in
  if decide (cer_DeliveryReceiptID req = "" \/ ev_ID ev = "" \/ ev_RequirementID ev = "" \/ ev_Issuer ev = ""
             \/ ev_Procedure ev = "" \/ ev_Result ev = "")
  then answer (writeError StatusBadRequest "delivery_receipt_id, evidence_id, requirement_id, issuer, procedure and result are required")
  else
  let? delivery := getDeliveryForRequest (cer_DeliveryReceiptID req) orelse writeStoreError in
  let? task := getFrozenTaskForRequest (dr_TaskContractDigest delivery) orelse writeStoreError in
  let? plan := getVerificationPlanForRequest (tc_VerificationPlanDigest task) orelse writeStoreError in
  match FindRequirement plan (ev_RequirementID ev) with
  | None => answer (writeError StatusUnprocessableEntity
      "evidence requirement_id is not present in the frozen verification plan")
  | Some requirement =>
    if decide (ev_Procedure ev <> rq_Procedure requirement
               \/ (rq_Issuer requirement <> "" /\ ev_Issuer ev <> rq_Issuer requirement))
    then answer (writeError StatusUnprocessableEntity
      "evidence issuer/procedure does not match the frozen verification requirement")
    else
    let item := bind_evidence delivery ev in
    if negb (EvidenceArtifactsBelongToDelivery delivery item)
    then answer (writeError StatusUnprocessableEntity
      "evidence artifact_refs must be unique artifacts from the exact delivery")
    else
    let? _ := registerEvidenceForRequest item orelse writeEvidenceError in
    answer (writeJSON StatusCreated (PEvidence item))
  end).

Definition handleGetEvidence (id : string) : M Memory Response :=
  let? item := getEvidenceForRequest id orelse writeStoreError in
  answer (writeJSON StatusOK (PEvidence item)).

(** ** Verification, review and closure *)

(** The loop over [req.EvidenceIDs]. *)
Fixpoint read_evidence (ids : list string) : M Memory (list EvidenceRef) :=
  match ids with
  | [] => mret []
  | id :: rest => item ← getEvidenceForRequest id; items ← read_evidence rest; mret (item :: items)
  end.

Definition handleCreateVerification (body : option createVerificationRequest) : M Memory Response :=
  decodeJSON body (fun req =>
  if decide (cvr_ReportID req = "" \/ cvr_DeliveryReceiptID req = "" \/ cvr_Verifier req = "")
  then answer (writeError StatusBadRequest "verification_report_id, delivery_receipt_id and verifier are required")
  else
  let? delivery := getDeliveryForRequest (cvr_DeliveryReceiptID req) orelse writeStoreError in
  let? task := getFrozenTaskForRequest (dr_TaskContractDigest delivery) orelse writeStoreError in
  let? plan := getVerificationPlanForRequest (tc_VerificationPlanDigest task) orelse writeStoreError in
  let? items := read_evidence (cvr_EvidenceIDs req) orelse writeStoreError in
  t ← now;
  let report := Evaluate plan (dr_SubjectDigest delivery) items in
  let report := mkReport (cvr_ReportID req) (dr_ID delivery) (vr_PlanID report) (tc_VerificationPlanDigest task)
    (vr_SubjectDigest report) (vr_Result report) (cvr_Verifier req) (vr_Criteria report) (vr_EvidenceIDs report) t in
  let? _ := createVerificationForRequest report orelse exists_or_internal in
  answer (writeJSON (if decide (vr_Result report = "PASS") then StatusCreated else StatusUnprocessableEntity)
    (PVerification report))).

Definition handleGetVerification (id : string) : M Memory Response :=
  let? report := getVerificationForRequest id orelse writeStoreError in
  answer (writeJSON StatusOK (PVerification report)).

Definition handleCreateReview (body : option createReviewRequest) : M Memory Response :=
  decodeJSON body (fun req =>
  if decide (cwr_ReportID req = "" \/ cwr_DeliveryReceiptID req = "" \/ cwr_VerificationReportID req = ""
             \/ cwr_Reviewer req = "" \/ cwr_Result req = "")
  then answer (writeError StatusBadRequest "review_report_id, delivery_receipt_id, verification_report_id, reviewer and result are required")
  else
  let? delivery := getDeliveryForRequest (cwr_DeliveryReceiptID req) orelse writeStoreError in
  let? verified := getVerificationForRequest (cwr_VerificationReportID req) orelse writeStoreError in
  if decide (vr_Result verified <> "PASS" \/ vr_DeliveryReceiptID verified <> dr_ID delivery
             \/ vr_SubjectDigest verified <> dr_SubjectDigest delivery)
  then answer (writeError StatusUnprocessableEntity "review requires PASS verification for the exact delivery subject")
  else
  let? work := getWorkForRequest (dr_WorkItemID delivery) orelse writeStoreError in
  if decide (wi_State work <> WorkVerifying \/ wi_ActiveTaskContractDigest work <> dr_TaskContractDigest delivery
             \/ wi_ActiveRunID work <> dr_RunID delivery)
  then answer (writeError StatusConflict "work is not verifying this delivery subject")
  else if decide (cwr_Reviewer req = vr_Verifier verified \/ cwr_Reviewer req = wi_HumanOwner work)
  then answer (writeError StatusUnprocessableEntity "reviewer must be independent from verifier and work owner")
  else
  t ← now;
  let report := mkReview (cwr_ReportID req) (dr_ID delivery) (vr_ID verified) (dr_TaskContractDigest delivery)
    (dr_SubjectDigest delivery) (cwr_Reviewer req) (cwr_Result req) (cwr_Findings req) (cwr_KnownLimits req) t in
  let? _ := lift (ReviewReport_Validate report) orelse (fun _ => writePublicError StatusUnprocessableEntity) in
  let? nextWork := lift (if decide (rv_Result report = ResultPass) then WorkItem_Transition work WorkReviewing else Ok work)
    orelse (fun _ => writePublicError StatusConflict) in
  let? _ := createReviewForRequest report (wi_Version work) nextWork orelse writeMutationError in
  answer (writeJSON StatusCreated (PReview report))).

Definition handleGetReview (id : string) : M Memory Response :=
  let? report := getReviewForRequest id orelse writeStoreError in
  answer (writeJSON StatusOK (PReview report)).

Definition handleCreateClosure (body : option createClosureRequest) : M Memory Response :=
  decodeJSON body (fun req =>
  if decide (ckr_ID req = "" \/ ckr_DeliveryReceiptID req = "" \/ ckr_VerificationReportID req = ""
             \/ ckr_ReviewReportID req = "")
  then answer (writeError StatusBadRequest "closure_receipt_id, delivery_receipt_id, verification_report_id and review_report_id are required")
  else
  let? delivery := getDeliveryForRequest (ckr_DeliveryReceiptID req) orelse writeStoreError in
  let? report := getVerificationForRequest (ckr_VerificationReportID req) orelse writeStoreError in
  if decide (vr_Result report <> "PASS" \/ vr_DeliveryReceiptID report <> dr_ID delivery
             \/ vr_SubjectDigest report <> dr_SubjectDigest delivery)
  then answer (writeError StatusUnprocessableEntity "closure requires PASS verification for the exact delivery subject")
  else
  let? reviewReport := getReviewForRequest (ckr_ReviewReportID req) orelse writeStoreError in
  if decide (rv_Result reviewReport <> ResultPass \/ rv_DeliveryReceiptID reviewReport <> dr_ID delivery
             \/ rv_VerificationReportID reviewReport <> vr_ID report
             \/ rv_TaskContractDigest reviewReport <> dr_TaskContractDigest delivery
             \/ rv_SubjectDigest reviewReport <> dr_SubjectDigest delivery)
  then answer (writeError StatusUnprocessableEntity "closure requires PASS independent review for the exact verified delivery subject")
  else
  let? p := getRunForRequest (dr_RunID delivery) orelse writeStoreError in
  if decide (r_State p.1 <> run_Completed \/ r_TaskContractDigest p.1 <> dr_TaskContractDigest delivery)
  then answer (writeError StatusConflict "delivery does not match a completed run")
  else
  let? work := getWorkForRequest (dr_WorkItemID delivery) orelse writeStoreError in
  if decide (wi_State work <> WorkReviewing \/ wi_ActiveRunID work <> dr_RunID delivery
             \/ wi_ActiveTaskContractDigest work <> dr_TaskContractDigest delivery)
  then answer (writeError StatusConflict "work is not reviewing this delivery subject")
  else
  let? closed := lift (WorkItem_Transition work WorkClosed) orelse (fun _ => writePublicError StatusConflict) in
  t ← now;
  let closure := mkClosure (ckr_ID req) (dr_WorkItemID delivery) (dr_TaskContractDigest delivery)
    (dr_RunID delivery) (dr_ID delivery) (vr_ID report) (ckr_ReviewReportID req) (dr_SubjectDigest delivery)
    "CLOSED" t in
  let? _ := createClosureForRequest closure (wi_Version work) closed orelse writeMutationError in
  answer (writeJSON StatusCreated (PClosure closure))).

Definition handleGetClosure (id : string) : M Memory Response :=
  let? item := getClosureForRequest id orelse writeStoreError in
  answer (writeJSON StatusOK (PClosure item)).

(** ** The routes *)

(** Every route of [Server.routes], with its decoded body and path value. *)
Inductive call_to :=
| ToHealth | ToCapabilities | ToOperationalStatus | ToOperationalAttention | ToOperationalCapacity
| ToGetRecovery | ToBeginRecovery (body : option N) | ToCompleteRecovery (body : option N)
| ToCreateRecoveryProof (body : option (N * string)) | ToGetRecoveryProof (epoch : option N)
| ToExecutionAbandon (body : option ExecutionAbandonRequest)
| ToAbandonPlanned (body : option ActionPlannedAbandonRequest) | ToGetAbandonPlanned (id : string)
| ToConfirmPublication (body : option PublicationRecoveryRequest) | ToGetPublication (id : string)
| ToAbandonUninvoked (body : option PublicationRecoveryRequest) | ToGetUninvoked (id : string)
| ToCreateWork (body : option WorkItem) | ToGetWork (id : string)
| ToCreateTask (body : option createTaskRequest) | ToGetTask (id : string)
| ToGetFrozenTask (digest : string) | ToGetFrozenPlan (digest : string)
| ToCreateRun (body : option createRunRequest) | ToGetRun (id : string)
| ToPause (id : string) (body : option N) | ToResume (id : string) (body : option N)
| ToTakeover (id : string) (body : option N) | ToCompleteRun (id : string) (body : option N)
| ToSteer (id : string) (body : option Control.ControlInput) | ToInterrupt (id : string) (body : option Control.ControlInput)
| ToControlDelivery (id : string) | ToGetSteering (id : string)
| ToCreateCheckpoint (id : string) (body : option createCheckpointRequest) | ToGetCheckpoint (id : string)
| ToCreateAction (id : string) (body : option createActionRequest) | ToGetAction (id : string)
| ToReconcileAction (id : string)
| ToCreateDelivery (body : option createDeliveryRequest) | ToGetDelivery (id : string)
| ToCreateEvidence (body : option createEvidenceRequest) | ToGetEvidence (id : string)
| ToCreateVerification (body : option createVerificationRequest) | ToGetVerification (id : string)
| ToCreateReview (body : option createReviewRequest) | ToGetReview (id : string)
| ToCreateClosure (body : option createClosureRequest) | ToGetClosure (id : string).

(** [who] is the caller whom [NewAuthenticatedHandler] put in the context of the request. *)
Definition routes (who : option Access.Identity) (actions : option (Service Memory)) (c : call_to) : M Memory Response :=
  match c with
  | ToHealth => handleHealth
  | ToCapabilities => handleCapabilities
  | ToOperationalStatus => handleOperationalStatus
  | ToOperationalAttention => handleOperationalAttention who
  | ToOperationalCapacity => handleOperationalCapacity who
  | ToGetRecovery => handleGetRecovery
  | ToBeginRecovery body => handleBeginRecovery body
  | ToCompleteRecovery body => handleCompleteRecovery body
  | ToCreateRecoveryProof body => handleCreateRecoveryProof body
  | ToGetRecoveryProof epoch => handleGetRecoveryProof epoch
  | ToExecutionAbandon body => handleExecutionAbandon who body
  | ToAbandonPlanned body => handleAbandonPlannedAction who body
  | ToGetAbandonPlanned id => handleGetAbandonedPlannedAction who id
  | ToConfirmPublication body => handleConfirmRecoveredPublication who body
  | ToGetPublication id => handleGetRecoveredPublication who id
  | ToAbandonUninvoked body => handleAbandonUninvokedPublication who body
  | ToGetUninvoked id => handleGetUninvokedPublication who id
  | ToCreateWork body => handleCreateWork body
  | ToGetWork id => handleGetWork id
  | ToCreateTask body => handleCreateTask body
  | ToGetTask id => handleGetTask id
  | ToGetFrozenTask digest => handleGetFrozenTaskByDigest digest
  | ToGetFrozenPlan digest => handleGetFrozenVerificationPlanByDigest digest
  | ToCreateRun body => handleCreateRun body
  | ToGetRun id => handleGetRun id
  | ToPause id body => handlePause id body
  | ToResume id body => handleResume id body
  | ToTakeover id body => handleTakeover id body
  | ToCompleteRun id body => handleCompleteRun id body
  | ToSteer id body => handleSteer who id body
  | ToInterrupt id body => handleInterrupt who id body
  | ToControlDelivery id => handleControlDelivery who id
  | ToGetSteering id => handleGetSteering id
  | ToCreateCheckpoint id body => handleCreateCheckpoint id body
  | ToGetCheckpoint id => handleGetCheckpoint id
  | ToCreateAction id body => handleCreateAction actions id body
  | ToGetAction id => handleGetAction actions id
  | ToReconcileAction id => handleReconcileAction actions id
  | ToCreateDelivery body => handleCreateDelivery body
  | ToGetDelivery id => handleGetDelivery id
  | ToCreateEvidence body => handleCreateEvidence body
  | ToGetEvidence id => handleGetEvidence id
  | ToCreateVerification body => handleCreateVerification body
  | ToGetVerification id => handleGetVerification id
  | ToCreateReview body => handleCreateReview body
  | ToGetReview id => handleGetReview id
  | ToCreateClosure body => handleCreateClosure body
  | ToGetClosure id => handleGetClosure id
  end.

End handlers.
