(* ===== verification/Gate.v ===== *)
(** [internal/api/authenticated.go]: the authenticated handler around the
    routes.

    Every request but the health check needs a verified client identity, the
    capability its route is registered with, and a strict JSON body that names
    nobody else than the caller.  A request that is not admitted writes
    nothing; an admitted one is exactly the handler of its route. *)
From S2P Require Import Prelude Effects Canonical Json StrictJson Core Run Session Recovery Verification Review Material Routing Embedded Action Store Gateway Access Api.
From S2P Require Control.

(** ** The route tables *)

Definition route_health : string := "GET /healthz".

Definition routeCapabilities : list (string * string) := [
  ("POST /api/v1/recovery/actions/abandon-uninvoked", cap_RecoveryReconcile);
  ("GET /api/v1/recovery/actions/{id}/uninvoked", cap_Read);
  ("POST /api/v1/recovery/actions/confirm-publication", cap_RecoveryReconcile);
  ("GET /api/v1/recovery/actions/{id}/publication", cap_Read);
  ("GET /api/v1/capabilities", cap_Read);
  ("GET /api/v1/recovery", cap_Read);
  ("GET /api/v1/operations/status", cap_Read);
  ("GET /api/v1/operations/attention", cap_Read);
  ("GET /api/v1/operations/capacity", cap_Read);
  ("POST /api/v1/recovery/begin", cap_RecoveryBegin);
  ("POST /api/v1/recovery/complete", cap_RecoveryComplete);
  ("POST /api/v1/recovery/proofs", cap_RecoveryReconcile);
  ("GET /api/v1/recovery/proofs/{epoch}", cap_Read);
  ("POST /api/v1/recovery/executions/abandon", cap_RecoveryReconcile);
  ("POST /api/v1/recovery/actions/abandon-planned", cap_RecoveryReconcile);
  ("GET /api/v1/recovery/actions/{id}/abandon-planned", cap_Read);
  ("POST /api/v1/work-items", cap_WorkCreate);
  ("GET /api/v1/work-items/{id}", cap_Read);
  ("POST /api/v1/task-contracts", cap_TaskCreate);
  ("GET /api/v1/task-contracts/{id}", cap_Read);
  ("GET /api/v1/task-contracts/by-digest/{digest}", cap_Read);
  ("GET /api/v1/verification-plans/by-digest/{digest}", cap_Read);
  ("POST /api/v1/runs", cap_RunStart);
  ("GET /api/v1/runs/{id}", cap_Read);
  ("POST /api/v1/runs/{id}/steer", cap_RunControl);
  ("POST /api/v1/runs/{id}/interrupt", cap_RunControl);
  ("GET /api/v1/steering/{id}/delivery", cap_Read);
  ("GET /api/v1/steering/{id}", cap_Read);
  ("POST /api/v1/runs/{id}/pause", cap_RunControl);
  ("POST /api/v1/runs/{id}/resume", cap_RunControl);
  ("POST /api/v1/runs/{id}/takeover", cap_RunControl);
  ("POST /api/v1/runs/{id}/complete", cap_RunComplete);
  ("POST /api/v1/runs/{id}/checkpoints", cap_CheckpointCreate);
  ("GET /api/v1/checkpoints/{id}", cap_Read);
  ("POST /api/v1/runs/{id}/actions", cap_ActionExecute);
  ("GET /api/v1/actions/{id}", cap_Read);
  ("POST /api/v1/actions/{id}/reconcile", cap_ActionReconcile);
  ("POST /api/v1/deliveries", cap_DeliveryCreate);
  ("GET /api/v1/deliveries/{id}", cap_Read);
  ("POST /api/v1/evidence", cap_EvidenceRegister);
  ("GET /api/v1/evidence/{id}", cap_Read);
  ("POST /api/v1/verifications", cap_VerificationCreate);
  ("GET /api/v1/verifications/{id}", cap_Read);
  ("POST /api/v1/reviews", cap_ReviewCreate);
  ("GET /api/v1/reviews/{id}", cap_Read);
  ("POST /api/v1/closures", cap_ClosureCreate);
  ("GET /api/v1/closures/{id}", cap_Read)].

Definition workerRouteCapabilities : list (string * string) := [
  ("POST /api/v1/runs/{id}/continue", cap_RunStart);
  ("GET /api/v1/runs/{id}/continuation", cap_Read);
  ("POST /api/v1/worker/codex/source-checkpoint", cap_ActionExecute);
  ("POST /api/v1/worker/codex/controls/bind", cap_ActionExecute);
  ("POST /api/v1/worker/codex/controls/claim", cap_ActionExecute);
  ("POST /api/v1/worker/codex/controls/report", cap_ActionExecute);
  ("POST /api/v1/worker/codex/controls/close", cap_ActionExecute);
  ("POST /api/v1/worker/codex/start", cap_ActionExecute);
  ("POST /api/v1/worker/codex/renew", cap_ActionExecute);
  ("POST /api/v1/worker/codex/report", cap_ActionExecute);
  ("POST /api/v1/worker/codex/fail", cap_ActionExecute);
  ("GET /api/v1/runs/{id}/codex", cap_Read);
  ("POST /api/v1/worker/offline/start", cap_ActionExecute);
  ("POST /api/v1/worker/offline/renew", cap_ActionExecute);
  ("POST /api/v1/worker/offline/report", cap_ActionExecute);
  ("POST /api/v1/worker/offline/fail", cap_ActionExecute);
  ("GET /api/v1/runs/{id}/offline", cap_Read);
  ("POST /api/v1/worker/prepare-claim", cap_WorkerPrepare);
  ("POST /api/v1/worker/prepared", cap_WorkerPrepare);
  ("GET /api/v1/runs/{id}/preparation", cap_Read);
  ("POST /api/v1/worker/claim", cap_WorkerPoll);
  ("POST /api/v1/worker/renew", cap_WorkerPoll);
  ("POST /api/v1/worker/report", cap_WorkerReport);
  ("GET /api/v1/runs/{id}/inbox", cap_Read)].

Fixpoint find_capability (pattern : string) (l : list (string * string)) : option string :=
  match l with
  | [] => None
  | (k, v) :: r => if decide (k = pattern) then Some v else find_capability pattern r
  end.
Definition capability_of (pattern : string) : option string :=
  match find_capability pattern routeCapabilities with
  | Some c => Some c
  | None => find_capability pattern workerRouteCapabilities
  end.

(** The pattern [ServeMux] selects for a call of [routes]. *)
Definition pattern_of (c : call_to) : string :=
  match c with
  | ToHealth => route_health
  | ToCapabilities => "GET /api/v1/capabilities"
  | ToOperationalStatus => "GET /api/v1/operations/status"
  | ToOperationalAttention => "GET /api/v1/operations/attention"
  | ToOperationalCapacity => "GET /api/v1/operations/capacity"
  | ToGetRecovery => "GET /api/v1/recovery"
  | ToBeginRecovery _ => "POST /api/v1/recovery/begin"
  | ToCompleteRecovery _ => "POST /api/v1/recovery/complete"
  | ToCreateRecoveryProof _ => "POST /api/v1/recovery/proofs"
  | ToGetRecoveryProof _ => "GET /api/v1/recovery/proofs/{epoch}"
  | ToExecutionAbandon _ => "POST /api/v1/recovery/executions/abandon"
  | ToAbandonPlanned _ => "POST /api/v1/recovery/actions/abandon-planned"
  | ToGetAbandonPlanned _ => "GET /api/v1/recovery/actions/{id}/abandon-planned"
  | ToConfirmPublication _ => "POST /api/v1/recovery/actions/confirm-publication"
  | ToGetPublication _ => "GET /api/v1/recovery/actions/{id}/publication"
  | ToAbandonUninvoked _ => "POST /api/v1/recovery/actions/abandon-uninvoked"
  | ToGetUninvoked _ => "GET /api/v1/recovery/actions/{id}/uninvoked"
  | ToCreateWork _ => "POST /api/v1/work-items"
  | ToGetWork _ => "GET /api/v1/work-items/{id}"
  | ToCreateTask _ => "POST /api/v1/task-contracts"
  | ToGetTask _ => "GET /api/v1/task-contracts/{id}"
  | ToGetFrozenTask _ => "GET /api/v1/task-contracts/by-digest/{digest}"
  | ToGetFrozenPlan _ => "GET /api/v1/verification-plans/by-digest/{digest}"
  | ToCreateRun _ => "POST /api/v1/runs"
  | ToGetRun _ => "GET /api/v1/runs/{id}"
  | ToPause _ _ => "POST /api/v1/runs/{id}/pause"
  | ToResume _ _ => "POST /api/v1/runs/{id}/resume"
  | ToTakeover _ _ => "POST /api/v1/runs/{id}/takeover"
  | ToCompleteRun _ _ => "POST /api/v1/runs/{id}/complete"
  | ToSteer _ _ => "POST /api/v1/runs/{id}/steer"
  | ToInterrupt _ _ => "POST /api/v1/runs/{id}/interrupt"
  | ToControlDelivery _ => "GET /api/v1/steering/{id}/delivery"
  | ToGetSteering _ => "GET /api/v1/steering/{id}"
  | ToCreateCheckpoint _ _ => "POST /api/v1/runs/{id}/checkpoints"
  | ToGetCheckpoint _ => "GET /api/v1/checkpoints/{id}"
  | ToCreateAction _ _ => "POST /api/v1/runs/{id}/actions"
  | ToGetAction _ => "GET /api/v1/actions/{id}"
  | ToReconcileAction _ => "POST /api/v1/actions/{id}/reconcile"
  | ToCreateDelivery _ => "POST /api/v1/deliveries"
  | ToGetDelivery _ => "GET /api/v1/deliveries/{id}"
  | ToCreateEvidence _ => "POST /api/v1/evidence"
  | ToGetEvidence _ => "GET /api/v1/evidence/{id}"
  | ToCreateVerification _ => "POST /api/v1/verifications"
  | ToGetVerification _ => "GET /api/v1/verifications/{id}"
  | ToCreateReview _ => "POST /api/v1/reviews"
  | ToGetReview _ => "GET /api/v1/reviews/{id}"
  | ToCreateClosure _ => "POST /api/v1/closures"
  | ToGetClosure _ => "GET /api/v1/closures/{id}"
  end.

(** ** authorizeBody *)

Definition StatusUnauthorized : N := 401.
Definition StatusUnsupportedMediaType : N := 415.
Definition StatusText (status : N) : string :=
  if decide (status = StatusBadRequest) then "Bad Request"
  else if decide (status = StatusForbidden) then "Forbidden"
  else if decide (status = StatusServiceUnavailable) then "Service Unavailable" else "".

Definition only_if (ok : bool) : N := if ok then 0%N else StatusForbidden.
Definition well_formed (valid : outcome unit) : N := if is_ok valid then 0%N else StatusBadRequest.

(** The checks on the body of a call; [0] lets it pass.  The recovery gate is
    an outside authority, asked for the caller's subject and the epoch. *)
Definition authorizeBody {St} (completion : option (string -> N -> nat -> outcome unit)) (id : Identity)
    (c : call_to) : M St N :=
  match c with
  | ToCreateWork body => mret match body with
      | None => StatusBadRequest
      | Some w => only_if (bool_decide (wi_HumanOwner w = id_subject id)) end
  | ToCreateTask body => mret match body with
      | None => StatusBadRequest
      | Some req =>
        let m := ctr_Material req in
        only_if (negb (bool_decide (mm_DegradationApprovedBy m <> "")
                       && (negb (Allows id cap_MaterialDegrade)
                           || bool_decide (mm_DegradationApprovedBy m <> id_subject id)
                           || negb (NonBlank (mm_DegradationReason m))))) end
  | ToSteer _ body | ToInterrupt _ body => mret match body with
      | None => StatusBadRequest
      | Some input => only_if (bool_decide (Control.ci_Actor input = id_subject id)) end
  | ToCreateAction _ body => mret match body with
      | None => StatusBadRequest
      | Some req => only_if (bool_decide (car_RequestedBy req = id_subject id)
                             && AllowsAction id (car_Action req) (car_RiskClass req) (car_Capability req)) end
  | ToCreateEvidence body => mret match body with
      | None => StatusBadRequest
      | Some req => only_if (AllowsEvidence id (ev_Issuer (cer_Evidence req)) (ev_Procedure (cer_Evidence req))) end
  | ToCreateVerification body => mret match body with
      | None => StatusBadRequest
      | Some req => only_if (bool_decide (cvr_Verifier req = id_subject id)) end
  | ToCreateReview body => mret match body with
      | None => StatusBadRequest
      | Some req => only_if (bool_decide (cwr_Reviewer req = id_subject id)) end
  | ToConfirmPublication body => mret match body with
      | None => StatusBadRequest
      | Some req => well_formed (PublicationRecoveryRequest_Validate req) end
  | ToAbandonPlanned body => mret match body with
      | None => StatusBadRequest
      | Some req => well_formed (ActionPlannedAbandonRequest_Validate req) end
  | ToExecutionAbandon body => mret match body with
      | None => StatusBadRequest
      | Some req => well_formed (ExecutionAbandonRequest_Validate req) end
  | ToCreateRecoveryProof body => mret match body with
      | None => StatusBadRequest
      | Some (epoch, reconciler) =>
        if decide (epoch = 0%N \/ reconciler = "") then StatusBadRequest
        else only_if (bool_decide (reconciler = id_subject id)) end
  | ToCompleteRecovery body =>
      match body with
      | None => mret StatusBadRequest
      | Some epoch =>
        if decide (epoch = 0%N) then mret StatusBadRequest else
        match completion with
        | None => mret StatusServiceUnavailable
        | Some authorize => r ← observe (consult (authorize (id_subject id) epoch)); mret (only_if (is_ok r))
        end
      end
  | _ => mret 0%N
  end.

(** ** NewAuthenticatedHandler *)

(** A request as it reaches the handler: its TLS state, the pattern the mux
    selects, its headers and body, and what the bytes decode to for the route
    (the typed decoder is a parameter, the same for the check and the handler). *)
Record Incoming (C : Type) := mkIncoming {
  rq_TLS : option ConnectionState; rq_Pattern : string;
  rq_MediaType : outcome string; rq_ContentEncoding : string;
  rq_Body : option (string * option goerr); rq_Decode : string -> C
}.
Arguments mkIncoming {_} _ _ _ _ _ _.
Arguments rq_TLS {_} _.
Arguments rq_Pattern {_} _.
Arguments rq_MediaType {_} _.
Arguments rq_ContentEncoding {_} _.
Arguments rq_Body {_} _.
Arguments rq_Decode {_} _ _.

Definition is_post (pattern : string) : bool := str_prefix "POST " pattern.

Definition json_media (mediaType : outcome string) (encoding : string) : bool :=
  match mediaType with
  | Ok m => bool_decide (m = "application/json") && bool_decide (encoding = "")
  | Err _ => false
  end.

Section gate.
Context {St C : Type} (policy : Policy) (authorize : Identity -> C -> M St N)
  (handle : Identity -> C -> M St Response) (health : M St Response).

Definition authenticated (rq : Incoming C) : M St Response :=
  if decide (rq_Pattern rq = route_health) then health else
  t ← now;
  match Authenticate (Some policy) (rq_TLS rq) t with
  | Err _ => answer (writeError StatusUnauthorized "verified client identity required")
  | Ok identity =>
    match capability_of (rq_Pattern rq) with
    | None => answer (writeError StatusForbidden "capability denied")
    | Some capability =>
      if negb (Allows identity capability) then answer (writeError StatusForbidden "capability denied")
      else if is_post (rq_Pattern rq) then
        if negb (json_media (rq_MediaType rq) (rq_ContentEncoding rq))
        then answer (writeError StatusUnsupportedMediaType "unencoded application/json required") else
        match rq_Body rq with
        | None => answer (writeError StatusBadRequest "JSON body required")
        | Some (stream, fault) =>
          match ReadObject stream fault with
          | Err _ => answer (writeError StatusBadRequest "invalid, ambiguous or oversized JSON")
          | Ok data =>
            status ← authorize identity (rq_Decode rq data);
            if decide (status <> 0%N) then answer (writeError status (StatusText status))
            else handle identity (rq_Decode rq data)
          end
        end
      else handle identity (rq_Decode rq "")
    end
  end.

(** What lets a request in. *)
Record admitted (rq : Incoming C) (t : time) (id : Identity) (data : string) : Prop := {
  ad_identity : Authenticate (Some policy) (rq_TLS rq) t = Ok id;
  ad_capability : exists cap, capability_of (rq_Pattern rq) = Some cap /\ cap ∈ id_capabilities id;
  ad_body : if is_post (rq_Pattern rq) then ValidateObject data = Ok tt else data = ""
}.

(** The refusals of the gate itself. *)
Definition refusal (r : outcome Response) : Prop :=
  exists status message, r = Ok (writeError status message)
  /\ (status = StatusUnauthorized \/ status = StatusForbidden \/ status = StatusUnsupportedMediaType
      \/ status = StatusBadRequest \/ status = StatusServiceUnavailable).

Definition refusing (status : N) : Prop :=
  status = 0%N \/ status = StatusForbidden \/ status = StatusBadRequest \/ status = StatusServiceUnavailable.

Lemma authenticated_cases rq (e : Env St) w :
  rq_Pattern rq <> route_health -> (forall id c, Silent (authorize id c)) ->
  (forall id c e w, exists status, (authorize id c e w).1 = Ok status /\ refusing status) ->
  let '(r, w') := authenticated rq e w in
  (refusal r /\ elapsed e w w')
  \/ exists id data w1, admitted rq (env_now e (w_tick w)) id data /\ elapsed e w w1
     /\ (is_post (rq_Pattern rq) = true -> exists w0, (authorize id (rq_Decode rq data) e w0).1 = Ok 0%N)
     /\ handle id (rq_Decode rq data) e w1 = (r, w').
Proof.
  intros Hh Hs Ha. destruct (authenticated rq e w) as [r w'] eqn:Hrun. unfold authenticated in Hrun.
  rewrite decide_False in Hrun by done. unfold mbind at 1, M_bind at 1, now in Hrun.
  set (w0 := mkWorld (Nat.succ (w_tick w)) _ _ _) in Hrun.
  assert (elapsed e w w0) as Hw by apply (silent_now e w).
  assert (forall status msg, status = StatusUnauthorized \/ status = StatusForbidden
    \/ status = StatusUnsupportedMediaType \/ status = StatusBadRequest \/ status = StatusServiceUnavailable ->
    answer (writeError status msg) e w0 = (r, w') -> refusal r /\ elapsed e w w') as Hrefuse.
  { intros status msg Hst [= <- <-]. split; [|done]. exists status, msg. done. }
  destruct (Authenticate (Some policy) (rq_TLS rq) (env_now e (w_tick w))) as [id|x] eqn:Hid;
    [|left; eapply Hrefuse; [|exact Hrun]; auto].
  destruct (capability_of (rq_Pattern rq)) as [cap|] eqn:Hcap; [|left; eapply Hrefuse; [|exact Hrun]; auto].
  destruct (Allows id cap) eqn:Hal; simpl in Hrun; [|left; eapply Hrefuse; [|exact Hrun]; auto].
  apply Allows_in in Hal. destruct (is_post (rq_Pattern rq)) eqn:Hpost.
  2: { right. exists id, "", w0. split; [constructor; [done | eauto | by rewrite Hpost]|]. done. }
  destruct (json_media _ _); simpl in Hrun; [|left; eapply Hrefuse; [|exact Hrun]; auto].
  destruct (rq_Body rq) as [[stream fault]|]; [|left; eapply Hrefuse; [|exact Hrun]; auto].
  destruct (ReadObject stream fault) as [data|x] eqn:Hread; [|left; eapply Hrefuse; [|exact Hrun]; auto].
  assert (ValidateObject data = Ok tt) as Hv.
  { unfold ReadObject in Hread. destruct fault; [done|]. apply bind_ok in Hread as ([] & ? & [= <-]). done. }
  destruct (Ha id (rq_Decode rq data) e w0) as (status & Hst & Hst').
  pose proof (Hs id (rq_Decode rq data) e w0) as Hw1. unfold mbind, M_bind in Hrun.
  destruct (authorize id (rq_Decode rq data) e w0) as [res w1] eqn:Haut. simpl in Hst, Hw1. subst res.
  assert (elapsed e w w1) as Hw2 by (eapply elapsed_trans; [exact Hw | exact Hw1]).
  case_decide as Hz.
  - left. injection Hrun as <- <-. split; [|done]. exists status, (StatusText status). split; [done|].
    destruct Hst' as [|[|[|]]]; [done|auto..].
  - subst status. right. exists id, data, w1. split; [constructor; [done | eauto | by rewrite Hpost]|].
    split; [done|]. split; [|done]. intros _. exists w0. by rewrite Haut.
Qed.

End gate.

(** ** The Core routes behind the gate *)

Section core.
Context `{Hash} (policy : Policy) (completion : option (string -> N -> nat -> outcome unit))
  (actions : option (Service Memory)).

Definition NewAuthenticatedHandler (rq : Incoming call_to) : M Memory Response :=
  authenticated policy (authorizeBody completion) (fun id c => routes (Some id) actions c) handleHealth rq.

(** Whoever a body names is the caller; and what a reconciler settles is named exactly. *)
Definition bound (id : Identity) (c : call_to) : Prop :=
  match c with
  | ToCreateWork body => exists w, body = Some w /\ wi_HumanOwner w = id_subject id
  | ToCreateTask body => exists req, body = Some req /\
      (mm_DegradationApprovedBy (ctr_Material req) <> "" ->
       mm_DegradationApprovedBy (ctr_Material req) = id_subject id /\ cap_MaterialDegrade ∈ id_capabilities id
       /\ trim_space (mm_DegradationReason (ctr_Material req)) <> "")
  | ToCreateAction _ body => exists req grant, body = Some req /\ car_RequestedBy req = id_subject id
      /\ id_actions id !! car_Action req = Some grant
      /\ ag_RiskClass grant = car_RiskClass req /\ ag_Capability grant = car_Capability req
  | ToCreateEvidence body => exists req, body = Some req /\ ev_Issuer (cer_Evidence req) = id_issuer id
      /\ ev_Procedure (cer_Evidence req) ∈ id_procedures id
  | ToCreateVerification body => exists req, body = Some req /\ cvr_Verifier req = id_subject id
  | ToCreateReview body => exists req, body = Some req /\ cwr_Reviewer req = id_subject id
  | ToSteer _ body | ToInterrupt _ body => exists input, body = Some input /\ Control.ci_Actor input = id_subject id
  | ToConfirmPublication body => exists req, body = Some req /\ PublicationRecoveryRequest_Validate req = Ok tt
  | ToAbandonPlanned body => exists req, body = Some req /\ ActionPlannedAbandonRequest_Validate req = Ok tt
  | ToExecutionAbandon body => exists req, body = Some req /\ ExecutionAbandonRequest_Validate req = Ok tt
  | ToCreateRecoveryProof body => exists epoch reconciler, body = Some (epoch, reconciler) /\ reconciler = id_subject id
  | ToCompleteRecovery body => exists epoch authorize k, body = Some epoch /\ epoch <> 0%N
      /\ completion = Some authorize /\ is_ok (authorize (id_subject id) epoch k) = true
  | _ => True
  end.

Lemma only_if_status b : refusing (only_if b).
Proof. destruct b; [by left | right; by left]. Qed.
Lemma only_if_zero b : only_if b = 0%N -> b = true.
Proof. by destruct b. Qed.
Lemma well_formed_status v : refusing (well_formed v).
Proof. unfold well_formed. destruct (is_ok v); [by left | right; right; by left]. Qed.
Lemma well_formed_zero v : well_formed v = 0%N -> v = Ok tt.
Proof. unfold well_formed. by destruct v as [[]|]. Qed.

#[local] Instance authorizeBody_silent id c : Silent (authorizeBody (St := Memory) completion id c).
Proof. unfold authorizeBody. repeat (apply _ || case_match). Qed.

Lemma authorizeBody_status id c (e : Env Memory) w :
  exists status, (authorizeBody completion id c e w).1 = Ok status /\ refusing status.
Proof.
  assert (refusing 0%N /\ refusing StatusBadRequest /\ refusing StatusServiceUnavailable) as (? & ? & ?)
    by (unfold refusing; auto 10).
  unfold authorizeBody. destruct c; try (eexists; split; [reflexivity|]);
    repeat (case_match; subst); auto using only_if_status, well_formed_status; eexists; (split; [reflexivity|]);
    auto using only_if_status, well_formed_status.
Qed.

Lemma authorizeBody_bound id c (e : Env Memory) w : (authorizeBody completion id c e w).1 = Ok 0%N -> bound id c.
Proof.
  unfold authorizeBody, bound. intros Ha. destruct c; try done.
  all: repeat (case_match; subst); try discriminate.
  all: try (injection Ha as Ha; first [apply only_if_zero in Ha | apply well_formed_zero in Ha]).
  all: try (apply andb_true_iff in Ha as [Ha Ha']).
  all: try (apply bool_decide_eq_true in Ha); eauto 10.
  - exists c. split; [done|]. intros Hby. rewrite bool_decide_true in Ha by done. cbn [andb] in Ha.
    rewrite negb_true_iff, !orb_false_iff, !negb_false_iff, Allows_in, bool_decide_eq_false in Ha.
    destruct Ha as ((Hcap & Hid) & Hr).
    apply dec_stable in Hid. unfold NonBlank in Hr. by apply bool_decide_eq_true in Hr.
  - unfold AllowsAction in Ha'. destruct (id_actions id !! car_Action c) as [grant|] eqn:Hg; [|done].
    apply andb_true_iff in Ha' as [_ [? ?]%bool_decide_eq_true]. exists c, grant. done.
  - apply andb_true_iff in Ha as [_ Ha]. apply bool_decide_eq_true in Ha, Ha'. by exists c.
Qed.

(** ** What a capability reaches *)

(** The routes that only read. *)
Definition is_read (c : call_to) : Prop := is_post (pattern_of c) = false.




(** C7: The authenticated server either refuses a request itself, with a fixed
    answer and without a write or an effect, or the request is exactly the
    handler of its route, served to a caller that a TLS client certificate
    identifies at this moment, that holds the capability registered for the
    route, whose body is one unambiguous JSON object, and who is the very
    owner, requester, verifier, reviewer or reconciler the body names. *)
Theorem gate_admits rq (e : Env Memory) w : rq_Pattern rq <> route_health ->
  (forall data, pattern_of (rq_Decode rq data) = rq_Pattern rq) ->
  let '(r, w') := NewAuthenticatedHandler rq e w in
  (refusal r /\ w_log w' = w_log w /\ w_commits w' = w_commits w)
  \/ exists id data w1, admitted policy rq (env_now e (w_tick w)) id data
     /\ bound id (rq_Decode rq data)
     /\ w_log w1 = w_log w /\ w_commits w1 = w_commits w
     /\ routes (Some id) actions (rq_Decode rq data) e w1 = (r, w').
Proof.
  intros Hh Hp.
  pose proof (authenticated_cases policy (authorizeBody completion) (fun id c => routes (Some id) actions c) handleHealth rq e w
    Hh authorizeBody_silent authorizeBody_status) as Hc.
  unfold NewAuthenticatedHandler. destruct (authenticated _ _ _ _ rq e w) as [r w'].
  destruct Hc as [[Hr [? ? _]] | (id & data & w1 & Had & [? ? _] & Hpost & Hrun)]; [left; done | right].
  exists id, data, w1. split; [done|]. split; [|done].
  destruct (is_post (rq_Pattern rq)) eqn:Hpst.
  - destruct (Hpost eq_refl) as (w0 & Hz). by eapply authorizeBody_bound.
  - rewrite <- (Hp data) in Hpst. by destruct (rq_Decode rq data).
Qed.




End core.

(** ** Witnesses *)

Definition alice_review : createReviewRequest := mkCreateReview "R-1" "D-1" "V-1" alice "PASS" [] [].
Definition review_request : Incoming call_to :=
  mkIncoming (Some alice_tls) "POST /api/v1/reviews" (Ok "application/json") "" (Some (marshal (JObj [("n", JNum 1)]), None))
    (fun _ => ToCreateReview (Some alice_review)).


Lemma gate_admits_witness : exists r,
  NewAuthenticatedHandler sample_policy None None review_request (quiet_env (fun _ => 7%Z)) (start NewMemory) = r
  /\ (refusal r.1 \/ exists id, sample_policy !! id_subject id = Some id /\ cap_ReviewCreate ∈ id_capabilities id).
Proof.
  eexists. split; [reflexivity|].
  pose proof (gate_admits sample_policy None None review_request (quiet_env (fun _ => 7%Z)) (start NewMemory)) as Hg.
  destruct (NewAuthenticatedHandler _ _ _ _ _ _) as [r w].
  destruct Hg as [[Hr _] | (id & data & w1 & [Hid (cap & Hcap & Hin) _] & _)]; [discriminate | done | by left | right].
  exists id. injection Hcap as <-. split; [|done].
  destruct (authenticate_entry _ _ _ _ Hid) as (uri & Hu).
  destruct (policy_entries (mkDocument 1 [reviewer_spec]) sample_policy ltac:(vm_compute; reflexivity) uri id Hu) as (Hs & _).
  by rewrite Hs.
Defined.

