(* ===== verification/Server.v ===== *)
(** The request handlers refine the lifecycle.

    [Api.v] has the handlers as the code has them: they read records, decide,
    and write with an expected version, while other requests run.  Here every
    handler is shown to answer, to write at most once, and to write only what
    a rule of [Lifecycle.step] writes; so a server whose requests interleave in
    any order moves through reachable states, and what [Authority.v] proves of
    those holds of it. *)
From S2P Require Import Prelude Effects Canonical Core Run Session Recovery Verification Review Material Routing Embedded Action Store Lifecycle Demo Authority Gateway Api.

(** ** What a handler leaves behind *)

Definition acknowledges (rs : Response) : bool :=
  match rs_Body rs with PError _ | PBlocked _ => false | _ => true end.

(** Everything an error answer can say: no diagnostic of the store, of a
    provider or of the request is ever echoed. *)
Definition public_messages : list string := [
  "commit_outcome_unknown: read back the exact resource ID, epoch, idempotency key and audit record before considering any retry";
  "internal Core authority operation failed";
  "external_effect_unresolved: read back the exact original Action operation ID, idempotency key, Run/Recovery epochs, receipt and audit before any retry";
  "invalid JSON object";
  "recovery_epoch is required";
  "recovery_epoch and reconciler are required";
  "durable recovery proof store is not configured";
  "valid recovery epoch required";
  "operational status is unavailable";
  "read capability required";
  "identified Core capacity source unavailable";
  "recovery reconciliation denied";
  "invalid exact execution reconciliation request";
  "execution reconciliation store unavailable";
  "Recovery reconciliation denied";
  "invalid exact planned Action reconciliation request";
  "durable planned Action reconciliation unavailable";
  "read permission required";
  "durable Action readback unavailable";
  "authenticated RunControl required";
  "control actor mismatch";
  "exact live turn and bounded control input required";
  "live control delivery unavailable";
  "read denied";
  "work_item_id, title and human_owner are required";
  "target_context target_id must match material target_id";
  "selected Skill contract catalog is invalid";
  "verification plan must cover every acceptance criterion with at least one evidence requirement";
  "task_contract_id, work_item_id and task_type are required";
  "task contract revisions are only accepted while work is DRAFT or READY";
  "source continuation requires the authorized continuation endpoint";
  "run_id, task_contract_digest and attempt_id are required";
  "runtime_profile, tool_profile, worker_profile and policy_profile are required";
  "work must be READY before starting a run";
  "run must use the current active task contract revision";
  "work is not executing this run/task subject";
  "checkpoint_id, execution_epoch and source_tree_digest are required";
  "session execution epoch does not match run";
  "action gateway provider is not configured";
  "action_request_id, execution_epoch, recovery_epoch, action, risk_class, capability, parameters_digest, idempotency_key and requested_by are required";
  "delivery_receipt_id and run_id are required";
  "run must be COMPLETED before creating delivery";
  "delivery requires result_commit or at least one artifact";
  "artifact_id and digest are required";
  "delivery_receipt_id, evidence_id, requirement_id, issuer, procedure and result are required";
  "evidence requirement_id is not present in the frozen verification plan";
  "evidence issuer/procedure does not match the frozen verification requirement";
  "evidence artifact_refs must be unique artifacts from the exact delivery";
  "verification_report_id, delivery_receipt_id and verifier are required";
  "review_report_id, delivery_receipt_id, verification_report_id, reviewer and result are required";
  "review requires PASS verification for the exact delivery subject";
  "work is not verifying this delivery subject";
  "reviewer must be independent from verifier and work owner";
  "closure_receipt_id, delivery_receipt_id, verification_report_id and review_report_id are required";
  "closure requires PASS verification for the exact delivery subject";
  "closure requires PASS independent review for the exact verified delivery subject";
  "delivery does not match a completed run";
  "work is not reviewing this delivery subject";
  "invalid request";
  "operation forbidden";
  "resource not found";
  "conflict with current authority or version";
  "request rejected by current policy or contract";
  "service temporarily unavailable";
  "internal operation failed"].

Definition refuses (rs : Response) : bool :=
  match rs_Body rs with
  | PError msg => (400 <=? rs_Status rs)%N && bool_decide (msg ∈ public_messages)
  | PBlocked _ => (400 <=? rs_Status rs)%N
  | _ => false
  end.

Lemma refuses_acknowledges rs : refuses rs = true -> acknowledges rs = false.
Proof. unfold refuses, acknowledges. by destruct (rs_Body rs). Qed.

(** Every version counter of the store has room for one more write. *)
Definition headroom (m : Memory) : Prop :=
  (forall id w, works m !! id = Some w -> room (wi_Version w)) /\
  (forall id r, runs m !! id = Some r -> room (r_Version r)).

Inductive kind := Reads | Writes | WritesThenReads | Acts.

(** The two answers that send the client to read back what became of its request. *)
Definition unresolved_answers : list Response := [
  writeCommitOutcomeUnknown;
  writeError StatusServiceUnavailable
    "external_effect_unresolved: read back the exact original Action operation ID, idempotency key, Run/Recovery epochs, receipt and audit before any retry"].

(** An effect is made only after its operation was claimed: moved from PLANNED
    to DISPATCHED by one of these writes.  An observation claims nothing, and an
    action route handles no message. *)
Definition claimed_first (x : effect) (c : list (Memory * Memory)) : Prop :=
  match x with
  | EffDispatch id key => Exists (fun p => claims id key (ledger p.1) (ledger p.2)) c
  | EffReconcile _ => True
  | EffHandle _ => False
  end.

(** What an action route did: it wrote the ledger only, made at most one effect,
    and once it made one, it answers with the receipt or with one of
    [unresolved_answers]. *)
Definition acts_ok (rs : Response) (w : World Memory) : Prop :=
  Forall (fun p => ledger_write p.1 p.2) (w_commits w)
  /\ (w_log w = []
      \/ exists x, w_log w = [x] /\ claimed_first x (w_commits w) /\ (acknowledges rs = true \/ rs ∈ unresolved_answers)).

Section serving.
Context `{Hash}.

(** A write is a step of the lifecycle, unless a stored plan was replaced by
    another one of the same digest. *)
Definition good (p : Memory * Memory) : Prop := headroom p.1 -> step p.1 p.2 \/ plan_replaced p.1.

Definition served (k : kind) (r : outcome Response) (w : World Memory) : Prop :=
  exists rs, r = Ok rs /\ (acknowledges rs = true \/ refuses rs = true) /\ Forall good (w_commits w) /\
  match k with
  | Reads => w_commits w = [] /\ w_log w = []
  | Writes => length (w_commits w) = (if acknowledges rs then 1 else 0) /\ w_log w = []
  | WritesThenReads =>
    length (w_commits w) <= 1 /\ (acknowledges rs = true -> length (w_commits w) = 1) /\ w_log w = []
  | Acts => acts_ok rs w
  end.

(** Facts that survive the steps other requests take. *)
Class Persists (A : Memory -> Prop) := persists m m' : reachable m -> rtc step m m' -> A m -> A m'.

Definition also (A K : Memory -> Prop) (m : Memory) : Prop := A m /\ K m.
#[export] Instance persists_also A K : Persists A -> Persists K -> Persists (also A K).
Proof. intros HA HK m m' Hr Hs []. split; [by eapply HA | by eapply HK]. Qed.
#[export] Instance persists_const (P : Prop) : Persists (fun _ => P).
Proof. by intros m m' _ _ ?. Qed.

Context (e : Env Memory) (Hlawful : lawful e).

(** Before its write, a handler knows that the state is reachable and what its
    reads established, and it has done nothing. *)
Definition holding (A : Memory -> Prop) (w : World Memory) : Prop :=
  reachable (w_state w) /\ A (w_state w) /\ w_commits w = [] /\ w_log w = [].

Lemma holding_stable A `{!Persists A} : stable e (holding A).
Proof.
  split; [by intros|]. intros n w (Hr & Ha & Hc & Hl). pose proof (Hlawful n _ Hr) as Hs.
  split_and!; simpl; [by eapply reachable_step | by eapply persists | done | done].
Qed.

Definition serves (k : kind) (A : Memory -> Prop) (n : M Memory Response) : Prop :=
  hoare e (holding A) n (served k).

Lemma serves_refusal k A rs : refuses rs = true -> serves k A (answer rs).
Proof.
  intros Hr w (_ & _ & Hc & Hl). pose proof (refuses_acknowledges rs Hr) as Ha.
  exists rs. unfold acts_ok. rewrite Hc, Hl, Ha. split_and!; [done | by right | done |].
  destruct k; simpl; split_and?; auto; done.
Qed.
Lemma serves_shown A rs : acknowledges rs = true -> serves Reads A (answer rs).
Proof. intros Ha w (_ & _ & Hc & Hl). exists rs. rewrite Hc, Hl. split_and!; auto. Qed.

(** A read of the store, and what it establishes. *)
Class Reader {R} (n : M Memory R) (K : R -> Memory -> Prop) := reader :
  exists read, n = for_request (rlocked read) /\ (forall a, Persists (K a))
    /\ forall m a, reachable m -> read m = Ok a -> K a m.

Lemma hoare_reader {R} (n : M Memory R) K A `{!Reader n K, !Persists A} :
  hoare e (holding A) n (fun r w => match r with Ok a => holding (also A (K a)) w | Err _ => holding A w end).
Proof.
  destruct (reader (n := n) (K := K)) as (read & -> & HK & Hread). unfold for_request.
  eapply hoare_seq; [by apply hoare_poll, holding_stable | | done].
  apply hoare_rlocked; [by apply holding_stable | done |].
  intros w a (Hr & Ha & Hc & Hl) E. by split_and!; [|split; eauto| |].
Qed.

Lemma serves_read {R} k A (n : M Memory R) K h f `{!Reader n K, !Persists A} :
  (forall x, refuses (h x) = true) -> (forall a, serves k (also A (K a)) (f a)) ->
  serves k A (try_else n (fun x => mret (h x)) f).
Proof.
  intros Hh Hf. eapply hoare_try; [by apply hoare_reader | | exact Hf].
  intros x. by apply serves_refusal.
Qed.

Lemma serves_lift {R} k A (o : outcome R) h f :
  (forall x, refuses (h x) = true) -> (forall a, o = Ok a -> serves k A (f a)) ->
  serves k A (try_else (lift o) (fun x => mret (h x)) f).
Proof.
  intros Hh Hf w Hw. unfold try_else, lift. destruct o as [a|x]; [by apply Hf | by apply (serves_refusal k A (h x) (Hh x) w)].
Qed.

Lemma serves_poll k A h f `{!Persists A} :
  (forall x, refuses (h x) = true) -> (forall a, serves k A (f a)) ->
  serves k A (try_else poll (fun x => mret (h x)) f).
Proof.
  intros Hh Hf. eapply hoare_try; [by apply hoare_poll, holding_stable | | exact Hf].
  intros x. by apply serves_refusal.
Qed.

Lemma serves_now k A f : (forall t, serves k A (f t)) -> serves k A (t ← now; f t).
Proof. intros Hf [t s l c] Hw. apply Hf. exact Hw. Qed.

Lemma serves_ret k A {R} (a : R) f : serves k A (f a) -> serves k A (mret a ≫= f).
Proof. done. Qed.

(** ** Writing once *)

Definition wrote {R} (r : outcome R) (w : World Memory) : Prop :=
  w_log w = [] /\ Forall good (w_commits w) /\ length (w_commits w) = if is_ok r then 1 else 0.
Definition writes_once {R} (A : Memory -> Prop) (n : M Memory R) : Prop := hoare e (holding A) n wrote.

Lemma wrote_nothing {R} A x w : holding A w -> wrote (R := R) (Err x) w.
Proof. intros (_ & _ & Hc & Hl). unfold wrote. by rewrite Hc, Hl. Qed.

Lemma once_atomically {R} A (body : Memory -> outcome (R * Memory)) :
  (forall m a m', reachable m -> A m -> body m = Ok (a, m') -> good (m, m')) ->
  writes_once A (atomically body).
Proof.
  intros Hg w Hw. unfold atomically. destruct (body (w_state w)) as [[a m']|x] eqn:E; [|by eapply wrote_nothing].
  destruct Hw as (Hr & Ha & Hc & Hl). split_and!; simpl; rewrite ?Hc; [done | | done].
  constructor; [by eapply Hg | done].
Qed.

Lemma once_poll {R} A (n : M Memory R) `{!Persists A} : writes_once A n -> writes_once A (poll ;; n).
Proof.
  intros Hn. eapply hoare_seq; [by apply hoare_poll, holding_stable | done |].
  intros x w Hw. by eapply wrote_nothing.
Qed.
Lemma once_acquire {R} A (n : M Memory R) `{!Persists A} : writes_once A n -> writes_once A (acquire ;; n).
Proof.
  intros Hn. eapply hoare_seq; [|exact Hn|].
  - eapply hoare_conseq; [by apply hoare_acquire, holding_stable | done | by intros ? ? []].
  - intros x w Hw. by eapply wrote_nothing.
Qed.
Lemma once_locked {R} A (body : Memory -> outcome (R * Memory)) `{!Persists A} :
  (forall m a m', reachable m -> A m -> body m = Ok (a, m') -> good (m, m')) ->
  writes_once A (locked body).
Proof. intros Hg. unfold locked. by apply once_poll, once_acquire, once_poll, once_atomically. Qed.
Lemma once_lift {R B} A (o : outcome B) (f : B -> M Memory R) :
  (forall b, o = Ok b -> writes_once A (f b)) -> writes_once A (b ← lift o; f b).
Proof.
  intros Hf w Hw. unfold mbind, M_bind, lift. destruct o as [b|x]; [by apply Hf | by eapply wrote_nothing].
Qed.
Lemma once_guard {R} A P `{Decision P} x (f : M Memory R) :
  (~ P -> writes_once A f) -> writes_once A ((if decide P then fail x else mret tt) ;; f).
Proof. intros Hf w Hw. case_decide; [by eapply wrote_nothing | by apply Hf]. Qed.
Lemma once_check {R} A P `{Decision P} x (f : M Memory R) :
  (P -> writes_once A f) -> writes_once A ((if decide P then mret tt else fail x) ;; f).
Proof. intros Hf w Hw. case_decide; [by apply Hf | by eapply wrote_nothing]. Qed.
Lemma once_fail {R} A x : writes_once (R := R) A (fail x).
Proof. intros w Hw. by eapply wrote_nothing. Qed.
Lemma once_read {R B} A (n : M Memory B) K (f : B -> M Memory R) `{!Reader n K, !Persists A} :
  (forall a, writes_once (also A (K a)) (f a)) -> writes_once A (n ≫= f).
Proof.
  intros Hf. eapply hoare_bind; [exact (hoare_reader n K A) | |]; [exact Hf|].
  intros x w Hw. exact (wrote_nothing A x w Hw).
Qed.
Lemma once_then {R B} A (n : M Memory R) (b : B) : writes_once A n -> writes_once A (n ;; mret b).
Proof. intros Hn w Hw. specialize (Hn w Hw). unfold mbind, M_bind. by destruct (n e w) as [[a|x] w']. Qed.

Lemma serves_write {R} A (n : M Memory R) h f : writes_once A n ->
  (forall x, refuses (h x) = true) -> (forall a, acknowledges (f a) = true) ->
  serves Writes A (try_else n (fun x => mret (h x)) (fun a => answer (f a))).
Proof.
  intros Hn Hh Hf w Hw. specialize (Hn w Hw). unfold try_else.
  destruct (n e w) as [[a|x] w']; destruct Hn as (Hl & Hg & Hlen);
    [exists (f a); rewrite Hf | exists (h x); rewrite (refuses_acknowledges _ (Hh x))]; by split_and!; auto.
Qed.

(** The answer is read back after the write. *)
Lemma serves_write_then {R} A (n : M Memory R) h (f : R -> M Memory Response) : writes_once A n ->
  (forall x, refuses (h x) = true) ->
  (forall a, Silent (f a)) -> (forall a w, exists rs, (f a e w).1 = Ok rs /\ (acknowledges rs = true \/ refuses rs = true)) ->
  serves WritesThenReads A (try_else n (fun x => mret (h x)) f).
Proof.
  intros Hn Hh Hf Ht w Hw. specialize (Hn w Hw). unfold try_else.
  destruct (n e w) as [[a|x] w']; destruct Hn as (Hl & Hg & Hlen); simpl in Hlen.
  - destruct (Ht a w') as (rs & Hrs & Hok). destruct (silent (m := f a) e w') as [El Ec _].
    destruct (f a e w') as [? w2]; simpl in *; subst.
    exists rs. rewrite El, Ec. split_and!; try done. by rewrite Hlen.
  - exists (h x). split_and!; try done; auto; [by rewrite Hlen; lia|]. by rewrite (refuses_acknowledges _ (Hh x)).
Qed.

End serving.

(** ** What the reads establish *)

Section readers.
Context `{Hash}.

Definition work_seen (id : string) (w : WorkItem) (m : Memory) : Prop :=
  wi_ID w = id /\ exists w', works m !! id = Some w' /\ work_later w w'.
Definition run_seen (id : string) (p : Run * Session) (m : Memory) : Prop :=
  r_ID p.1 = id /\ exists p', execution m id = Some p' /\ execution_later p p'.
Definition task_frozen (digest : string) (t : TaskContract) (m : Memory) : Prop :=
  tasksByDigest m !! digest = Some t.
Definition plan_stored (digest : string) (p : Plan) (m : Memory) : Prop :=
  exists m0, reachable m0 /\ rtc step m0 m /\ verificationPlans m0 !! digest = Some p.
Definition delivered (id : string) (d : DeliveryReceipt) (m : Memory) : Prop :=
  dr_ID d = id /\ deliveries m !! id = Some d.
Definition evidenced (id : string) (i : EvidenceRef) (m : Memory) : Prop :=
  ev_ID i = id /\ evidence m !! id = Some i.
Definition reported (id : string) (v : Report) (m : Memory) : Prop :=
  vr_ID v = id /\ verificationReports m !! id = Some v.
Definition reviewed (id : string) (r : ReviewReport) (m : Memory) : Prop :=
  rv_ID r = id /\ reviewReports m !! id = Some r.

#[export] Instance persists_work id w : Persists (work_seen id w).
Proof.
  intros m m' _ Hs [Hid (w1 & H1 & L1)]. split; [done|].
  destruct (lt_works _ _ (steps_later _ _ Hs) _ _ H1) as (w2 & H2 & L2). eauto using work_later_trans.
Qed.
#[export] Instance persists_run id p : Persists (run_seen id p).
Proof.
  intros m m' _ Hs [Hid (p1 & H1 & L1)]. split; [done|].
  destruct (lt_executions _ _ (steps_later _ _ Hs) _ _ H1) as (p2 & H2 & L2). eauto using execution_later_trans.
Qed.
#[export] Instance persists_task d t : Persists (task_frozen d t).
Proof. intros m m' _ Hs Ht. exact (keep _ _ _ _ (lt_tasks _ _ (steps_later _ _ Hs)) Ht). Qed.
#[export] Instance persists_plan d p : Persists (plan_stored d p).
Proof. intros m m' _ Hs (m0 & Hr & Hs0 & Hp). exists m0. split_and!; [done | by etrans | done]. Qed.
#[export] Instance persists_delivery id d : Persists (delivered id d).
Proof. intros m m' _ Hs [Hp Hd]. split; [done|]. exact (keep _ _ _ _ (lt_deliveries _ _ (steps_later _ _ Hs)) Hd). Qed.
#[export] Instance persists_evidence id i : Persists (evidenced id i).
Proof. intros m m' _ Hs [Hp Hd]. split; [done|]. exact (keep _ _ _ _ (lt_evidence _ _ (steps_later _ _ Hs)) Hd). Qed.
#[export] Instance persists_report id v : Persists (reported id v).
Proof. intros m m' _ Hs [Hp Hd]. split; [done|]. exact (keep _ _ _ _ (lt_verifications _ _ (steps_later _ _ Hs)) Hd). Qed.
#[export] Instance persists_review id r : Persists (reviewed id r).
Proof. intros m m' _ Hs [Hp Hd]. split; [done|]. exact (keep _ _ _ _ (lt_reviews _ _ (steps_later _ _ Hs)) Hd). Qed.

(** A read that finds a stored record. *)
Lemma reads_record {R} (read : Memory -> outcome R) K : (forall a, Persists (K a)) ->
  (forall m a, reachable m -> authority_ok m -> read m = Ok a -> K a m) ->
  Reader (for_request (rlocked read)) K.
Proof.
  intros HK Hread. exists read. split_and!; [done | done |]. intros m a Hr E. eapply Hread; eauto using reachable_ok.
Qed.

#[export] Instance reads_work id : Reader (getWorkForRequest id) (work_seen id).
Proof.
  apply reads_record; [apply _|]. intros m a _ Hok E%of_option_ok. split; [by eapply ok_works|].
  eauto using work_later_refl.
Qed.
#[export] Instance reads_run id : Reader (getRunForRequest id) (run_seen id).
Proof.
  apply reads_record; [apply _|]. intros m [r s] _ Hok [Hr Hs]%find_execution_inv. simpl in *.
  assert (execution m id = Some (r, s)) as Hx by by unfold execution; rewrite Hr, Hs.
  split; [by apply (ok_executions _ Hok) in Hx as []|]. eauto using execution_later_refl.
Qed.
#[export] Instance reads_task d : Reader (getFrozenTaskForRequest d) (task_frozen d).
Proof. apply reads_record; [apply _|]. by intros m a _ Hok E%of_option_ok. Qed.
#[export] Instance reads_plan d : Reader (getVerificationPlanForRequest d) (plan_stored d).
Proof.
  apply reads_record; [apply _|]. intros m a Hr _ E%of_option_ok. exists m. by split_and!.
Qed.
#[export] Instance reads_delivery id : Reader (getDeliveryForRequest id) (delivered id).
Proof.
  apply reads_record; [apply _|]. intros m a _ Hok E%of_option_ok. split; [|done]. by apply (ok_deliveries _ Hok) in E as [].
Qed.
#[export] Instance reads_evidence id : Reader (getEvidenceForRequest id) (evidenced id).
Proof.
  apply reads_record; [apply _|]. intros m a _ Hok E%of_option_ok. split; [|done]. by apply (ok_evidence _ Hok) in E as [].
Qed.
#[export] Instance reads_report id : Reader (getVerificationForRequest id) (reported id).
Proof.
  apply reads_record; [apply _|]. intros m a _ Hok E%of_option_ok. split; [|done]. by apply (ok_verifications _ Hok) in E as [].
Qed.
#[export] Instance reads_review id : Reader (getReviewForRequest id) (reviewed id).
Proof.
  apply reads_record; [apply _|]. intros m a _ Hok E%of_option_ok. split; [|done]. by apply (ok_reviews _ Hok) in E as [].
Qed.

(** The reads whose answers are only shown. *)
Lemma reads_shown {R} (read : Memory -> outcome R) : Reader (for_request (rlocked read)) (fun _ _ => True).
Proof. apply reads_record; [apply _ | done]. Qed.
#[export] Instance reads_recovery : Reader getRecoveryForRequest (fun _ _ => True).
Proof. apply reads_shown. Qed.
#[export] Instance reads_latest_task id : Reader (getTaskForRequest id) (fun _ _ => True).
Proof. apply reads_shown. Qed.
#[export] Instance reads_input d : Reader (getRunInputForRequest d) (fun _ _ => True).
Proof. apply reads_shown. Qed.
#[export] Instance reads_steering id : Reader (getSteeringForRequest id) (fun _ _ => True).
Proof. apply reads_shown. Qed.
#[export] Instance reads_checkpoint id : Reader (getCheckpointForRequest id) (fun _ _ => True).
Proof. apply reads_shown. Qed.
#[export] Instance reads_closure id : Reader (getClosureForRequest id) (fun _ _ => True).
Proof. apply reads_shown. Qed.

(** A compare-and-swap that succeeds found the value it was computed from:
    versions tell the values of a record apart. *)
Lemma work_current id w m w' : work_seen id w m -> works m !! wi_ID w = Some w' -> wi_Version w' = wi_Version w ->
  works m !! wi_ID w = Some w.
Proof.
  intros [<- (w1 & H1 & _ & _ & _ & _ & Hsame)] Hw Hv. rewrite H1 in Hw. injection Hw as ->.
  by rewrite H1, Hsame.
Qed.
Lemma run_current id p m r : run_seen id p m -> runs m !! id = Some r -> r_Version r = r_Version p.1 ->
  runs m !! id = Some p.1 /\ sessions m !! id = Some p.2.
Proof.
  intros [_ (p1 & H1 & _ & _ & _ & _ & _ & Hsame)] Hr Hv. unfold execution in H1.
  destruct (runs m !! id) as [r1|] eqn:E1, (sessions m !! id) as [s1|] eqn:E2; try done.
  injection H1 as <-. injection Hr as ->. rewrite <- Hsame; done.
Qed.
Lemma run_found id p m : run_seen id p m -> exists r s, runs m !! id = Some r /\ sessions m !! id = Some s
  /\ same_frozen p.1 r /\ (run_terminal p.1 -> r_State r = r_State p.1).
Proof.
  intros [_ ([r s] & H1 & _ & Hf & _ & _ & Ht & _)]. unfold execution in H1.
  destruct (runs m !! id), (sessions m !! id); simplify_eq. eauto 10.
Qed.

End readers.

(** ** Every write is a step *)

Section goodness.
Context `{Hash}.

Lemma transition_to w to w' : WorkItem_Transition w to = Ok w' -> w' = set_wi_State to w.
Proof.
  unfold WorkItem_Transition. intros Ht. case_decide as Hs; [|by case_match; ok_inv].
  injection Ht as <-. subst. by destruct w.
Qed.

Lemma freeze_inv req work task digest readiness frozen :
  freeze req work = inr (task, digest, readiness, frozen) ->
  wi_State work = WorkDraft \/ wi_State work = WorkReady ->
  TaskContract_Digest task = Ok digest /\ frozen = frozen_work digest work
  /\ tc_ID task = tc_ID (ctr_Contract req) /\ tc_WorkItemID task = tc_WorkItemID (ctr_Contract req)
  /\ tc_AcceptanceCriteria task = mm_AcceptanceCriteria (ctr_Material req)
  /\ ValidatePlan (ctr_VerificationPlan req) (tc_AcceptanceCriteria task) = true
  /\ Plan_Digest (ctr_VerificationPlan req) = Ok (tc_VerificationPlanDigest task)
  /\ ms_Status readiness <> mat_Blocked
  /\ readiness = Material_Evaluate (set_mm_TaskType (tc_TaskType (ctr_Contract req)) (ctr_Material req))
  /\ (tc_CapabilityIDs task, tc_SkillIDs task) ∈ all_routes.
Proof.
  unfold freeze. intros Hf Hst. case_decide as Hb; [done|]. destruct (foreign_target _ _); [done|].
  destruct (ResolveForTarget _ _ _) as [route|] eqn:Hroute; [|done].
  destruct (match ctr_TargetContext req with Some _ => _ | None => _ end) as [skills|]; [|done].
  destruct (ValidatePlan _ _) eqn:Hv; [|done]. simpl in Hf.
  destruct (Plan_Digest _) as [pd|] eqn:Hp; [|done]. destruct (TaskContract_Digest _) as [d|] eqn:Hd; [|done].
  destruct (if decide (wi_State work = WorkDraft) then _ else _) as [w'|] eqn:Hw; [|done].
  injection Hf as <- <- <- <-. split_and!; try done; [|by eapply ResolveForTarget_routes].
  unfold frozen_work. case_decide; [by apply transition_to in Hw|].
  injection Hw as <-. destruct Hst as [|Hst]; [done|]. rewrite <- Hst. by destruct work.
Qed.
End goodness.

(** Every error writer refuses. *)
Ltac refuse :=
  let x := fresh in
  intros x; unfold exists_or_internal, exists_or_conflict_or_internal, writeEvidenceError, writeStoreError,
    writeMutationError, writeActionError, writeBeginRecoveryError, writeCompleteRecoveryError,
    writeCommitAwareInternalError, writeCommitOutcomeUnknown, writePublicError, no_gateway, invalid_json;
  repeat case_match; reflexivity.

(** Walks through a handler up to its write. *)
Ltac serve :=
  repeat first
    [ progress simpl
    | apply serves_refusal; [done..|solve [reflexivity | refuse]]
    | apply serves_shown; [done..|reflexivity]
    | match goal with |- serves _ _ _ (if decide _ then _ else _) => case_decide end
    | match goal with |- serves _ _ _ (if negb ?b then _ else _) => destruct b eqn:? end
    | match goal with |- serves _ _ _ (decodeJSON ?b _) => unfold decodeJSON; destruct b end
    | apply serves_now; intros ?
    | eapply serves_read; [done | apply _ | apply _ | refuse | intros ?]
    | apply serves_lift; [refuse | intros ? ?]
    | eapply serves_poll; [done | apply _ | refuse | intros ?] ].

Section handlers.
Context `{Hash} (e : Env Memory) (Hlawful : lawful e).

Abbreviation serves := (serves e).
Abbreviation any := (fun _ : Memory => True).

Lemma serve_readers who actions c :
  match c with
  | ToHealth | ToCapabilities | ToOperationalStatus | ToOperationalAttention | ToOperationalCapacity
  | ToGetRecovery | ToCreateRecoveryProof _ | ToGetRecoveryProof _ | ToExecutionAbandon _ | ToAbandonPlanned _
  | ToGetAbandonPlanned _ | ToConfirmPublication _ | ToGetPublication _ | ToAbandonUninvoked _ | ToGetUninvoked _
  | ToSteer _ _ | ToInterrupt _ _ | ToControlDelivery _ | ToGetWork _ | ToGetTask _ | ToGetFrozenTask _ | ToGetFrozenPlan _ | ToGetRun _
  | ToGetSteering _ | ToGetCheckpoint _ | ToGetDelivery _ | ToGetEvidence _ | ToGetVerification _
  | ToGetReview _ | ToGetClosure _ => serves Reads any (routes who actions c)
  | _ => True
  end.
Proof.
  destruct c; try exact I; simpl;
    unfold handleHealth, handleCapabilities, handleOperationalStatus, handleGetRecovery, handleOperationalAttention,
      handleOperationalCapacity, handleExecutionAbandon, handleAbandonPlannedAction, handleGetAbandonedPlannedAction,
      handleConfirmRecoveredPublication, handleAbandonUninvokedPublication, handlePublicationRecovery,
      handleGetRecoveredPublication, handleGetUninvokedPublication, handleGetPublicationRecovery,
      handleSteer, handleInterrupt, handleLiveControl, handleControlDelivery,
      handleCreateRecoveryProof, handleGetRecoveryProof, handleGetWork, handleGetTask, handleGetFrozenTaskByDigest,
      handleGetFrozenVerificationPlanByDigest, handleGetRun, handleGetSteering, handleGetCheckpoint,
      handleGetDelivery, handleGetEvidence, handleGetVerification, handleGetReview, handleGetClosure;
    serve.
  all: repeat (case_match; serve).
Qed.

Lemma serve_begin_recovery body : serves Writes any (handleBeginRecovery body).
Proof.
  unfold handleBeginRecovery. serve. apply serves_write; [| refuse | done].
  apply once_poll; [done | apply _ |]. apply once_locked; [done | apply _ |].
  intros m a m' _ _ Hb _. left. by eapply step_begin_recovery.
Qed.

Lemma serve_complete_recovery body : serves Writes any (handleCompleteRecovery body).
Proof.
  unfold handleCompleteRecovery. serve. apply serves_write; [| refuse | done].
  apply once_poll; [done | apply _ |]. apply once_locked; [done | apply _ |].
  intros m a m' _ _ Hb _. left. by eapply step_complete_recovery.
Qed.

Lemma serve_create_work body : serves Writes any (handleCreateWork body).
Proof.
  unfold handleCreateWork. serve.
  assert (forall item, serves Writes any (let? _ := createWorkForRequest item orelse exists_or_internal in
    answer (writeJSON StatusCreated (PWork item)))) as Hwrite.
  { intros item. apply serves_write; [| refuse | done].
    apply once_poll; [done | apply _ |]. apply once_locked; [done | apply _ |].
    intros m [] m' _ _ Hb _. left. by eapply step_create_work. }
  destruct (IsZero _); [|apply Hwrite]. intros [t0 s l c] Hw. exact (Hwrite _ (mkWorld (Nat.succ t0) s l c) Hw).
Qed.

Lemma serve_freeze body : serves Writes any (handleCreateTask body).
Proof.
  unfold handleCreateTask. serve. rename a into work.
  assert (wi_State work = WorkDraft \/ wi_State work = WorkReady) as Hst.
  { destruct (decide (wi_State work = WorkDraft)), (decide (wi_State work = WorkReady)); tauto. }
  destruct (freeze _ work) as [refusal | [[[task digest] readiness] frozen]] eqn:Hfreeze.
  { apply serves_refusal. revert Hfreeze. unfold freeze. intros Hf. by repeat case_match; simplify_eq. }
  apply freeze_inv in Hfreeze as (Hd & -> & Hid & Hw & Hacc & Hv & Hpd & _ & _ & Hroutes); [|done].
  apply serves_write; [| refuse | done].
  apply once_poll; [done | apply _ |]. apply once_poll; [done | apply _ |].
  apply once_lift. intros d Hdig. apply once_guard. intros _.
  apply once_acquire; [done | apply _ |]. apply once_poll; [done | apply _ |]. apply once_atomically.
  intros m [] m' _ [_ Hseen] Hb [Hroom _]. left. simpl in *.
  apply task_digests_inv in Hdig as Hinv. destruct Hinv as (_ & Hd1 & _). rewrite Hd in Hd1. injection Hd1 as ->.
  apply CreateTaskAndUpdateWork_inv in Hb as Hinv. destruct Hinv as (current & versions & Hcur & Hver & _).
  pose proof (work_current _ _ _ _ Hseen Hcur Hver) as Hnow.
  eapply (step_freeze_task m task _ d work); try done; [by destruct Hseen; congruence | by eapply Hroom].
Qed.


Lemma serve_start body : serves Writes any (handleCreateRun body).
Proof.
  unfold handleCreateRun. serve. destruct (RunInputManifest_accept _) as [decoded|]; serve.
  match goal with E : StartAttempt _ _ _ = Ok ?p |- _ => destruct p as [attempt value]; rename E into Hstart end.
  serve. rename a into inputDigest, a0 into task, a1 into work.
  match goal with E : WorkItem_Transition _ _ = Ok _ |- _ => apply transition_to in E as -> end.
  apply serves_write; [| refuse | done].
  apply once_poll; [done | apply _ |]. apply once_poll; [done | apply _ |].
  simpl. destruct (ri_Continuation decoded); [apply once_fail|].
  apply once_lift. intros d Hd. apply once_check. intros Hcons.
  assert (d = inputDigest) as -> by congruence.
  apply once_acquire; [done | apply _ |]. apply once_poll; [done | apply _ |]. apply once_atomically.
  intros m [] m' _ [[_ Htask] Hseen] Hb [Hroom _]. left. simpl in *.
  apply CreateExecutionAndUpdateWork_inv in Hb as Hinv. destruct Hinv as (current & task' & Hcur & Hver & _).
  pose proof (work_current _ _ _ _ Hseen Hcur Hver) as Hnow.
  eapply (step_start_run m (crr_RunID _) _ _ (set_ri_Subject _ _ decoded) inputDigest attempt value work); try done.
  - by eapply Hroom.
  - exists task. split; [done|]. by destruct Hseen.
Qed.

Lemma once_mutate {R} id (fn : Run -> Session -> outcome (R * Run * Session)) :
  (forall r s a r' s', fn r s = Ok (a, r', s') -> control_call (r, s) (r', s')) ->
  writes_once e any (mutateExecution id fn).
Proof.
  intros Hfn. unfold mutateExecution.
  eapply once_read; [done | apply _ | apply _ |]. intros p. eapply once_read; [done | apply _ | apply _ |].
  intros input. destruct (str_prefix _ _); [apply once_fail|].
  apply once_lift. intros [[a value] sess] Hf. apply once_then. apply once_poll; [done | apply _ |].
  apply once_locked; [done | apply _ |]. intros m [] m' _ [[_ Hseen] _] Hb [_ Hroom]. left. simpl in *.
  apply UpdateExecution_inv in Hb as Hinv. destruct Hinv as (current & Hcur & _ & Hver & _).
  destruct (run_current _ _ _ _ Hseen Hcur Hver) as [Hr Hs].
  apply (step_control m id p (value, sess)); try done; [by eapply Hroom|].
  destruct p as [r s]. by eapply Hfn.
Qed.

Lemma pause_control n r s a r' s' : pause_execution n r s = Ok (a, r', s') -> control_call (r, s) (r', s').
Proof. unfold pause_execution. intros Hp. ok_inv. by eapply control_pause. Qed.
Lemma resume_control n r s a r' s' : resume_execution n r s = Ok (a, r', s') -> control_call (r, s) (r', s').
Proof. unfold resume_execution. intros Hp. ok_inv. by eapply control_resume. Qed.
Lemma takeover_control n r s a r' s' : takeover_execution n r s = Ok (a, r', s') -> control_call (r, s) (r', s').
Proof. unfold takeover_execution. intros Hp. ok_inv. guards. subst. by eapply control_takeover. Qed.

(** The read-back after a write. *)
#[local] Instance silent_writeExecution id : Silent (writeExecution id).
Proof. unfold writeExecution, answer. apply _. Qed.
Lemma writeExecution_answers id en w : exists rs, (writeExecution id en w).1 = Ok rs
  /\ (acknowledges rs = true \/ refuses rs = true).
Proof.
  unfold writeExecution, try_else. destruct (getRunForRequest id en w) as [[p|x] w'].
  - eexists. split; [reflexivity|]. by left.
  - eexists. split; [reflexivity|]. right. revert x. refuse.
Qed.

Lemma serve_control id body :
  serves WritesThenReads any (handlePause id body) /\ serves WritesThenReads any (handleResume id body)
  /\ serves Writes any (handleTakeover id body).
Proof.
  split_and!; [unfold handlePause | unfold handleResume | unfold handleTakeover]; serve.
  1,2: apply serves_write_then; [apply once_mutate | refuse | apply _ | intros; apply writeExecution_answers].
  - apply pause_control.
  - apply resume_control.
  - apply serves_write; [apply once_mutate, takeover_control | refuse | done].
Qed.

Lemma serve_complete id body : serves WritesThenReads any (handleCompleteRun id body).
Proof.
  unfold handleCompleteRun. serve. rename a into p, a0 into value, a1 into task, a2 into work.
  match goal with E : ~ (_ \/ _ \/ _) |- _ => rename E into Hguard end.
  match goal with E : WorkItem_Transition _ _ = Ok _ |- _ => apply transition_to in E as -> end.
  apply serves_write_then; [| refuse | apply _ | intros; apply writeExecution_answers].
  apply once_poll; [done | apply _ |]. apply once_locked; [done | apply _ |].
  intros m [] m' _ [[[_ Hrun] Htask] Hseen] Hb [Hroomw Hroomr]. left. guards. simpl in *.
  apply UpdateExecutionAndWork_inv in Hb as Hinv.
  destruct Hinv as (current & cw & Hcur & _ & Hcw & Hrv & Hwv & _).
  destruct (run_current _ _ _ _ Hrun Hcur Hrv) as [Hr Hs].
  pose proof (work_current _ _ _ _ Hseen Hcw Hwv) as Hnow.
  eapply (step_complete_run m id _ p.1 p.2 value work); try done; [by eapply Hroomr | by eapply Hroomw].
Qed.

Lemma serve_checkpoint id body : serves Writes any (handleCreateCheckpoint id body).
Proof.
  unfold handleCreateCheckpoint. serve. apply serves_write; [| refuse | done].
  apply once_poll; [done | apply _ |]. apply once_poll; [done | apply _ |].
  apply once_lift. intros d Hd. apply once_acquire; [done | apply _ |]. apply once_poll; [done | apply _ |].
  apply once_atomically. intros m d' m' _ [_ Hrun] Hb _. left.
  destruct (run_found _ _ _ Hrun) as (r & s & Hr & Hs & [Hf1 Hf2] & _).
  assert (d' = d) as -> by by (unfold CreateCheckpoint in Hb; repeat case_match; simplify_eq).
  eapply (step_checkpoint m _ d r s); simpl; try done; by symmetry.
Qed.

Lemma serve_delivery body : serves Writes any (handleCreateDelivery body).
Proof.
  unfold handleCreateDelivery. serve. rename a into p, a0 into task, a1 into subject.
  apply serves_write; [| refuse | done].
  apply once_poll; [done | apply _ |]. apply once_locked; [done | apply _ |].
  intros m [] m' _ [[_ Hrun] Htask] Hb _. left.
  destruct (run_found _ _ _ Hrun) as (r & s & Hr & Hs & [Hf1 Hf2] & Ht).
  match goal with E : r_State p.1 = run_Completed |- _ => rename E into Hdone end.
  destruct Hrun as [Hid _].
  eapply (step_deliver m _ r task); simpl; try done; try (by symmetry).
  - by rewrite Hid.
  - rewrite Ht; [done | by left].
Qed.

Lemma serve_evidence body : serves Writes any (handleCreateEvidence body).
Proof.
  unfold handleCreateEvidence. serve. destruct (FindRequirement _ _); serve.
  apply serves_write; [| refuse | done].
  apply once_poll; [done | apply _ |]. apply once_locked; [done | apply _ |].
  intros m [] m' _ _ Hb _. left. by eapply step_evidence.
Qed.


Definition all_evidenced (items : list EvidenceRef) (m : Memory) : Prop :=
  Forall (fun i => evidence m !! ev_ID i = Some i) items.
#[local] Instance persists_all_evidenced items : Persists (all_evidenced items).
Proof.
  intros m m' Hr Hs Hall. eapply Forall_impl; [exact Hall|]. intros i Hi. exact (keep _ _ _ _ (lt_evidence _ _ (steps_later _ _ Hs)) Hi).
Qed.

Lemma hoare_read_evidence A `{!Persists A} ids :
  hoare e (holding A) (read_evidence ids)
    (fun r w => match r with Ok items => holding (also A (all_evidenced items)) w | Err _ => holding A w end).
Proof.
  revert A Persists0. induction ids as [|id ids IH]; intros A HA; simpl.
  - intros w (Hr & Ha & Hc & Hl). by split_and!; [|split; [|constructor]| |].
  - eapply hoare_bind; [exact (hoare_reader e Hlawful (getEvidenceForRequest id) _ A) | | by intros x w].
    intros i. eapply hoare_bind; [apply IH; apply _ | |].
    + intros items w (Hr & [[Ha [Hid Hi]] Hitems] & Hc & Hl).
      split_and!; [done | split; [done|] | done | done]. constructor; [by rewrite Hid | done].
    + intros x w (Hr & [Ha _] & Hc & Hl). by split_and!.
Qed.

Lemma serve_verification body : serves Writes any (handleCreateVerification body).
Proof.
  unfold handleCreateVerification. serve. rename a into delivery, a0 into task, a1 into plan.
  eapply hoare_try; [apply hoare_read_evidence; apply _ | intros x; apply serves_refusal; revert x; refuse |].
  intros items. apply serves_now. intros t. apply serves_write; [| refuse | done].
  apply once_poll; [done | apply _ |]. apply once_locked; [done | apply _ |].
  intros m [] m' Hreach [[[[_ Hdel] Htask] Hplan] Hitems] Hb _. simpl in *.
  destruct Hdel as [Hid Hdel], Hplan as (m0 & Hr0 & Hs0 & Hp0).
  destruct (lt_plans _ _ (steps_later _ _ Hs0) _ _ Hp0) as (plan' & Hplan & _).
  destruct (decide (plan = plan')) as [<-|Hne]; [|right; by exists m0, (tc_VerificationPlanDigest task), plan, plan'].
  left. eapply (step_verify m delivery task plan items); try done. by rewrite Hid.
Qed.

Lemma serve_review body : serves Writes any (handleCreateReview body).
Proof.
  unfold handleCreateReview. serve.
  rename a into delivery, a0 into verified, a1 into work, a2 into valid, a3 into next.
  match goal with E : ~ (wi_State work <> _ \/ _) |- _ => rename E into Hguard end.
  match goal with E : (if decide _ then _ else _) = Ok next |- _ => rename E into Hnext end.
  match goal with E : ReviewReport_Validate _ = Ok valid |- _ => rename E into Hvalid; destruct valid end.
  match type of Hvalid with ReviewReport_Validate ?r = _ => set (report := r) in * end.
  assert (next = if decide (rv_Result report = ResultPass) then set_wi_State WorkReviewing work else work) as ->.
  { unfold report in *. simpl. revert Hnext. case_decide; [by intros ->%transition_to | by intros [=]]. }
  apply serves_write; [| refuse | done].
  apply once_poll; [done | apply _ |]. apply once_poll; [done | apply _ |].
  apply once_lift. intros _ _. apply once_acquire; [done | apply _ |]. apply once_poll; [done | apply _ |].
  apply once_atomically. intros m [] m' _ [[_ _] Hseen] Hb [Hroom _]. left.
  apply CreateReviewAndUpdateWork_inv in Hb as Hinv.
  destruct Hinv as (vr & d & current & _ & _ & _ & _ & Hcur & (Hver & _) & _).
  assert (works m !! wi_ID work = Some current) as Hcur' by (revert Hcur; by case_decide).
  pose proof (work_current _ _ _ _ Hseen Hcur' Hver) as Hnow.
  eapply (step_review m report work); try done. by eapply Hroom.
Qed.

Lemma serve_closure body : serves Writes any (handleCreateClosure body).
Proof.
  unfold handleCreateClosure. serve.
  rename a into delivery, a0 into report, a1 into reviewReport, a2 into p, a3 into work.
  match goal with E : WorkItem_Transition _ _ = Ok _ |- _ => apply transition_to in E as -> end.
  match goal with E : ~ (r_State p.1 <> _ \/ _) |- _ => rename E into Hdone end.
  match goal with E : ~ (wi_State work <> _ \/ _) |- _ => rename E into Hguard end.
  apply serves_write; [| refuse | done].
  apply once_poll; [done | apply _ |]. apply once_locked; [done | apply _ |].
  intros m [] m' _ [[[[[_ Hdel] Hvr] Hrv] Hrun] Hseen] Hb [Hroom _]. left. guards. simpl in *.
  destruct (run_found _ _ _ Hrun) as (r & s & Hr & Hs & _ & Ht). destruct Hdel as [Hid Hdel].
  apply CreateClosureAndUpdateWork_inv in Hb as Hinv.
  destruct Hinv as (current & rr & _ & Hcur & _ & (Hver & _) & _).
  pose proof (work_current _ _ _ _ Hseen Hcur Hver) as Hnow. destruct Hseen as [Hwid _].
  refine (step_close m _ delivery r work m' _ _ _ _ _ _ _ _ _ _ _ Hb); try done.
  - by eapply Hroom.
  - simpl. by rewrite Hid.
  - rewrite Ht; [done | by left].
Qed.


(** The action routes: the action service writes only the ledger. *)
Definition acted {R} (r : outcome R) (w : World Memory) : Prop :=
  Forall (fun p => ledger_write p.1 p.2) (w_commits w)
  /\ (w_log w = [] \/ exists x, w_log w = [x] /\ claimed_first x (w_commits w) /\ tagged r).

Lemma ledger_writes_good c : Forall (fun p => ledger_write p.1 p.2) c -> Forall good c.
Proof.
  intros Hc. eapply Forall_impl; [exact Hc|].
  intros [m m'] [op [Hop|Hop]] _; left; [by eapply step_reserve | by eapply step_settle].
Qed.

Lemma unresolved_action_error x : errors_is x ErrExternalEffectUnresolved = true -> writeActionError x ∈ unresolved_answers.
Proof. unfold writeActionError, unresolved_answers. intros ->. case_match; set_solver. Qed.

Lemma serves_acts {R} (n : M Memory R) (f : R -> Response) :
  (forall a, acknowledges (f a) = true) -> hoare e (holding any) n acted ->
  serves Acts any (try_else n (fun x => mret (writeActionError x)) (fun a => answer (f a))).
Proof.
  intros Hf Hn w Hw. specialize (Hn w Hw). unfold try_else.
  assert (forall x, refuses (writeActionError x) = true) as Hh by refuse.
  destruct (n e w) as [[a|x] w'], Hn as [Hg Hl]; [exists (f a) | exists (writeActionError x)];
    (split; [done|]); (split; [auto|]); (split; [by apply ledger_writes_good|]); (split; [exact Hg|]);
    (destruct Hl as [|(y & Hy & Hc & Ht)]; [by left | right; exists y; split; [done|]; split; [done|]]).
  - left. apply Hf.
  - right. by apply unresolved_action_error, Ht.
Qed.

Lemma holding_before w : holding any w -> tr (before_effect ledger_write) w.
Proof. intros (_ & _ & Hc & Hl). unfold tr, before_effect, writes. by rewrite Hc, Hl. Qed.

Lemma acts_execute prov req : hoare e (holding any) (Service_Execute (core_service prov) req) acted.
Proof.
  eapply hoare_conseq; [eapply (hoare_Execute ledger e Memory_repository ledger_write (fun _ => True)) | apply holding_before |];
    try apply _; try (by intros).
  intros r w [Hw Hl]. split; [exact Hw|]. destruct Hl as [-> | (-> & Hc & Ht)]; [by left | right; by eexists].
Qed.

Lemma acts_reconcile prov id : hoare e (holding any) (Service_Reconcile (core_service prov) id) acted.
Proof.
  eapply hoare_conseq; [eapply (hoare_Reconcile ledger e Memory_repository ledger_write (fun _ => True)) | apply holding_before |];
    try apply _; try (by intros).
  intros r w [Hw Hl]. split; [exact Hw|]. destruct Hl as [-> | (x & -> & Ht)]; [by left | right; by eexists].
Qed.

Lemma serves_shown_silent {R} (n : M Memory R) (h : goerr -> Response) (f : R -> Response) : Silent n ->
  (forall x, refuses (h x) = true) -> (forall a, acknowledges (f a) = true) ->
  serves Reads any (try_else n (fun x => mret (h x)) (fun a => answer (f a))).
Proof.
  intros Sn Hh Hf w (_ & _ & Hc & Hl). unfold try_else. destruct (Sn e w) as [El Ec _].
  destruct (n e w) as [[a|x] w']; simpl in *; [exists (f a) | exists (h x)];
    rewrite Ec, El, Hc, Hl; split_and!; auto.
Qed.

Lemma serve_actions prov id body :
  serves Acts any (handleCreateAction (core_service <$> prov) id body)
  /\ serves Acts any (handleReconcileAction (core_service <$> prov) id)
  /\ serves Reads any (handleGetAction (core_service <$> prov) id).
Proof.
  destruct prov as [prov|]; simpl; [|split_and!; by apply serves_refusal]. split_and!.
  - unfold handleCreateAction. serve. destruct (car_RecoveryEpoch _); serve.
    apply serves_acts; [done | apply acts_execute].
  - apply serves_acts; [done | apply acts_reconcile].
  - apply serves_shown_silent; [| refuse | done]. unfold getActionForRequest, for_request, Service_GetContext. simpl. apply _.
Qed.

End handlers.

(** What the route of each request may do. *)
Definition kind_of (c : call_to) : kind :=
  match c with
  | ToBeginRecovery _ | ToCompleteRecovery _ | ToCreateWork _ | ToCreateTask _ | ToCreateRun _ | ToTakeover _ _
  | ToCreateCheckpoint _ _ | ToCreateDelivery _ | ToCreateEvidence _ | ToCreateVerification _ | ToCreateReview _
  | ToCreateClosure _ => Writes
  | ToPause _ _ | ToResume _ _ | ToCompleteRun _ _ => WritesThenReads
  | ToCreateAction _ _ | ToReconcileAction _ => Acts
  | _ => Reads
  end.

Lemma serve_routes `{Hash} e who prov c : lawful e ->
  serves e (kind_of c) (fun _ => True) (routes who (core_service <$> prov) c).
Proof.
  intros Hl. pose proof (serve_readers e Hl who (core_service <$> prov) c) as Hread.
  destruct c; try exact Hread; clear Hread;
    first [ by apply serve_begin_recovery | by apply serve_complete_recovery | by apply serve_create_work
          | by apply serve_freeze | by apply serve_start | by apply serve_complete | by apply serve_checkpoint
          | by apply serve_delivery | by apply serve_evidence | by apply serve_verification
          | by apply serve_review | by apply serve_closure | idtac ].
  - destruct (serve_control e Hl id body) as (Hs & _ & _). exact Hs.
  - destruct (serve_control e Hl id body) as (_ & Hs & _). exact Hs.
  - destruct (serve_control e Hl id body) as (_ & _ & Hs). exact Hs.
  - destruct (serve_actions e Hl prov id body) as (Hs & _ & _). exact Hs.
  - destruct (serve_actions e Hl prov id None) as (_ & _ & Hs). exact Hs.
  - destruct (serve_actions e Hl prov id None) as (_ & Hs & _). exact Hs.
Qed.

(** ** Properties *)

(** C1: the request handlers implement the lifecycle: whatever the request,
    whatever steps other requests take while it is served, and whenever its
    context ends, each write of a handler of the server is a step of the
    authority's state machine (as long as version counters have room, and
    unless a stored plan has been replaced by a different one of the same
    digest). *)
Theorem handlers_refine_lifecycle `{Hash} who prov c e m p : lawful e -> reachable m ->
  p ∈ w_commits (routes who (core_service <$> prov) c e (start m)).2 ->
  headroom p.1 -> step p.1 p.2 \/ plan_replaced p.1.
Proof.
  intros Hl Hr Hp. destruct (routes _ _ c e (start m)) as [r w'] eqn:E.
  pose proof (serve_routes e who prov c Hl (start m)) as Hs. rewrite E in Hs.
  destruct Hs as (rs & _ & _ & Hg & _); [by split_and!|]. rewrite Forall_forall in Hg. by apply Hg.
Qed.

(** C24: every request is answered, and how the answer relates to what was done.
    A read writes nothing and makes no effect, whatever it answers.  A creation
    or a takeover writes exactly once if it is acknowledged and not at all if it
    is refused.  Pause, resume and completion write at most once, and exactly
    once if acknowledged; a refusal leaves open whether they did, since their
    read-back may be refused after the write.  None of these makes an effect.
    An action route writes the ledger only, and makes at most one effect, and
    a dispatch only after one of its writes claimed that very operation; once
    it made an effect it answers with the receipt or with one of the two
    answers that demand a read-back, so that any other refusal means that
    nothing was done outside. *)
Theorem handlers_answer `{Hash} who prov c e m : lawful e -> reachable m ->
  exists rs w', routes who (core_service <$> prov) c e (start m) = (Ok rs, w') /\
  match kind_of c with
  | Reads => w_commits w' = [] /\ w_log w' = []
  | Writes => length (w_commits w') = (if acknowledges rs then 1 else 0) /\ w_log w' = []
  | WritesThenReads =>
    length (w_commits w') <= 1 /\ (acknowledges rs = true -> length (w_commits w') = 1) /\ w_log w' = []
  | Acts =>
    Forall (fun p => ledger_write p.1 p.2) (w_commits w')
    /\ (w_log w' = []
        \/ exists x, w_log w' = [x] /\ claimed_first x (w_commits w') /\ (acknowledges rs = true \/ rs ∈ unresolved_answers))
  end.
Proof.
  intros Hl Hr. destruct (routes _ _ c e (start m)) as [r w'] eqn:E.
  pose proof (serve_routes e who prov c Hl (start m)) as Hs. rewrite E in Hs.
  destruct Hs as (rs & -> & _ & _ & Hk); [by split_and!|]. by exists rs, w'.
Qed.

(** No handler leaks a diagnostic: an answer that is not an
    acknowledgement has an error status, and an error text is one of the fixed
    public messages, whatever the store, the provider, the context or the
    request put into the underlying error. *)
Theorem handlers_never_echo `{Hash} who prov c e m rs msg w' : lawful e -> reachable m ->
  routes who (core_service <$> prov) c e (start m) = (Ok rs, w') -> acknowledges rs = false ->
  (400 <= rs_Status rs)%N /\ (rs_Body rs = PError msg -> msg ∈ public_messages).
Proof.
  intros Hl Hr E Ha. pose proof (serve_routes e who prov c Hl (start m)) as Hs. rewrite E in Hs.
  destruct Hs as (rs' & [= <-] & Hok & _); [by split_and!|]. rewrite Ha in Hok. destruct Hok as [|Hok]; [done|].
  unfold refuses in Hok. destruct (rs_Body rs) eqn:Hb; try done.
  - apply andb_true_iff in Hok as [Hs Hm]. apply N.leb_le in Hs. apply bool_decide_eq_true in Hm.
    split; [done|]. by intros [= <-].
  - apply N.leb_le in Hok. done.
Qed.

Lemma quiet_lawful `{Hash} clock : lawful (quiet_env clock).
Proof. intros n m _. apply rtc_refl. Qed.

Lemma handlers_refine_lifecycle_witness : step NewMemory m1 \/ plan_replaced NewMemory.
Proof.
  apply (handlers_refine_lifecycle None None (ToCreateWork (Some work0)) (quiet_env (fun _ => demo_time)) NewMemory
    (NewMemory, m1)).
  - apply quiet_lawful.
  - apply rtc_refl.
  - apply list_elem_of_here.
  - split; intros ? ? Hl; discriminate Hl.
Defined.

Definition review_call : call_to := ToCreateReview (Some (mkCreateReview "RV1" "D1" "V1" "rene" ResultPass [] [])).

Lemma handlers_answer_witness :
  length (w_commits (routes None None review_call (quiet_env (fun _ => demo_time)) (start m7)).2) = 1.
Proof.
  destruct (handlers_answer None None review_call (quiet_env (fun _ => demo_time)) m7) as (rs & w' & E & Hk & _).
  - apply quiet_lawful.
  - exact reachable_m7.
  - change (routes None None) with (routes None (core_service <$> None)). rewrite E. simpl snd. rewrite Hk.
    assert ((routes None (core_service <$> None) review_call (quiet_env (fun _ => demo_time)) (start m7)).1
      = Ok (writeJSON StatusCreated (PReview review0))) as E1 by (vm_compute; reflexivity).
    rewrite E in E1. injection E1 as ->. reflexivity.
Defined.

Lemma handlers_never_echo_witness : public_message 404 ∈ public_messages.
Proof.
  set (w' := (routes None None (ToGetWork "W2") (quiet_env (fun _ => demo_time)) (start m1)).2).
  apply (handlers_never_echo None None (ToGetWork "W2") (quiet_env (fun _ => demo_time)) m1
    (writePublicError StatusNotFound) (public_message 404) w').
  - apply quiet_lawful.
  - eapply rtc_l, rtc_refl. exact demo1.
  - unfold w'. change (core_service <$> None) with (None (A := Service Memory)).
    apply pair_eq. split; [vm_compute; reflexivity | reflexivity].
  - reflexivity.
  - reflexivity.
Defined.
