(* ===== verification/Scenario.v ===== *)
(** One work item through the request handlers, computed: every handler of
    the lifecycle once, with the refusals a careless client meets. *)
From S2P Require Import Prelude Effects Canonical Core Run Session Recovery Verification Review Material Routing Embedded Action Store Demo Gateway Api.

(** Requests served one after the other: the status of each answer and the
    final state. *)
Fixpoint serve_all `{Hash} (prov : option Provider) (calls : list call_to) (m : Memory) : list N * Memory :=
  match calls with
  | [] => ([], m)
  | c :: rest =>
    let '(r, w) := routes None (core_service <$> prov) c (quiet_env (fun _ => demo_time)) (start m) in
    let '(statuses, m') := serve_all prov rest (w_state w) in
    (match r with Ok rs => rs_Status rs | Err _ => 0%N end :: statuses, m')
  end.

Definition scenario_work : WorkItem := mkWorkItem "W1" "boot failure" "" "olga" "board-1" "" "" "" "" 0 0%Z.
Definition scenario_material : Manifest := mkManifest "" "repo" "0123456789abcdef0123456789abcdef01234567" "board-1"
  ["board boots"] true true false "" "" "" "".
Definition scenario_contract : TaskContract :=
  mkTaskContract "T1" "W1" "DEBUG" [] [] "" 0 "" "" "" "" [] ["publish"] [] "" "" 0.
Definition scenario_task : createTaskRequest :=
  mkCreateTask scenario_contract scenario_material "linux" None plan0.
Definition frozen_digest : string := Eval vm_compute in
  match freeze scenario_task scenario_work with inr (_, d, _, _) => d | inl _ => "" end.
Definition scenario_input : RunInputManifest := mkRunInput None "" "" [] "rt" "tool" "worker" "policy".
Definition scenario_evidence : EvidenceRef := mkEvidenceRef "E1" "" "R1" "" "lab" "boot-test" "PASS" ["log-1"] true.

Definition scenario : list call_to := [
  ToCreateWork (Some scenario_work);
  ToCreateWork (Some scenario_work);                                       (* exists *)
  ToCreateTask None;                                                       (* not JSON *)
  ToCreateRun (Some (mkCreateRun "run-1" frozen_digest "A1" scenario_input)); (* no such contract *)
  ToCreateTask (Some scenario_task);
  ToCreateRun (Some (mkCreateRun "run-1" frozen_digest "A1" scenario_input));
  ToPause "run-1" (Some 7%N);                                              (* stale epoch *)
  ToPause "run-1" (Some 1%N);
  ToResume "run-1" (Some 1%N);
  ToTakeover "run-1" (Some 1%N);
  ToPause "run-1" (Some 1%N);                                              (* fenced by the takeover *)
  ToCreateDelivery (Some (mkCreateDelivery "D1" "run-1" "commit" [] []));  (* not completed *)
  ToCreateCheckpoint "run-1" (Some (mkCreateCheckpoint "K1" 2 "tree" "" "" [] [] [] 0 ""));
  ToCompleteRun "run-1" (Some 2%N);
  ToCreateDelivery (Some (mkCreateDelivery "D1" "run-1" "commit" [mkArtifactRef "log-1" "sha256:00" "" ""] []));
  ToCreateEvidence (Some (mkCreateEvidence "D1" scenario_evidence));
  ToCreateVerification (Some (mkCreateVerification "V0" "D1" "vera" []));  (* evidence is missing *)
  ToCreateVerification (Some (mkCreateVerification "V1" "D1" "vera" ["E1"]));
  ToCreateReview (Some (mkCreateReview "RV0" "D1" "V1" "vera" "PASS" [] [])); (* not independent *)
  ToCreateReview (Some (mkCreateReview "RV1" "D1" "V1" "rene" "PASS" [] []));
  ToCreateClosure (Some (mkCreateClosure "CL0" "D1" "V0" "RV1"));          (* failed verification *)
  ToCreateClosure (Some (mkCreateClosure "CL1" "D1" "V1" "RV1"));
  ToCreateReview (Some (mkCreateReview "RV2" "D1" "V1" "rene" "PASS" [] [])) (* closed *)
].

(** The handlers take a work item from creation to closure: each
    well-formed request of the scenario is acknowledged in turn, each careless
    one (a duplicate, an unknown contract, a stale epoch, a run fenced by a
    takeover, a delivery of a running run, a failed verification, a reviewer
    who is the verifier, a closure over a failed verification, a review after
    the closure) is refused with its own status, and the work ends CLOSED. *)
Theorem scenario_served :
  (serve_all None scenario NewMemory).1 =
    [201; 409; 400; 404; 201; 201; 409; 200; 200; 200; 409; 409; 201; 200; 201; 201; 422; 201; 422; 201; 422; 201; 409]%N
  /\ (wi_State <$> works (serve_all None scenario NewMemory).2 !! "W1") = Some WorkClosed.
Proof. split; vm_compute; reflexivity. Qed.
