(* ===== verification/Db.v ===== *)
(** [internal/store/postgres]: the tables of the worker side and their
    transactions.

    The core tables are those of [Store.Memory].  The worker tables are maps
    from their primary (or unique) keys to rows; a [jsonb] column that holds a
    document the program wrote holds that document.  A transaction is a
    function of the tables, run as one atomic step: the rows it depends on are
    locked ([FOR UPDATE], [FOR SHARE]) or tested again by the statement that
    writes.  It ends in a commit or, when it returns without one, is rolled
    back, as it is when a statement fails; and a commit whose answer is lost
    may or may not have happened. *)
From S2P Require Import Prelude Canonical Json Core Run Session Recovery Verification Action Store Binding Journal WorkerQueue Preparation Control Sandbox Offline Codex.

(** ** Rows *)

Record InboxRow := mkInboxRow {
  ib_OutboxKey : string; ib_RunID : string; ib_IntentDigest : string; ib_Intent : Intent; ib_Profile : string;
  ib_State : string; ib_Owner : option string; ib_Generation : N; ib_RecoveryEpoch : option N;
  ib_StartedAt : option time; ib_Until : option time; ib_Receipt : option Receipt
}.

(** [worker_offline_executions] and [worker_codex_executions] have the same columns. *)
Record ExecRow (P R : Type) := mkExecRow {
  ex_ID : string; ex_InboxID : Z; ex_Worker : string; ex_Token : ExecToken; ex_Profile : P; ex_Preparation : string;
  ex_State : string; ex_StartedAt : time; ex_Until : time; ex_Receipt : option R;
  ex_Reconciled : option ExecutionAbandonReceipt
}.
Arguments mkExecRow {_ _} _ _ _ _ _ _ _ _ _ _ _.
Arguments ex_ID {_ _} _. Arguments ex_InboxID {_ _} _. Arguments ex_Worker {_ _} _. Arguments ex_Token {_ _} _.
Arguments ex_Profile {_ _} _. Arguments ex_Preparation {_ _} _. Arguments ex_State {_ _} _.
Arguments ex_StartedAt {_ _} _. Arguments ex_Until {_ _} _. Arguments ex_Receipt {_ _} _. Arguments ex_Reconciled {_ _} _.

Record RuntimeRow := mkRuntimeRow {
  ru_Binding : ControlBinding; ru_State : string; ru_Transcript : option ControlTranscript; ru_Digest : option string
}.
(** A live row of [steering_commands]; the digest-only rows are [steeringCommands] of the core. *)
Record SteeringRow := mkSteeringRow {
  sw_Command : SteeringCommand; sw_Execution : string; sw_Payload : ControlPayload; sw_State : string;
  sw_DispatchedAt : option time; sw_ResolvedAt : option time
}.
Record PreparationRow := mkPreparationRow { pw_RunID : string; pw_Receipt : PreparationReceipt }.
Record WorkerRow := mkWorkerRow { wk_Profile : string; wk_SeenAt : time }.
(** [outbox_events], by the identity column; a text column that may be [NULL] holds the empty string. *)
Record OutboxRow := mkOutboxRow {
  ob_Key : string; ob_Topic : string; ob_AggregateType : string; ob_AggregateID : string; ob_RiskClass : string;
  ob_Payload : jval; ob_State : string; ob_Owner : option string; ob_Until : option time; ob_Epoch : option N;
  ob_Attempts : N; ob_NextAttempt : time; ob_LastError : string; ob_CreatedAt : time; ob_DispatchedAt : option time
}.

Record Db := mkDb {
  core : Memory;
  workers : gmap string WorkerRow;
  inbox : gmap Z InboxRow;
  prepared : gmap Z PreparationRow;
  offline_rows : gmap string (ExecRow OfflineProfile OfflineReceipt);
  codex_rows : gmap string (ExecRow CodexProfile CodexReceipt);
  runtimes : gmap string RuntimeRow;
  controls : gmap string SteeringRow;
  snapshots : gmap string (SourceCheckpoint * string);
  journal : list Event;
  outbox : gmap Z OutboxRow;
  continued : gmap string ContinuationReceipt
}.

Definition set_core v d := mkDb v (workers d) (inbox d) (prepared d) (offline_rows d) (codex_rows d) (runtimes d) (controls d) (snapshots d) (journal d) (outbox d) (continued d).
Definition set_workers v d := mkDb (core d) v (inbox d) (prepared d) (offline_rows d) (codex_rows d) (runtimes d) (controls d) (snapshots d) (journal d) (outbox d) (continued d).
Definition set_inbox v d := mkDb (core d) (workers d) v (prepared d) (offline_rows d) (codex_rows d) (runtimes d) (controls d) (snapshots d) (journal d) (outbox d) (continued d).
Definition set_prepared v d := mkDb (core d) (workers d) (inbox d) v (offline_rows d) (codex_rows d) (runtimes d) (controls d) (snapshots d) (journal d) (outbox d) (continued d).
Definition set_offline v d := mkDb (core d) (workers d) (inbox d) (prepared d) v (codex_rows d) (runtimes d) (controls d) (snapshots d) (journal d) (outbox d) (continued d).
Definition set_codex v d := mkDb (core d) (workers d) (inbox d) (prepared d) (offline_rows d) v (runtimes d) (controls d) (snapshots d) (journal d) (outbox d) (continued d).
Definition set_runtimes v d := mkDb (core d) (workers d) (inbox d) (prepared d) (offline_rows d) (codex_rows d) v (controls d) (snapshots d) (journal d) (outbox d) (continued d).
Definition set_controls v d := mkDb (core d) (workers d) (inbox d) (prepared d) (offline_rows d) (codex_rows d) (runtimes d) v (snapshots d) (journal d) (outbox d) (continued d).
Definition set_snapshots v d := mkDb (core d) (workers d) (inbox d) (prepared d) (offline_rows d) (codex_rows d) (runtimes d) (controls d) v (journal d) (outbox d) (continued d).
Definition set_journal v d := mkDb (core d) (workers d) (inbox d) (prepared d) (offline_rows d) (codex_rows d) (runtimes d) (controls d) (snapshots d) v (outbox d) (continued d).
Definition set_outbox v d := mkDb (core d) (workers d) (inbox d) (prepared d) (offline_rows d) (codex_rows d) (runtimes d) (controls d) (snapshots d) (journal d) v (continued d).
Definition set_continued v d := mkDb (core d) (workers d) (inbox d) (prepared d) (offline_rows d) (codex_rows d) (runtimes d) (controls d) (snapshots d) (journal d) (outbox d) v.

(** ** Transactions *)

Record TxEnv := mkTxEnv {
  tx_clock : nat -> time;          (* clock_timestamp(), at each evaluation *)
  tx_nonce : string;               (* hex of 32 random bytes *)
  tx_locked : Z -> bool;           (* inbox rows another transaction holds: SKIP LOCKED *)
  tx_migrated : N -> bool          (* core_schema_migrations *)
}.

Definition txn (A : Type) : Type := TxEnv -> Db -> nat -> outcome (A * Db * nat).
#[export] Instance txn_ret : MRet txn := fun A a _ d n => Ok (a, d, n).
#[export] Instance txn_bind : MBind txn := fun A B f m e d n =>
  match m e d n with Ok (a, d', n') => f a e d' n' | Err x => Err x end.

Definition refuse {A} (x : goerr) : txn A := fun _ _ _ => Err x.
Definition of_outcome {A} (o : outcome A) : txn A := fun _ d n => match o with Ok a => Ok (a, d, n) | Err x => Err x end.
Definition gets {A} (f : Db -> A) : txn A := fun _ d n => Ok (f d, d, n).
Definition modify (f : Db -> Db) : txn unit := fun _ d n => Ok (tt, f d, n).
Definition asks {A} (f : TxEnv -> A) : txn A := fun e d n => Ok (f e, d, n).
Definition clock_timestamp : txn time := fun e d n => Ok (tx_clock e n, d, S n).
(** [v, err := m()]: the error is inspected; the modelled uses only read. *)
Definition attempt {A} (m : txn A) : txn (outcome A) := fun e d n =>
  match m e d n with Ok (a, d', n') => Ok (Ok a, d', n') | Err x => Ok (Err x, d, n) end.
Definition require (P : Prop) `{Decision P} (x : goerr) : txn unit := if decide P then mret tt else refuse x.

(** How a transaction's function returns: after [commitAuthority], or without it. *)
Inductive verdict (A : Type) := Commit (a : A) | Discard (a : A).
Arguments Commit {_} _.
Arguments Discard {_} _.

(** What became of the COMMIT: acknowledged, or an error, with or without effect. *)
Inductive commit_answer := Acknowledged | Lost (applied : bool) (cause : goerr).

(** [classifyCommitError] and [commitAuthority] of [commit_outcome.go]. *)
Definition classifyCommitError (cause : goerr) : goerr := EWrap2 ErrCommitOutcomeUnknown cause.

(** A method of the store: its transaction, then the deferred rollback. *)
Definition transact {A} (body : txn (verdict A)) (e : TxEnv) (c : commit_answer) (d : Db) : outcome A * Db :=
  match body e d 0 with
  | Err x => (Err x, d)
  | Ok (Discard a, _, _) => (Ok a, d)
  | Ok (Commit a, d', _) =>
    match c with
    | Acknowledged => (Ok a, d')
    | Lost applied cause => (Err (classifyCommitError cause), if applied then d' else d)
    end
  end.

(** ** Statements and helpers the methods share *)

Definition pgx_ErrNoRows : goerr := ESentinel "pgx.ErrNoRows" "no rows in result set".
(** What a statement may be refused for: a unique constraint, a foreign key, a
    CHECK constraint, an integer out of range; and a parameter that does not
    fit its column, which the driver refuses. *)
Definition pg_unique : goerr := ENew "SQLSTATE 23505".
Definition pg_foreign : goerr := ENew "SQLSTATE 23503".
Definition pg_check : goerr := ENew "SQLSTATE 23514".
Definition pg_range : goerr := ENew "SQLSTATE 22003".
Definition pgx_Range : goerr := ENew "greater than maximum value for int64".
(** A [bigint] holds no larger [uint64]. *)
Definition int64_max : N := 9223372036854775807.

Definition mapReadError (x : goerr) : goerr := if errors_is x pgx_ErrNoRows then ErrNotFound else x.
Definition mapWriteError (x : goerr) : goerr :=
  if decide (x = pg_unique) then ErrExists
  else if decide (x = pg_foreign \/ x = pg_check) then ErrConflict else x.
Definition map_error {A} (f : goerr -> goerr) (m : txn A) : txn A := fun e d n =>
  match m e d n with Ok r => Ok r | Err x => Err (f x) end.

(** [QueryRow(...).Scan(...)] of at most one row. *)
Definition row {A} (o : option A) : txn A := of_outcome (of_option pgx_ErrNoRows o).

Section helpers.
Context `{Hash}.

Definition auditInput (eventType aggregateType aggregateID : string) (payload : jval) : outcome Input :=
  digest ← Digest payload;
  Ok (mkInput eventType aggregateType aggregateID digest "" "").

(** [audit_journal_state] holds the number and the digest of the last event. *)
Definition appendAudit (input : Input) (now : time) : txn Event :=
  head ← gets (fun d => match last (journal d) with Some ev => (e_Sequence ev, e_Digest ev) | None => (0%N, "") end);
  event ← map_error (fun x => EWrap "build audit event: " x "") (of_outcome (Build (u64_succ head.1) head.2 input now));
  _ ← modify (fun d => set_journal (journal d ++ [event]) d);
  mret event.

(** The event's time is the server's clock; no digest covers it. *)
Definition workerAudit (event runID : string) (value : jval) : txn unit :=
  record ← of_outcome (auditInput event "Run" runID value);
  now ← clock_timestamp;
  _ ← appendAudit record now;
  mret tt.

(** ** worker_store.go: what the methods read *)

Record inboxRecord := mkInboxRecord {
  bx_id : Z; bx_runID : string; bx_state : string; bx_owner : string; bx_digest : string; bx_profile : string;
  bx_generation : N; bx_epoch : N; bx_intent : Intent; bx_receipt : option Receipt
}.

Definition scanInbox (r : option (Z * InboxRow)) : txn inboxRecord :=
  '(i, b) ← row r;
  match Intent_Digest (ib_Intent b) with
  | Ok d =>
    if decide (d <> ib_IntentDigest b \/ it_RunID (ib_Intent b) <> ib_RunID b) then refuse wq_ErrIdentity else
    mret (mkInboxRecord i (ib_RunID b) (ib_State b) (default "" (ib_Owner b)) (ib_IntentDigest b) (ib_Profile b)
      (ib_Generation b) (default 0%N (ib_RecoveryEpoch b)) (ib_Intent b) (ib_Receipt b))
  | Err _ => refuse wq_ErrIdentity
  end.

Definition inbox_token (r : inboxRecord) : Token := mkToken (bx_profile r) (bx_id r) (bx_generation r) (bx_epoch r).

(** [WHERE inbox_id=$1] and [WHERE run_id=$1] (unique). *)
Definition inbox_by_id (i : Z) (d : Db) : option (Z * InboxRow) := (fun b => (i, b)) <$> inbox d !! i.
Definition inbox_by_run (run : string) (d : Db) : option (Z * InboxRow) :=
  head (filter (fun p => ib_RunID p.2 = run) (map_to_list (inbox d))).

Definition lockWorkerPlatform : txn (N * string) :=
  p ← gets (fun d => recoveryState (core d));
  if decide (m_Mode p <> "NORMAL" /\ m_Mode p <> "RECOVERY_RECONCILIATION") then refuse ErrRecovery
  else mret (m_Epoch p, m_Mode p).

Definition workerRunActive (r : inboxRecord) : txn unit :=
  run ← gets (fun d => runs (core d) !! bx_runID r) ≫= row;
  sess ← gets (fun d => sessions (core d) !! bx_runID r) ≫= row;
  if decide (r_CurrentEpoch run <> it_ExecutionEpoch (bx_intent r) \/ r_TaskContractDigest run <> it_TaskDigest (bx_intent r)
             \/ r_RunInputManifestDigest run <> it_InputDigest (bx_intent r) \/ s_ExecutionEpoch sess <> r_CurrentEpoch run)
  then refuse wq_ErrIdentity else
  if decide (r_ControlOwner run <> "RUNTIME" \/ s_Owner sess <> "RUNTIME"
             \/ (r_State run <> "RUNNING" /\ r_State run <> "PAUSED"))
  then refuse ErrInactive else
  if decide (r_State run = "PAUSED" \/ s_Paused sess = true) then refuse ErrPaused else mret tt.

(** [run_input_manifests m JOIN task_contracts t]: the columns repeat the documents. *)
Definition input_and_task (inputDigest run : string) (d : Db) : option (RunInputManifest * TaskContract) :=
  m ← runInputs (core d) !! inputDigest;
  t ← tasksByDigest (core d) !! ri_TaskContractDigest m;
  if decide (ri_RunID m = run) then Some (m, t) else None.

Definition loadWorkerAssignment (r : inboxRecord) : txn Assignment :=
  '(m, t) ← gets (input_and_task (it_InputDigest (bx_intent r)) (bx_runID r)) ≫= row;
  let a := mkAssignment (inbox_token r) zero_time (bx_intent r) (bx_digest r) m t in
  if decide (ri_WorkerProfile m <> bx_profile r) then refuse wq_ErrIdentity else
  _ ← of_outcome (Validate a);
  mret a.

End helpers.

Definition write_inbox (i : Z) (b : InboxRow) : txn unit := modify (fun d => set_inbox (<[i := b]> (inbox d)) d).
