(* ===== verification/WorkerStore.v ===== *)
(** [worker_store.go], [insertWorkerIntent] of [worker_relay.go] and
    [preparation_store.go] of [internal/store/postgres]: the worker inbox.

    An intent to run waits in the inbox until a worker claims it under a lease;
    the lease's token names the row, its generation and the recovery epoch.
    The worker renews the lease and reports what it validated or prepared; the
    report ends the lease and leaves a receipt. *)
From S2P Require Import Prelude Canonical Json Core Run Session Recovery Verification Action Store Binding Journal WorkerQueue Preparation Control Sandbox Offline Codex Db.

Definition seconds (n : Z) : Z := (n * 1000000000)%Z.

(** [ORDER BY inbox_id]. *)
Definition by_id (p q : Z * InboxRow) : Prop := (p.1 <= q.1)%Z.
#[export] Instance by_id_dec p q : Decision (by_id p q).
Proof. unfold by_id. apply _. Defined.

Section worker_store.
Context `{Hash}.

(** The payload of the claim and renewal events. *)
Definition lease_json (subject : string) (t : Token) : jval := JObj (jstr "worker_subject" subject ++ [("token", Token_json t)]).

(** ** Claiming *)

Definition expired (t : time) (b : InboxRow) : bool := match ib_Until b with Some u => bool_decide (u <= t)%Z | None => false end.
(** [lease_until > clock_timestamp()]. *)
Definition holds_lease (t : time) (b : InboxRow) : bool := match ib_Until b with Some u => bool_decide (t < u)%Z | None => false end.
Definition busy_lease (subject : string) (t : time) (b : InboxRow) : bool :=
  bool_decide (ib_State b = "LEASED") && bool_decide (ib_Owner b = Some subject) && holds_lease t b.

(** The run of the intent is paused in the intent's own epoch. *)
Definition deferred (d : Db) (b : InboxRow) : bool :=
  match runs (core d) !! ib_RunID b, sessions (core d) !! ib_RunID b with
  | Some r, Some s =>
    bool_decide (r_CurrentEpoch r = it_ExecutionEpoch (ib_Intent b)) && bool_decide (r_ControlOwner r = "RUNTIME")
    && (bool_decide (r_State r = "PAUSED") || (bool_decide (r_State r = "RUNNING") && s_Paused s))
  | _, _ => false
  end.

Definition claimable (profile : string) (locked : Z -> bool) (t : time) (d : Db) (p : Z * InboxRow) : bool :=
  bool_decide (ib_Profile p.2 = profile)
  && (bool_decide (ib_State p.2 = "PENDING") || (bool_decide (ib_State p.2 = "LEASED") && expired t p.2))
  && negb (deferred d p.2) && negb (locked p.1).

(** [ORDER BY inbox_id LIMIT 1 FOR UPDATE OF i SKIP LOCKED]. *)
Definition candidate (profile : string) (locked : Z -> bool) (t : time) (d : Db) : option (Z * InboxRow) :=
  head (merge_sort by_id (filter (fun p => claimable profile locked t d p = true) (map_to_list (inbox d)))).

Definition leased (subject : string) (generation epoch : N) (started until : time) (b : InboxRow) : InboxRow :=
  mkInboxRow (ib_OutboxKey b) (ib_RunID b) (ib_IntentDigest b) (ib_Intent b) (ib_Profile b) "LEASED" (Some subject)
    generation (Some epoch) (Some started) (Some until) (ib_Receipt b).
Definition revoked (b : InboxRow) : InboxRow :=
  mkInboxRow (ib_OutboxKey b) (ib_RunID b) (ib_IntentDigest b) (ib_Intent b) (ib_Profile b) "REVOKED" None
    (ib_Generation b) (ib_RecoveryEpoch b) (ib_StartedAt b) None (ib_Receipt b).
Definition set_until (until : time) (b : InboxRow) : InboxRow :=
  mkInboxRow (ib_OutboxKey b) (ib_RunID b) (ib_IntentDigest b) (ib_Intent b) (ib_Profile b) (ib_State b) (ib_Owner b)
    (ib_Generation b) (ib_RecoveryEpoch b) (ib_StartedAt b) (Some until) (ib_Receipt b).
Definition validated (r : Receipt) (b : InboxRow) : InboxRow :=
  mkInboxRow (ib_OutboxKey b) (ib_RunID b) (ib_IntentDigest b) (ib_Intent b) (ib_Profile b) "INPUT_VALIDATED" (ib_Owner b)
    (ib_Generation b) (ib_RecoveryEpoch b) (ib_StartedAt b) None (Some r).

(** The assignment, if one was claimed, and whether a dead intent was revoked. *)
Definition claimInput (subject profile : string) : txn (verdict (option Assignment * bool)) :=
  '(epoch, mode) ← lockWorkerPlatform;
  if decide (mode <> "NORMAL") then refuse ErrRecovery else
  seen ← clock_timestamp;
  _ ← modify (fun d => set_workers (<[subject := mkWorkerRow profile seen]> (workers d)) d);
  t ← clock_timestamp;
  busy ← gets (fun d => existsb (busy_lease subject t) (map_to_list (inbox d)).*2);
  if (busy : bool) then mret (Commit (None, false)) else
  t ← clock_timestamp;
  locked ← asks tx_locked;
  found ← gets (candidate profile locked t);
  match found with
  | None => mret (Commit (None, false))
  | Some (i, b) =>
    r ← scanInbox (Some (i, b));
    active ← attempt (workerRunActive r);
    match active with
    | Err x =>
      if errors_is x ErrPaused then mret (Discard (None, false)) else
      if negb (errors_is x wq_ErrIdentity) && negb (errors_is x ErrInactive) then refuse x else
      _ ← write_inbox i (revoked b);
      _ ← workerAudit "worker.input.revoked" (bx_runID r) (Intent_json (bx_intent r));
      mret (Commit (None, true))
    | Ok _ =>
      let r := mkInboxRecord (bx_id r) (bx_runID r) (bx_state r) subject (bx_digest r) (bx_profile r)
                 (u64_succ (bx_generation r)) epoch (bx_intent r) (bx_receipt r) in
      a ← loadWorkerAssignment r;
      started ← clock_timestamp;
      t ← clock_timestamp;
      let until := (t + seconds 30)%Z in
      _ ← require (bx_generation r <= int64_max)%N pgx_Range;
      _ ← write_inbox i (leased subject (bx_generation r) epoch started until b);
      _ ← workerAudit "worker.input.claimed" (bx_runID r) (lease_json subject (as_Token a));
      mret (Commit (Some (mkAssignment (as_Token a) until (as_Intent a) (as_IntentDigest a) (as_Input a) (as_Task a)), false))
    end
  end.

(** At most sixteen transactions, each with its own environment; [between] is
    what other clients do before the next one. *)
Fixpoint claim_loop (n : nat) (subject profile : string) (env : nat -> TxEnv) (answer : nat -> commit_answer)
    (between : nat -> Db -> Db) (d : Db) : outcome (option Assignment) * Db :=
  match n with
  | O => (Ok None, d)
  | S n =>
    match transact (claimInput subject profile) (env n) (answer n) d with
    | (Err x, d') => (Err x, d')
    | (Ok (a, revoked), d') =>
      if (revoked : bool) then claim_loop n subject profile env answer between (between n d') else (Ok a, d')
    end
  end.
Definition ClaimInput (subject profile : string) (env : nat -> TxEnv) (answer : nat -> commit_answer)
    (between : nat -> Db -> Db) (d : Db) : outcome (option Assignment) * Db :=
  if decide (subject = "" \/ 256 < str_len subject \/ ValidProfile profile = false) then (Err wq_ErrIdentity, d)
  else claim_loop 16 subject profile env answer between d.

(** ** Using the lease *)

Definition lockWorkerLease (subject : string) (t : Token) : txn (inboxRecord * N * string) :=
  if decide (Token_Valid t = false \/ subject = "") then refuse ErrLease else
  '(epoch, mode) ← lockWorkerPlatform;
  r ← map_error (fun x => if errors_is x pgx_ErrNoRows then ErrLease else x) (gets (inbox_by_id (tk_InboxID t)) ≫= scanInbox);
  if decide (bx_owner r <> subject \/ inbox_token r <> t) then refuse ErrLease else mret (r, epoch, mode).


Definition liveWorkerLease (r : inboxRecord) (epoch : N) (mode : string) : txn unit :=
  if decide (mode <> "NORMAL" \/ bx_epoch r <> epoch) then refuse ErrRecovery else
  if decide (bx_state r <> "LEASED") then refuse ErrLease else
  _ ← workerRunActive r;
  t ← clock_timestamp;
  live ← gets (fun d => holds_lease t <$> inbox d !! bx_id r) ≫= row;
  if (live : bool) then mret tt else refuse ErrLease.

(** The UPDATE of [RenewInput], when its WHERE holds. *)
Definition renewable (now later : time) (b : InboxRow) : bool :=
  match ib_Until b, ib_StartedAt b with
  | Some u, Some s => bool_decide (now < u)%Z && bool_decide (later < s + seconds 120)%Z
  | _, _ => false
  end.
Definition RenewInput (subject : string) (t : Token) : txn (verdict time) :=
  '(r, epoch, mode) ← lockWorkerLease subject t;
  _ ← liveWorkerLease r epoch mode;
  _ ← workerAudit "worker.input.renewed" (bx_runID r) (lease_json subject t);
  now ← clock_timestamp;
  later ← clock_timestamp;
  found ← gets (fun d => inbox d !! bx_id r);
  match found with
  | Some b =>
    if negb (renewable now later b) then refuse ErrLease else
    t ← clock_timestamp;
    let until := Z.min (t + seconds 30) (default 0%Z (ib_StartedAt b) + seconds 120) in
    _ ← write_inbox (bx_id r) (set_until until b);
    mret (Commit until)
  | None => refuse ErrLease
  end.

(** [UPDATE ... SET state='INPUT_VALIDATED' ... WHERE inbox_id=$1 AND
    lease_until>clock_timestamp()], in one method with [state='LEASED']. *)
Definition validate_row (leased_only : bool) (i : Z) (r : Receipt) : txn unit :=
  t ← clock_timestamp;
  found ← gets (fun d => inbox d !! i);
  match found with
  | Some b =>
    if decide ((leased_only = true /\ ib_State b <> "LEASED") \/ holds_lease t b = false) then refuse ErrLease
    else write_inbox i (validated r b)
  | None => refuse ErrLease
  end.

Definition ReportInput (subject : string) (report : Report) : txn (verdict Receipt) :=
  '(r, epoch, mode) ← lockWorkerLease subject (rp_Token report);
  let repeated := match bx_receipt r with Some x => if decide (bx_state r = Validated) then Some x else None | None => None end in
  match repeated with
  | Some x =>
    match Digest (Validation_json (rc_Validation x)) with
    | Ok d =>
      if decide (d <> rp_ValidationDigest report \/ rc_Token x <> rp_Token report \/ rc_Worker x <> subject)
      then refuse wq_ErrIdentity else mret (Discard x)
    | Err _ => refuse wq_ErrIdentity
    end
  | None =>
    _ ← liveWorkerLease r epoch mode;
    a ← loadWorkerAssignment r;
    match NewReport a with
    | Err _ => refuse wq_ErrIdentity
    | Ok expected =>
      if decide (expected <> report) then refuse wq_ErrIdentity else
      v ← of_outcome (Validate a);
      now ← clock_timestamp;
      let x := mkReceipt (rp_Token report) subject Validated v now in
      _ ← workerAudit "worker.input.validated" (bx_runID r) (Receipt_json x);
      _ ← validate_row false (bx_id r) x;
      mret (Commit x)
    end
  end.

Definition GetInbox (run : string) : txn (verdict Status) :=
  r ← map_error mapReadError (gets (inbox_by_run run) ≫= scanInbox);
  mret (Discard (mkStatus (bx_id r) (bx_runID r) (bx_state r) (bx_generation r) (bx_receipt r))).

(** ** worker_relay.go: an intent enters the inbox *)

(** [INSERT ... ON CONFLICT DO NOTHING] under [UNIQUE (outbox_key)] and
    [UNIQUE (run_id)]; [fresh] is the next identity value. *)
Definition conflicting (key run : string) (d : Db) : bool :=
  existsb (fun b => bool_decide (ib_OutboxKey b = key \/ ib_RunID b = run)) (map_to_list (inbox d)).*2.
Definition inbox_by_key (key : string) (d : Db) : option InboxRow :=
  head (filter (fun b => ib_OutboxKey b = key) (map_to_list (inbox d)).*2).
Definition insertWorkerIntent (fresh : Z) (key : string) (i : Intent) (d : string) : txn unit :=
  run ← map_error (fun x => if errors_is x pgx_ErrNoRows then wq_ErrIdentity else x)
          (gets (fun d => runs (core d) !! it_RunID i) ≫= row);
  if decide (r_TaskContractDigest run <> it_TaskDigest i \/ r_RunInputManifestDigest run <> it_InputDigest i
             \/ r_CurrentEpoch run <> it_ExecutionEpoch i)
  then refuse wq_ErrIdentity else
  if decide (r_ControlOwner run <> "RUNTIME" \/ (r_State run <> "RUNNING" /\ r_State run <> "PAUSED"))
  then refuse ErrInactive else
  m ← gets (fun d => m ← runInputs (core d) !! r_RunInputManifestDigest run; if decide (ri_RunID m = it_RunID i) then Some m else None) ≫= row;
  if negb (ValidProfile (ri_WorkerProfile m)) then refuse wq_ErrIdentity else
  taken ← gets (conflicting key (it_RunID i));
  _ ← (if (taken : bool) then mret tt else
       write_inbox fresh (mkInboxRow key (it_RunID i) d i (ri_WorkerProfile m) "PENDING" None 0 None None None None));
  b ← map_error (fun x => if errors_is x pgx_ErrNoRows then wq_ErrIdentity else x) (gets (inbox_by_key key) ≫= row);
  if decide (ib_IntentDigest b <> d \/ ib_RunID b <> it_RunID i \/ ib_Profile b <> ri_WorkerProfile m)
  then refuse wq_ErrIdentity else mret tt.

(** ** preparation_store.go *)

Definition facts_report (a : Assignment) (report : PreparationReport) : outcome string :=
  match NewReport a with
  | Err _ => Err wq_ErrIdentity
  | Ok expected =>
    if decide (expected <> pr_Input report \/ is_ok (Facts_Check (pr_Facts report) a) = false) then Err wq_ErrIdentity
    else Digest (Facts_json (pr_Facts report))
  end.

(** [SELECT receipt_json FROM worker_preparations WHERE inbox_id=$1]. *)
Definition preparation_of (i : Z) : txn PreparationReceipt :=
  p ← gets (fun d => prepared d !! i) ≫= row; mret (pw_Receipt p).

(** [INSERT INTO worker_preparations] under its two unique keys. *)
Definition insert_preparation (i : Z) (run : string) (p : PreparationReceipt) : txn unit :=
  taken ← gets (fun d => bool_decide (is_Some (prepared d !! i)) || existsb (fun q => bool_decide (pw_RunID q = run)) (map_to_list (prepared d)).*2);
  if (taken : bool) then refuse pg_unique
  else modify (fun d => set_prepared (<[i := mkPreparationRow run p]> (prepared d)) d).

Definition ReportPrepared (subject : string) (report : PreparationReport) : txn (verdict PreparationReceipt) :=
  '(r, epoch, mode) ← lockWorkerLease subject (rp_Token (pr_Input report));
  a ← loadWorkerAssignment r;
  digest ← of_outcome (facts_report a report);
  if decide (bx_state r = Validated) then
    p ← map_error (fun x => if errors_is x pgx_ErrNoRows then ErrLease else x) (preparation_of (bx_id r));
    if is_ok (prep_Verify a p (pr_Facts report) subject) then mret (Discard p) else refuse wq_ErrIdentity
  else
    _ ← liveWorkerLease r epoch mode;
    v ← of_outcome (Validate a);
    now ← clock_timestamp;
    let x := mkReceipt (as_Token a) subject Validated v now in
    let p := mkPreparationReceipt prep_Kind x (pr_Facts report) digest now in
    _ ← workerAudit "worker.preparation.recorded" (bx_runID r) (PreparationReceipt_json p);
    _ ← insert_preparation (bx_id r) (bx_runID r) p;
    _ ← validate_row true (bx_id r) x;
    mret (Commit p).

Definition GetPreparation (run : string) : txn (verdict PreparationReceipt) :=
  p ← map_error mapReadError
        (gets (fun d => head (filter (fun q => pw_RunID q = run) (map_to_list (prepared d)).*2)) ≫= row);
  match Digest (Facts_json (pc_Facts (pw_Receipt p))) with
  | Ok d =>
    if decide (pc_Kind (pw_Receipt p) <> prep_Kind \/ d <> pc_FactsDigest (pw_Receipt p)) then refuse wq_ErrIdentity
    else mret (Discard (pw_Receipt p))
  | Err _ => refuse wq_ErrIdentity
  end.

End worker_store.
