(* ===== verification/ExecStore.v ===== *)
(** [offline_store.go], [codex_store.go] and [execution_reconcile.go] of
    [internal/store/postgres]: one execution per run, in one of two lanes.

    A validated and prepared input is authorised once, for the worker that
    prepared it, under a short lease.  The execution is renewed, finished with
    a receipt, or given up as UNKNOWN; what was not finished can be abandoned
    during a recovery, and is never run again. *)
From S2P Require Import Prelude Canonical Json Core Run Session Recovery Verification Action Store Binding Journal WorkerQueue Preparation Control Sandbox Offline Codex Db WorkerStore.

(** The two tables have one shape; a lane says which, and how a profile is digested. *)
Record Lane (P R : Type) := mkLane {
  ln_rows : Db -> gmap string (ExecRow P R);
  ln_set : gmap string (ExecRow P R) -> Db -> Db;
  ln_digest : P -> outcome string;
  ln_lease : Z; ln_total : Z
}.
Arguments mkLane {_ _} _ _ _ _ _.
Arguments ln_rows {_ _} _. Arguments ln_set {_ _} _. Arguments ln_digest {_ _} _.
Arguments ln_lease {_ _} _. Arguments ln_total {_ _} _.

Definition offline_lane `{Hash} : Lane OfflineProfile OfflineReceipt :=
  mkLane offline_rows set_offline OfflineProfile_Digest (seconds 20) (seconds 120).
Definition codex_lane `{Hash} : Lane CodexProfile CodexReceipt :=
  mkLane codex_rows set_codex CodexProfile_Digest (seconds 30) (seconds 900).

Section lanes.
Context `{Hash} {P R : Type} (ln : Lane P R).

(** [scanOffline], [scanCodex]. *)
Definition scan_execution (r : option (ExecRow P R)) : txn (ExecRow P R) :=
  x ← map_error mapReadError (row r);
  if negb (ExecToken_Valid (ex_Token x)) then refuse wq_ErrIdentity else
  match ln_digest ln (ex_Profile x) with
  | Ok d => if decide (d <> xt_ProfileDigest (ex_Token x)) then refuse wq_ErrIdentity else mret x
  | Err _ => refuse wq_ErrIdentity
  end.

(** [WHERE execution_id=$1] (primary key). *)
Definition by_execution (i : string) (d : Db) : option (string * ExecRow P R) :=
  head (filter (fun p => ex_ID p.2 = i) (map_to_list (ln_rows ln d))).

Definition write_execution_row (run : string) (x : ExecRow P R) : txn unit :=
  modify (fun d => ln_set ln (<[run := x]> (ln_rows ln d)) d).

Definition set_ex_Until (u : time) (x : ExecRow P R) : ExecRow P R :=
  mkExecRow (ex_ID x) (ex_InboxID x) (ex_Worker x) (ex_Token x) (ex_Profile x) (ex_Preparation x) (ex_State x)
    (ex_StartedAt x) u (ex_Receipt x) (ex_Reconciled x).
Definition set_ex_State (s : string) (x : ExecRow P R) : ExecRow P R :=
  mkExecRow (ex_ID x) (ex_InboxID x) (ex_Worker x) (ex_Token x) (ex_Profile x) (ex_Preparation x) s
    (ex_StartedAt x) (ex_Until x) (ex_Receipt x) (ex_Reconciled x).
Definition finish_row (r : R) (x : ExecRow P R) : ExecRow P R :=
  mkExecRow (ex_ID x) (ex_InboxID x) (ex_Worker x) (ex_Token x) (ex_Profile x) (ex_Preparation x) Finished
    (ex_StartedAt x) (ex_Until x) (Some r) (ex_Reconciled x).
Definition abandon_row (a : ExecutionAbandonReceipt) (x : ExecRow P R) : ExecRow P R :=
  mkExecRow (ex_ID x) (ex_InboxID x) (ex_Worker x) (ex_Token x) (ex_Profile x) (ex_Preparation x) ExecutionAbandoned
    (ex_StartedAt x) (ex_Until x) (ex_Receipt x) (Some a).

(** ** Starting *)

Definition authorized_worker (subject : string) (x : ExecRow P R) : bool :=
  bool_decide (ex_Worker x = subject) && bool_decide (ex_State x = Authorized).
Definition lane_busy (subject : string) (d : Db) : bool :=
  existsb (authorized_worker subject) (map_to_list (ln_rows ln d)).*2.

(** [INSERT INTO worker_..._executions] under its two unique keys. *)
Definition insert_execution (run : string) (x : ExecRow P R) : txn unit :=
  taken ← gets (fun d => bool_decide (is_Some (ln_rows ln d !! run)) || bool_decide (is_Some (by_execution (ex_ID x) d)));
  if (taken : bool) then refuse pg_unique else write_execution_row run x.

(** What both [Start] methods do once the worker is known to be free: the
    locked inbox row must be the worker's validated one, its run active, the
    assignment for this profile ([check]) and prepared by this worker. *)
Definition authorize (subject run workerProfile : string) (p : P) (digest : string) (epoch : N)
    (check : Assignment -> P -> outcome unit) (event : string)
    : txn (ExecToken * Assignment * PreparationReceipt * time) :=
  r ← map_error mapReadError (gets (inbox_by_run run) ≫= scanInbox);
  if decide (bx_owner r <> subject \/ bx_profile r <> workerProfile \/ bx_state r <> Validated) then refuse wq_ErrIdentity else
  _ ← workerRunActive r;
  a ← loadWorkerAssignment r;
  _ ← of_outcome (check a p);
  prep ← map_error mapReadError (preparation_of (bx_id r));
  if negb (is_ok (prep_Verify a prep (pc_Facts prep) subject)) then refuse wq_ErrIdentity else
  nonce ← asks tx_nonce;
  let t := mkExecToken nonce (bx_runID r) (bx_profile r) digest epoch in
  _ ← workerAudit event (bx_runID r) (ExecToken_json t);
  started ← clock_timestamp;
  now ← clock_timestamp;
  let until := (now + ln_lease ln)%Z in
  _ ← map_error mapWriteError (insert_execution (bx_runID r)
        (mkExecRow nonce (bx_id r) subject t p (pc_FactsDigest prep) Authorized started until None None));
  mret (t, a, prep, until).

(** ** Locking an execution *)

(** [lockOffline], [lockCodex]. *)
Definition lock_execution (subject : string) (t : ExecToken) (live : bool) : txn (ExecRow P R * inboxRecord) :=
  if decide (subject = "" \/ ExecToken_Valid t = false) then refuse wq_ErrIdentity else
  '(epoch, mode) ← lockWorkerPlatform;
  r ← map_error mapReadError (gets (inbox_by_run (xt_RunID t)) ≫= scanInbox);
  if decide (bx_owner r <> subject \/ bx_profile r <> xt_WorkerProfile t) then refuse wq_ErrIdentity else
  _ ← (if live then
         if decide (mode <> "NORMAL" \/ epoch <> xt_RecoveryEpoch t) then refuse ErrRecovery else workerRunActive r
       else mret tt);
  x ← gets (fun d => ln_rows ln d !! xt_RunID t) ≫= scan_execution;
  if decide (ex_Token x <> t \/ ex_Worker x <> subject) then refuse wq_ErrIdentity else
  _ ← (if live then
         now ← clock_timestamp;
         '(_, y) ← gets (by_execution (xt_ID t)) ≫= row;
         if decide (ex_State y = Authorized /\ (now < ex_Until y)%Z) then mret tt else refuse ErrLease
       else mret tt);
  mret (x, r).

(** ** Renewing, giving up *)

Definition renew_execution (event subject : string) (t : ExecToken) : txn (verdict time) :=
  _ ← lock_execution subject t true;
  _ ← workerAudit event (xt_RunID t) (ExecToken_json t);
  now ← clock_timestamp;
  later ← clock_timestamp;
  found ← gets (by_execution (xt_ID t));
  match found with
  | Some (run, x) =>
    if decide ((now < ex_Until x)%Z /\ (later < ex_StartedAt x + ln_total ln)%Z) then
      base ← clock_timestamp;
      let until := Z.min (base + ln_lease ln) (ex_StartedAt x + ln_total ln) in
      _ ← write_execution_row run (set_ex_Until until x);
      mret (Commit until)
    else refuse ErrLease
  | None => refuse ErrLease
  end.

Definition fail_execution (event subject : string) (t : ExecToken) : txn (verdict unit) :=
  '(x, _) ← lock_execution subject t false;
  if decide (ex_State x <> Authorized) then mret (Discard tt) else
  _ ← workerAudit event (xt_RunID t) (ExecToken_json t);
  found ← gets (by_execution (xt_ID t));
  _ ← match found with Some (run, y) => write_execution_row run (set_ex_State exec_Unknown y) | None => mret tt end;
  mret (Commit tt).

(** The final UPDATE of both [Finish] methods. *)
Definition finish_execution (t : ExecToken) (r : R) : txn unit :=
  now ← clock_timestamp;
  found ← gets (by_execution (xt_ID t));
  match found with
  | Some (run, x) =>
    if decide (ex_State x = Authorized /\ (now < ex_Until x)%Z) then write_execution_row run (finish_row r x) else refuse ErrLease
  | None => refuse ErrLease
  end.

(** The state the [Get] methods show. *)
Definition shown_state (now : time) (x : ExecRow P R) : string :=
  if decide (ex_State x = Authorized /\ (ex_Until x <= now)%Z) then "EXPIRED_UNRECONCILED" else ex_State x.

End lanes.

Section exec_store.
Context `{Hash}.

Definition lane_schema (v : N) (message : string) : txn unit :=
  ready ← asks (fun e => tx_migrated e v);
  if (ready : bool) then mret tt else refuse (ENew message).

(** ** offline_store.go *)

Definition StartOffline (subject : string) (req : OfflineStart) : txn (verdict OfflinePermit) :=
  match OfflineProfile_Digest (ost_Profile req) with
  | Err _ => refuse wq_ErrIdentity
  | Ok pd =>
    if decide (subject = "" \/ ost_RunID req = "" \/ ValidProfile (ost_WorkerProfile req) = false) then refuse wq_ErrIdentity else
    _ ← lane_schema 5 "offline schema version 5 is unavailable";
    '(epoch, mode) ← lockWorkerPlatform;
    if decide (mode <> "NORMAL") then refuse ErrRecovery else
    busy ← gets (lane_busy offline_lane subject);
    if (busy : bool) then refuse ErrConflict else
    codexReady ← asks (fun e => tx_migrated e 8);
    busy ← gets (lane_busy codex_lane subject);
    if codexReady && busy then refuse ErrConflict else
    '(t, a, prep, until) ← authorize offline_lane subject (ost_RunID req) (ost_WorkerProfile req) (ost_Profile req) pd epoch
                             offline_CheckAssignment "worker.offline.authorized";
    mret (Commit (mkOfflinePermit t a prep (ost_Profile req) until))
  end.

Definition RenewOffline (subject : string) (t : ExecToken) : txn (verdict time) :=
  renew_execution offline_lane "worker.offline.renewed" subject t.
Definition FailOffline (subject : string) (t : ExecToken) : txn (verdict unit) :=
  fail_execution offline_lane "worker.offline.unknown" subject t.

Definition FinishOffline (subject : string) (report : OfflineReport) : txn (verdict OfflineReceipt) :=
  '(x, _) ← lock_execution offline_lane subject (orp_Token report) false;
  if negb (is_ok (OfflineResult_Validate (orp_Result report) (ex_Profile x))) then refuse wq_ErrIdentity else
  digest ← of_outcome (Digest (OfflineResult_json (orp_Result report)));
  let repeated := match ex_Receipt x with Some r => if decide (ex_State x = Finished) then Some r else None | None => None end in
  match repeated with
  | Some r =>
    match Digest (OfflineResult_json (orc_Result r)) with
    | Ok actual =>
      if decide (actual <> digest \/ orc_ResultDigest r <> digest \/ orc_Token r <> orp_Token report
                 \/ orc_Worker r <> subject \/ orc_Kind r <> offline_Kind)
      then refuse wq_ErrIdentity else mret (Discard r)
    | Err _ => refuse wq_ErrIdentity
    end
  | None =>
    _ ← lock_execution offline_lane subject (orp_Token report) true;
    now ← clock_timestamp;
    let r := mkOfflineReceipt offline_Kind (orp_Token report) subject (ex_Preparation x) (orp_Result report) digest now in
    _ ← workerAudit "worker.offline.finished" (xt_RunID (orp_Token report)) (OfflineReceipt_json r);
    _ ← finish_execution offline_lane (orp_Token report) r;
    mret (Commit r)
  end.

(** The two reads of [GetOffline], as one. *)
Definition GetOffline (run : string) : txn (verdict OfflineStatus) :=
  x ← gets (fun d => offline_rows d !! run) ≫= scan_execution offline_lane;
  now ← clock_timestamp;
  mret (Discard (mkOfflineStatus (ex_Token x) (shown_state now x) (ex_Until x) (ex_Receipt x))).

(** ** codex_store.go, without the controls *)

Definition StartCodex (subject : string) (req : CodexStart) : txn (verdict CodexPermit) :=
  match CodexProfile_Digest (xs_Profile req) with
  | Err _ => refuse wq_ErrIdentity
  | Ok pd =>
    if decide (subject = "" \/ xs_RunID req = "" \/ ValidProfile (xs_WorkerProfile req) = false) then refuse wq_ErrIdentity else
    _ ← lane_schema 9 "Codex execution schema version 9 is unavailable";
    '(epoch, mode) ← lockWorkerPlatform;
    if decide (mode <> "NORMAL") then refuse ErrRecovery else
    busy ← gets (fun d => lane_busy codex_lane subject d || lane_busy offline_lane subject d);
    if (busy : bool) then refuse ErrConflict else
    '(t, a, prep, until) ← authorize codex_lane subject (xs_RunID req) (xs_WorkerProfile req) (xs_Profile req) pd epoch
                             codex_CheckAssignment "worker.codex.authorized";
    mret (Commit (mkCodexPermit t a prep (xs_Profile req) until))
  end.

Definition RenewCodex (subject : string) (t : ExecToken) : txn (verdict time) :=
  renew_execution codex_lane "worker.codex.renewed" subject t.
Definition FailCodex (subject : string) (t : ExecToken) : txn (verdict unit) :=
  fail_execution codex_lane "worker.codex.unknown" subject t.

(** [controlRuntime] of codex_controls.go: a scanned runtime is consistent. *)
Definition controlRuntime (r : option RuntimeRow) : txn ControlRuntime :=
  x ← map_error mapReadError (row r);
  if negb (is_ok (ControlBinding_Validate (ru_Binding x))) then refuse wq_ErrIdentity else
  if decide (ru_State x = "SEALED") then
    match ru_Transcript x, ru_Digest x with
    | Some t, Some digest =>
      match ControlTranscript_Digest t with
      | Ok actual =>
        if decide (actual <> digest \/ cc_Binding (ct_Close t) <> ru_Binding x) then refuse wq_ErrIdentity
        else mret (mkRuntime (ru_Binding x) (ru_State x) (Some t) actual)
      | Err _ => refuse wq_ErrIdentity
      end
    | _, _ => refuse wq_ErrIdentity
    end
  else if decide (ru_State x <> "ACTIVE" \/ is_Some (ru_Transcript x) \/ is_Some (ru_Digest x)) then refuse wq_ErrIdentity
  else mret (mkRuntime (ru_Binding x) (ru_State x) None "").

Definition FinishCodex (subject : string) (report : CodexReport) : txn (verdict CodexReceipt) :=
  let t := xo_Token report in let result := xo_Result report in
  '(x, r) ← lock_execution codex_lane subject t false;
  a ← loadWorkerAssignment r;
  prep ← map_error mapReadError (preparation_of (bx_id r));
  if negb (is_ok (prep_Verify a prep (pc_Facts prep) subject)) then refuse wq_ErrIdentity else
  let permit := mkCodexPermit (ex_Token x) a prep (ex_Profile x) (ex_Until x) in
  if negb (is_ok (CodexResult_Validate result (ex_Profile x) permit)) then refuse wq_ErrIdentity else
  runtime ← map_error (fun _ => wq_ErrIdentity) (gets (fun d => runtimes d !! xt_ID t) ≫= controlRuntime);
  match rn_Transcript runtime with
  | None => refuse wq_ErrIdentity
  | Some transcript =>
    let c := xr_Codex result in
    if decide (rn_State runtime <> "SEALED" \/ rn_Digest runtime <> xr_ControlTranscriptDigest result
               \/ AllowsDelivery transcript = false \/ cc_ProcessScope (ct_Close transcript) <> er_ProcessScope c
               \/ cb_ThreadID (rn_Binding runtime) <> er_ThreadID c \/ cb_TurnID (rn_Binding runtime) <> er_TurnID c)
    then refuse wq_ErrIdentity else
    digest ← of_outcome (Digest (CodexResult_json result));
    let repeated := match ex_Receipt x with Some y => if decide (ex_State x = Finished) then Some y else None | None => None end in
    match repeated with
    | Some y =>
      match Digest (CodexResult_json (xc_Result y)) with
      | Ok actual =>
        if decide (actual <> digest \/ xc_ResultDigest y <> digest \/ xc_Token y <> t \/ xc_Worker y <> subject
                   \/ xc_Kind y <> codex_Kind)
        then refuse wq_ErrIdentity else mret (Discard y)
      | Err _ => refuse wq_ErrIdentity
      end
    | None =>
      _ ← lock_execution codex_lane subject t true;
      now ← clock_timestamp;
      let y := mkCodexReceipt codex_Kind t subject (ex_Preparation x) result digest now in
      _ ← of_outcome (CodexReceipt_Verify y subject permit result);
      _ ← workerAudit "worker.codex.finished" (xt_RunID t) (CodexReceipt_json y);
      _ ← finish_execution codex_lane t y;
      mret (Commit y)
    end
  end.

(** [checkpointRow] of codex_checkpoint.go. *)
Definition checkpointRow (r : option (SourceCheckpoint * string)) : txn (option SourceCheckpoint) :=
  match r with
  | None => mret None
  | Some (c, digest) =>
    match SourceCheckpoint_Digest c with
    | Ok actual => if decide (actual <> digest) then refuse wq_ErrIdentity else mret (Some c)
    | Err _ => refuse wq_ErrIdentity
    end
  end.

(** The reads of [GetCodex] and [GetCodexControlRuntime], as one. *)
Definition GetCodexControlRuntime (i : string) : txn (option ControlRuntime) :=
  r ← attempt (gets (fun d => runtimes d !! i) ≫= controlRuntime);
  match r with
  | Ok r => mret (Some r)
  | Err x => if errors_is x ErrNotFound then mret None else refuse x
  end.
Definition checkpoint_agrees (t : ExecToken) (runtime : option ControlRuntime) (c : SourceCheckpoint) : bool :=
  bool_decide (cb_Token (so_Binding c) = t) &&
  match runtime with
  | Some r =>
    match rn_Transcript r with
    | Some tr => bool_decide (rn_State r = "SEALED" /\ rn_Binding r = so_Binding c /\ rn_Digest r = so_TranscriptDigest c)
                 && Quiescent (cc_ProcessScope (ct_Close tr))
    | None => false
    end
  | None => false
  end.
Definition GetCodex (run : string) : txn (verdict CodexStatus) :=
  x ← gets (fun d => codex_rows d !! run) ≫= scan_execution codex_lane;
  now ← clock_timestamp;
  runtime ← GetCodexControlRuntime (ex_ID x);
  checkpoint ← gets (fun d => snapshots d !! xt_ID (ex_Token x)) ≫= checkpointRow;
  if match checkpoint with Some c => negb (checkpoint_agrees (ex_Token x) runtime c) | None => false end
  then refuse wq_ErrIdentity
  else mret (Discard (mkCodexStatus checkpoint runtime (ex_Token x) (shown_state now x) (ex_Until x) (ex_Receipt x))).

End exec_store.
