(* ===== verification/ControlStore.v ===== *)
(** [codex_controls.go], [codex_checkpoint.go] and [execution_reconcile.go] of
    [internal/store/postgres].

    While a Codex execution runs, its runtime is bound to one turn; people queue
    controls for it, the worker claims them one at a time and settles them, and
    closing the turn seals the transcript.  A source checkpoint can be kept
    afterwards, and an execution that never finished can be abandoned during a
    recovery. *)
From S2P Require Import Prelude Canonical Json Core Run Session Recovery Verification Action Store Binding Journal WorkerQueue Preparation Control Sandbox Offline Codex Db WorkerStore ExecStore.

(** [ORDER BY sequence]. *)
Definition by_sequence (a b : SteeringRow) : Prop := (sc_Sequence (sw_Command a) <= sc_Sequence (sw_Command b))%N.
#[export] Instance by_sequence_dec a b : Decision (by_sequence a b).
Proof. unfold by_sequence. apply _. Defined.

Section control_store.
Context `{Hash}.

(** ** The runtime of a turn *)

Definition lockControlRuntime (b : ControlBinding) : txn ControlRuntime :=
  r ← gets (fun d => runtimes d !! xt_ID (cb_Token b)) ≫= controlRuntime;
  if decide (rn_Binding r <> b) then refuse wq_ErrIdentity else mret r.

Definition write_runtime (i : string) (r : RuntimeRow) : txn unit := modify (fun d => set_runtimes (<[i := r]> (runtimes d)) d).

Definition BindCodexControl (subject : string) (b : ControlBinding) : txn (verdict unit) :=
  if negb (is_ok (ControlBinding_Validate b)) then refuse wq_ErrIdentity else
  '(_, r) ← lock_execution codex_lane subject (cb_Token b) true;
  if decide (cb_ExecutionEpoch b <> it_ExecutionEpoch (bx_intent r)) then refuse wq_ErrIdentity else
  old ← attempt (gets (fun d => runtimes d !! xt_ID (cb_Token b)) ≫= controlRuntime);
  match old with
  | Ok old => if decide (rn_Binding old <> b \/ rn_State old <> "ACTIVE") then refuse ErrConflict else mret (Discard tt)
  | Err x =>
    if negb (errors_is x ErrNotFound) then refuse x else
    _ ← write_runtime (xt_ID (cb_Token b)) (mkRuntimeRow b "ACTIVE" None None);
    _ ← workerAudit "worker.codex.control-bound" (xt_RunID (cb_Token b)) (ControlBinding_json b);
    mret (Commit tt)
  end.

(** ** Controls *)

Definition delivery_of_row (r : SteeringRow) : ControlDelivery :=
  mkControlDelivery (sw_Command r) (sw_Payload r) (sw_State r) (sw_DispatchedAt r) (sw_ResolvedAt r).
Definition scanControl (r : option SteeringRow) : txn ControlDelivery :=
  x ← map_error mapReadError (row r);
  if is_ok (ControlDelivery_Validate (delivery_of_row x)) then mret (delivery_of_row x) else refuse wq_ErrIdentity.

Definition GetCodexControl (i : string) : txn (verdict ControlDelivery) :=
  d ← gets (fun d => controls d !! i) ≫= scanControl; mret (Discard d).

Definition matchesControl (d : ControlDelivery) (run kind : string) (i : ControlInput) : bool :=
  bool_decide (sc_RunID (cd_Command d) = run /\ sc_ID (cd_Command d) = ci_ID i
    /\ sc_ExecutionEpoch (cd_Command d) = ci_ExecutionEpoch i /\ sc_Sequence (cd_Command d) = ci_Sequence i
    /\ sc_Actor (cd_Command d) = ci_Actor i /\ pl_Kind (cd_Payload d) = kind /\ pl_Text (cd_Payload d) = ci_Text i
    /\ cb_ThreadID (pl_Binding (cd_Payload d)) = ci_ThreadID i /\ cb_TurnID (pl_Binding (cd_Payload d)) = ci_TurnID i).

Definition of_execution (i : string) (r : SteeringRow) : bool := bool_decide (sw_Execution r = i).
Definition controls_of (i : string) (d : Db) : list SteeringRow := filter (fun r => of_execution i r = true) (map_to_list (controls d)).*2.
Definition is_interrupt (r : SteeringRow) : bool := bool_decide (pl_Kind (sw_Payload r) = "INTERRUPT").

(** [INSERT INTO steering_commands]: its primary key and [UNIQUE (run_id,
    execution_epoch, sequence)], shared with the digest-only commands. *)
Definition same_place (c c' : SteeringCommand) : bool :=
  bool_decide (sc_RunID c = sc_RunID c' /\ sc_ExecutionEpoch c = sc_ExecutionEpoch c' /\ sc_Sequence c = sc_Sequence c').
Definition steering_taken (c : SteeringCommand) (d : Db) : bool :=
  bool_decide (is_Some (controls d !! sc_ID c)) || bool_decide (is_Some (steeringCommands (core d) !! sc_ID c))
  || existsb (same_place c) (sw_Command <$> (map_to_list (controls d)).*2)
  || existsb (same_place c) (map_to_list (steeringCommands (core d))).*2.
Definition write_control (r : SteeringRow) : txn unit :=
  modify (fun d => set_controls (<[sc_ID (sw_Command r) := r]> (controls d)) d).
Definition insert_control (r : SteeringRow) : txn unit :=
  taken ← gets (steering_taken (sw_Command r)); if (taken : bool) then refuse pg_unique else write_control r.

(** [UPDATE sessions SET last_steering_sequence=...], then [UPDATE runs SET version=version+1]. *)
Definition advance_session (run : string) (epoch sequence : N) : txn unit :=
  found ← gets (fun d => sessions (core d) !! run);
  match found with
  | Some s =>
    if decide (s_ExecutionEpoch s <> epoch \/ s_Owner s <> "RUNTIME" \/ s_Paused s = true \/ ~ (s_LastSequence s < sequence)%N)
    then refuse ErrConflict
    else modify (fun d => set_core (set_sessions (<[run := set_s_LastSequence sequence s]> (sessions (core d))) (core d)) d)
  | None => refuse ErrConflict
  end.
Definition bump_run (run : string) : txn unit :=
  found ← gets (fun d => runs (core d) !! run);
  match found with
  | Some r =>
    _ ← require (r_Version r + 1 <= int64_max)%N pg_range;
    modify (fun d => set_core (set_runs (<[run := set_r_Version (r_Version r + 1) r]> (runs (core d))) (core d)) d)
  | None => mret tt
  end.

Definition queue_control (run kind : string) (i : ControlInput) : txn (verdict ControlDelivery) :=
  x ← gets (fun d => codex_rows d !! run) ≫= scan_execution codex_lane;
  '(_, r) ← lock_execution codex_lane (ex_Worker x) (ex_Token x) true;
  let b := mkControlBinding (ex_Token x) (ci_ExecutionEpoch i) (ci_ThreadID i) (ci_TurnID i) in
  runtime ← lockControlRuntime b;
  if decide (rn_State runtime <> "ACTIVE" \/ it_ExecutionEpoch (bx_intent r) <> ci_ExecutionEpoch i) then refuse ErrConflict else
  queued ← gets (controls_of (xt_ID (ex_Token x)));
  if decide (MaxControls <= length queued \/ (kind = ControlSteer /\ MaxControls - 1 <= length queued)
             \/ existsb is_interrupt queued = true)
  then refuse ErrConflict else
  let payload := mkControlPayload b kind (ci_Text i) in
  digest ← of_outcome (Digest (ControlPayload_json payload));
  created ← clock_timestamp;
  let c := mkSteering (ci_ID i) run (ci_ExecutionEpoch i) (ci_Sequence i) (ci_Actor i) digest created in
  let d := mkControlDelivery c payload ControlQueued None None in
  _ ← map_error mapWriteError (insert_control (mkSteeringRow c (xt_ID (ex_Token x)) payload "QUEUED" None None));
  _ ← advance_session run (ci_ExecutionEpoch i) (ci_Sequence i);
  _ ← bump_run run;
  _ ← workerAudit "steering.queued" run (ControlDelivery_json d);
  mret (Commit d).
Definition QueueCodexControl (run kind : string) (i : ControlInput) : txn (verdict ControlDelivery) :=
  if negb (is_ok (ControlInput_Validate i kind)) then refuse wq_ErrIdentity else
  old ← attempt (gets (fun d => controls d !! ci_ID i) ≫= scanControl);
  match old with
  | Ok old => if matchesControl old run kind i then mret (Discard old) else refuse ErrConflict
  | Err x => if negb (errors_is x ErrNotFound) then refuse x else queue_control run kind i
  end.

Definition set_sw (s : string) (dispatched resolved : option time) (r : SteeringRow) : SteeringRow :=
  mkSteeringRow (sw_Command r) (sw_Execution r) (sw_Payload r) s dispatched resolved.
Definition in_flight (r : SteeringRow) : bool :=
  bool_decide (sw_State r ∈ ["DISPATCHING"; "INTERRUPT_ACKNOWLEDGED"; "UNKNOWN"]).
Definition next_queued (i : string) (d : Db) : option SteeringRow :=
  head (merge_sort by_sequence (filter (fun r => sw_State r = "QUEUED") (controls_of i d))).

Definition ClaimCodexControl (subject : string) (b : ControlBinding) : txn (verdict (option ControlDelivery)) :=
  _ ← lock_execution codex_lane subject (cb_Token b) true;
  runtime ← lockControlRuntime b;
  if decide (rn_State runtime <> "ACTIVE") then refuse ErrConflict else
  pending ← gets (fun d => existsb in_flight (controls_of (xt_ID (cb_Token b)) d));
  if (pending : bool) then refuse ErrConflict else
  found ← gets (next_queued (xt_ID (cb_Token b)));
  match found with
  | None => mret (Discard None)
  | Some r =>
    _ ← scanControl (Some r);
    t ← clock_timestamp;
    let r' := set_sw "DISPATCHING" (Some t) (sw_ResolvedAt r) r in
    _ ← write_control r';
    d ← scanControl (Some r');
    _ ← workerAudit "steering.dispatching" (xt_RunID (cb_Token b)) (ControlDelivery_json d);
    mret (Commit (Some d))
  end.

Definition settlement_allowed (outcome kind : string) : bool :=
  bool_decide (outcome = ControlNotApplied \/ outcome = ControlUnknown \/ (outcome = ControlAccepted /\ kind = ControlSteer)
               \/ (outcome = ControlInterruptACK /\ kind = ControlInterrupt)).

Definition SettleCodexControl (subject : string) (s : ControlSettlement) : txn (verdict ControlDelivery) :=
  _ ← lock_execution codex_lane subject (cb_Token (se_Binding s)) false;
  runtime ← lockControlRuntime (se_Binding s);
  found ← gets (fun d => r ← controls d !! se_ID s; if of_execution (xt_ID (cb_Token (se_Binding s))) r then Some r else None);
  d ← scanControl found;
  if decide (pl_Binding (cd_Payload d) <> se_Binding s) then refuse wq_ErrIdentity else
  if negb (settlement_allowed (se_Outcome s) (pl_Kind (cd_Payload d))) then refuse wq_ErrIdentity else
  if decide (cd_State d = se_Outcome s) then mret (Discard d) else
  if decide (rn_State runtime <> "ACTIVE" \/ cd_State d <> ControlDispatching) then refuse ErrConflict else
  match found with
  | None => refuse ErrNotFound
  | Some r =>
    t ← clock_timestamp;
    let r' := set_sw (se_Outcome s) (sw_DispatchedAt r) (Some t) r in
    _ ← write_control r';
    d' ← scanControl (Some r');
    _ ← workerAudit "steering.observed" (xt_RunID (cb_Token (se_Binding s))) (ControlDelivery_json d');
    mret (Commit d')
  end.

(** ** Closing *)

(** The CASE of the closing UPDATE, for the states its WHERE lets through. *)
Definition closed_state (turnStatus st : string) : string :=
  if decide (st = "QUEUED") then "NOT_APPLIED" else
  if decide (st = "DISPATCHING") then "UNKNOWN" else
  if decide (st = "INTERRUPT_ACKNOWLEDGED" /\ turnStatus = "interrupted") then "TURN_INTERRUPTED" else st.
Definition still_open (r : SteeringRow) : bool :=
  bool_decide (sw_State r ∈ ["QUEUED"; "DISPATCHING"; "INTERRUPT_ACKNOWLEDGED"]).
(** The UPDATE reads the clock for each row it writes. *)
Fixpoint settle_all (turnStatus : string) (l : list SteeringRow) : txn unit :=
  match l with
  | [] => mret tt
  | r :: rest =>
    t ← clock_timestamp;
    _ ← write_control (set_sw (closed_state turnStatus (sw_State r)) (sw_DispatchedAt r) (Some t) r);
    settle_all turnStatus rest
  end.
Fixpoint scan_all (l : list SteeringRow) : txn (list ControlDelivery) :=
  match l with
  | [] => mret []
  | r :: rest => d ← scanControl (Some r); ds ← scan_all rest; mret (d :: ds)
  end.

Definition CloseCodexControl (subject : string) (c : ControlClose) : txn (verdict ControlTranscript) :=
  if negb (is_ok (ControlClose_Validate c)) then refuse wq_ErrIdentity else
  let i := xt_ID (cb_Token (cc_Binding c)) in
  _ ← lock_execution codex_lane subject (cb_Token (cc_Binding c)) false;
  runtime ← lockControlRuntime (cc_Binding c);
  match (if decide (rn_State runtime = "SEALED") then rn_Transcript runtime else None) with
  | Some t => if decide (ct_Close t <> c) then refuse ErrConflict else mret (Discard t)
  | None =>
    open ← gets (fun d => filter (fun r => still_open r = true) (controls_of i d));
    _ ← settle_all (cc_TurnStatus c) open;
    rows ← gets (fun d => merge_sort by_sequence (controls_of i d));
    ds ← scan_all rows;
    let t := mkTranscript 2 c ds in
    digest ← of_outcome (ControlTranscript_Digest t);
    _ ← modify (fun d => match runtimes d !! i with
                         | Some r => set_runtimes (<[i := mkRuntimeRow (ru_Binding r) "SEALED" (Some t) (Some digest)]> (runtimes d)) d
                         | None => d end);
    _ ← workerAudit "worker.codex.controls-sealed" (xt_RunID (cb_Token (cc_Binding c))) (ControlTranscript_json t);
    mret (Commit t)
  end.

(** ** codex_checkpoint.go *)

Definition SaveCodexCheckpoint (subject : string) (c : SourceCheckpoint) : txn (verdict SourceCheckpoint) :=
  digest ← of_outcome (SourceCheckpoint_Digest c);
  '(x, r) ← lock_execution codex_lane subject (cb_Token (so_Binding c)) false;
  runtime ← lockControlRuntime (so_Binding c);
  if decide (rn_State runtime <> "SEALED" \/ match rn_Transcript runtime with
                                             | Some t => negb (Quiescent (cc_ProcessScope (ct_Close t)))
                                             | None => true end = true
             \/ rn_Digest runtime <> so_TranscriptDigest c \/ cb_ExecutionEpoch (so_Binding c) <> it_ExecutionEpoch (bx_intent r)
             \/ so_TaskDigest c <> it_TaskDigest (bx_intent r) \/ so_InputDigest c <> it_InputDigest (bx_intent r))
  then refuse wq_ErrIdentity else
  a ← loadWorkerAssignment r;
  prep ← map_error mapReadError (preparation_of (bx_id r));
  if decide (is_ok (prep_Verify a prep (pc_Facts prep) subject) = false \/ so_BaseCommit c <> fa_BaseCommit (pc_Facts prep)
             \/ so_BaselineDigest c <> fa_SourceDigest (pc_Facts prep) \/ ex_Preparation x <> pc_FactsDigest prep)
  then refuse wq_ErrIdentity else
  old ← gets (fun d => snapshots d !! xt_ID (cb_Token (so_Binding c))) ≫= checkpointRow;
  match old with
  | Some old => if decide (old <> c) then refuse ErrConflict else mret (Discard old)
  | None =>
    _ ← modify (fun d => set_snapshots (<[xt_ID (cb_Token (so_Binding c)) := (c, digest)]> (snapshots d)) d);
    _ ← workerAudit "worker.codex.source-checkpoint-retained" (xt_RunID (cb_Token (so_Binding c))) (SourceCheckpoint_json c);
    mret (Commit c)
  end.

(** ** execution_reconcile.go *)

Definition deliveries_of (run : string) (d : Db) : bool :=
  existsb (fun r => bool_decide (dr_RunID r = run)) (map_to_list (deliveries (core d))).*2.

Definition ExecutionAbandonReceipt_json (r : ExecutionAbandonReceipt) : jval := JObj
  (jstr "kind" (xr_Kind r) ++ [("request", ExecutionAbandonRequest_json (xr_Request r))]
   ++ jstr "request_digest" (xr_RequestDigest r) ++ jstr "reconciler" (xr_Reconciler r)
   ++ jstr "previous_state" (xr_PreviousState r) ++ jtime "created_at" (xr_CreatedAt r)
   ++ [("execution_authorized", JBool (xr_ExecutionAuthorized r)); ("replay_authorized", JBool (xr_ReplayAuthorized r));
       ("production_qualified", JBool (xr_ProductionQualified r))]).

(** One case of the switch on the execution's kind. *)
Definition abandon {P R} (ln : Lane P R) (reconciler : string) (q : ExecutionAbandonRequest) : txn (verdict ExecutionAbandonReceipt) :=
  found ← gets (fun d => x ← ln_rows ln d !! xa_RunID q; if decide (ex_ID x = xa_ExecutionID q) then Some x else None);
  x ← scan_execution ln found;
  if decide (xt_RunID (ex_Token x) <> xa_RunID q \/ xt_ID (ex_Token x) <> xa_ExecutionID q) then refuse ErrConflict else
  if decide (ex_State x = ExecutionAbandoned) then
    match ex_Reconciled x with
    | Some retained =>
      if negb (is_ok (ExecutionAbandonReceipt_Validate retained)) then refuse (ENew "invalid retained execution reconciliation") else
      match Digest (ExecutionAbandonRequest_json q) with
      | Ok d => if decide (xr_RequestDigest retained <> d \/ xr_Reconciler retained <> reconciler) then refuse ErrConflict
                else mret (Commit retained)
      | Err x => refuse x
      end
    | None => refuse (ENew "invalid retained execution reconciliation")
    end
  else if decide (is_Some (ex_Receipt x) \/ (ex_State x <> "AUTHORIZED" /\ ex_State x <> "UNKNOWN")) then refuse ErrConflict else
  now ← clock_timestamp;
  if decide (now < ex_Until x)%Z then refuse ErrConflict else
  delivered ← gets (deliveries_of (xa_RunID q));
  if (delivered : bool) then refuse ErrConflict else
  digest ← of_outcome (ExecutionAbandonRequest_Digest q);
  let retained := mkExecReceipt ExecutionAbandonmentKind q digest reconciler (ex_State x) now false false false in
  _ ← of_outcome (ExecutionAbandonReceipt_Validate retained);
  record ← of_outcome (auditInput "recovery.execution.abandoned" "Run" (xa_RunID q) (ExecutionAbandonReceipt_json retained));
  _ ← appendAudit record now;
  _ ← write_execution_row ln (xa_RunID q) (abandon_row retained x);
  mret (Commit retained).

Definition ReconcileExecutionAbandoned (reconciler : string) (q : ExecutionAbandonRequest) : txn (verdict ExecutionAbandonReceipt) :=
  if decide (is_ok (ExecutionAbandonRequest_Validate q) = false \/ reconciler = "")
  then refuse (ENew "valid recovery execution reconciliation required") else
  p ← gets (fun d => recoveryState (core d));
  if decide (m_Epoch p <> xa_RecoveryEpoch q) then refuse recovery_ErrStaleEpoch else
  if decide (m_Mode p <> mode_RecoveryReconciliation) then refuse ErrReconciliationRequired else
  if decide (xa_ExecutionKind q = ExecutionOffline) then abandon offline_lane reconciler q else
  if decide (xa_ExecutionKind q = ExecutionCodex) then abandon codex_lane reconciler q else
  refuse (ENew "unsupported execution reconciliation kind").

End control_store.
