(* ===== verification/CoreStore.v ===== *)
(** [core_store.go] and [mutation.go] of [internal/store/postgres]: the
    transactions over the core tables.

    The maps of [Store.Memory] stand for the tables, and its index maps for
    their unique indexes: [tasksByDigest] for [content_digest] of
    [task_contracts], [checkpointDigests] for that of [checkpoints],
    [reviewByVerification] for [verification_report_id] of [review_reports].
    A row keeps [NULL] as the empty string, as the queries read it
    ([COALESCE]).  A statement checks, in this order, that its parameters fit
    [bigint], its CHECK constraints, its unique indexes and its foreign keys. *)
From S2P Require Import Prelude Canonical Json Core Run Session Recovery Verification Review Action Store Journal Control Db ControlStore.
From S2P Require Outbox.

(** ** The documents the audit events digest *)

Definition jbool (k : string) (b : bool) : list (string * jval) := [(k, JBool b)].

Definition WorkItem_json (w : WorkItem) : jval := JObj
  (jstr "work_item_id" (wi_ID w) ++ jstr "title" (wi_Title w) ++ jstr_omit "source_ref" (wi_SourceRef w)
   ++ jstr "human_owner" (wi_HumanOwner w) ++ jstr_omit "target_id" (wi_TargetID w)
   ++ jstr_omit "assurance_class" (wi_AssuranceClass w)
   ++ jstr_omit "active_task_contract_digest" (wi_ActiveTaskContractDigest w)
   ++ jstr_omit "active_run_id" (wi_ActiveRunID w) ++ jstr "state" (wi_State w) ++ jnum "version" (wi_Version w)
   ++ jtime "created_at" (wi_CreatedAt w)).
Definition Run_json (r : Run) : jval := JObj
  (jstr "run_id" (r_ID r) ++ jstr "task_contract_digest" (r_TaskContractDigest r)
   ++ jstr "run_input_manifest_digest" (r_RunInputManifestDigest r) ++ jstr "state" (r_State r)
   ++ jnum "version" (r_Version r) ++ jnum "current_epoch" (r_CurrentEpoch r)
   ++ jstr_omit "current_attempt_id" (r_CurrentAttemptID r) ++ jstr "control_owner" (r_ControlOwner r)).
(** [omitempty] leaves a zero [time.Time] in. *)
Definition Attempt_json (a : Attempt) : jval := JObj
  (jstr "attempt_id" (at_ID a) ++ jnum "execution_epoch" (at_Epoch a) ++ jtime "started_at" (at_StartedAt a)
   ++ jtime "ended_at" (at_EndedAt a)).
Definition Session_json (s : Session) : jval := JObj
  (jstr "run_id" (s_RunID s) ++ jnum "execution_epoch" (s_ExecutionEpoch s) ++ jstr "control_owner" (s_Owner s)
   ++ jnum "last_steering_sequence" (s_LastSequence s) ++ jbool "paused" (s_Paused s)).
Definition Checkpoint_json (c : Checkpoint) : jval := JObj
  (jstr "checkpoint_id" (cp_ID c) ++ jstr "run_id" (cp_RunID c)
   ++ jstr "task_contract_digest" (cp_TaskContractDigest c)
   ++ jstr "run_input_manifest_digest" (cp_RunInputManifestDigest c)
   ++ jnum "execution_epoch" (cp_ExecutionEpoch c) ++ jstr "source_tree_digest" (cp_SourceTreeDigest c)
   ++ jstr_omit "diff_digest" (cp_DiffDigest c) ++ jstr_omit "objective" (cp_Objective c)
   ++ jstrs_omit "completed" (cp_Completed c) ++ jstrs_omit "pending" (cp_Pending c)
   ++ jstrs_omit "questions" (cp_Questions c) ++ jnum "last_event_sequence" (cp_LastEventSequence c)
   ++ jstr_omit "external_operation_cursor" (cp_ExternalOperationCursor c) ++ jtime "created_at" (cp_CreatedAt c)).
Definition ArtifactRef_json (a : ArtifactRef) : jval := JObj
  (jstr "artifact_id" (ar_ID a) ++ jstr "digest" (ar_Digest a) ++ jstr_omit "media_type" (ar_MediaType a)
   ++ jstr_omit "locator" (ar_Locator a)).
Definition DeliveryReceipt_json (r : DeliveryReceipt) : jval := JObj
  (jstr "delivery_receipt_id" (dr_ID r) ++ jstr "work_item_id" (dr_WorkItemID r)
   ++ jstr "task_contract_digest" (dr_TaskContractDigest r) ++ jstr "run_id" (dr_RunID r)
   ++ jstr_omit "target_id" (dr_TargetID r) ++ jstr "base_commit" (dr_BaseCommit r)
   ++ jstr_omit "result_commit" (dr_ResultCommit r) ++ jstr "subject_digest" (dr_SubjectDigest r)
   ++ jobjs_omit "artifacts" (ArtifactRef_json <$> dr_Artifacts r) ++ jstrs_omit "known_limits" (dr_KnownLimits r)
   ++ jtime "created_at" (dr_CreatedAt r)).
Definition EvidenceRef_json (e : EvidenceRef) : jval := JObj
  (jstr "evidence_id" (ev_ID e) ++ jstr "delivery_receipt_id" (ev_DeliveryReceiptID e)
   ++ jstr "requirement_id" (ev_RequirementID e) ++ jstr "subject_digest" (ev_SubjectDigest e)
   ++ jstr "issuer" (ev_Issuer e) ++ jstr "procedure" (ev_Procedure e) ++ jstr "result" (ev_Result e)
   ++ jstrs_omit "artifact_refs" (ev_ArtifactRefs e) ++ jbool "applicable" (ev_Applicable e)).
Definition CriterionResult_json (c : CriterionResult) : jval := JObj
  (jstr "criterion_id" (cx_CriterionID c) ++ jstr "result" (cx_Result c) ++ jstr_omit "reason" (cx_Reason c)).
Definition Report_json (r : Report) : jval := JObj
  (jstr "verification_report_id" (vr_ID r) ++ jstr "delivery_receipt_id" (vr_DeliveryReceiptID r)
   ++ jstr "verification_plan_id" (vr_PlanID r) ++ jstr "verification_plan_digest" (vr_VerificationPlanDigest r)
   ++ jstr "subject_digest" (vr_SubjectDigest r) ++ jstr "result" (vr_Result r) ++ jstr_omit "verifier" (vr_Verifier r)
   ++ jobjs "criteria" (CriterionResult_json <$> vr_Criteria r) ++ jstrs "evidence_ids" (vr_EvidenceIDs r)
   ++ jtime "created_at" (vr_CreatedAt r)).
Definition ClosureReceipt_json (c : ClosureReceipt) : jval := JObj
  (jstr "closure_receipt_id" (cl_ID c) ++ jstr "work_item_id" (cl_WorkItemID c)
   ++ jstr "task_contract_digest" (cl_TaskContractDigest c) ++ jstr "run_id" (cl_RunID c)
   ++ jstr "delivery_receipt_id" (cl_DeliveryReceiptID c)
   ++ jstr "verification_report_id" (cl_VerificationReportID c) ++ jstr "review_report_id" (cl_ReviewReportID c)
   ++ jstr "subject_digest" (cl_SubjectDigest c) ++ jstr "result" (cl_Result c)
   ++ jtime "created_at" (cl_CreatedAt c)).

(** ** Statements *)

(** A [timestamptz] holds microseconds; a finer time is cut off. *)
Definition micro (t : time) : time := (t / 1000 * 1000)%Z.
Definition pgx_NullString : goerr := ENew "cannot scan NULL into *string".

Definition read_row {A} (o : option A) : outcome A := match o with Some a => Ok a | None => Err (mapReadError pgx_ErrNoRows) end.
Definition write_core (f : Memory -> Memory) : txn unit := modify (fun d => set_core (f (core d)) d).

Section core_store.
Context `{Hash}.

(** ** mutation.go *)

Record OutboxMessage := mkOutboxMessage {
  om_Key : string; om_Topic : string; om_AggregateType : string; om_AggregateID : string; om_RiskClass : string;
  om_Payload : jval
}.
(** [Apply] is a closure; what it leaves in a captured variable is its result. *)
Record Mutation (A : Type) := mkMutation { mu_Apply : txn A; mu_Audit : Input; mu_Outbox : list OutboxMessage }.
Arguments mkMutation {_} _ _ _. Arguments mu_Apply {_} _. Arguments mu_Audit {_} _. Arguments mu_Outbox {_} _.

(** A new row; [start] is the transaction's [now()]. *)
Definition new_message (risk : string) (start : time) (m : OutboxMessage) : OutboxRow :=
  mkOutboxRow (om_Key m) (om_Topic m) (om_AggregateType m) (om_AggregateID m) risk (om_Payload m) "PENDING"
    None None None 0 start "" start None.

(** [INSERT INTO outbox_events]: [fresh] is the next identity value. *)
Definition insertOutbox (fresh : Z) (start : time) (m : OutboxMessage) : txn Z :=
  if decide (om_Key m = "") then refuse (ENew "outbox key is required") else
  if decide (om_Topic m = "") then refuse (ENew "outbox topic is required") else
  risk ← of_outcome (Outbox.Classify (om_Topic m) (om_RiskClass m));
  _ ← map_error (fun x => EWrap ("insert outbox message " +:+ dquote +:+ om_Key m +:+ dquote +:+ ": ") x "")
        (taken ← gets (fun d => bool_decide (is_Some (outbox d !! fresh))
                               || existsb (fun r => bool_decide (ob_Key r = om_Key m)) (map_to_list (outbox d)).*2);
         if (taken : bool) then refuse pg_unique else mret tt);
  _ ← modify (fun d => set_outbox (<[fresh := new_message risk start m]> (outbox d)) d);
  mret fresh.

(** The messages in order; the k-th row takes the identity value [fresh k]. *)
Fixpoint insert_messages (fresh : nat -> Z) (start : time) (k : nat) (l : list OutboxMessage) : txn (list Z) :=
  match l with
  | [] => mret []
  | m :: rest => id ← insertOutbox (fresh k) start m; ids ← insert_messages fresh start (S k) rest; mret (id :: ids)
  end.

Definition Mutate {A} (mu : Mutation A) (fresh : nat -> Z) : txn (A * Event * list Z) :=
  start ← clock_timestamp;
  a ← map_error (fun x => EWrap "apply business mutation: " x "") (mu_Apply mu);
  now ← clock_timestamp;
  event ← appendAudit (mu_Audit mu) now;
  ids ← insert_messages fresh start 0 (mu_Outbox mu);
  mret (a, event, ids).

(** A method whose transaction is one mutation without messages. *)
Definition mutation {A} (apply : txn A) (input : Input) : txn (verdict A) :=
  '(a, _, _) ← Mutate (mkMutation apply input []) (fun _ => 0%Z); mret (Commit a).

(** ** Work items *)

Definition insert_work (item : WorkItem) : txn unit :=
  map_error mapWriteError
    (m ← gets core;
     _ ← require (wi_Version item <= int64_max)%N pgx_Range;
     _ ← require (0 < wi_Version item)%N pg_check;
     _ ← require (works m !! wi_ID item = None) pg_unique;
     write_core (fun m => set_works (<[wi_ID item := set_wi_CreatedAt (micro (wi_CreatedAt item)) item]> (works m)) m)).

(** [UPDATE work_items SET ..., version=version+1 WHERE work_item_id=$ AND
    version=$ ...]: a conflict unless one row changed. *)
Definition update_work (id : string) (version : N) (cond : WorkItem -> bool) (f : WorkItem -> WorkItem) : txn unit :=
  _ ← require (version <= int64_max)%N pgx_Range;
  found ← gets (fun d => w ← works (core d) !! id; if decide (wi_Version w = version /\ cond w = true) then Some w else None);
  match found with
  | None => refuse ErrConflict
  | Some w =>
    _ ← require (version + 1 <= int64_max)%N pg_range;
    write_core (fun m => set_works (<[id := set_wi_Version (version + 1) (f w)]> (works m)) m)
  end.

Definition CreateWorkContext (item : WorkItem) : txn (verdict unit) :=
  let item := if decide (wi_Version item = 0%N) then set_wi_Version 1 item else item in
  input ← of_outcome (auditInput "work.created" "WorkItem" (wi_ID item) (WorkItem_json item));
  mutation (insert_work item) input.

Definition GetWorkContext (id : string) (d : Db) : outcome WorkItem := read_row (works (core d) !! id).

(** Everything but the identity and the creation time. *)
Definition rewrite_work (item w : WorkItem) : WorkItem :=
  mkWorkItem (wi_ID w) (wi_Title item) (wi_SourceRef item) (wi_HumanOwner item) (wi_TargetID item) (wi_AssuranceClass item)
    (wi_ActiveTaskContractDigest item) (wi_ActiveRunID item) (wi_State item) (wi_Version w) (wi_CreatedAt w).
Definition UpdateWorkContext (id : string) (expectedVersion : N) (item : WorkItem) : txn (verdict unit) :=
  input ← of_outcome (auditInput "work.updated" "WorkItem" id
            (JObj (jnum "expected_version" expectedVersion ++ [("work", WorkItem_json item)])));
  mutation (update_work id expectedVersion (fun _ => true) (rewrite_work item)) input.

(** [SET active_task_contract_digest=$,active_run_id=$,state=$]. *)
Definition advance_work (work w : WorkItem) : WorkItem :=
  set_wi_State (wi_State work) (set_wi_Active (wi_ActiveTaskContractDigest work) (wi_ActiveRunID work) w).

(** ** Task contracts and verification plans *)

(** [COALESCE(MAX(revision),0)]. *)
Definition max_revision (versions : gmap N TaskContract) : N := map_fold (fun r _ n => N.max r n) 0%N versions.

(** [ON CONFLICT (plan_digest) DO NOTHING]. *)
Definition insert_plan (planDigest : string) (plan : Plan) : txn unit :=
  m ← gets core;
  match verificationPlans m !! planDigest with
  | Some _ => mret tt
  | None => write_core (fun m => set_verificationPlans (<[planDigest := plan]> (verificationPlans m)) m)
  end.

Definition insert_task (task : TaskContract) (taskDigest : string) : txn unit :=
  map_error mapWriteError
    (m ← gets core;
     let versions := default ∅ (tasks m !! tc_ID task) in
     _ ← require (tc_Revision task <= int64_max)%N pgx_Range;
     _ ← require (0 < tc_Revision task)%N pg_check;
     _ ← require (versions !! tc_Revision task = None /\ tasksByDigest m !! taskDigest = None) pg_unique;
     _ ← require (works m !! tc_WorkItemID task <> None
                  /\ verificationPlans m !! tc_VerificationPlanDigest task <> None) pg_foreign;
     write_core (fun m =>
       set_tasksByDigest (<[taskDigest := task]> (tasksByDigest m))
         (set_latestTaskRev (<[tc_ID task := tc_Revision task]> (latestTaskRev m))
            (set_tasks (<[tc_ID task := <[tc_Revision task := task]> versions]> (tasks m)) m)))).

Definition freeze_task (task : TaskContract) (plan : Plan) (taskDigest planDigest : string) (expectedWorkVersion : N)
    (work : WorkItem) : txn unit :=
  w ← map_error mapReadError (gets (fun d => works (core d) !! wi_ID work) ≫= row);
  if decide (wi_Version w <> expectedWorkVersion \/ (wi_State w <> WorkDraft /\ wi_State w <> WorkReady)
             \/ wi_ActiveRunID w <> "")
  then refuse ErrConflict else
  latest ← gets (fun d => max_revision (default ∅ (tasks (core d) !! tc_ID task)));
  if decide (tc_Revision task <> u64_succ latest) then refuse ErrConflict else
  _ ← insert_plan planDigest plan;
  _ ← insert_task task taskDigest;
  update_work (wi_ID work) expectedWorkVersion (fun _ => true) (advance_work work).

Definition CreateTaskAndUpdateWorkContext (task : TaskContract) (plan : Plan) (expectedWorkVersion : N) (work : WorkItem)
    : txn (verdict unit) :=
  taskDigest ← of_outcome (TaskContract_Digest task);
  planDigest ← of_outcome (Plan_Digest plan);
  if decide (tc_VerificationPlanID task <> pl_ID plan \/ tc_VerificationPlanDigest task <> planDigest
             \/ tc_WorkItemID task <> wi_ID work \/ wi_ActiveTaskContractDigest work <> taskDigest
             \/ wi_State work <> WorkReady)
  then refuse ErrConflict else
  input ← of_outcome (auditInput "task.frozen" "TaskContract" (tc_ID task)
            (JObj [("task", TaskContract_json task); ("verification_plan", Plan_json plan); ("work", WorkItem_json work)]));
  mutation (freeze_task task plan taskDigest planDigest expectedWorkVersion work) input.

(** [ORDER BY revision DESC LIMIT 1]. *)
Definition GetTaskContext (id : string) (d : Db) : outcome TaskContract :=
  let versions := default ∅ (tasks (core d) !! id) in read_row (versions !! max_revision versions).
Definition GetTaskRevisionContext (id : string) (revision : N) (d : Db) : outcome TaskContract :=
  if decide (int64_max < revision)%N then Err pgx_Range
  else read_row (default ∅ (tasks (core d) !! id) !! revision).
Definition GetTaskByDigestContext (digest : string) (d : Db) : outcome TaskContract :=
  read_row (tasksByDigest (core d) !! digest).
Definition GetVerificationPlanByDigestContext (digest : string) (d : Db) : outcome Plan :=
  read_row (verificationPlans (core d) !! digest).

(** ** Executions *)

Definition insert_input (input : RunInputManifest) (inputDigest : string) : txn unit :=
  map_error mapWriteError
    (m ← gets core;
     _ ← require (runInputs m !! inputDigest = None
                  /\ Forall (fun i => ri_RunID i <> ri_RunID input) (map_to_list (runInputs m)).*2) pg_unique;
     _ ← require (tasksByDigest m !! ri_TaskContractDigest input <> None) pg_foreign;
     write_core (fun m => set_runInputs (<[inputDigest := input]> (runInputs m)) m)).

Definition insert_run (value : Run) : txn unit :=
  map_error mapWriteError
    (m ← gets core;
     _ ← require (r_Version value <= int64_max /\ r_CurrentEpoch value <= int64_max)%N pgx_Range;
     _ ← require ((0 < r_Version value)%N /\ r_ControlOwner value ∈ ["RUNTIME"; "HUMAN"]) pg_check;
     _ ← require (runs m !! r_ID value = None) pg_unique;
     _ ← require (tasksByDigest m !! r_TaskContractDigest value <> None
                  /\ runInputs m !! r_RunInputManifestDigest value <> None) pg_foreign;
     write_core (fun m => set_runs (<[r_ID value := value]> (runs m)) m)).

(** [worker_id], [disposition] and [ended_at] are [NULL]. *)
Definition insert_attempt (run : string) (a : Attempt) : txn unit :=
  map_error mapWriteError
    (m ← gets core;
     let mine := default ∅ (attempts m !! run) in
     _ ← require (at_Epoch a <= int64_max)%N pgx_Range;
     _ ← require (0 < at_Epoch a)%N pg_check;
     _ ← require (mine !! at_ID a = None /\ Forall (fun b => at_Epoch b <> at_Epoch a) (map_to_list mine).*2) pg_unique;
     _ ← require (runs m !! run <> None) pg_foreign;
     write_core (fun m => set_attempts (<[run := <[at_ID a := mkAttempt (at_ID a) (at_Epoch a) (micro (at_StartedAt a)) zero_time]>
                                          mine]> (attempts m)) m)).

Definition insert_session (s : Session) : txn unit :=
  map_error mapWriteError
    (m ← gets core;
     _ ← require (s_ExecutionEpoch s <= int64_max /\ s_LastSequence s <= int64_max)%N pgx_Range;
     _ ← require ((0 < s_ExecutionEpoch s)%N /\ s_Owner s ∈ ["RUNTIME"; "HUMAN"]) pg_check;
     _ ← require (sessions m !! s_RunID s = None) pg_unique;
     _ ← require (runs m !! s_RunID s <> None) pg_foreign;
     write_core (fun m => set_sessions (<[s_RunID s := s]> (sessions m)) m)).

Definition insertExecution (value : Run) (attempt : Attempt) (sess : Session) (input : RunInputManifest) : txn unit :=
  inputDigest ← of_outcome (RunInputManifest_Digest input);
  _ ← insert_input input inputDigest;
  _ ← insert_run value;
  _ ← insert_attempt (r_ID value) attempt;
  insert_session sess.

Definition start_execution (value : Run) (attempt : Attempt) (sess : Session) (input : RunInputManifest)
    (expectedWorkVersion : N) (work : WorkItem) : txn unit :=
  w ← map_error mapReadError (gets (fun d => works (core d) !! wi_ID work) ≫= row);
  if decide (wi_Version w <> expectedWorkVersion \/ wi_State w <> WorkReady
             \/ wi_ActiveTaskContractDigest w <> r_TaskContractDigest value \/ wi_ActiveRunID w <> "")
  then refuse ErrConflict else
  frozen ← gets (fun d => tasksByDigest (core d) !! r_TaskContractDigest value);
  if decide (frozen = None) then refuse ErrNotFound else
  _ ← insertExecution value attempt sess input;
  update_work (wi_ID work) expectedWorkVersion (fun _ => true) (advance_work work).

(** The intent the outbox carries; a Go map's keys are encoded in order. *)
Definition run_started (value : Run) : OutboxMessage :=
  mkOutboxMessage ("run:" +:+ r_ID value +:+ ":started") "run.started" "Run" (r_ID value) ""
    (JObj (jnum "execution_epoch" (r_CurrentEpoch value) ++ jstr "run_id" (r_ID value)
           ++ jstr "run_input_manifest_digest" (r_RunInputManifestDigest value)
           ++ jstr "task_contract_digest" (r_TaskContractDigest value))).

Definition CreateExecutionAndUpdateWorkContext (fresh : Z) (value : Run) (attempt : Attempt) (sess : Session)
    (input : RunInputManifest) (expectedWorkVersion : N) (work : WorkItem) : txn (verdict unit) :=
  match ri_Continuation input with
  | Some _ => refuse ErrConflict
  | None =>
    inputDigest ← of_outcome (RunInputManifest_Digest input);
    if decide (inputDigest <> r_RunInputManifestDigest value \/ ri_RunID input <> r_ID value
               \/ ri_TaskContractDigest input <> r_TaskContractDigest value
               \/ at_ID attempt <> r_CurrentAttemptID value \/ at_Epoch attempt <> r_CurrentEpoch value
               \/ s_RunID sess <> r_ID value \/ s_ExecutionEpoch sess <> r_CurrentEpoch value
               \/ wi_State work <> WorkExecuting \/ wi_ActiveTaskContractDigest work <> r_TaskContractDigest value
               \/ wi_ActiveRunID work <> r_ID value)
    then refuse ErrConflict else
    record ← of_outcome (auditInput "run.started" "Run" (r_ID value)
              (JObj [("run", Run_json value); ("attempt", Attempt_json attempt); ("session", Session_json sess);
                     ("run_input", RunInputManifest_json input); ("work", WorkItem_json work)]));
    _ ← Mutate (mkMutation (start_execution value attempt sess input expectedWorkVersion work) record [run_started value])
          (fun _ => fresh);
    mret (Commit tt)
  end.

Definition GetExecutionContext (id : string) (d : Db) : outcome (Run * Session) :=
  r ← read_row (runs (core d) !! id);
  s ← read_row (sessions (core d) !! id);
  Ok (r, mkSession (r_ID r) (s_ExecutionEpoch s) (s_Owner s) (s_LastSequence s) (s_Paused s)).
Definition GetAttemptContext (run attempt : string) (d : Db) : outcome Attempt :=
  read_row (default ∅ (attempts (core d) !! run) !! attempt).
Definition GetRunInputByDigestContext (digest : string) (d : Db) : outcome RunInputManifest :=
  m ← read_row (runInputs (core d) !! digest);
  match RunInputManifest_accept m with Ok m => Ok m | Err x => Err (EWrap "decode run input manifest: " x "") end.

(** [UPDATE runs SET ... WHERE run_id=$ AND version=$ AND ...] of the frozen digests. *)
Definition update_run (id : string) (expectedVersion : N) (value : Run) : txn unit :=
  map_error mapWriteError
    (_ ← require (r_CurrentEpoch value <= int64_max /\ expectedVersion <= int64_max)%N pgx_Range;
     found ← gets (fun d => r ← runs (core d) !! id;
                            if decide (r_Version r = expectedVersion /\ same_frozen r value) then Some r else None);
     match found with
     | None => refuse ErrConflict
     | Some r =>
       _ ← require (expectedVersion + 1 <= int64_max)%N pg_range;
       _ ← require (r_ControlOwner value ∈ ["RUNTIME"; "HUMAN"]) pg_check;
       write_core (fun m => set_runs (<[id := mkRun (r_ID r) (r_TaskContractDigest r) (r_RunInputManifestDigest r)
         (r_State value) (expectedVersion + 1) (r_CurrentEpoch value) (r_CurrentAttemptID value) (r_ControlOwner value)]> (runs m)) m)
     end).

Definition update_session (id : string) (sess : Session) : txn unit :=
  map_error mapWriteError
    (_ ← require (s_ExecutionEpoch sess <= int64_max /\ s_LastSequence sess <= int64_max)%N pgx_Range;
     found ← gets (fun d => sessions (core d) !! id);
     match found with
     | None => refuse ErrConflict
     | Some s =>
       _ ← require ((0 < s_ExecutionEpoch sess)%N /\ s_Owner sess ∈ ["RUNTIME"; "HUMAN"]) pg_check;
       write_core (fun m => set_sessions (<[id := mkSession (s_RunID s) (s_ExecutionEpoch sess) (s_Owner sess)
         (s_LastSequence sess) (s_Paused sess)]> (sessions m)) m)
     end).

Definition UpdateExecutionContext (id : string) (expectedVersion : N) (value : Run) (sess : Session) : txn (verdict unit) :=
  input ← of_outcome (auditInput "run.updated" "Run" id
            (JObj (jnum "expected_version" expectedVersion ++ [("run", Run_json value); ("session", Session_json sess)])));
  mutation (_ ← update_run id expectedVersion value; update_session id sess) input.

(** ** Steering *)

Definition micro_steering (cmd : SteeringCommand) : SteeringCommand :=
  mkSteering (sc_ID cmd) (sc_RunID cmd) (sc_ExecutionEpoch cmd) (sc_Sequence cmd) (sc_Actor cmd) (sc_ContentDigest cmd)
    (micro (sc_CreatedAt cmd)).
Definition insert_steering (cmd : SteeringCommand) : txn unit :=
  map_error mapWriteError
    (d ← gets (fun d => d);
     _ ← require (sc_ExecutionEpoch cmd <= int64_max /\ sc_Sequence cmd <= int64_max)%N pgx_Range;
     _ ← require (0 < sc_ExecutionEpoch cmd /\ 0 < sc_Sequence cmd)%N pg_check;
     _ ← require (steering_taken cmd d = false) pg_unique;
     _ ← require (runs (core d) !! sc_RunID cmd <> None) pg_foreign;
     write_core (fun m => set_steeringCommands (<[sc_ID cmd := micro_steering cmd]> (steeringCommands m)) m)).

Definition record_steering (id : string) (expectedVersion : N) (value : Run) (sess : Session) (cmd : SteeringCommand) : txn unit :=
  r ← map_error mapReadError (gets (fun d => runs (core d) !! id) ≫= row);
  if decide (r_CurrentEpoch r <> sc_ExecutionEpoch cmd \/ ~ same_frozen r value \/ s_ExecutionEpoch sess <> r_CurrentEpoch r
             \/ s_LastSequence sess <> sc_Sequence cmd)
  then refuse ErrConflict else
  _ ← insert_steering cmd;
  s ← gets (fun d => s ← sessions (core d) !! id;
                     if decide (s_ExecutionEpoch s = sc_ExecutionEpoch cmd /\ (s_LastSequence s < sc_Sequence cmd)%N) then Some s else None);
  match s with
  | None => refuse ErrConflict
  | Some s =>
    _ ← write_core (fun m => set_sessions (<[id := set_s_LastSequence (sc_Sequence cmd) s]> (sessions m)) m);
    _ ← require (expectedVersion <= int64_max)%N pgx_Range;
    r ← gets (fun d => r ← runs (core d) !! id; if decide (r_Version r = expectedVersion) then Some r else None);
    match r with
    | None => refuse ErrConflict
    | Some r =>
      _ ← require (expectedVersion + 1 <= int64_max)%N pg_range;
      write_core (fun m => set_runs (<[id := set_r_Version (expectedVersion + 1) r]> (runs m)) m)
    end
  end.

Definition RecordSteeringContext (id : string) (expectedVersion : N) (value : Run) (sess : Session) (cmd : SteeringCommand)
    : txn (verdict unit) :=
  if decide (id = "" \/ r_ID value <> id \/ s_RunID sess <> id \/ sc_RunID cmd <> id) then refuse ErrConflict else
  input ← of_outcome (auditInput "steering.recorded" "Run" id
            (JObj [("run", Run_json value); ("session", Session_json sess); ("steering", SteeringCommand_json cmd)]));
  mutation (record_steering id expectedVersion value sess cmd) input.

(** Live controls are rows of the same table. *)
Definition GetSteeringContext (id : string) (d : Db) : outcome SteeringCommand :=
  read_row (match steeringCommands (core d) !! id with
            | Some c => Some c
            | None => sw_Command <$> controls d !! id
            end).

Definition UpdateExecutionAndWorkContext (id : string) (expectedRunVersion : N) (value : Run) (sess : Session)
    (expectedWorkVersion : N) (work : WorkItem) : txn (verdict unit) :=
  input ← of_outcome (auditInput "run.work.updated" "Run" id
            (JObj [("run", Run_json value); ("work", WorkItem_json work); ("session", Session_json sess)]));
  mutation
    (_ ← update_run id expectedRunVersion value;
     _ ← update_session id sess;
     update_work (wi_ID work) expectedWorkVersion (fun _ => true) (advance_work work)) input.

(** ** Checkpoints, deliveries, evidence, verification *)

Definition insert_checkpoint (item : Checkpoint) (digest : string) : txn unit :=
  map_error mapWriteError
    (m ← gets core;
     _ ← require (cp_ExecutionEpoch item <= int64_max)%N pgx_Range;
     _ ← require (0 < cp_ExecutionEpoch item)%N pg_check;
     _ ← require (checkpoints m !! cp_ID item = None /\ checkpointDigests m !! digest = None) pg_unique;
     _ ← require (runs m !! cp_RunID item <> None /\ tasksByDigest m !! cp_TaskContractDigest item <> None
                  /\ runInputs m !! cp_RunInputManifestDigest item <> None) pg_foreign;
     write_core (fun m => set_checkpointDigests (<[digest := cp_ID item]> (checkpointDigests m))
                            (set_checkpoints (<[cp_ID item := item]> (checkpoints m)) m))).

Definition CreateCheckpointContext (item : Checkpoint) : txn (verdict string) :=
  digest ← of_outcome (Checkpoint_Digest item);
  input ← of_outcome (auditInput "checkpoint.created" "Run" (cp_RunID item) (Checkpoint_json item));
  mutation (_ ← insert_checkpoint item digest; mret digest) input.

(** [content_digest] of the row: the key under which the unique index has it. *)
Definition GetCheckpointContext (id : string) (d : Db) : outcome (Checkpoint * string) :=
  item ← read_row (checkpoints (core d) !! id);
  digest ← read_row (fst <$> head (filter (fun p => p.2 = id) (map_to_list (checkpointDigests (core d)))));
  Ok (item, digest).

Definition insert_delivery (item : DeliveryReceipt) : txn unit :=
  map_error mapWriteError
    (m ← gets core;
     _ ← require (deliveries m !! dr_ID item = None
                  /\ Forall (fun r => dr_SubjectDigest r <> dr_SubjectDigest item) (map_to_list (deliveries m)).*2) pg_unique;
     _ ← require (works m !! dr_WorkItemID item <> None /\ tasksByDigest m !! dr_TaskContractDigest item <> None
                  /\ runs m !! dr_RunID item <> None) pg_foreign;
     write_core (fun m => set_deliveries (<[dr_ID item := item]> (deliveries m)) m)).

Definition CreateDeliveryContext (item : DeliveryReceipt) : txn (verdict unit) :=
  input ← of_outcome (auditInput "delivery.created" "DeliveryReceipt" (dr_ID item) (DeliveryReceipt_json item));
  mutation (insert_delivery item) input.

Definition GetDeliveryContext (id : string) (d : Db) : outcome DeliveryReceipt := read_row (deliveries (core d) !! id).

(** What the method reads before its transaction, each in a statement of its own. *)
Definition evidence_checked (item : EvidenceRef) (d1 d2 d3 : Db) : outcome unit :=
  delivery ← GetDeliveryContext (ev_DeliveryReceiptID item) d1;
  if decide (ev_SubjectDigest item <> dr_SubjectDigest delivery) then Err ErrConflict else
  task ← GetTaskByDigestContext (dr_TaskContractDigest delivery) d2;
  plan ← GetVerificationPlanByDigestContext (tc_VerificationPlanDigest task) d3;
  if negb (EvidenceMatchesPlan plan item) || negb (EvidenceArtifactsBelongToDelivery delivery item)
  then Err ErrConflict else Ok tt.

Definition insert_evidence (item : EvidenceRef) : txn unit :=
  map_error mapWriteError
    (m ← gets core;
     _ ← require (evidence m !! ev_ID item = None) pg_unique;
     _ ← require (deliveries m !! ev_DeliveryReceiptID item <> None) pg_foreign;
     write_core (fun m => set_evidence (<[ev_ID item := item]> (evidence m)) m)).

(** [d1], [d2] and [d3] are the tables as the three reads found them. *)
Definition CreateEvidenceContext (d1 d2 d3 : Db) (item : EvidenceRef) : txn (verdict unit) :=
  _ ← of_outcome (evidence_checked item d1 d2 d3);
  input ← of_outcome (auditInput "evidence.registered" "Evidence" (ev_ID item) (EvidenceRef_json item));
  mutation (insert_evidence item) input.

Definition GetEvidenceContext (id : string) (d : Db) : outcome EvidenceRef := read_row (evidence (core d) !! id).

Definition insert_verification (report : Report) : txn unit :=
  map_error mapWriteError
    (m ← gets core;
     _ ← require (verificationReports m !! vr_ID report = None) pg_unique;
     _ ← require (deliveries m !! vr_DeliveryReceiptID report <> None
                  /\ verificationPlans m !! vr_VerificationPlanDigest report <> None) pg_foreign;
     write_core (fun m => set_verificationReports (<[vr_ID report := report]> (verificationReports m)) m)).

Definition CreateVerificationContext (report : Report) : txn (verdict unit) :=
  input ← of_outcome (auditInput "verification.created" "VerificationReport" (vr_ID report) (Report_json report));
  mutation (insert_verification report) input.

Definition GetVerificationContext (id : string) (d : Db) : outcome Report := read_row (verificationReports (core d) !! id).

(** ** Reviews and closures *)

Definition insert_review (report : ReviewReport) : txn unit :=
  map_error mapWriteError
    (m ← gets core;
     _ ← require (rv_Result report ∈ ["PASS"; "FAIL"]) pg_check;
     _ ← require (reviewReports m !! rv_ID report = None
                  /\ reviewByVerification m !! rv_VerificationReportID report = None) pg_unique;
     _ ← require (deliveries m !! rv_DeliveryReceiptID report <> None
                  /\ verificationReports m !! rv_VerificationReportID report <> None
                  /\ tasksByDigest m !! rv_TaskContractDigest report <> None) pg_foreign;
     write_core (fun m =>
       set_reviewByVerification (<[rv_VerificationReportID report := rv_ID report]> (reviewByVerification m))
         (set_reviewReports (<[rv_ID report := report]> (reviewReports m)) m))).

(** A comparison with a [NULL] column, or with the parameter it would equal, is never true. *)
Definition holds_subject (state task run : string) (w : WorkItem) : bool :=
  bool_decide (wi_State w = state /\ wi_ActiveTaskContractDigest w = task /\ task <> ""
               /\ wi_ActiveRunID w = run /\ run <> "").

(** [verification_reports vr JOIN delivery_receipts dr]. *)
Definition review_subject (report : ReviewReport) (d : Db) : option (Report * DeliveryReceipt) :=
  vr ← verificationReports (core d) !! rv_VerificationReportID report;
  dr ← deliveries (core d) !! rv_DeliveryReceiptID report;
  if decide (vr_DeliveryReceiptID vr = rv_DeliveryReceiptID report) then Some (vr, dr) else None.

Definition store_review (report : ReviewReport) (expectedVersion : N) (work : WorkItem) : txn unit :=
  '(vr, dr) ← map_error mapReadError (gets (review_subject report) ≫= row);
  _ ← require (vr_Verifier vr <> "") pgx_NullString;
  if decide (vr_Result vr <> "PASS" \/ vr_SubjectDigest vr <> rv_SubjectDigest report
             \/ dr_SubjectDigest dr <> rv_SubjectDigest report \/ dr_TaskContractDigest dr <> rv_TaskContractDigest report
             \/ dr_WorkItemID dr <> wi_ID work \/ rv_Reviewer report = vr_Verifier vr)
  then refuse ErrConflict else
  w ← map_error mapReadError (gets (fun d => works (core d) !! wi_ID work) ≫= row);
  if decide (wi_Version w <> expectedVersion \/ wi_State w <> WorkVerifying
             \/ (rv_Result report = ResultPass /\ wi_State work <> WorkReviewing)
             \/ (rv_Result report = ResultFail /\ wi_State work <> WorkVerifying)
             \/ wi_HumanOwner w = rv_Reviewer report \/ wi_ActiveTaskContractDigest w <> rv_TaskContractDigest report
             \/ wi_ActiveRunID w <> dr_RunID dr \/ wi_ActiveTaskContractDigest work <> wi_ActiveTaskContractDigest w
             \/ wi_ActiveRunID work <> wi_ActiveRunID w)
  then refuse ErrConflict else
  _ ← insert_review report;
  update_work (wi_ID work) expectedVersion (holds_subject WorkVerifying (rv_TaskContractDigest report) (dr_RunID dr))
    (set_wi_State (wi_State work)).

Definition CreateReviewAndUpdateWorkContext (report : ReviewReport) (expectedVersion : N) (work : WorkItem)
    : txn (verdict unit) :=
  _ ← of_outcome (ReviewReport_Validate report);
  input ← of_outcome (auditInput "review.created" "ReviewReport" (rv_ID report)
            (JObj [("review", ReviewReport_json report); ("work", WorkItem_json work)]));
  mutation (store_review report expectedVersion work) input.

Definition GetReviewContext (id : string) (d : Db) : outcome ReviewReport := read_row (reviewReports (core d) !! id).

Definition insert_closure (item : ClosureReceipt) : txn unit :=
  map_error mapWriteError
    (m ← gets core;
     _ ← require (closures m !! cl_ID item = None) pg_unique;
     _ ← require (works m !! cl_WorkItemID item <> None /\ tasksByDigest m !! cl_TaskContractDigest item <> None
                  /\ runs m !! cl_RunID item <> None /\ deliveries m !! cl_DeliveryReceiptID item <> None
                  /\ verificationReports m !! cl_VerificationReportID item <> None
                  /\ reviewReports m !! cl_ReviewReportID item <> None) pg_foreign;
     write_core (fun m => set_closures (<[cl_ID item := item]> (closures m)) m)).

Definition store_closure (item : ClosureReceipt) (expectedVersion : N) (work : WorkItem) : txn unit :=
  report ← map_error mapReadError (gets (fun d => reviewReports (core d) !! cl_ReviewReportID item) ≫= row);
  if decide (rv_Result report <> ResultPass \/ rv_DeliveryReceiptID report <> cl_DeliveryReceiptID item
             \/ rv_VerificationReportID report <> cl_VerificationReportID item
             \/ rv_TaskContractDigest report <> cl_TaskContractDigest item
             \/ rv_SubjectDigest report <> cl_SubjectDigest item \/ wi_State work <> WorkClosed)
  then refuse ErrConflict else
  _ ← insert_closure item;
  update_work (wi_ID work) expectedVersion (holds_subject WorkReviewing (cl_TaskContractDigest item) (cl_RunID item))
    (advance_work work).

Definition CreateClosureAndUpdateWorkContext (item : ClosureReceipt) (expectedVersion : N) (work : WorkItem)
    : txn (verdict unit) :=
  input ← of_outcome (auditInput "work.closed" "WorkItem" (wi_ID work)
            (JObj [("closure", ClosureReceipt_json item); ("work", WorkItem_json work)]));
  mutation (store_closure item expectedVersion work) input.

Definition GetClosureContext (id : string) (d : Db) : outcome ClosureReceipt := read_row (closures (core d) !! id).

(** ** store.go: recovery *)

Definition Manager_json (m : Manager) : jval := JObj (jnum "recovery_epoch" (m_Epoch m) ++ jstr "mode" (m_Mode m)).

Definition GetRecoveryContext (d : Db) : outcome Manager :=
  let m := recoveryState (core d) in
  if decide (m_Mode m <> mode_Normal /\ m_Mode m <> mode_RecoveryReconciliation)
  then Err (ENew ("read recovery state: unknown mode " +:+ dquote +:+ m_Mode m +:+ dquote)) else Ok m.

Definition beginRecoveryError (x : goerr) : goerr := EWrap "begin recovery: " x "".
Definition begin_recovery (expectedEpoch : N) : txn Manager :=
  _ ← require (expectedEpoch <= int64_max)%N (beginRecoveryError pgx_Range);
  m ← gets (fun d => recoveryState (core d));
  if decide (m_Epoch m <> expectedEpoch \/ m_Mode m <> mode_Normal) then refuse ErrConflict else
  _ ← require (expectedEpoch + 1 <= int64_max)%N (beginRecoveryError pg_range);
  let m' := mkManager (expectedEpoch + 1) mode_RecoveryReconciliation in
  _ ← write_core (set_recoveryState m'); mret m'.

Definition BeginRecoveryContext (expectedEpoch : N) : txn (verdict Manager) :=
  input ← of_outcome (auditInput "recovery.started" "PlatformState" "singleton"
            (Manager_json (mkManager (u64_succ expectedEpoch) mode_RecoveryReconciliation)));
  mutation (begin_recovery expectedEpoch) input.

End core_store.
