(* ===== verification/ActionStore.v ===== *)
(** [action_store.go] of [internal/store/postgres]: the action ledger, and the
    admission it checks in the transaction that reserves or dispatches. *)
From S2P Require Import Prelude Canonical Json Core Run Session Recovery Verification Action Store Journal Db CoreStore.

Definition Operation_json (op : Operation) : jval := JObj
  (jstr "operation_id" (op_ID op) ++ jstr "run_id" (op_RunID op) ++ jnum "execution_epoch" (op_ExecutionEpoch op)
   ++ jnum "recovery_epoch" (op_RecoveryEpoch op) ++ jstr "action" (op_Action op) ++ jstr "risk_class" (op_RiskClass op)
   ++ jstr "capability" (op_Capability op) ++ jstr "idempotency_key" (op_IdempotencyKey op)
   ++ jstr_omit "request_digest" (op_RequestDigest op) ++ jstr "state" (op_State op) ++ jtime "updated_at" (op_UpdatedAt op)
   ++ jstr_omit "external_ref" (op_ExternalRef op) ++ jstr_omit "observed_state" (op_ObservedState op)).

(** The marker of a confirmation settled by the transaction that dispatched it. *)
Definition originalConfirmationCause : string := "action.original-dispatch-confirmation.v1".

Definition mapActionWriteError (x : goerr) : goerr := if decide (x = pg_unique) then ErrOperationExists else x.

Section action_store.
Context `{Hash}.

(** The platform, the run and its session, locked in this order. *)
Definition checkActionAdmission (op : Operation) : txn unit :=
  if decide (op_State op <> op_Planned /\ op_State op <> op_Dispatched) then refuse ErrDenied else
  if decide (op_RiskClass op ∉ [risk_Observe; risk_ControlledMutation; risk_HighRisk]) then refuse ErrDenied else
  p ← gets (fun d => recoveryState (core d));
  if decide (op_RecoveryEpoch op <> m_Epoch p) then refuse recovery_ErrStaleEpoch else
  if decide (m_Mode p <> "NORMAL" /\ m_Mode p <> "RECOVERY_RECONCILIATION") then refuse ErrDenied else
  if decide (op_RiskClass op <> risk_Observe /\ m_Mode p <> "NORMAL") then refuse ErrRecoveryMode else
  r ← gets (fun d => runs (core d) !! op_RunID op) ≫= row;
  s ← gets (fun d => sessions (core d) !! op_RunID op) ≫= row;
  if decide (r_CurrentEpoch r <> op_ExecutionEpoch op \/ s_ExecutionEpoch s <> r_CurrentEpoch r
             \/ r_ControlOwner r <> "RUNTIME" \/ s_Owner s <> "RUNTIME")
  then refuse ErrDenied else
  if decide (op_RiskClass op = risk_Observe /\ r_State r <> "RUNNING" /\ r_State r <> "PAUSED") then refuse ErrDenied else
  if decide (op_RiskClass op <> risk_Observe /\ (r_State r <> "RUNNING" \/ s_Paused s = true)) then refuse ErrDenied else
  gone ← gets (fun d => continued d !! op_RunID op);
  if decide (gone <> None) then refuse ErrDenied else mret tt.

(** [external_operations]: its CHECKs, keys and reference; [updated_at] in microseconds. *)
Definition op_states : list string :=
  [op_Planned; op_Dispatched; op_Confirmed; op_Unknown; op_Reconciling; op_SafeToRetry; op_Manual; op_AbandonedReconciled].
Definition set_op_Updated (t : time) (op : Operation) : Operation := set_op_State (op_State op) t op.
Definition insert_operation (op : Operation) : txn unit :=
  m ← gets core;
  _ ← require (op_ExecutionEpoch op <= int64_max /\ op_RecoveryEpoch op <= int64_max)%N pgx_Range;
  _ ← require ((0 < op_ExecutionEpoch op)%N /\ op_RiskClass op ∈ [risk_Observe; risk_ControlledMutation; risk_HighRisk]
               /\ op_State op ∈ op_states) pg_check;
  _ ← require (operations m !! op_ID op = None /\ actionIdempotency m !! op_IdempotencyKey op = None) pg_unique;
  _ ← require (runs m !! op_RunID op <> None) pg_foreign;
  write_core (fun m => set_actionIdempotency (<[op_IdempotencyKey op := op_ID op]> (actionIdempotency m))
                         (set_operations (<[op_ID op := set_op_Updated (micro (op_UpdatedAt op)) op]> (operations m)) m)).

Definition CreateContext (op : Operation) : txn (verdict unit) :=
  input ← of_outcome (auditInput "action.planned" "ExternalOperation" (op_ID op) (Operation_json op));
  mutation (_ ← checkActionAdmission op; map_error mapActionWriteError (insert_operation op)) input.

Definition read_operation (o : option Operation) : outcome Operation :=
  match o with Some op => Ok op | None => Err ErrOperationAbsent end.
Definition GetContext (id : string) (d : Db) : outcome Operation := read_operation (operations (core d) !! id).
Definition GetByIdempotencyKeyContext (key : string) (d : Db) : outcome Operation :=
  read_operation (id ← actionIdempotency (core d) !! key; operations (core d) !! id).

Definition previousStates (target : string) : outcome (list string) :=
  if decide (target = op_Dispatched) then Ok [op_Planned] else
  if decide (target = op_Confirmed) then Ok [op_Dispatched; op_Reconciling] else
  if decide (target = op_Unknown) then Ok [op_Dispatched] else
  if decide (target = op_Reconciling) then Ok [op_Unknown] else
  if decide (target = op_Manual) then Ok [op_Reconciling] else
  Err (EWrap "" ErrInvalidTransition (": cannot persist transition to " +:+ target)).

(** A confirmation of anything but an observation. *)
Definition originalConfirmation (op : Operation) : bool :=
  bool_decide (op_State op = op_Confirmed /\ op_RiskClass op <> risk_Observe).

(** [UPDATE external_operations ... WHERE] every frozen field is the same. *)
Definition update_operation (op : Operation) (previous : list string) : txn unit :=
  _ ← require (op_ExecutionEpoch op <= int64_max /\ op_RecoveryEpoch op <= int64_max)%N pgx_Range;
  found ← gets (fun d => operations (core d) !! op_ID op);
  match found with
  | None => refuse ErrOperationAbsent
  | Some o =>
    if decide (op_State o ∈ previous /\ SameReservation o op = true)
    then write_core (fun m => set_operations (<[op_ID op := set_op_Updated (micro (op_UpdatedAt op)) op]> (operations m)) m)
    else refuse ErrInvalidTransition
  end.

Definition set_in_Causation (c : string) (i : Input) : Input :=
  mkInput (in_Type i) (in_AggregateType i) (in_AggregateID i) (in_PayloadDigest i) (in_CorrelationID i) c.

Definition UpdateContext (op : Operation) : txn (verdict unit) :=
  allowed ← of_outcome (previousStates (op_State op));
  let original := originalConfirmation op in
  let previous := if original then [op_Dispatched] else allowed in
  let op := if original then set_op_Updated (micro (op_UpdatedAt op)) op else op in
  input ← of_outcome (auditInput "action.state_changed" "ExternalOperation" (op_ID op) (Operation_json op));
  let input := if original then set_in_Causation originalConfirmationCause input else input in
  mutation
    (_ ← (if decide (op_State op = op_Dispatched) then checkActionAdmission op else mret tt);
     map_error mapActionWriteError (update_operation op previous)) input.

End action_store.
