(* ===== verification/OutboxStore.v ===== *)
(** [outbox_store.go] and [worker_relay.go] of [internal/store/postgres]: the
    outbox table, and the relay that moves a started run into the inbox.

    A message waits as [PENDING], is leased to one owner for one attempt, and
    the attempt is settled: back to [PENDING], or to its end as [DISPATCHED] or
    [DEAD_LETTER].  A statement that is not part of a transaction is one. *)
From S2P Require Import Prelude Canonical Json StrictJson Core Run Session Recovery Verification Action Store Journal WorkerQueue Db WorkerStore CoreStore.
From S2P Require Outbox.

Definition write_outbox (k : Z) (o : OutboxRow) : txn unit := modify (fun d => set_outbox (<[k := o]> (outbox d)) d).

(** ** Rows *)

(** A [jsonb] column is read as text. *)
Definition scanOutbox (jsonb_text : jval -> string) (k : Z) (o : OutboxRow) : Outbox.Message :=
  Outbox.mkMessage k (ob_Key o) (ob_Topic o) (ob_AggregateType o) (ob_AggregateID o) (jsonb_text (ob_Payload o)) (ob_RiskClass o)
    (ob_State o) (ob_Attempts o) (default "" (ob_Owner o)) (default zero_time (ob_Until o)) (default 0%N (ob_Epoch o))
    (ob_NextAttempt o) (ob_LastError o) (ob_CreatedAt o) (default zero_time (ob_DispatchedAt o)).
Definition row_lease (k : Z) (o : OutboxRow) : Outbox.Lease := Outbox.mkLease k (default "" (ob_Owner o)) (ob_Attempts o).

Definition with_lease (owner : string) (attempts : N) (until : time) (epoch : N) (lastError : string) (o : OutboxRow) : OutboxRow :=
  mkOutboxRow (ob_Key o) (ob_Topic o) (ob_AggregateType o) (ob_AggregateID o) (ob_RiskClass o) (ob_Payload o) "LEASED"
    (Some owner) (Some until) (Some epoch) attempts (ob_NextAttempt o) lastError (ob_CreatedAt o) (ob_DispatchedAt o).

(** [settleOutbox]'s SET list; [now] is [clock_timestamp()]. *)
Definition settled_row (r : Outbox.Resolution) (micros : Z) (diagnostic : string) (now : time) (o : OutboxRow) : OutboxRow :=
  mkOutboxRow (ob_Key o) (ob_Topic o) (ob_AggregateType o) (ob_AggregateID o) (ob_RiskClass o) (ob_Payload o) (Outbox.rs_State r)
    None None (ob_Epoch o) (ob_Attempts o)
    (if decide (Outbox.rs_State r = "PENDING") then (now + micros * 1000)%Z else ob_NextAttempt o) diagnostic (ob_CreatedAt o)
    (if decide (Outbox.rs_State r = "DISPATCHED") then Some now else ob_DispatchedAt o).

(** ** settleOutbox *)

(** The first runes of a string, a byte that starts none read as U+FFFD. *)
Fixpoint runes (fuel limit : nat) (l : list ascii) : list ascii :=
  match fuel, limit, l with
  | S fuel, S limit, _ :: r =>
    match utf8_len l with
    | O => bytes (bs [239; 191; 189]%N) ++ runes fuel limit r
    | k => take k l ++ runes fuel limit (drop k l)
    end
  | _, _, _ => []
  end.
Definition clamp (s : string) : string := unbytes (runes (str_len s) 2048 (bytes s)).

(** [RetryAfter.Microseconds()], at least one for a positive delay. *)
Definition retry_micros (delay : Z) : Z :=
  let micros := Z.quot delay 1000 in if decide (0 < delay /\ micros = 0)%Z then 1 else micros.

Definition settleError (x : goerr) : goerr := EWrap "settle outbox: " x "".

(** [WHERE ... AND state='LEASED' AND lease_owner=$2 AND attempt_count=$3 AND lease_until>clock_timestamp()]. *)
Definition leased_to (l : Outbox.Lease) (t : time) (o : OutboxRow) : bool :=
  bool_decide (ob_State o = "LEASED" /\ ob_Owner o = Some (Outbox.l_Owner l) /\ ob_Attempts o = Outbox.l_Attempt l)
  && match ob_Until o with Some u => bool_decide (t < u)%Z | None => false end.

Definition settleOutbox (l : Outbox.Lease) (r : Outbox.Resolution) : txn unit :=
  if negb (Outbox.Lease_Valid l) then refuse Outbox.ErrLeaseLost else
  _ ← of_outcome (Outbox.Resolution_Validate r);
  _ ← require (Outbox.l_Attempt l <= int64_max)%N (settleError pgx_Range);
  t ← clock_timestamp;
  found ← gets (fun d => o ← outbox d !! Outbox.l_ID l; if leased_to l t o then Some o else None);
  match found with
  | None => refuse Outbox.ErrLeaseLost
  | Some o =>
    now ← clock_timestamp;
    write_outbox (Outbox.l_ID l) (settled_row r (retry_micros (Outbox.rs_RetryAfter r)) (clamp (Outbox.rs_LastError r)) now o)
  end.

Definition settle_call (l : Outbox.Lease) (r : Outbox.Resolution) : txn (verdict unit) := _ ← settleOutbox l r; mret (Commit tt).
Definition MarkDispatched (l : Outbox.Lease) : txn (verdict unit) := settle_call l (Outbox.mkResolution "DISPATCHED" 0 "").
Definition MarkRetry (l : Outbox.Lease) (delay : Z) (lastError : string) : txn (verdict unit) :=
  settle_call l (Outbox.mkResolution "PENDING" delay lastError).
Definition MarkDeadLetter (l : Outbox.Lease) (lastError : string) : txn (verdict unit) :=
  settle_call l (Outbox.mkResolution "DEAD_LETTER" 0 lastError).

Definition GetOutbox (jsonb_text : jval -> string) (key : string) (d : Db) : outcome Outbox.Message :=
  match head (filter (fun p => ob_Key p.2 = key) (map_to_list (outbox d))) with
  | Some (k, o) => Ok (scanOutbox jsonb_text k o)
  | None => Err Outbox.ErrLeaseLost
  end.

(** ** Claim *)

Definition by_outbox_id (p q : Z * OutboxRow) : Prop := (p.1 <= q.1)%Z.
#[export] Instance by_outbox_id_dec p q : Decision (by_outbox_id p q).
Proof. unfold by_outbox_id. apply _. Defined.

(** [o.state='PENDING' OR (o.state='LEASED' AND o.lease_until<=clock_timestamp())]. *)
Definition takeable (t : time) (o : OutboxRow) : bool :=
  bool_decide (ob_State o = "PENDING")
  || (bool_decide (ob_State o = "LEASED") && match ob_Until o with Some u => bool_decide (u <= t)%Z | None => false end).

Definition claim_eligible (p : Manager) (locked : Z -> bool) (t t' : time) (q : Z * OutboxRow) : bool :=
  takeable t q.2 && bool_decide (ob_NextAttempt q.2 <= t')%Z && Outbox.ValidRisk (ob_RiskClass q.2)
  && bool_decide (m_Mode p = "NORMAL" \/ m_Mode p = "RECOVERY_RECONCILIATION")
  && bool_decide (m_Mode p = "NORMAL" \/ ob_RiskClass q.2 = risk_Observe) && negb (locked q.1).
Definition claim_candidates (limit : nat) (locked : Z -> bool) (t t' : time) (d : Db) : list (Z * OutboxRow) :=
  take limit (merge_sort by_outbox_id
    (filter (fun q => claim_eligible (recoveryState (core d)) locked t t' q = true) (map_to_list (outbox d)))).

Definition claimError (x : goerr) : goerr := EWrap "claim outbox: " x "".
(** [UPDATE ... RETURNING]: every candidate, each for one more attempt. *)
Fixpoint lease_all (owner : string) (until : time) (epoch : N) (l : list (Z * OutboxRow)) : txn (list (Z * OutboxRow)) :=
  match l with
  | [] => mret []
  | (k, o) :: rest =>
    _ ← require (ob_Attempts o + 1 <= int64_max)%N (claimError pg_range);
    let o' := with_lease owner (ob_Attempts o + 1) until epoch "" o in
    _ ← write_outbox k o';
    taken ← lease_all owner until epoch rest;
    mret ((k, o') :: taken)
  end.

Definition Claim (jsonb_text : jval -> string) (workerID : string) (limit duration : Z) : txn (verdict (list Outbox.Message)) :=
  if decide (workerID = "" \/ limit < 1 \/ 1000 < limit \/ duration < Outbox.Millisecond \/ 24 * Outbox.Hour < duration)%Z
  then refuse (ENew "invalid outbox worker, claim limit or lease duration") else
  t ← clock_timestamp;
  t' ← clock_timestamp;
  locked ← asks tx_locked;
  found ← gets (claim_candidates (Z.to_nat limit) locked t t');
  p ← gets (fun d => recoveryState (core d));
  now ← clock_timestamp;
  taken ← lease_all workerID (now + Z.quot duration Outbox.Millisecond * Outbox.Millisecond)%Z (m_Epoch p) found;
  mret (Commit ((fun q => scanOutbox jsonb_text q.1 q.2) <$> taken)).

(** ** Dispatch *)

Definition pgx_NullFloat : goerr := ENew "cannot scan NULL into *float64".
Definition outcome_unknown (x : goerr) : goerr := EWrap2 Outbox.ErrOutcomeUnknown x.
Definition settled_json (key : string) (attempt epoch : N) (state : string) : jval :=
  JObj (jstr "outbox_key" key ++ jnum "attempt" attempt ++ jnum "recovery_epoch" epoch ++ jstr "state" state).

#[local] Existing Instance Outbox.Lease_eq_dec.

Section dispatch.
Context `{Hash} (jsonb_text : jval -> string).

(** What precedes the delivery: the message, and when its lease and the call
    run out.  [opened] is when the call's context was made. *)
Definition authorize_delivery (lease : Outbox.Lease) (risk : string) (opened : time) : txn (OutboxRow * N * time) :=
  p ← gets (fun d => recoveryState (core d));
  if decide (m_Mode p <> "NORMAL" /\ m_Mode p <> "RECOVERY_RECONCILIATION") then refuse Outbox.ErrRecoveryBlocked else
  found ← gets (fun d => outbox d !! Outbox.l_ID lease);
  match found with
  | None => refuse Outbox.ErrLeaseLost
  | Some o =>
    if decide (ob_State o <> "LEASED" \/ row_lease (Outbox.l_ID lease) o <> lease) then refuse Outbox.ErrLeaseLost else
    match Outbox.Classify (ob_Topic o) (ob_RiskClass o) with
    | Err _ => refuse Outbox.ErrRiskClass
    | Ok classified =>
      if decide (classified <> risk) then refuse Outbox.ErrRiskClass else
      if decide (risk <> risk_Observe /\ (m_Mode p <> "NORMAL" \/ default 0%N (ob_Epoch o) <> m_Epoch p))
      then refuse Outbox.ErrRecoveryBlocked else
      started ← clock_timestamp;
      t ← clock_timestamp;
      match ob_Until o with
      | None => refuse pgx_NullFloat
      | Some u =>
        now ← clock_timestamp;
        let remaining := ((u - t) - (now - started))%Z in
        if decide (remaining <= 0 \/ ob_Epoch o = None)%Z then refuse Outbox.ErrLeaseLost else
        ready ← clock_timestamp;
        let deadline := Z.min (opened + seconds 30) (now + remaining) in
        if decide (deadline <= ready)%Z then refuse ctx_DeadlineExceeded else
        mret (o, m_Epoch p, deadline)
      end
    end
  end.

(** [deliver] is the callback, which may not touch the tables. *)
Definition Dispatch (lease : Outbox.Lease) (risk : string) (deliver : Outbox.Message -> Outbox.Resolution) : txn (verdict string) :=
  if negb (Outbox.Lease_Valid lease) then refuse Outbox.ErrLeaseLost else
  if negb (Outbox.ValidRisk risk) then refuse Outbox.ErrRiskClass else
  opened ← clock_timestamp;
  '(o, epoch, deadline) ← authorize_delivery lease risk opened;
  let r := deliver (scanOutbox jsonb_text (Outbox.l_ID lease) o) in
  finished ← clock_timestamp;
  if decide (deadline <= finished)%Z then refuse (outcome_unknown ctx_DeadlineExceeded) else
  map_error outcome_unknown
    (_ ← of_outcome (Outbox.Resolution_Validate r);
     _ ← settleOutbox lease r;
     record ← of_outcome (auditInput "outbox.settled" "Outbox" (ob_Key o) (settled_json (ob_Key o) (ob_Attempts o) epoch (Outbox.rs_State r)));
     now ← clock_timestamp;
     _ ← appendAudit record now;
     mret (Commit (Outbox.rs_State r))).

End dispatch.

(** ** worker_relay.go: a started run enters the inbox *)

(** A JSON member of [workerqueue.Intent], with [DisallowUnknownFields]; [null] leaves the field as it is. *)
Definition intent_member (i : Intent) (f : string * jval) : option Intent :=
  let text (g : string -> Intent) := match f.2 with JStr s => Some (g s) | JNull => Some i | _ => None end in
  if decide (f.1 = "run_id") then text (fun s => mkIntent s (it_TaskDigest i) (it_InputDigest i) (it_ExecutionEpoch i))
  else if decide (f.1 = "task_contract_digest") then text (fun s => mkIntent (it_RunID i) s (it_InputDigest i) (it_ExecutionEpoch i))
  else if decide (f.1 = "run_input_manifest_digest") then text (fun s => mkIntent (it_RunID i) (it_TaskDigest i) s (it_ExecutionEpoch i))
  else if decide (f.1 = "execution_epoch") then
    match f.2 with
    | JNum n => if decide (0 <= n < Z.of_N u64_modulus)%Z
                then Some (mkIntent (it_RunID i) (it_TaskDigest i) (it_InputDigest i) (Z.to_N n)) else None
    | JNull => Some i
    | _ => None
    end
  else None.

(** [strictjson.Decode] of a [jsonb] column of at most a mebibyte. *)
Definition Intent_decode (v : jval) : option Intent :=
  match v with
  | JObj l =>
    if members_admissible validKey 1 ∅ l
    then foldl (fun o f => i ← o; intent_member i f) (Some (mkIntent "" "" "" 0)) l else None
  | _ => None
  end.

(** The intent of a message that is one of a started run. *)
Definition run_intent (o : OutboxRow) : option Intent :=
  i ← Intent_decode (ob_Payload o);
  if decide (ob_AggregateType o = "Run" /\ ob_AggregateID o = it_RunID i /\ ob_Key o = "run:" +:+ it_RunID i +:+ ":started")
  then Some i else None.

Definition relayable (locked : Z -> bool) (t t' : time) (q : Z * OutboxRow) : bool :=
  bool_decide (ob_Topic q.2 = "run.started") && bool_decide (ob_NextAttempt q.2 <= t)%Z && takeable t' q.2 && negb (locked q.1).
Definition relay_candidate (locked : Z -> bool) (t t' : time) (d : Db) : option (Z * OutboxRow) :=
  head (merge_sort by_outbox_id (filter (fun q => relayable locked t t' q = true) (map_to_list (outbox d)))).

Section relay.
Context `{Hash}.

Definition transferred_json (key digest state : string) : jval :=
  JObj (jstr "outbox_key" key ++ jstr "intent_digest" digest ++ jstr "outbox_state" state).

Definition dead (reason : string) : Outbox.Resolution := Outbox.mkResolution "DEAD_LETTER" 0 reason.
Definition revoked_intent : Outbox.Resolution := dead "run intent identity revoked or mismatched".

(** The transfer and its resolution; [fresh] is what the inbox's identity column yields. *)
Definition transfer (fresh : Z) (o : OutboxRow) : txn (Outbox.Resolution * string) :=
  match run_intent o with
  | None => mret (dead "invalid run intent", "")
  | Some intent =>
    let gone (x : goerr) (digest : string) : txn (Outbox.Resolution * string) :=
      if errors_is x wq_ErrIdentity || errors_is x ErrInactive then mret (revoked_intent, digest) else refuse x in
    match Intent_Digest intent with
    | Err x => gone x ""
    | Ok digest =>
      taken ← gets (fun d => bool_decide (is_Some (inbox d !! fresh)));
      if (taken : bool) then refuse pg_unique else
      moved ← attempt (insertWorkerIntent fresh (ob_Key o) intent digest);
      match moved with
      | Ok _ => mret (Outbox.mkResolution "DISPATCHED" 0 "", digest)
      | Err x => gone x digest
      end
    end
  end.

Definition relayRunStart (fresh : Z) (owner : string) : txn (verdict bool) :=
  p ← gets (fun d => recoveryState (core d));
  if decide (m_Mode p <> "NORMAL") then
    if decide (m_Mode p = "RECOVERY_RECONCILIATION") then mret (Discard false) else refuse ErrRecovery
  else
  t ← clock_timestamp;
  t' ← clock_timestamp;
  locked ← asks tx_locked;
  found ← gets (relay_candidate locked t t');
  match found with
  | None => mret (Discard false)
  | Some (k, o) =>
    if decide (ob_RiskClass o <> risk_ControlledMutation) then refuse Outbox.ErrRiskClass else
    let attempts := (ob_Attempts o + 1)%N in (* a bigint and one is no more than a uint64 holds *)
    _ ← require (attempts <= int64_max)%N pgx_Range;
    now ← clock_timestamp;
    _ ← write_outbox k (with_lease owner attempts (now + seconds 30) (m_Epoch p) (ob_LastError o) o);
    '(r, digest) ← transfer fresh o;
    _ ← settleOutbox (Outbox.mkLease k owner attempts) r;
    record ← of_outcome (auditInput "worker.inbox.transferred" "Run" (ob_AggregateID o)
               (transferred_json (ob_Key o) digest (Outbox.rs_State r)));
    now ← clock_timestamp;
    _ ← appendAudit record now;
    mret (Commit true)
  end.

(** A transaction for each message, at most [limit]: how many were moved, and
    the error that ended the loop, if one did. *)
Fixpoint relay_loop (n : nat) (owner : string) (fresh : nat -> Z) (env : nat -> TxEnv) (answer : nat -> commit_answer)
    (between : nat -> Db -> Db) (transferred : Z) (d : Db) : (Z * option goerr) * Db :=
  match n with
  | O => ((transferred, None), d)
  | S n =>
    match transact (relayRunStart (fresh n) owner) (env n) (answer n) d with
    | (Err x, d') => ((transferred, Some x), d')
    | (Ok found, d') =>
      if (found : bool) then relay_loop n owner fresh env answer between (transferred + 1) (between n d')
      else ((transferred, None), d')
    end
  end.
Definition RelayRunStarts (owner : string) (limit : Z) (fresh : nat -> Z) (env : nat -> TxEnv) (answer : nat -> commit_answer)
    (between : nat -> Db -> Db) (d : Db) : (Z * option goerr) * Db :=
  if decide (owner = "" \/ limit < 1 \/ 64 < limit)%Z then ((0%Z, Some (ENew "invalid local relay configuration")), d)
  else relay_loop (Z.to_nat limit) owner fresh env answer between 0 d.

End relay.
