(* ===== verification/ContinueStore.v ===== *)
(** [codex_continuation.go] of [internal/store/postgres]: a run whose turn was
    stopped by an observed interruption is ended without a delivery, and
    another run of the same work continues from its checkpoint. *)
From S2P Require Import Prelude Canonical Json Core Run Session Recovery Verification Action Store Journal WorkerQueue Preparation Control Sandbox Offline Codex Access Db WorkerStore ExecStore ControlStore CoreStore.
From S2P Require Outbox.

Definition ContinueRequest_json (q : ContinueRequest) : jval := JObj
  (jstr "source_run_id" (cq_SourceRunID q) ++ jstr "run_id" (cq_RunID q) ++ jstr "attempt_id" (cq_AttemptID q)
   ++ jstr "checkpoint_digest" (cq_CheckpointDigest q) ++ jnum "expected_run_version" (cq_ExpectedRunVersion q)
   ++ jnum "expected_work_version" (cq_ExpectedWorkVersion q) ++ jnum "execution_epoch" (cq_ExecutionEpoch q)
   ++ jnum "recovery_epoch" (cq_RecoveryEpoch q) ++ jstr "reason" (cq_Reason q)).
Definition ContinuationReceipt_json (c : ContinuationReceipt) : jval := JObj
  ([("version", JNum (cn_Version c))] ++ jstr "actor" (cn_Actor c) ++ [("request", ContinueRequest_json (cn_Request c));
    ("run", Run_json (cn_Run c)); ("attempt", Attempt_json (cn_Attempt c)); ("session", Session_json (cn_Session c));
    ("run_input", RunInputManifest_json (cn_Input c))]
   ++ jstr "source_disposition" (cn_SourceDisposition c) ++ jtime "created_at" (cn_CreatedAt c)).

#[export] Instance ContinueRequest_eq_dec : EqDecision ContinueRequest.
Proof. solve_decision. Defined.

Section continue_store.
Context `{Hash}.

(** [readContinuation]: the other columns repeat the receipt. *)
Definition readContinuation (r : option ContinuationReceipt) : txn ContinuationReceipt :=
  c ← map_error mapReadError (row r);
  if is_ok (ContinuationReceipt_Validate c) then mret c else refuse wq_ErrIdentity.

Definition GetCodexContinuation (source : string) : txn (verdict ContinuationReceipt) :=
  c ← gets (fun d => continued d !! source) ≫= readContinuation; mret (Discard c).

(** The three EXISTS: an operation that is not confirmed, a delivery, an offline execution. *)
Definition unresolved (run : string) (d : Db) : bool :=
  existsb (fun o => bool_decide (op_RunID o = run /\ op_State o <> op_Confirmed)) (map_to_list (operations (core d))).*2
  || deliveries_of run d || bool_decide (is_Some (offline_rows d !! run)).

(** What [ContinueCodex] reads of the stopped run. *)
Record Stop := mkStop {
  st_run : Run; st_session : Session; st_execution : ExecRow CodexProfile CodexReceipt;
  st_checkpoint : SourceCheckpoint; st_assignment : Assignment; st_work : WorkItem
}.

(** From the inbox row to the work item: the run is the runtime's, its
    execution was given up, its turn interrupted and sealed, its source kept. *)
Definition stopped_run (actor : string) (q : ContinueRequest) (epoch : N) (inbox : inboxRecord) : txn Stop :=
  r ← map_error mapReadError (gets (fun d => runs (core d) !! cq_SourceRunID q) ≫= row);
  _ ← require (r_CurrentAttemptID r <> "") pgx_NullString;
  if decide (r_State r <> "RUNNING" \/ r_ControlOwner r <> "RUNTIME" \/ r_Version r <> cq_ExpectedRunVersion q
             \/ r_CurrentEpoch r <> cq_ExecutionEpoch q \/ r_CurrentEpoch r <> it_ExecutionEpoch (bx_intent inbox)
             \/ r_TaskContractDigest r <> it_TaskDigest (bx_intent inbox)
             \/ r_RunInputManifestDigest r <> it_InputDigest (bx_intent inbox))
  then refuse ErrConflict else
  s ← gets (fun d => sessions (core d) !! cq_SourceRunID q) ≫= row;
  if decide (s_ExecutionEpoch s <> r_CurrentEpoch r \/ s_Owner s <> "RUNTIME" \/ s_Paused s = true) then refuse ErrConflict else
  x ← gets (fun d => codex_rows d !! cq_SourceRunID q) ≫= scan_execution codex_lane;
  if decide (ex_State x <> exec_Unknown \/ ex_Receipt x <> None \/ ex_Worker x <> bx_owner inbox
             \/ xt_RecoveryEpoch (ex_Token x) <> epoch)
  then refuse ErrConflict else
  runtime ← gets (fun d => runtimes d !! xt_ID (ex_Token x)) ≫= controlRuntime;
  if decide (rn_State runtime <> "SEALED" \/ match rn_Transcript runtime with Some t => Continuable t | None => false end = false
             \/ cb_Token (rn_Binding runtime) <> ex_Token x \/ cb_ExecutionEpoch (rn_Binding runtime) <> r_CurrentEpoch r)
  then refuse (ENew "observed explicit interruption and quiescent sealed controls required") else
  kept ← gets (fun d => snapshots d !! xt_ID (ex_Token x)) ≫= checkpointRow;
  match kept with
  | None => refuse ErrNotFound
  | Some c =>
    match SourceCheckpoint_Digest c with
    | Err _ => refuse wq_ErrIdentity
    | Ok cd =>
      if decide (cd <> cq_CheckpointDigest q \/ so_Binding c <> rn_Binding runtime \/ so_TranscriptDigest c <> rn_Digest runtime
                 \/ so_TaskDigest c <> r_TaskContractDigest r \/ so_InputDigest c <> r_RunInputManifestDigest r)
      then refuse wq_ErrIdentity else
      a ← loadWorkerAssignment inbox;
      if decide (so_BaseCommit c <> to_lower (tc_BaseCommit (as_Task a)) \/ is_ok (codex_CheckAssignment a (ex_Profile x)) = false)
      then refuse wq_ErrIdentity else
      w ← map_error mapReadError (gets (fun d => works (core d) !! tc_WorkItemID (as_Task a)) ≫= row);
      if decide (wi_Version w <> cq_ExpectedWorkVersion q \/ wi_State w <> WorkExecuting \/ wi_HumanOwner w <> actor
                 \/ wi_ActiveRunID w <> cq_SourceRunID q \/ wi_ActiveTaskContractDigest w <> r_TaskContractDigest r)
      then refuse ErrConflict else
      mret (mkStop r s x c a w)
    end
  end.

(** The successor, and the receipt of the decision. *)
Definition successor (actor : string) (q : ContinueRequest) (st : Stop) (now : time) : outcome ContinuationReceipt :=
  ref ← SourceCheckpoint_ContinuationRef (st_checkpoint st);
  let i := as_Input (st_assignment st) in
  let manifest := mkRunInput (Some ref) (cq_RunID q) (ri_TaskContractDigest i) (ri_ContextRefs i) (ri_RuntimeProfile i)
                    (ri_ToolProfile i) (ri_WorkerProfile i) (ri_PolicyProfile i) in
  digest ← RunInputManifest_Digest manifest;
  '(attempt, value) ← StartAttempt (Run_New (cq_RunID q) (r_TaskContractDigest (st_run st)) digest) (cq_AttemptID q) now;
  let c := mkContinuationReceipt 1 actor q value attempt (Session_New (cq_RunID q) (at_Epoch attempt)) manifest Stopped now in
  _ ← ContinuationReceipt_Validate c;
  Ok c.

(** [UPDATE runs], [sessions], [run_attempts], [worker_codex_executions], [work_items]. *)
Definition aborted_run (r : Run) : Run :=
  mkRun (r_ID r) (r_TaskContractDigest r) (r_RunInputManifestDigest r) run_Aborted (r_Version r + 1) (r_CurrentEpoch r + 1)
    (r_CurrentAttemptID r) (r_ControlOwner r).
Definition fenced_session (s : Session) : Session :=
  mkSession (s_RunID s) (s_ExecutionEpoch s + 1) (s_Owner s) (s_LastSequence s) true.
Definition ended_attempts (id : string) (now : time) (l : gmap string Attempt) : gmap string Attempt :=
  match l !! id with
  | Some a => <[id := mkAttempt (at_ID a) (at_Epoch a) (at_StartedAt a) (micro now)]> l
  | None => l
  end.
Definition end_source (run : string) (now : time) (m : Memory) : Memory :=
  match runs m !! run, sessions m !! run with
  | Some r, Some s =>
    set_attempts (<[run := ended_attempts (r_CurrentAttemptID r) now (default ∅ (attempts m !! run))]> (attempts m))
      (set_sessions (<[run := fenced_session s]> (sessions m)) (set_runs (<[run := aborted_run r]> (runs m)) m))
  | _, _ => m
  end.
Definition redirect_work (id run : string) (m : Memory) : Memory :=
  match works m !! id with
  | Some w => set_works (<[id := set_wi_Version (wi_Version w + 1) (set_wi_Active (wi_ActiveTaskContractDigest w) run w)]> (works m)) m
  | None => m
  end.

Definition stop_source (q : ContinueRequest) (st : Stop) (now : time) : txn unit :=
  _ ← require (r_Version (st_run st) + 1 <= int64_max /\ r_CurrentEpoch (st_run st) + 1 <= int64_max)%N pg_range;
  _ ← require (s_ExecutionEpoch (st_session st) + 1 <= int64_max)%N pg_range;
  _ ← write_core (end_source (cq_SourceRunID q) now);
  found ← gets (by_execution codex_lane (xt_ID (ex_Token (st_execution st))));
  _ ← match found with Some (run, y) => write_execution_row codex_lane run (set_ex_State Stopped y) | None => mret tt end;
  _ ← require (wi_Version (st_work st) + 1 <= int64_max)%N pg_range;
  write_core (redirect_work (tc_WorkItemID (as_Task (st_assignment st))) (cq_RunID q)).

(** [INSERT INTO codex_continuations] under its two unique keys and its references. *)
Definition insert_continuation (c : ContinuationReceipt) : txn unit :=
  let q := cn_Request c in
  map_error mapWriteError
    (taken ← gets (fun d => bool_decide (is_Some (continued d !! cq_SourceRunID q))
                            || existsb (fun o => bool_decide (r_ID (cn_Run o) = cq_RunID q)) (map_to_list (continued d)).*2);
     if (taken : bool) then refuse pg_unique else
     modify (fun d => set_continued (<[cq_SourceRunID q := c]> (continued d)) d)).

Definition run_intent_message (i : Intent) : OutboxMessage :=
  mkOutboxMessage ("run:" +:+ it_RunID i +:+ ":started") "run.started" "Run" (it_RunID i) "" (Intent_json i).

Definition continue_run (actor : string) (q : ContinueRequest) (fresh : Z) (start : time) (epoch : N) (mode : string)
    (inbox : inboxRecord) : txn (verdict ContinuationReceipt) :=
  if decide (mode <> "NORMAL" \/ epoch <> cq_RecoveryEpoch q) then refuse ErrRecovery else
  st ← stopped_run actor q epoch inbox;
  busy ← gets (unresolved (cq_SourceRunID q));
  if (busy : bool) then refuse (ENew "source Run has unresolved operations, delivery, or another execution lane") else
  now ← clock_timestamp;
  c ← of_outcome (successor actor q st now);
  _ ← insertExecution (cn_Run c) (cn_Attempt c) (cn_Session c) (cn_Input c);
  _ ← stop_source q st now;
  _ ← insert_continuation c;
  _ ← workerAudit "run.source-continuation-authorized" (cq_SourceRunID q) (ContinuationReceipt_json c);
  _ ← insertOutbox fresh start (run_intent_message (mkIntent (cq_RunID q) (r_TaskContractDigest (st_run st))
        (r_RunInputManifestDigest (cn_Run c)) 1));
  mret (Commit c).

(** [fresh] is what the outbox's identity column yields. *)
Definition ContinueCodex (fresh : Z) (actor : string) (q : ContinueRequest) : txn (verdict ContinuationReceipt) :=
  if decide (is_ok (ContinueRequest_Validate q) = false \/ str_prefix subject_prefix actor = false) then refuse wq_ErrIdentity else
  start ← clock_timestamp;
  '(epoch, mode) ← lockWorkerPlatform;
  inbox ← map_error mapReadError (gets (inbox_by_run (cq_SourceRunID q)) ≫= scanInbox);
  old ← attempt (gets (fun d => continued d !! cq_SourceRunID q) ≫= readContinuation);
  match old with
  | Ok old => if decide (cn_Actor old <> actor \/ cn_Request old <> q) then refuse ErrConflict else mret (Discard old)
  | Err x => if decide (x <> ErrNotFound) then refuse x else continue_run actor q fresh start epoch mode inbox
  end.

End continue_store.
