(* ===== verification/Txn.v ===== *)
(** Reasoning about transactions: inversion of a transaction that returned,
    what it leaves alone ([Keeps]), and what the shared helpers read. *)
From S2P Require Import Prelude Canonical Json Core Run Session Recovery Verification Action Store Binding Journal WorkerQueue Preparation Control Sandbox Offline Codex Db WorkerStore ExecStore ControlStore.

(** ** Inversion *)

Lemma tx_bind {A B} (m : txn A) (f : A -> txn B) e d n r :
  (m ≫= f) e d n = Ok r -> exists a d1 n1, m e d n = Ok (a, d1, n1) /\ f a e d1 n1 = Ok r.
Proof. unfold mbind, txn_bind. destruct (m e d n) as [[[a d1] n1]|]; [eauto | done]. Qed.
Lemma tx_ret {A} (a b : A) e d d' n n' : (mret a : txn A) e d n = Ok (b, d', n') -> b = a /\ d' = d /\ n' = n.
Proof. by intros [= <- <- <-]. Qed.
Lemma tx_refuse {A} x e d n (r : A * Db * nat) : refuse x e d n = Ok r -> False.
Proof. done. Qed.
Lemma tx_gets {A} (f : Db -> A) a e d d' n n' : gets f e d n = Ok (a, d', n') -> a = f d /\ d' = d /\ n' = n.
Proof. by intros [= <- <- <-]. Qed.
Lemma tx_asks {A} (f : TxEnv -> A) a e d d' n n' : asks f e d n = Ok (a, d', n') -> a = f e /\ d' = d /\ n' = n.
Proof. by intros [= <- <- <-]. Qed.
Lemma tx_modify f u e d d' n n' : modify f e d n = Ok (u, d', n') -> d' = f d /\ n' = n.
Proof. by intros [= _ <- <-]. Qed.
Lemma tx_clock_read a e d d' n n' : clock_timestamp e d n = Ok (a, d', n') -> a = tx_clock e n /\ d' = d /\ n' = S n.
Proof. by intros [= <- <- <-]. Qed.
Lemma tx_of_outcome {A} (o : outcome A) a e d d' n n' : of_outcome o e d n = Ok (a, d', n') -> o = Ok a /\ d' = d /\ n' = n.
Proof. unfold of_outcome. destruct o; [by intros [= <- <- <-] | done]. Qed.
Lemma tx_row {A} (o : option A) a e d d' n n' : row o e d n = Ok (a, d', n') -> o = Some a /\ d' = d /\ n' = n.
Proof. unfold row. by intros (Ho%of_option_ok & -> & ->)%tx_of_outcome. Qed.
Lemma tx_map_error {A} f (m : txn A) e d n r : map_error f m e d n = Ok r -> m e d n = Ok r.
Proof. unfold map_error. by destruct (m e d n). Qed.
Lemma tx_require P `{Decision P} x u e d d' n n' : require P x e d n = Ok (u, d', n') -> P /\ d' = d /\ n' = n.
Proof. unfold require. case_decide; [by intros [= _ <- <-] | done]. Qed.
(** An attempt either succeeded or left everything as it was. *)
Lemma tx_attempt {A} (m : txn A) r e d d' n n' : attempt m e d n = Ok (r, d', n') ->
  match r with Ok a => m e d n = Ok (a, d', n') | Err x => m e d n = Err x /\ d' = d /\ n' = n end.
Proof. unfold attempt. destruct (m e d n) as [[[a d1] n1]|] eqn:E; intros [= <- <- <-]; by rewrite ?E. Qed.

Ltac tx_step :=
  match goal with
  | H : mbind _ _ _ _ _ = Ok _ |- _ =>
      let a := fresh "a" in let d := fresh "d" in let n := fresh "n" in let E := fresh "E" in
      apply tx_bind in H; destruct H as (a & d & n & E & H); cbn beta iota zeta in H
  | H : mret _ _ _ _ = Ok _ |- _ => apply tx_ret in H; destruct H as (? & ? & ?); subst
  | H : refuse _ _ _ _ = Ok _ |- _ => destruct (tx_refuse _ _ _ _ _ H)
  | H : gets _ _ _ _ = Ok _ |- _ => apply tx_gets in H; destruct H as (? & ? & ?); subst
  | H : asks _ _ _ _ = Ok _ |- _ => apply tx_asks in H; destruct H as (? & ? & ?); subst
  | H : modify _ _ _ _ = Ok _ |- _ => apply tx_modify in H; destruct H as (? & ?); subst
  | H : clock_timestamp _ _ _ = Ok _ |- _ => apply tx_clock_read in H; destruct H as (? & ? & ?); subst
  | H : of_outcome _ _ _ _ = Ok _ |- _ => apply tx_of_outcome in H; destruct H as (? & ? & ?); subst
  | H : row _ _ _ _ = Ok _ |- _ => apply tx_row in H; destruct H as (? & ? & ?); subst
  | H : map_error _ _ _ _ _ = Ok _ |- _ => apply tx_map_error in H
  | H : require _ _ _ _ _ = Ok _ |- _ => apply tx_require in H; destruct H as (? & ? & ?); subst
  | H : (let '(_, _) := ?p in _) _ _ _ = Ok _ |- _ => destruct p
  | H : (if decide ?P then _ else _) _ _ _ = Ok _ |- _ => destruct (decide P)
  | H : (if ?b then _ else _) _ _ _ = Ok _ |- _ => let E := fresh "E" in destruct b eqn:E
  | H : (match ?o with Some _ => _ | None => _ end) _ _ _ = Ok _ |- _ => let E := fresh "E" in destruct o eqn:E
  | H : (match ?o with Ok _ => _ | Err _ => _ end) _ _ _ = Ok _ |- _ => let E := fresh "E" in destruct o eqn:E
  | H : Ok _ = Ok _ |- _ => injection H; clear H; intros; subst
  | H : (_, _) = (_, _) |- _ => injection H; clear H; intros; subst
  | H : Discard _ = Commit _ |- _ => discriminate H
  | H : Commit _ = Discard _ |- _ => discriminate H
  | H : Commit _ = Commit _ |- _ => injection H; clear H; intros; subst
  end.
Ltac tx := repeat tx_step.
(** A guard that did not fire: every one of its conditions was false. *)
Ltac passed := repeat match goal with H : ~ (_ \/ _) |- _ => apply Decidable.not_or in H; destruct H end;
  repeat match goal with
  | H : ~ (_ <> _) |- _ => apply dec_stable in H
  | H : ~ (_ = false) |- _ => apply not_false_is_true in H
  | H : ~ (_ = true) |- _ => apply not_true_is_false in H
  | H : negb _ = false |- _ => apply negb_false_iff in H
  end.

(** ** Frames: what a transaction does not touch *)

Class Keeps {A B} (f : Db -> B) (m : txn A) := keeps e d n a d' n' : m e d n = Ok (a, d', n') -> f d' = f d.

Section keeps.
Context {B : Type} (f : Db -> B).
#[export] Instance keeps_ret {A} (a : A) : Keeps f (mret a).
Proof. by intros ?????? (_ & -> & _)%tx_ret. Qed.
#[export] Instance keeps_refuse {A} x : Keeps f (refuse (A := A) x).
Proof. by intros ??????. Qed.
#[export] Instance keeps_gets {A} (g : Db -> A) : Keeps f (gets g).
Proof. by intros ?????? (_ & -> & _)%tx_gets. Qed.
#[export] Instance keeps_asks {A} (g : TxEnv -> A) : Keeps f (asks g).
Proof. by intros ?????? (_ & -> & _)%tx_asks. Qed.
#[export] Instance keeps_clock : Keeps f clock_timestamp.
Proof. by intros ?????? (_ & -> & _)%tx_clock_read. Qed.
#[export] Instance keeps_of_outcome {A} (o : outcome A) : Keeps f (of_outcome o).
Proof. by intros ?????? (_ & -> & _)%tx_of_outcome. Qed.
#[export] Instance keeps_row {A} (o : option A) : Keeps f (row o).
Proof. apply keeps_of_outcome. Qed.
#[export] Instance keeps_require P `{Decision P} x : Keeps f (require P x).
Proof. by intros ?????? (_ & -> & _)%tx_require. Qed.
Lemma keeps_bind {A C} (m : txn A) (k : A -> txn C) : Keeps f m -> (forall a, Keeps f (k a)) -> Keeps f (m ≫= k).
Proof. intros Hm Hk e d n a d' n' (x & d1 & n1 & E & E')%tx_bind. by rewrite (Hk _ _ _ _ _ _ _ E'), (Hm _ _ _ _ _ _ E). Qed.
Lemma keeps_attempt {A} (m : txn A) : Keeps f m -> Keeps f (attempt m).
Proof. intros Hm e d n [a|x] d' n' E%tx_attempt; [by eapply Hm | by destruct E as (_ & -> & _)]. Qed.
Lemma keeps_map_error {A} g (m : txn A) : Keeps f m -> Keeps f (map_error g m).
Proof. intros Hm e d n a d' n' E%tx_map_error. by eapply Hm. Qed.
Lemma keeps_modify g : (forall d, f (g d) = f d) -> Keeps f (modify g).
Proof. by intros Hg e d n a d' n' (-> & _)%tx_modify. Qed.
End keeps.

Create HintDb tx discriminated.
Ltac keep_step :=
  first
    [ solve [typeclasses eauto]
    | solve [eauto with tx nocore]
    | apply keeps_bind; [|intros ?]
    | apply keeps_attempt | apply keeps_map_error
    | apply keeps_modify; intros []; reflexivity
    | apply keeps_modify; intros d0; repeat case_match; destruct d0; reflexivity
    | match goal with |- Keeps _ (match ?x with _ => _ end) => destruct x end
    | progress cbn beta iota zeta ].
Ltac keep := repeat keep_step.

Section readers.
Context `{Hash} {B : Type} (f : Db -> B).
#[export] Instance keeps_scanInbox r : Keeps f (scanInbox r). Proof. unfold scanInbox. keep. Qed.
#[export] Instance keeps_platform : Keeps f lockWorkerPlatform. Proof. unfold lockWorkerPlatform. keep. Qed.
#[export] Instance keeps_active r : Keeps f (workerRunActive r). Proof. unfold workerRunActive. keep. Qed.
#[export] Instance keeps_load r : Keeps f (loadWorkerAssignment r). Proof. unfold loadWorkerAssignment. keep. Qed.
#[export] Instance keeps_lease s t : Keeps f (lockWorkerLease s t). Proof. unfold lockWorkerLease. keep. Qed.
#[export] Instance keeps_live r n m : Keeps f (liveWorkerLease r n m). Proof. unfold liveWorkerLease. keep. Qed.
#[export] Instance keeps_preparation i : Keeps f (preparation_of i). Proof. unfold preparation_of. keep. Qed.
#[export] Instance keeps_scan_execution {P R} (ln : Lane P R) r : Keeps f (scan_execution ln r). Proof. unfold scan_execution. keep. Qed.
#[export] Instance keeps_lock_execution {P R} (ln : Lane P R) s t b : Keeps f (lock_execution ln s t b). Proof. unfold lock_execution. keep. Qed.
#[export] Instance keeps_schema n m : Keeps f (lane_schema n m). Proof. unfold lane_schema. keep. Qed.
#[export] Instance keeps_controlRuntime r : Keeps f (controlRuntime r). Proof. unfold controlRuntime. keep. Qed.
#[export] Instance keeps_lockControlRuntime b : Keeps f (lockControlRuntime b). Proof. unfold lockControlRuntime. keep. Qed.
#[export] Instance keeps_checkpointRow r : Keeps f (checkpointRow r). Proof. unfold checkpointRow. keep. Qed.
#[export] Instance keeps_scanControl r : Keeps f (scanControl r). Proof. unfold scanControl. keep. Qed.
#[export] Instance keeps_scan_all l : Keeps f (scan_all l). Proof. induction l; simpl; keep. Qed.
End readers.

(** A transaction that keeps everything changes nothing. *)
Lemma unchanged {A} (m : txn A) `{!Keeps (fun d => d) m} e d n a d' n' : m e d n = Ok (a, d', n') -> d' = d.
Proof. exact (keeps (f := fun d => d) e d n a d' n'). Qed.
Lemma active_ok `{Hash} r e d n u d' n' : workerRunActive r e d n = Ok (u, d', n') -> d' = d /\ n' = n.
Proof. unfold workerRunActive. intros Ha. tx. done. Qed.
Lemma load_ok `{Hash} r e d n a d' n' : loadWorkerAssignment r e d n = Ok (a, d', n') -> d' = d /\ n' = n
  /\ exists m t v, input_and_task (it_InputDigest (bx_intent r)) (bx_runID r) d = Some (m, t) /\ ri_WorkerProfile m = bx_profile r
      /\ a = mkAssignment (inbox_token r) zero_time (bx_intent r) (bx_digest r) m t /\ Validate a = Ok v.
Proof. unfold loadWorkerAssignment. intros Hl. tx. passed. split_and!; [done..|]. eauto 10. Qed.

(** What a transaction does to the tables, as a preorder of states. *)
Definition Moves {A} (R : relation Db) (m : txn A) : Prop := forall e d n a d' n', m e d n = Ok (a, d', n') -> R d d'.

Section moves.
Context (R : relation Db) `{!PreOrder R}.
Lemma moves_bind {A C} (m : txn A) (k : A -> txn C) : Moves R m -> (forall a, Moves R (k a)) -> Moves R (m ≫= k).
Proof. intros Hm Hk e d n a d' n' (x & d1 & n1 & E & E')%tx_bind. etrans; [by eapply Hm | by eapply Hk]. Qed.
Lemma moves_keeps {A} (m : txn A) : Keeps (fun d => d) m -> Moves R m.
Proof. intros Hk e d n a d' n' Hm. pose proof (Hk _ _ _ _ _ _ Hm) as Hd. cbn in Hd. by subst. Qed.
Lemma moves_map_error {A} g (m : txn A) : Moves R m -> Moves R (map_error g m).
Proof. intros Hm e d n a d' n' E%tx_map_error. by eapply Hm. Qed.
Lemma moves_modify g : (forall d, R d (g d)) -> Moves R (modify g).
Proof. by intros Hg e d n a d' n' (-> & _)%tx_modify. Qed.
End moves.

(** Keeping a part of the tables is a move. *)
Definition same_part {B} (f : Db -> B) : relation Db := fun d d' => f d' = f d.
#[export] Instance same_part_preorder {B} (f : Db -> B) : PreOrder (same_part f).
Proof. split; [done|]. unfold same_part. intros d1 d2 d3. congruence. Qed.

Ltac moves_step known :=
  first
    [ known
    | apply moves_keeps; solve [keep]
    | apply moves_bind; [apply _ | | intros ?]
    | apply moves_map_error
    | match goal with |- Moves _ (match ?x with _ => _ end) => destruct x end
    | progress cbn beta iota zeta ].

(** ** Writers *)

Lemma keeps_settle_all {B} (f : Db -> B) ts l : (forall r, Keeps f (write_control r)) -> Keeps f (settle_all ts l).
Proof. intros Hf. induction l; simpl; [apply _|]. repeat (apply keeps_bind; [apply _|intros ?]). done. Qed.

Ltac keep_writes :=
  unfold workerAudit, appendAudit, write_inbox, write_runtime, write_control, write_execution_row, insert_execution,
    insert_control, insert_preparation, validate_row, finish_execution, advance_session, bump_run in *;
  repeat (keep_step || (apply keeps_settle_all; intros ?; unfold write_control)).

(** What an audit record adds: one event, linked to the last one. *)
Definition head_of (l : list Event) : N * string := match last l with Some ev => (e_Sequence ev, e_Digest ev) | None => (0%N, "") end.
(** One event more, as [appendAudit] adds it. *)
Definition logs `{Hash} (j j' : list Event) : Prop :=
  exists i now x, Build (u64_succ (head_of j).1) (head_of j).2 i now = Ok x /\ j' = j ++ [x].
Lemma audit_effect `{Hash} ev run v e d n u d' n' : workerAudit ev run v e d n = Ok (u, d', n') ->
  exists x, d' = set_journal (journal d ++ [x]) d /\ n' = S n
    /\ (exists i, auditInput ev "Run" run v = Ok i /\ Build (u64_succ (head_of (journal d)).1) (head_of (journal d)).2 i (tx_clock e n) = Ok x).
Proof.
  unfold workerAudit, appendAudit. intros Ha. tx.
  eexists. split; [reflexivity|]. split; [done|]. eexists. split; [done|]. done.
Qed.
