(* ===== verification/OutboxMoves.v ===== *)
(** The life of a message in the outbox table: what any transaction may do to
    a row, whoever runs it, and that the transactions do no more. *)
From S2P Require Import Prelude Canonical Json StrictJson Core Run Session Recovery Verification Action Store Journal WorkerQueue Db WorkerStore CoreStore OutboxStore Txn.
From S2P Require Outbox.

(** ** Rows over time *)

Definition same_message (o o' : OutboxRow) : Prop :=
  ob_Key o' = ob_Key o /\ ob_Topic o' = ob_Topic o /\ ob_AggregateType o' = ob_AggregateType o /\ ob_AggregateID o' = ob_AggregateID o
  /\ ob_RiskClass o' = ob_RiskClass o /\ ob_Payload o' = ob_Payload o /\ ob_CreatedAt o' = ob_CreatedAt o.
Definition settled_for_good (o : OutboxRow) : Prop := ob_State o = "DISPATCHED" \/ ob_State o = "DEAD_LETTER".

(** A later attempt, or the attempt of a lease that is over. *)
Definition advanced (o o' : OutboxRow) : Prop :=
  (ob_Attempts o < ob_Attempts o')%N \/ (ob_Attempts o' = ob_Attempts o /\ ob_State o = "LEASED" /\ ob_State o' <> "LEASED").

(** A row and the same row later. *)
Definition row_later (o o' : OutboxRow) : Prop :=
  o' = o \/ (same_message o o' /\ ~ settled_for_good o /\ advanced o o').

Lemma row_later_refl o : row_later o o.
Proof. by left. Qed.
Lemma advanced_trans o1 o2 o3 : advanced o1 o2 -> advanced o2 o3 -> advanced o1 o3.
Proof. intros [?|(? & ? & ?)] [?|(? & ? & ?)]; [left; lia | left; lia | left; lia | done]. Qed.
Lemma row_later_trans o1 o2 o3 : row_later o1 o2 -> row_later o2 o3 -> row_later o1 o3.
Proof.
  intros [->|(M1 & F1 & A1)] [->|(M2 & F2 & A2)]; try (by left); try (right; by split_and!).
  right. split_and!; [|done|by eapply advanced_trans].
  destruct M1 as (? & ? & ? & ? & ? & ? & ?), M2 as (? & ? & ? & ? & ? & ? & ?). by split_and!; etrans.
Qed.

(** No message is lost. *)
Definition outbox_later (a b : gmap Z OutboxRow) : Prop := forall k o, a !! k = Some o -> exists o', b !! k = Some o' /\ row_later o o'.

Lemma outbox_later_refl a : outbox_later a a.
Proof. intros k o Ho. exists o. split; [done | by left]. Qed.
Lemma outbox_later_trans a b c : outbox_later a b -> outbox_later b c -> outbox_later a c.
Proof.
  intros H1 H2 k o (o1 & Ho1 & L1)%H1. apply H2 in Ho1 as (o2 & Ho2 & L2). exists o2. split; [done|]. by eapply row_later_trans.
Qed.
Lemma outbox_later_sub a b : a ⊆ b -> outbox_later a b.
Proof. intros Hs k o Ho. exists o. split; [by eapply lookup_weaken | by left]. Qed.
Lemma outbox_later_insert a k o o' : a !! k = Some o -> row_later o o' -> outbox_later a (<[k := o']> a).
Proof.
  intros Ho Hl i x Hx. destruct (decide (i = k)) as [->|]; [|exists x; rewrite lookup_insert_ne by done; split; [done | by left]].
  exists o'. rewrite lookup_insert_eq. by simplify_eq.
Qed.

(** ** Leases of a message *)

(** The row is leased, and this is the lease. *)
Definition held (l : Outbox.Lease) (o : OutboxRow) : Prop :=
  ob_State o = "LEASED" /\ ob_Owner o = Some (Outbox.l_Owner l) /\ ob_Attempts o = Outbox.l_Attempt l.

Lemma leased_to_held l t o : leased_to l t o = true -> held l o /\ exists u, ob_Until o = Some u /\ (t < u)%Z.
Proof.
  unfold leased_to, held. intros (Hb%bool_decide_eq_true & Hu)%andb_true_iff. split; [done|].
  destruct (ob_Until o) as [u|]; [|done]. exists u. split; [done|]. by apply bool_decide_eq_true in Hu.
Qed.

(** A lease that is over never comes back. *)
Lemma lease_never_returns l o o1 o2 : held l o -> row_later o o1 -> ~ held l o1 -> row_later o1 o2 -> ~ held l o2.
Proof.
  intros (Hs & Ho & Ha) [->|(_ & _ & A1)] Hn L2; [by destruct Hn|].
  assert (advanced o o2) as [Hlt|(_ & _ & Hns)]; [|intros (_ & _ & Ha2); lia | by intros (Hs2 & _)].
  destruct L2 as [->|(_ & _ & A2)]; [done | by eapply advanced_trans].
Qed.

(** ** What the transactions do *)

Section moves.
Context `{Hash}.

Lemma tx_write_outbox k o u e d n d' n' : write_outbox k o e d n = Ok (u, d', n') -> d' = set_outbox (<[k := o]> (outbox d)) d /\ n' = n.
Proof. exact (tx_modify _ u e d d' n n'). Qed.

Lemma settle_ok l r e d n u d' n' : settleOutbox l r e d n = Ok (u, d', n') ->
  exists o now, outbox d !! Outbox.l_ID l = Some o /\ leased_to l (tx_clock e n) o = true /\ Outbox.Resolution_Validate r = Ok tt
    /\ now = tx_clock e (S n) /\ n' = S (S n)
    /\ d' = set_outbox (<[Outbox.l_ID l := settled_row r (retry_micros (Outbox.rs_RetryAfter r)) (clamp (Outbox.rs_LastError r)) now o]> (outbox d)) d.
Proof.
  unfold settleOutbox. intros Hs. tx. match goal with E : Outbox.Resolution_Validate r = Ok ?v |- _ => destruct v end.
  match goal with E : write_outbox _ _ _ _ _ = _ |- _ => apply tx_write_outbox in E as [-> ->] end.
  match goal with E : _ = Some o |- _ => rename E into Eo end.
  destruct (outbox d !! Outbox.l_ID l) as [o'|] eqn:Ek; [|done]. cbn in Eo.
  destruct (leased_to l (tx_clock e n) o') eqn:El; [|done]. injection Eo as ->. eauto 10.
Qed.

Lemma resolution_state r : Outbox.Resolution_Validate r = Ok tt -> Outbox.rs_State r = "DISPATCHED" \/ Outbox.rs_State r = "DEAD_LETTER" \/ Outbox.rs_State r = "PENDING".
Proof.
  unfold Outbox.Resolution_Validate, Outbox.ob_Dispatched, Outbox.ob_DeadLetter, Outbox.ob_Pending. intros Hr. repeat case_decide; done || tauto.
Qed.

Lemma row_settled_later r mi di now o l t : Outbox.Resolution_Validate r = Ok tt -> leased_to l t o = true -> row_later o (settled_row r mi di now o).
Proof.
  intros Hr%resolution_state [(Hs & _) _]%leased_to_held. right. split; [done|]. split.
  - intros [?|?]; congruence.
  - right. cbn. split_and!; [done..|]. by destruct Hr as [->|[->| ->]].
Qed.
Lemma settle_later l r e d n u d' n' : settleOutbox l r e d n = Ok (u, d', n') -> outbox_later (outbox d) (outbox d').
Proof.
  intros (o & now & Ho & Hl & Hr & _ & _ & ->)%settle_ok. cbn. eapply outbox_later_insert; [done | by eapply row_settled_later].
Qed.

Lemma takeable_open t o : takeable t o = true -> ~ settled_for_good o.
Proof.
  unfold takeable. intros [Hp%bool_decide_eq_true|[Hl%bool_decide_eq_true _]%andb_true_iff]%orb_true_iff [?|?]; congruence.
Qed.
Lemma leased_later t ow until ep le o : takeable t o = true -> row_later o (with_lease ow (ob_Attempts o + 1) until ep le o).
Proof. intros Ht%takeable_open. right. split_and!; [done..|]. left. cbn. lia. Qed.

Lemma merge_sort_head {A} (R : relation A) `{!RelDecision R} (P : A -> Prop) `{!forall x, Decision (P x)} l x :
  head (merge_sort R (filter P l)) = Some x -> P x /\ x ∈ l.
Proof. intros Hh%head_Some_elem_of. by rewrite merge_sort_Permutation, list_elem_of_filter in Hh. Qed.

Lemma claim_rows limit locked t t' d :
  Forall (fun q => outbox d !! q.1 = Some q.2 /\ takeable t q.2 = true) (claim_candidates limit locked t t' d) /\ NoDup (claim_candidates limit locked t t' d).*1.
Proof.
  unfold claim_candidates. set (l := filter _ _). split.
  - apply Forall_forall. intros q Hq%elem_of_take. destruct Hq as (i & Hi%list_elem_of_lookup_2 & _).
    rewrite merge_sort_Permutation in Hi. apply list_elem_of_filter in Hi as [Hc Hi]. destruct q as [k o]. apply elem_of_map_to_list in Hi.
    split; [done|]. unfold claim_eligible in Hc. repeat (apply andb_true_iff in Hc as [Hc _]). done.
  - assert (NoDup (merge_sort by_outbox_id l).*1) as Hn.
    { rewrite (merge_sort_Permutation by_outbox_id l). unfold l. apply NoDup_fmap_2_strong; [|apply NoDup_filter, NoDup_map_to_list].
      intros [k o] [k' o'] [_ H1]%list_elem_of_filter [_ H2]%list_elem_of_filter. cbn. intros <-.
      apply elem_of_map_to_list in H1, H2. congruence. }
    rewrite fmap_take. by eapply sublist_NoDup, sublist_take.
Qed.
Lemma lease_all_ok owner until epoch l e d n ms d' n' : lease_all owner until epoch l e d n = Ok (ms, d', n') -> NoDup l.*1 ->
  exists o, d' = set_outbox o d /\ n' = n
  /\ ms = (fun q => (q.1, with_lease owner (ob_Attempts q.2 + 1) until epoch "" q.2)) <$> l
  /\ (forall k, k ∉ l.*1 -> o !! k = outbox d !! k) /\ Forall (fun m => o !! m.1 = Some m.2) ms.
Proof.
  revert d n ms. induction l as [|[k o] l IH]; intros d n ms Hm Hnd; cbn [lease_all] in Hm.
  - tx. exists (outbox d). split; [by destruct d|]. split_and!; [done..|]. constructor.
  - tx. match goal with E : write_outbox _ _ _ _ _ = _ |- _ => apply tx_write_outbox in E as [-> ->] end.
    apply NoDup_cons in Hnd as [Hk Hnd]. cbn in Hk.
    match goal with E : lease_all _ _ _ _ _ _ _ = _ |- _ => apply IH in E as (o2 & -> & -> & -> & Hout & Hin); [|done] end.
    exists o2. split; [done|]. split_and!; [done..| |].
    + intros i Hi. rewrite fmap_cons in Hi. apply not_elem_of_cons in Hi as [Hi1 Hi2]. rewrite Hout by done. cbn. by rewrite lookup_insert_ne.
    + constructor; [|done]. cbn. rewrite Hout by done. cbn. by rewrite lookup_insert_eq.
Qed.

Lemma claim_later text worker limit duration e d n v d' n' : Claim text worker limit duration e d n = Ok (v, d', n') ->
  outbox_later (outbox d) (outbox d') /\ exists o, d' = set_outbox o d.
Proof.
  unfold Claim. intros Hc. tx. match goal with E : lease_all _ _ _ ?l _ _ _ = _ |- _ => rename E into El; set (rows := l) in * end.
  assert (Forall _ rows /\ NoDup rows.*1) as [Hrows Hnd] by apply claim_rows.
  apply lease_all_ok in El as (o & -> & -> & -> & Hout & Hin); [|done]. split; [|by exists o].
  intros k x Hx. cbn. destruct (decide (k ∈ rows.*1)) as [Hk|Hk]; [|rewrite Hout by done; exists x; split; [done | by left]].
  apply list_elem_of_fmap in Hk as ([k' y] & -> & Hy). rewrite Forall_forall in Hrows, Hin. destruct (Hrows _ Hy) as [Hy' Ht]. cbn in *.
  pose proof (Hin _ (list_elem_of_fmap_2 _ _ _ Hy)) as Hk. cbn in Hk. eexists. split; [exact Hk|]. simplify_eq. by eapply leased_later.
Qed.

Lemma insertOutbox_ok fresh start m e d n k d' n' : insertOutbox fresh start m e d n = Ok (k, d', n') ->
  exists risk, outbox d !! fresh = None /\ (forall j o, outbox d !! j = Some o -> ob_Key o <> om_Key m)
    /\ Outbox.Classify (om_Topic m) (om_RiskClass m) = Ok risk /\ k = fresh /\ n' = n
    /\ d' = set_outbox (<[fresh := new_message risk start m]> (outbox d)) d.
Proof.
  unfold insertOutbox. intros Hi. tx. match goal with E : _ || _ = false |- _ => apply orb_false_iff in E as [E1 E2] end.
  eexists. split_and!; [by apply eq_None_not_Some, (bool_decide_eq_false_1 _)| |done..].
  intros j o Hj Hk. apply not_true_iff_false in E2. apply E2, existsb_exists. exists o. split; [|by apply bool_decide_eq_true].
  apply list_elem_of_In, list_elem_of_fmap. exists (j, o). split; [done|]. by apply elem_of_map_to_list.
Qed.
Lemma insertOutbox_later fresh start m e d n k d' n' : insertOutbox fresh start m e d n = Ok (k, d', n') -> outbox_later (outbox d) (outbox d').
Proof. intros (risk & Hn & _ & _ & _ & _ & ->)%insertOutbox_ok. by apply outbox_later_sub, insert_subseteq. Qed.

(** ** The relay *)

Definition new_inbox_row (key digest profile : string) (i : Intent) : InboxRow :=
  mkInboxRow key (it_RunID i) digest i profile "PENDING" None 0 None None None None.

Lemma not_conflicting key run d j c : conflicting key run d = false -> inbox d !! j = Some c -> ib_OutboxKey c <> key /\ ib_RunID c <> run.
Proof.
  intros Hc Hj. apply not_true_iff_false in Hc. apply Decidable.not_or. intros Ho. apply Hc, existsb_exists. exists c. split.
  - apply list_elem_of_In, list_elem_of_fmap. exists (j, c). split; [done|]. by apply elem_of_map_to_list.
  - by apply bool_decide_eq_true.
Qed.

(** What became of a message: its resolution, the digest of its intent, the inbox. *)
Inductive transferred (fresh : Z) (o : OutboxRow) (m : gmap Z InboxRow) : Outbox.Resolution -> string -> gmap Z InboxRow -> Prop :=
| tr_dead r dg : Outbox.rs_State r = "DEAD_LETTER" -> transferred fresh o m r dg m
| tr_known i dg j b : run_intent o = Some i -> Intent_Digest i = Ok dg -> m !! j = Some b -> ib_OutboxKey b = ob_Key o ->
    ib_IntentDigest b = dg -> ib_RunID b = it_RunID i -> transferred fresh o m (Outbox.mkResolution "DISPATCHED" 0 "") dg m
| tr_new i dg profile : run_intent o = Some i -> Intent_Digest i = Ok dg -> m !! fresh = None ->
    (forall j b, m !! j = Some b -> ib_OutboxKey b <> ob_Key o /\ ib_RunID b <> it_RunID i) ->
    transferred fresh o m (Outbox.mkResolution "DISPATCHED" 0 "") dg (<[fresh := new_inbox_row (ob_Key o) dg profile i]> m).

Lemma transfer_ok fresh o e d n r dg d' n' : transfer fresh o e d n = Ok ((r, dg), d', n') -> n' = n
  /\ exists m, transferred fresh o (inbox d) r dg m /\ d' = set_inbox m d.
Proof.
  assert (forall x, x = set_inbox (inbox x) x) as Hsame by by intros [].
  unfold transfer. intros Ht. destruct (run_intent o) as [i|] eqn:Ei; [|tx; split; [done|]; eexists; by split; [apply tr_dead|]].
  destruct (Intent_Digest i) as [digest|x] eqn:Ed.
  2: { tx. split; [done|]. eexists. by split; [apply tr_dead|]. }
  tx; match goal with E : attempt _ _ _ _ = _ |- _ => apply tx_attempt in E; cbn beta iota in E end.
  2: { match goal with E : _ /\ _ |- _ => destruct E as (_ & -> & ->) end. split; [done|]. eexists. by split; [apply tr_dead|]. }
  assert (inbox d !! fresh = None) as Hf. { apply eq_None_not_Some. by eapply bool_decide_eq_false_1. }
  unfold insertWorkerIntent, write_inbox in *. tx; (split; [done|]); [|eexists; split; [|reflexivity]].
  - passed. match goal with E : inbox_by_key _ _ = Some ?b |- _ => unfold inbox_by_key in E; apply head_Some_elem_of in E; rename E into Hb end.
    apply list_elem_of_filter in Hb as [Hk Hb]. apply list_elem_of_fmap in Hb as ([j b] & -> & Hb%elem_of_map_to_list). cbn in *.
    eexists. split; [|apply Hsame]. by eapply tr_known.
  - apply tr_new; [done..|]. intros j b. by apply not_conflicting.
Qed.

Lemma relay_ok fresh owner e d n v d' n' : relayRunStart fresh owner e d n = Ok (Commit v, d', n') ->
  v = true /\ m_Mode (recoveryState (core d)) = "NORMAL"
  /\ exists k o r dg m x now, relay_candidate (tx_locked e) (tx_clock e n) (tx_clock e (S n)) d = Some (k, o)
     /\ ob_RiskClass o = risk_ControlledMutation /\ Outbox.Resolution_Validate r = Ok tt /\ transferred fresh o (inbox d) r dg m
     /\ logs (journal d) (journal d')
     /\ d' = set_journal (journal d ++ [x]) (set_inbox m (set_outbox (<[k := settled_row r (retry_micros (Outbox.rs_RetryAfter r)) (clamp (Outbox.rs_LastError r)) now
              (with_lease owner (ob_Attempts o + 1) (tx_clock e (S (S n)) + seconds 30) (m_Epoch (recoveryState (core d))) (ob_LastError o) o)]> (outbox d)) d)).
Proof.
  unfold relayRunStart, appendAudit. intros Hr. tx. passed.
  repeat match goal with
  | E : write_outbox _ _ _ _ _ = _ |- _ => apply tx_write_outbox in E as [-> ->]
  | E : transfer _ _ _ _ _ = _ |- _ => apply transfer_ok in E as (-> & m & Hm & ->)
  | E : settleOutbox _ _ _ _ _ = _ |- _ => apply settle_ok in E as (o' & now & Ho' & _ & Hv & _ & _ & ->)
  end.
  cbn in *. rewrite lookup_insert_eq in Ho'. injection Ho' as <-. rewrite insert_insert_eq.
  split_and!; [done..|]. eexists _, _, _, _, _, _, _. split_and!; try done. eexists _, _, _. split; [eassumption | done].
Qed.

Lemma relay_candidate_spec locked t t' d k o : relay_candidate locked t t' d = Some (k, o) ->
  outbox d !! k = Some o /\ ob_Topic o = "run.started" /\ takeable t' o = true /\ (ob_NextAttempt o <= t)%Z.
Proof.
  unfold relay_candidate. intros [Hr Hi%elem_of_map_to_list]%merge_sort_head. split; [done|]. unfold relayable in Hr.
  apply andb_true_iff in Hr as [Hr _]. apply andb_true_iff in Hr as [Hr Ht]. apply andb_true_iff in Hr as [Hr Hn].
  by apply bool_decide_eq_true in Hr, Hn.
Qed.

Lemma relay_later fresh owner e d n v d' n' : relayRunStart fresh owner e d n = Ok (Commit v, d', n') -> outbox_later (outbox d) (outbox d').
Proof.
  intros (_ & _ & k & o & r & dg & m & x & now & Hc & _ & Hr & _ & _ & ->)%relay_ok. cbn.
  apply relay_candidate_spec in Hc as (Ho & _ & Ht & _). eapply outbox_later_insert; [done|].
  apply resolution_state in Hr. right. split_and!; [done|by eapply takeable_open|]. left. cbn. lia.
Qed.

End moves.
