(* ===== verification/Workers.v ===== *)
(** The worker side as a state machine: every committed transaction of the
    store, and whatever the rest of the control plane does to the core tables,
    is one step. *)
From S2P Require Import Prelude Canonical Json Core Run Session Recovery Verification Action Store Binding Journal WorkerQueue Preparation Control Sandbox Offline Codex Db WorkerStore ExecStore ControlStore CoreStore OutboxStore ContinueStore Txn OutboxMoves.

(** ** The transactions *)

Inductive wcall :=
| CallClaim (subject profile : string)
| CallRenew (subject : string) (t : Token)
| CallReport (subject : string) (r : Report)
| CallPrepare (subject : string) (r : PreparationReport)
| CallRelay (fresh : Z) (owner : string)
| CallStartOffline (subject : string) (q : OfflineStart)
| CallRenewOffline (subject : string) (t : ExecToken)
| CallFinishOffline (subject : string) (r : OfflineReport)
| CallFailOffline (subject : string) (t : ExecToken)
| CallStartCodex (subject : string) (q : CodexStart)
| CallRenewCodex (subject : string) (t : ExecToken)
| CallFinishCodex (subject : string) (r : CodexReport)
| CallFailCodex (subject : string) (t : ExecToken)
| CallBind (subject : string) (b : ControlBinding)
| CallQueue (run kind : string) (i : ControlInput)
| CallClaimControl (subject : string) (b : ControlBinding)
| CallSettle (subject : string) (s : ControlSettlement)
| CallClose (subject : string) (c : ControlClose)
| CallCheckpoint (subject : string) (c : SourceCheckpoint)
| CallAbandon (reconciler : string) (q : ExecutionAbandonRequest)
| CallContinue (fresh : Z) (actor : string) (q : ContinueRequest).

Section workers.
Context `{Hash}.

Definition forget {A} (m : txn (verdict A)) : txn (verdict unit) :=
  v ← m; mret (match v with Commit _ => Commit tt | Discard _ => Discard tt end).

Definition wcall_txn (c : wcall) : txn (verdict unit) :=
  match c with
  | CallClaim s p => forget (claimInput s p)
  | CallRenew s t => forget (RenewInput s t)
  | CallReport s r => forget (ReportInput s r)
  | CallPrepare s r => forget (ReportPrepared s r)
  | CallRelay f owner => forget (relayRunStart f owner)
  | CallStartOffline s q => forget (StartOffline s q)
  | CallRenewOffline s t => forget (RenewOffline s t)
  | CallFinishOffline s r => forget (FinishOffline s r)
  | CallFailOffline s t => FailOffline s t
  | CallStartCodex s q => forget (StartCodex s q)
  | CallRenewCodex s t => forget (RenewCodex s t)
  | CallFinishCodex s r => forget (FinishCodex s r)
  | CallFailCodex s t => FailCodex s t
  | CallBind s b => BindCodexControl s b
  | CallQueue run k i => forget (QueueCodexControl run k i)
  | CallClaimControl s b => forget (ClaimCodexControl s b)
  | CallSettle s x => forget (SettleCodexControl s x)
  | CallClose s c => forget (CloseCodexControl s c)
  | CallCheckpoint s c => forget (SaveCodexCheckpoint s c)
  | CallAbandon r q => forget (ReconcileExecutionAbandoned r q)
  | CallContinue f a q => forget (ContinueCodex f a q)
  end.

End workers.

(** ** Frames *)

Ltac keep_stores :=
  unfold forget, relayRunStart, transfer, insertWorkerIntent, settleOutbox, write_outbox, appendAudit,
    claimInput, RenewInput, ReportInput, ReportPrepared,
    StartOffline, StartCodex, authorize, RenewOffline, RenewCodex, renew_execution, FailOffline, FailCodex, fail_execution,
    FinishOffline, FinishCodex, BindCodexControl, QueueCodexControl, queue_control, ClaimCodexControl, SettleCodexControl,
    CloseCodexControl, SaveCodexCheckpoint, ReconcileExecutionAbandoned, abandon, ContinueCodex, continue_run, stopped_run,
    readContinuation, stop_source, insert_continuation, insertOutbox, insertExecution, insert_input, insert_run, insert_attempt,
    insert_session, write_core, end_source, redirect_work;
  keep_writes.
Ltac frame c := destruct c; try (intros Hw; discriminate Hw); try intros _; cbn [wcall_txn]; keep_stores.

Section workers.
Context `{Hash}.

Definition writes_inbox (c : wcall) : bool :=
  match c with CallClaim _ _ | CallRenew _ _ | CallReport _ _ | CallPrepare _ _ | CallRelay _ _ => true | _ => false end.
Lemma keeps_inbox c : writes_inbox c = false -> Keeps inbox (wcall_txn c).
Proof. frame c. Qed.
Definition is_continue (c : wcall) : bool := match c with CallContinue _ _ _ => true | _ => false end.
(** The frozen documents are only read, but for the input of a successor. *)
Definition documents (d : Db) := (runInputs (core d), tasksByDigest (core d)).
Lemma keeps_documents c : is_continue c = false -> Keeps documents (wcall_txn c).
Proof. frame c. Qed.
Lemma keeps_continued c : is_continue c = false -> Keeps continued (wcall_txn c).
Proof. frame c. Qed.
Definition writes_outbox (c : wcall) : bool := match c with CallRelay _ _ | CallContinue _ _ _ => true | _ => false end.
Lemma keeps_outbox c : writes_outbox c = false -> Keeps outbox (wcall_txn c).
Proof. frame c. Qed.

(** ** Steps *)

(** A transaction reads the clock between the step before and the step after,
    never backwards, and its context ends after five seconds. *)
Record env_ok (t t' : time) (e : TxEnv) : Prop := {
  eo_from k : (t <= tx_clock e k)%Z;
  eo_to k : (tx_clock e k <= t')%Z;
  eo_order i j : i <= j -> (tx_clock e i <= tx_clock e j)%Z;
  eo_short i j : (tx_clock e j <= tx_clock e i + seconds 5)%Z
}.

(** The rest of the control plane writes the core tables at will, except that
    run inputs and task contracts are only added; it appends to the journal, and
    adds and settles messages of the outbox. *)
Record core_moves (m m' : Memory) : Prop := {
  cm_inputs : runInputs m ⊆ runInputs m';
  cm_tasks : tasksByDigest m ⊆ tasksByDigest m'
}.

(** A table has rows only once its migration has been applied. *)
Definition migrations_ok (e : TxEnv) (d : Db) : Prop := codex_rows d <> ∅ -> tx_migrated e 8 = true.

Inductive wstep : time * Db -> time * Db -> Prop :=
| ws_call t t' c e d d' n : env_ok t t' e -> migrations_ok e d -> wcall_txn c e d 0 = Ok (Commit tt, d', n) -> wstep (t, d) (t', d')
| ws_core t t' m j o d : (t <= t')%Z -> core_moves (core d) m -> rtc logs (journal d) j -> outbox_later (outbox d) o ->
    wstep (t, d) (t', set_outbox o (set_journal j (set_core m d))).

Definition empty_db (m : Memory) : Db := mkDb m ∅ ∅ ∅ ∅ ∅ ∅ ∅ ∅ [] ∅ ∅.
Definition wreachable (s : time * Db) : Prop := exists t0 m, (0 < t0)%Z /\ rtc wstep (t0, empty_db m) s.

Lemma wreachable_step s s' : wreachable s -> wstep s s' -> wreachable s'.
Proof. intros (t0 & m & Ht & Hr) Hs. exists t0, m. split; [done|]. by eapply rtc_r. Qed.
Lemma wreachable_steps s s' : wreachable s -> rtc wstep s s' -> wreachable s'.
Proof. intros (t0 & m & Ht & Hr) Hs. exists t0, m. split; [done | by etrans]. Qed.

Lemma wreachable_ind (Q : time * Db -> Prop) :
  (forall t m, (0 < t)%Z -> Q (t, empty_db m)) -> (forall s s', wreachable s -> Q s -> wstep s s' -> Q s') ->
  forall s, wreachable s -> Q s.
Proof.
  intros H0 Hs s (t0 & m & Ht & Hr). revert s Hr. apply rtc_ind_r; [by apply H0|].
  intros y z Hr Hst Hy. eapply Hs; [|done..]. by exists t0, m.
Qed.

Lemma wstep_time s s' : wstep s s' -> (s.1 <= s'.1)%Z.
Proof. destruct 1 as [t t' c e d d' n He _ _|t t' m j o d Ht _ _ _]; simpl; [|done]. pose proof (eo_from _ _ _ He 0). pose proof (eo_to _ _ _ He 0). lia. Qed.

Lemma wreachable_time s : wreachable s -> (0 < s.1)%Z.
Proof. revert s. apply wreachable_ind; [done|]. intros s s' _ Hs Hst%wstep_time. lia. Qed.

(** [forget] hides the value a transaction returns. *)
Lemma forget_commit {A} (m : txn (verdict A)) e d d' n n' : forget m e d n = Ok (Commit tt, d', n') ->
  exists a, m e d n = Ok (Commit a, d', n').
Proof. unfold forget. intros Hf. tx. destruct a as [a|a]; [by exists a | done]. Qed.

(** Frozen documents stay as they are. *)
Lemma input_and_task_mono i run d d' p : runInputs (core d) ⊆ runInputs (core d') -> tasksByDigest (core d) ⊆ tasksByDigest (core d') ->
  input_and_task i run d = Some p -> input_and_task i run d' = Some p.
Proof.
  unfold input_and_task. intros Hr Ht. destruct (runInputs (core d) !! i) as [m|] eqn:Em; [|done]. simpl.
  destruct (tasksByDigest (core d) !! _) as [k|] eqn:Ek; [|done]. simpl.
  rewrite (lookup_weaken _ _ _ _ Em Hr). simpl. by rewrite (lookup_weaken _ _ _ _ Ek Ht).
Qed.
(** A continuation adds the input of the successor. *)
Definition inputs_grow : relation Db := fun d d' =>
  runInputs (core d) ⊆ runInputs (core d') /\ tasksByDigest (core d') = tasksByDigest (core d).
#[local] Instance inputs_grow_preorder : PreOrder inputs_grow.
Proof. split; [done|]. intros d1 d2 d3 [H1 H2] [H3 H4]. split; [by etrans | congruence]. Qed.
Lemma moves_same {A} (m : txn A) : Keeps documents m -> Moves inputs_grow m.
Proof. intros Hk e d n a d' n' Hm. pose proof (Hk _ _ _ _ _ _ Hm) as [= Hi Ht]. unfold inputs_grow. by rewrite Hi, Ht. Qed.
Lemma insert_input_grows i dg : Moves inputs_grow (insert_input i dg).
Proof.
  intros e d n u d' n' Hi. unfold insert_input, write_core in Hi. tx. cbn.
  repeat match goal with E : _ /\ _ |- _ => destruct E end. split; [by apply insert_subseteq | done].
Qed.
Lemma continue_documents f a q e d n r d' n' : ContinueCodex f a q e d n = Ok (r, d', n') -> inputs_grow d d'.
Proof.
  revert e d n r d' n'. change (Moves inputs_grow (ContinueCodex f a q)).
  assert (forall x y z w, Moves inputs_grow (insertExecution x y z w)) as Hx.
  { intros x y z w. unfold insertExecution. repeat moves_step ltac:(first [apply insert_input_grows
      | apply moves_same; solve [unfold insert_run, insert_attempt, insert_session, write_core; keep]]). }
  unfold ContinueCodex, continue_run, stopped_run, readContinuation.
  repeat moves_step ltac:(first [apply Hx | apply moves_same; solve [keep_stores]]).
Qed.

Lemma wstep_documents s s' i run p : wstep s s' -> input_and_task i run s.2 = Some p -> input_and_task i run s'.2 = Some p.
Proof.
  destruct 1 as [t t' c e d d' n _ _ Hc|t t' m j o d _ [Hi Ht] _ _]; cbn [snd]; [|by apply input_and_task_mono].
  destruct (is_continue c) eqn:Hk.
  - destruct c; try done. apply forget_commit in Hc as (r & Hc). apply continue_documents in Hc as [Hi Ht].
    apply input_and_task_mono; by rewrite ?Ht.
  - pose proof (keeps_documents c Hk _ _ _ _ _ _ Hc) as [= Hi Ht]. apply input_and_task_mono; by rewrite ?Hi, ?Ht.
Qed.

End workers.
