(* ===== verification/TurnDemo.v ===== *)
(** A turn of a Codex execution, computed: the tables from the transfer of the
    intent to the finished receipt.  The examples of the worker side start
    from here.  They are about any hash; this one is a checksum, so that they
    compute quickly. *)
From S2P Require Import Prelude Canonical Json Core Run Session Recovery Verification Action Store Binding Journal WorkerQueue Preparation Control Sandbox Offline Codex Db WorkerStore ExecStore ControlStore CoreStore Txn OutboxMoves Workers.

(** ** A checksum *)

Fixpoint checksum (s : string) (h : N) : N :=
  match s with
  | EmptyString => h
  | String c s => checksum s (N.land (h * 33 + N_of_ascii c + 1) (N.ones 61))
  end.
Definition turn_sum (s : string) : string :=
  let h := checksum s 5381 in unbytes (concat ((fun k => Sha256.word_hex (N.shiftr h k)) <$> [0; 5; 11; 16; 21; 26; 29; 3]%N)).
#[export] Program Instance turn_hash : Hash := {| sha256_hex := turn_sum |}.
Next Obligation.
  intros s. unfold turn_sum. rewrite <- bytes_length, bytes_unbytes. cbn [concat fmap list_fmap].
  by rewrite !length_app, !(proj1 (word_hex_shape _)).
Qed.
Next Obligation.
  intros s. unfold turn_sum, str_forall. rewrite bytes_unbytes. cbn [concat fmap list_fmap].
  by rewrite !forallb_app, !(proj2 (word_hex_shape _)).
Qed.

(** ** Replaying calls, one a second *)

Definition turn_id : string := "00112233445566778899aabbccddeeff00112233445566778899aabbccddeeff".
Definition at_clock (t : time) : TxEnv := mkTxEnv (fun _ => t) turn_id (fun _ => false) (fun _ => true).

Fixpoint replay (t : time) (cs : list wcall) (d : Db) : option (time * Db) :=
  match cs with
  | [] => Some (t, d)
  | c :: cs =>
    match wcall_txn c (at_clock t) d 0 with
    | Ok (Commit _, d', _) => replay (t + seconds 1) cs d'
    | _ => None
    end
  end.

Lemma replay_steps t cs d s : replay t cs d = Some s -> rtc wstep (t, d) s.
Proof.
  revert t d. induction cs as [|c cs IH]; intros t d; simpl; [by intros [= <-]|].
  destruct (wcall_txn c (at_clock t) d 0) as [[[[[]|[]] d'] n]|] eqn:E; [|done..].
  intros Hr%IH. eapply rtc_l; [|exact Hr]. refine (ws_call _ _ c (at_clock t) d d' n _ _ E); [|by intros _].
  split; intros; unfold at_clock, seconds; cbn; lia.
Qed.

(** ** The run *)

Definition turn_digest : string := BytesDigest "".
Definition turn_profile : CodexProfile :=
  mkCodexProfile 3 OpenAIChatGPTTrustedSelfHosted "0.20.1" turn_digest turn_digest EngineeringConfigDigest
    "gpt-5" "workspace-write" "never" false.
Definition turn_profile_digest : string := Eval vm_compute in value_of (CodexProfile_Digest turn_profile).
Definition turn_task_digest : string := Eval vm_compute in value_of (TaskContract_Digest codex_task).
Definition turn_input : RunInputManifest :=
  mkRunInput None "run-1" turn_task_digest [] "runtime" ("codex/" +:+ turn_profile_digest) "worker-1" "policy".
Definition turn_input_digest : string := Eval vm_compute in value_of (RunInputManifest_Digest turn_input).
Definition turn_intent : Intent := mkIntent "run-1" turn_task_digest turn_input_digest 1.
Definition turn_intent_digest : string := Eval vm_compute in value_of (Intent_Digest turn_intent).

Definition turn_work : WorkItem :=
  mkWorkItem "W1" "serial log" "REQ-1" "urn:engineering-platform:olga" "board-1" "A1" turn_task_digest "run-1" WorkExecuting 4 (seconds 900).
Definition turn_memory : Memory :=
  set_works {["W1" := turn_work]} (set_sessions {["run-1" := Session_New "run-1" 1]}
    (set_runs {["run-1" := mkRun "run-1" turn_task_digest turn_input_digest "RUNNING" 1 1 "A1" "RUNTIME"]}
      (mkMemory Manager_New ∅ ∅ ∅ {[turn_task_digest := codex_task]} ∅ ∅ ∅ ∅ {[turn_input_digest := turn_input]}
        ∅ ∅ ∅ ∅ ∅ ∅ ∅ ∅ ∅ ∅ ∅))).
Definition turn_start : time := seconds 1000.
(** The message that the start of the run left in the outbox. *)
Definition turn_outbox : gmap Z OutboxRow :=
  {[1%Z := new_message risk_ControlledMutation turn_start (run_started (mkRun "run-1" turn_task_digest turn_input_digest "RUNNING" 1 1 "A1" "RUNTIME"))]}.
Definition turn_db : Db := set_outbox turn_outbox (empty_db turn_memory).
Lemma turn_db_step : wstep (turn_start, empty_db turn_memory) (turn_start, turn_db).
Proof. by apply (ws_core _ _ turn_memory [] turn_outbox). Qed.
Definition turn_worker : string := "urn:worker".

Definition turn_manifest : Manifest := mkManifest 1 turn_input_digest [].
Definition turn_bundle : string := Eval vm_compute in BytesDigest (marshal (Manifest_json turn_manifest)).
Definition turn_facts : Facts :=
  mkFacts "" "" 1 turn_intent_digest turn_input_digest turn_task_digest turn_bundle
    "0123456789abcdef0123456789abcdef01234567" "0123456789abcdef0123456789abcdef01234567" Recipe
    turn_bundle turn_bundle turn_bundle turn_manifest false false.
Definition turn_assignment : Assignment := mkAssignment (mkToken "worker-1" 7 1 0) 0 turn_intent turn_intent_digest turn_input codex_task.
Definition turn_report : Report := match NewReport turn_assignment with Ok r => r | Err _ => mkReport (as_Token turn_assignment) "" end.
Definition turn_token : ExecToken := mkExecToken turn_id "run-1" "worker-1" turn_profile_digest 0.
Definition turn_binding : ControlBinding := mkControlBinding turn_token 1 "thread-1" "turn-1".
Definition turn_close : ControlClose := mkControlClose turn_binding "completed" (mkScope 1 Mechanism 42 2 1 5 20 true).

Definition claimed_calls : list wcall :=
  [CallRelay 7 "relay-1"; CallClaim turn_worker "worker-1"].
Definition admitted_calls : list wcall :=
  claimed_calls ++
  [CallRenew turn_worker (as_Token turn_assignment); CallPrepare turn_worker (mkPreparationReport turn_report turn_facts)].
Definition running_calls : list wcall :=
  admitted_calls ++
  [CallStartCodex turn_worker (mkCodexStart "run-1" "worker-1" turn_profile);
   CallBind turn_worker turn_binding;
   CallQueue "run-1" ControlSteer (mkControlInput "S1" 1 3 "olga" "thread-1" "turn-1" "look at the boot log");
   CallRenewCodex turn_worker turn_token;
   CallClaimControl turn_worker turn_binding].
Definition sealed_calls : list wcall :=
  running_calls ++
  [CallSettle turn_worker (mkControlSettlement turn_binding "S1" ControlAccepted); CallClose turn_worker turn_close].

Definition turn_state (cs : list wcall) : time * Db := default (0%Z, turn_db) (replay turn_start cs turn_db).

(** What the worker reports at the end. *)
Definition turn_transcript_digest : string := Eval vm_compute in
  match runtimes (turn_state sealed_calls).2 !! turn_id with Some r => default "" (ru_Digest r) | None => "" end.
Definition turn_prompt_digest : string := Eval vm_compute in
  match prepared (turn_state sealed_calls).2 !! 7%Z with
  | Some p => value_of (PromptIdentityDigest turn_assignment (pw_Receipt p))
  | None => "" end.
Definition turn_codex : EngineeringReceipt :=
  mkEngineeringReceipt (cc_ProcessScope turn_close) 5 "codex-cli" "0.20.1" turn_digest turn_digest EngineeringConfigDigest
    OpenAIChatGPTTrustedSelfHosted "" "gpt-5" turn_digest turn_digest 3 "thread-1" "turn-1" "completed" "done"
    (BytesDigest "done") 1 0 1 0 false true.
Definition turn_result : CodexResult :=
  mkCodexResult turn_transcript_digest turn_prompt_digest turn_codex
    (mkChange FinalizeRecipe (fa_BaseCommit turn_facts) (fa_TreeCommit turn_facts) (fa_SourceDigest turn_facts)
       "89abcdef0123456789abcdef0123456789abcdef" "76543210fedcba9876543210fedcba9876543210" turn_task_digest turn_task_digest 4096).
Definition finished_calls : list wcall := sealed_calls ++ [CallFinishCodex turn_worker (mkCodexReport turn_token turn_result)].

(** Instead of finishing: an interrupt is observed, the source is kept, the
    execution is given up, and another run takes over. *)
Definition interrupted_close : ControlClose := mkControlClose turn_binding "interrupted" (cc_ProcessScope turn_close).
Definition interrupted_calls : list wcall :=
  running_calls ++
  [CallSettle turn_worker (mkControlSettlement turn_binding "S1" ControlAccepted);
   CallQueue "run-1" ControlInterrupt (mkControlInput "S2" 1 4 "olga" "thread-1" "turn-1" "");
   CallClaimControl turn_worker turn_binding;
   CallSettle turn_worker (mkControlSettlement turn_binding "S2" ControlInterruptACK);
   CallClose turn_worker interrupted_close].
Definition interrupted_digest : string := Eval vm_compute in
  match runtimes (turn_state interrupted_calls).2 !! turn_id with Some r => default "" (ru_Digest r) | None => "" end.
Definition kept_source : SourceCheckpoint :=
  mkSourceCheckpoint 1 turn_binding turn_task_digest turn_input_digest (fa_BaseCommit turn_facts) (fa_SourceDigest turn_facts)
    interrupted_digest turn_digest turn_digest 4096.
Definition kept_digest : string := Eval vm_compute in value_of (SourceCheckpoint_Digest kept_source).
Definition stopped_calls : list wcall :=
  interrupted_calls ++ [CallCheckpoint turn_worker kept_source; CallFailCodex turn_worker turn_token].
Definition turn_continue : ContinueRequest := mkContinueRequest "run-1" "run-2" "A2" kept_digest 3 4 1 0 "the board was rewired".
Definition continued_calls : list wcall := stopped_calls ++ [CallContinue 2 "urn:engineering-platform:olga" turn_continue].

(** Every call of the turn commits. *)
Definition replays (cs : list wcall) : bool := match replay turn_start cs turn_db with Some _ => true | None => false end.
Example continued_replays : replays continued_calls = true.
Proof. vm_compute. reflexivity. Qed.
Example finished_replays : replays finished_calls = true.
Proof. vm_compute. reflexivity. Qed.

Lemma turn_reachable cs : replays cs = true -> wreachable (turn_state cs).
Proof.
  unfold replays, turn_state. destruct (replay _ _ _) as [s|] eqn:E; [|done]. intros _.
  exists turn_start, turn_memory. split; [done|]. eapply rtc_l; [apply turn_db_step|]. by apply replay_steps in E.
Qed.
Lemma replay_app t cs cs' d : replay t (cs ++ cs') d = s ← replay t cs d; replay s.1 cs' s.2.
Proof.
  revert t d. induction cs as [|c cs IH]; intros t d; simpl; [done|].
  by destruct (wcall_txn c (at_clock t) d 0) as [[[[[]|[]] d'] n]|]; simpl.
Qed.
Lemma turn_steps cs cs' : replays (cs ++ cs') = true -> rtc wstep (turn_state cs) (turn_state (cs ++ cs')).
Proof.
  unfold replays, turn_state. rewrite replay_app. destruct (replay _ cs _) as [s|] eqn:E; [|done]. simpl.
  destruct (replay s.1 cs' s.2) as [s'|] eqn:E'; [|done]. intros _. destruct s. by apply replay_steps in E'.
Qed.
