(* ===== verification/Leases.v ===== *)
(** The worker inbox under every interleaving: what a committed transaction
    does to a row, and what follows for the leases. *)
From S2P Require Import Prelude Canonical Json Core Run Session Recovery Verification Action Store Binding Journal WorkerQueue Preparation Control Sandbox Offline Codex Db WorkerStore ExecStore ControlStore CoreStore OutboxStore Txn OutboxMoves Workers TurnDemo.

#[local] Arguments validate_row : simpl never.

Section leases.
Context `{Hash}.

(** ** Moves of a row *)

Definition row_token (i : Z) (b : InboxRow) : Token := mkToken (ib_Profile b) i (ib_Generation b) (default 0%N (ib_RecoveryEpoch b)).
Definition open_at (t : time) (b : InboxRow) : Prop :=
  ib_State b = "PENDING" \/ (ib_State b = "LEASED" /\ exists u, ib_Until b = Some u /\ (u <= t)%Z).
Definition live_at (t : time) (b : InboxRow) : Prop := ib_State b = "LEASED" /\ exists u, ib_Until b = Some u /\ (t < u)%Z.
(** The worker holds no lease that is still good at [t]. *)
Definition idle (subject : string) (t : time) (m : gmap Z InboxRow) : Prop :=
  forall j c, m !! j = Some c -> ib_Owner c = Some subject -> ~ live_at t c.

(** The receipt stands for the row's frozen assignment under its own lease. *)
Definition admitted (d : Db) (i : Z) (b : InboxRow) (r : Receipt) : Prop := exists m k,
  input_and_task (it_InputDigest (ib_Intent b)) (ib_RunID b) d = Some (m, k)
  /\ VerifyReceipt (mkAssignment (row_token i b) zero_time (ib_Intent b) (ib_IntentDigest b) m k) r = Ok tt
  /\ ib_Owner b = Some (rc_Worker r).

Inductive row_move (t t' : time) (d : Db) (i : Z) (b : InboxRow) : InboxRow -> Prop :=
| rm_claim s ep started now : open_at t' b -> idle s t' (inbox d) -> (u64_succ (ib_Generation b) <= int64_max)%N ->
    (t <= started <= now)%Z -> (now <= t' /\ now <= started + seconds 5)%Z ->
    row_move t t' d i b (leased s (u64_succ (ib_Generation b)) ep started (now + seconds 30) b)
| rm_revoke : open_at t' b -> row_move t t' d i b (revoked b)
| rm_renew started now : live_at t b -> ib_StartedAt b = Some started -> (t <= now <= t')%Z ->
    row_move t t' d i b (set_until (Z.min (now + seconds 30) (started + seconds 120)) b)
| rm_validate r : live_at t b -> admitted d i b r ->
    row_move t t' d i b (validated r b).

(** A transaction changes one row at most; only the relay adds one. *)
Inductive inbox_update (t t' : time) (d : Db) : gmap Z InboxRow -> Prop :=
| im_same : inbox_update t t' d (inbox d)
| im_row i b b' : inbox d !! i = Some b -> row_move t t' d i b b' -> inbox_update t t' d (<[i := b']> (inbox d)).
Inductive inbox_move (t t' : time) (d : Db) : gmap Z InboxRow -> Prop :=
| im_update m : inbox_update t t' d m -> inbox_move t t' d m
| im_insert i key run digest it p : inbox d !! i = None -> (forall j c, inbox d !! j = Some c -> ib_RunID c <> run) ->
    inbox_move t t' d (<[i := mkInboxRow key run digest it p "PENDING" None 0 None None None None]> (inbox d)).

(** ** Every committed transaction makes one move *)

Lemma verified a r : VerifyReceipt a r = Ok tt ->
  Validate a = Ok (rc_Validation r) /\ rc_Token r = as_Token a /\ rc_Worker r <> "".
Proof. unfold VerifyReceipt. destruct (Validate a) as [v|]; [|done]. case_decide; [done|]. intros _. passed. by subst. Qed.
Lemma verified_token a r : VerifyReceipt a r = Ok tt -> rc_Token r = as_Token a.
Proof. apply verified. Qed.
Lemma input_and_task_run i run d m k : input_and_task i run d = Some (m, k) -> ri_RunID m = run.
Proof.
  unfold input_and_task. destruct (runInputs (core d) !! i); [|done]. simpl. destruct (tasksByDigest (core d) !! _); [|done]. simpl.
  case_decide; [|done]. by intros [= <- _].
Qed.
Lemma lockWorkerLease_ready s t e d n b : Token_Valid t = true -> s <> "" ->
  m_Mode (recoveryState (core d)) = "NORMAL" \/ m_Mode (recoveryState (core d)) = "RECOVERY_RECONCILIATION" ->
  inbox d !! tk_InboxID t = Some b -> row_token (tk_InboxID t) b = t -> ib_Owner b = Some s ->
  Intent_Digest (ib_Intent b) = Ok (ib_IntentDigest b) -> it_RunID (ib_Intent b) = ib_RunID b ->
  lockWorkerLease s t e d n =
    Ok (mkInboxRecord (tk_InboxID t) (ib_RunID b) (ib_State b) s (ib_IntentDigest b) (ib_Profile b)
          (ib_Generation b) (default 0%N (ib_RecoveryEpoch b)) (ib_Intent b) (ib_Receipt b),
        m_Epoch (recoveryState (core d)), m_Mode (recoveryState (core d)), d, n).
Proof.
  intros Hv Hs Hm Hb Ht Ho Hd Hr. unfold lockWorkerLease, lockWorkerPlatform.
  rewrite decide_False by (intros [?|?]; congruence). unfold mbind, txn_bind, gets. cbn beta iota.
  rewrite decide_False by (intros [? ?]; tauto). unfold mret, txn_ret, map_error, inbox_by_id. rewrite Hb. cbn beta iota zeta.
  unfold scanInbox, row. cbn. unfold mbind, txn_bind. cbn. rewrite Hd. rewrite decide_False by (intros [?|?]; congruence). cbn.
  rewrite Ho. cbn. rewrite decide_False; [done|]. unfold inbox_token. cbn. unfold row_token in Ht. intros [?|?]; congruence.
Qed.

Lemma candidate_spec p locked t d i b : candidate p locked t d = Some (i, b) ->
  inbox d !! i = Some b /\ ib_Profile b = p /\ open_at t b /\ deferred d b = false.
Proof.
  unfold candidate. intros Hc%head_Some_elem_of.
  rewrite merge_sort_Permutation, list_elem_of_filter, elem_of_map_to_list in Hc. destruct Hc as [Hc Hi].
  split; [done|]. unfold claimable in Hc. cbn [fst snd] in Hc.
  apply andb_true_iff in Hc as [Hc _]. apply andb_true_iff in Hc as [Hc Hd]. apply andb_true_iff in Hc as [Hp Ho].
  apply bool_decide_eq_true in Hp. apply negb_true_iff in Hd. split_and!; [done| |done].
  apply orb_true_iff in Ho as [Ho|Ho]; [left; by apply bool_decide_eq_true in Ho|right].
  apply andb_true_iff in Ho as [Hs He]. apply bool_decide_eq_true in Hs. split; [done|].
  unfold expired in He. destruct (ib_Until b) as [u|]; [|done]. exists u. by apply bool_decide_eq_true in He.
Qed.

Lemma not_busy_idle s t m : existsb (busy_lease s t) (map_to_list m).*2 = false -> idle s t m.
Proof.
  intros Hb j c Hj Ho [Hs (u & Hu & Htu)]. apply not_true_iff_false in Hb. apply Hb, existsb_exists. exists c. split.
  - apply list_elem_of_In, list_elem_of_fmap. exists (j, c). split; [done|]. by apply elem_of_map_to_list.
  - unfold busy_lease, holds_lease. rewrite Hu, !andb_true_iff, !bool_decide_eq_true. done.
Qed.
Lemma idle_later s t t' m : (t <= t')%Z -> idle s t m -> idle s t' m.
Proof. intros Ht Hi j c Hj Ho [Hs (u & Hu & Hl)]. apply (Hi j c Hj Ho). split; [done|]. exists u. split; [done|lia]. Qed.
Lemma open_later t t' b : (t <= t')%Z -> open_at t b -> open_at t' b.
Proof. intros Ht [Hp|[Hl (u & Hu & Hle)]]; [by left | right]. split; [done|]. exists u. split; [done | lia]. Qed.

Lemma scanInbox_ok r e d n x d' n' : scanInbox r e d n = Ok (x, d', n') -> d' = d /\ n' = n /\ exists i b,
  r = Some (i, b) /\ ib_RunID b = it_RunID (ib_Intent b) /\ Intent_Digest (ib_Intent b) = Ok (ib_IntentDigest b)
  /\ x = mkInboxRecord i (ib_RunID b) (ib_State b) (default "" (ib_Owner b)) (ib_IntentDigest b) (ib_Profile b)
      (ib_Generation b) (default 0%N (ib_RecoveryEpoch b)) (ib_Intent b) (ib_Receipt b).
Proof.
  unfold scanInbox. intros Hs. tx. split_and!; [done..|]. eexists _, _. split; [done|].
  match goal with Hn : ~ _ |- _ => apply Decidable.not_or in Hn as [Hn1%dec_stable Hn2%dec_stable] end.
  split_and!; [by rewrite Hn2 | by subst | by rewrite <- Hn1].
Qed.

(** What a held lease says of its row. *)
Lemma lockWorkerLease_ok s t e d n r ep mode d' n' : lockWorkerLease s t e d n = Ok (r, ep, mode, d', n') ->
  d' = d /\ n' = n /\ Token_Valid t = true /\ s <> "" /\ ep = m_Epoch (recoveryState (core d)) /\ mode = m_Mode (recoveryState (core d))
  /\ exists b, inbox d !! tk_InboxID t = Some b /\ row_token (tk_InboxID t) b = t /\ ib_Owner b = Some s
      /\ ib_RunID b = it_RunID (ib_Intent b) /\ Intent_Digest (ib_Intent b) = Ok (ib_IntentDigest b)
      /\ r = mkInboxRecord (tk_InboxID t) (ib_RunID b) (ib_State b) s (ib_IntentDigest b) (ib_Profile b)
          (ib_Generation b) (default 0%N (ib_RecoveryEpoch b)) (ib_Intent b) (ib_Receipt b).
Proof.
  unfold lockWorkerLease, lockWorkerPlatform. intros Hl. tx.
  match goal with Hs : scanInbox _ _ _ _ = Ok _ |- _ => apply scanInbox_ok in Hs as (-> & -> & i & b & Hb & Hr & Hd & ->) end.
  passed. unfold inbox_by_id in Hb. destruct (inbox d !! tk_InboxID t) as [b'|] eqn:Ei; [|done]. injection Hb as <- <-.
  cbn in *. split_and!; try done. exists b'. unfold row_token.
  destruct (ib_Owner b') eqn:Eo; simpl in *; by subst.
Qed.

Lemma live_ok r ep mode e d n u d' n' : liveWorkerLease r ep mode e d n = Ok (u, d', n') ->
  d' = d /\ mode = "NORMAL" /\ bx_epoch r = ep /\ bx_state r = "LEASED"
  /\ exists b v k, inbox d !! bx_id r = Some b /\ ib_Until b = Some v /\ (tx_clock e k < v)%Z.
Proof.
  unfold liveWorkerLease. intros Hl. tx. passed.
  match goal with Ha : workerRunActive _ _ _ _ = Ok _ |- _ => apply active_ok in Ha as [-> ->] end.
  destruct (inbox d !! bx_id r) as [b|] eqn:Eb; [|done]. unfold holds_lease in *. simpl in *.
  destruct (ib_Until b) as [v|] eqn:Ev; [|done].
  match goal with Hs : Some (bool_decide _) = Some true |- _ => injection Hs as Hs%bool_decide_eq_true end.
  split_and!; try done. eauto 8.
Qed.

(** An audit record leaves the tables alone. *)
Lemma audit_inbox ev run v e d n u d' n' : workerAudit ev run v e d n = Ok (u, d', n') -> inbox d' = inbox d.
Proof. intros (x & -> & _)%audit_effect. by destruct d. Qed.

End leases.

(** One inversion of what the reading steps returned. *)
Ltac reads := repeat match goal with
  | Hs : attempt _ _ _ _ = Ok (Ok _, _, _) |- _ => apply tx_attempt in Hs; cbn beta iota in Hs
  | Hs : attempt _ _ _ _ = Ok (Err _, _, _) |- _ => apply tx_attempt in Hs; cbn beta iota in Hs; destruct Hs as (? & -> & ->)
  | Hs : scanInbox _ _ _ _ = Ok _ |- _ => apply scanInbox_ok in Hs; destruct Hs as (-> & -> & ? & ? & ? & ? & ? & ->)
  | Hs : workerRunActive _ _ _ _ = Ok _ |- _ => apply active_ok in Hs; destruct Hs as [-> ->]
  | Hs : loadWorkerAssignment _ _ _ _ = Ok _ |- _ => apply load_ok in Hs; destruct Hs as (-> & -> & ? & ? & ? & ? & ? & -> & ?)
  | Hs : lockWorkerLease _ _ _ _ _ = Ok _ |- _ => apply lockWorkerLease_ok in Hs; destruct Hs as (-> & -> & ? & ? & ? & ? & ? & ? & ? & ? & ? & ? & ->)
  | Hs : liveWorkerLease _ _ _ _ _ _ = Ok _ |- _ => apply live_ok in Hs; destruct Hs as (-> & ? & ? & ? & ? & ? & ? & ? & ? & ?)
  | Hs : workerAudit _ _ _ _ _ _ = Ok _ |- _ => apply audit_effect in Hs; destruct Hs as (? & -> & -> & _)
  | Hs : Some _ = Some _ |- _ => injection Hs; clear Hs; intros; subst
  end.

Section leases.
Context `{Hash}.

Lemma claim_moves s p e d a d' n t t' : env_ok t t' e -> claimInput s p e d 0 = Ok (Commit a, d', n) ->
  inbox_update t t' d (inbox d').
Proof.
  intros He. unfold claimInput, lockWorkerPlatform, write_inbox. intros Hc.
  tx; reads; cbn [inbox set_inbox set_journal set_workers] in *; try apply im_same.
  all: match goal with Hc : candidate _ _ _ _ = Some (?i, ?b) |- _ =>
         apply candidate_spec in Hc as (Hi & _ & Ho & _); apply (im_row t t' d i b _ Hi) end.
  all: apply (open_later _ _ _ (eo_to _ _ _ He 2)) in Ho; cbn in *.
  - pose proof (eo_from _ _ _ He 3). pose proof (eo_to _ _ _ He 4). pose proof (eo_order _ _ _ He 3 4 ltac:(lia)).
    pose proof (eo_short _ _ _ He 3 4). apply rm_claim; [done| |done|lia..].
    eapply idle_later, not_busy_idle; [apply (eo_to _ _ _ He) | done].
  - by apply rm_revoke.
Qed.

Lemma holds_live t now b : ib_State b = "LEASED" -> holds_lease now b = true -> (t <= now)%Z -> live_at t b.
Proof.
  unfold holds_lease. intros Hs Hl Ht. split; [done|]. destruct (ib_Until b) as [u|]; [|done].
  apply bool_decide_eq_true in Hl. exists u. split; [done|lia].
Qed.

(** The rows of a worker that passed both lease checks. *)
Lemma validate_row_moves d only i x e d1 n u d' n' t t' b : env_ok t t' e -> validate_row only i x e d1 n = Ok (u, d', n') ->
  inbox d1 = inbox d -> inbox d !! i = Some b -> ib_State b = "LEASED" -> admitted d i b x ->
  inbox_update t t' d (inbox d').
Proof.
  intros He Hv Hd Hb Hs Ha. unfold validate_row, write_inbox in Hv. tx. cbn in *. rewrite Hd in *. simplify_eq.
  match goal with Hn : ~ (_ \/ _) |- _ => apply Decidable.not_or in Hn as [_ Hn%not_false_is_true] end.
  eapply im_row; [done|]. apply rm_validate; [|done].
  eapply holds_live; [done | done | apply (eo_from _ _ _ He)].
Qed.

Lemma renew_moves s tk e d a d' n t t' : env_ok t t' e -> RenewInput s tk e d 0 = Ok (Commit a, d', n) ->
  inbox_update t t' d (inbox d').
Proof.
  intros He. unfold RenewInput, write_inbox. intros Hc. tx. reads. cbn in *. simplify_eq.
  match goal with Hr : negb (renewable _ _ _) = false |- _ => apply negb_false_iff in Hr; unfold renewable in Hr end.
  match goal with Hu : ib_Until _ = Some _ |- _ => rewrite Hu in * end.
  destruct (ib_StartedAt _) as [st|] eqn:Es; [|done]. eapply im_row; [done|]. apply rm_renew; [|done|].
  - split; [done|]. eexists. split; [done|]. pose proof (eo_from _ _ _ He x2). lia.
  - pose proof (eo_from _ _ _ He (S (S (S n2)))). pose proof (eo_to _ _ _ He (S (S (S n2)))). lia.
Qed.

Lemma clock_positive t t' e k : (0 < t)%Z -> env_ok t t' e -> (0 < tx_clock e k)%Z.
Proof. intros Ht He. pose proof (eo_from _ _ _ He k). lia. Qed.
Lemma admitted_receipt d i b tok m k v s now : row_token i b = tok -> input_and_task (it_InputDigest (ib_Intent b)) (ib_RunID b) d = Some (m, k) ->
  Validate (mkAssignment (row_token i b) zero_time (ib_Intent b) (ib_IntentDigest b) m k) = Ok v ->
  ib_Owner b = Some s -> s <> "" -> (0 < now)%Z -> admitted d i b (mkReceipt tok s Validated v now).
Proof.
  intros <- Hi Hv Ho Hs Hn. exists m, k. split; [done|]. split; [|done].
  unfold VerifyReceipt. rewrite Hv. cbn. rewrite decide_False; [done|].
  intros [Hc|[Hc|[Hc|[Hc|Hc]]]]; try done. unfold IsZero, zero_time in Hc. apply bool_decide_eq_true in Hc. lia.
Qed.
Ltac validating :=
  match goal with He : env_ok ?t ?t' _, Hv : validate_row _ _ _ _ _ _ = Ok _ |- inbox_update _ _ ?d _ =>
    eapply (validate_row_moves d _ _ _ _ _ _ _ _ _ t t') in Hv; [exact Hv | exact He | done | eassumption | assumption | ];
    eapply admitted_receipt; [first [reflexivity | eassumption] | eassumption | eassumption | assumption | assumption |] end.
Lemma report_moves s r e d a d' n t t' : (0 < t)%Z -> env_ok t t' e -> ReportInput s r e d 0 = Ok (Commit a, d', n) ->
  inbox_update t t' d (inbox d').
Proof.
  intros Ht He. unfold ReportInput. intros Hc. tx. reads. cbn in *. simplify_eq. validating. by eapply clock_positive.
Qed.

Lemma prepared_moves s r e d a d' n t t' : (0 < t)%Z -> env_ok t t' e -> ReportPrepared s r e d 0 = Ok (Commit a, d', n) ->
  inbox_update t t' d (inbox d').
Proof.
  intros Ht He. unfold ReportPrepared, insert_preparation. intros Hc. tx; reads; cbn in *; simplify_eq.
  validating. by eapply clock_positive.
Qed.

Lemma relay_moves f owner e d a d' n t t' : relayRunStart f owner e d 0 = Ok (Commit a, d', n) -> inbox_move t t' d (inbox d').
Proof.
  intros (_ & _ & k & o & r & dg & m & x & now & _ & _ & _ & Ht & _ & ->)%relay_ok. cbn.
  destruct Ht as [| |i dg profile Hi Hd Hn Hf]; [apply im_update, im_same..|]. apply im_insert; [done|]. intros j b Hj. by apply (Hf _ _ Hj).
Qed.

Definition is_relay (c : wcall) : bool := match c with CallRelay _ _ => true | _ => false end.
Lemma inbox_updates c e d d' n t t' : (0 < t)%Z -> env_ok t t' e -> is_relay c = false -> wcall_txn c e d 0 = Ok (Commit tt, d', n) ->
  inbox_update t t' d (inbox d').
Proof.
  intros Ht He Hn Hc. destruct (writes_inbox c) eqn:Hw.
  - destruct c; try done; cbn [wcall_txn] in Hc;
      try (apply forget_commit in Hc as [a Hc]);
      eauto using claim_moves, renew_moves, report_moves, prepared_moves.
  - rewrite (keeps_inbox c Hw _ _ _ _ _ _ Hc). apply im_same.
Qed.
Lemma inbox_effect c e d d' n t t' : (0 < t)%Z -> env_ok t t' e -> wcall_txn c e d 0 = Ok (Commit tt, d', n) ->
  inbox_move t t' d (inbox d').
Proof.
  intros Ht He Hc. destruct (is_relay c) eqn:Hr; [|by eapply im_update, inbox_updates].
  destruct c; try done. apply forget_commit in Hc as [a Hc]. by eapply relay_moves.
Qed.

(** ** What stays true of a row *)

(** The row follows its lease: never more than thirty seconds ahead, never
    past two minutes, its generation within a [bigint]. *)
Record row_ok (T : time) (d : Db) (i : Z) (b : InboxRow) : Prop := {
  ro_generation : (ib_Generation b <= int64_max)%N;
  ro_state : ib_State b ∈ ["PENDING"; "LEASED"; "INPUT_VALIDATED"; "REVOKED"];
  ro_leased : ib_State b = "LEASED" -> exists s ep st u, ib_Owner b = Some s /\ ib_RecoveryEpoch b = Some ep
    /\ ib_StartedAt b = Some st /\ ib_Until b = Some u /\ (st <= T)%Z /\ (u <= T + seconds 30)%Z /\ (u <= st + seconds 120)%Z;
  ro_receipt : match ib_Receipt b with
    | Some r => ib_State b = "INPUT_VALIDATED" /\ admitted d i b r
    | None => ib_State b <> "INPUT_VALIDATED" end;
  ro_revoked : ib_State b = "REVOKED" -> ib_Owner b = None
}.
(** The identity of a row, and how far it has come. *)
Definition same_row (b b' : InboxRow) : Prop :=
  ib_OutboxKey b' = ib_OutboxKey b /\ ib_RunID b' = ib_RunID b /\ ib_IntentDigest b' = ib_IntentDigest b
  /\ ib_Intent b' = ib_Intent b /\ ib_Profile b' = ib_Profile b.
(** Under one lease: only renewed, validated, or revoked after its end. *)
Record same_lease (T' u : time) (b b' : InboxRow) : Prop := {
  sl_token : row_token 0 b' = row_token 0 b;
  sl_started : ib_StartedAt b' = ib_StartedAt b;
  sl_owner : ib_State b' <> "REVOKED" -> ib_Owner b' = ib_Owner b;
  sl_until : ib_State b' = "LEASED" -> exists u', ib_Until b' = Some u' /\ (u <= u')%Z;
  sl_revoked : ib_State b' = "REVOKED" -> (u <= T')%Z
}.
(** From the row at [T] to the row at a later [T']. *)
Record advances (T T' : time) (b b' : InboxRow) : Prop := {
  ad_same : same_row b b';
  ad_generation : (ib_Generation b <= ib_Generation b')%N;
  ad_begun : ib_State b <> "PENDING" -> ib_State b' <> "PENDING";
  ad_final : ib_State b ∈ ["INPUT_VALIDATED"; "REVOKED"] -> b' = b;
  (* a lease is not taken over before it expires *)
  ad_lease u : ib_State b = "LEASED" -> ib_Until b = Some u ->
    if decide (ib_Generation b' = ib_Generation b) then same_lease T' u b b' else (u <= T')%Z
}.

Lemma u64_succ_int64 g : (g <= int64_max)%N -> u64_succ g = (g + 1)%N.
Proof. intros Hg. apply u64_succ_small. unfold int64_max, u64_modulus in *. lia. Qed.

Lemma open_until t b u : open_at t b -> ib_State b = "LEASED" -> ib_Until b = Some u -> (u <= t)%Z.
Proof. intros [Hp|[_ (v & Hv & Hle)]] Hs Hu; [congruence|]. by simplify_eq. Qed.

Lemma row_move_advances t t' d i b b' : row_ok t d i b -> row_move t t' d i b b' -> advances t t' b b'.
Proof.
  intros [Hg Hs Hl Hr Hrev] Hm. destruct Hm as [s ep st now Ho Hid Hb _ _|Ho|st now Hlive Hst Hnow|r Hlive Had].
  - rewrite (u64_succ_int64 _ Hg). split; cbn; [done|lia|done| |].
    + intros Hf. destruct Ho as [Ho|[Ho _]]; rewrite Ho in Hf; set_solver.
    + intros u Hu Hun. rewrite decide_False by lia. by eapply open_until.
  - split; cbn; [done|lia|done| |].
    + intros Hf. destruct Ho as [Ho|[Ho _]]; rewrite Ho in Hf; set_solver.
    + intros u Hu Hun. rewrite decide_True by done. split; try done. intros _. by eapply open_until.
  - destruct Hlive as [Hls (u & Hu & Htu)]. destruct (Hl Hls) as (s & ep & st' & u' & H1 & H2 & H3 & H4 & H5 & H6 & H7). simplify_eq.
    split; cbn; [done|lia|done| |].
    + rewrite Hls. set_solver.
    + intros v _ Hv. rewrite decide_True by done. split; cbn; try done; [|congruence].
      intros _. eexists. split; [done|]. simplify_eq. lia.
  - destruct Hlive as [Hls _]. split; cbn; [done|lia|done| |].
    + rewrite Hls. set_solver.
    + intros v _ Hv. rewrite decide_True by done. by split.
Qed.

Lemma row_move_ok t t' d i b b' : (t <= t')%Z -> row_ok t d i b -> row_move t t' d i b b' -> row_ok t' d i b'.
Proof.
  intros Ht [Hg Hs Hl Hr Hrev] Hm. destruct Hm as [s ep st now Ho Hid Hb Hst Hnow|Ho|st now Hlive Hst Hnow|r Hlive Had].
  - split; cbn; [done|set_solver| | |done].
    + intros _. exists s, ep, st, (now + seconds 30)%Z. unfold seconds in *. split_and!; try done; lia.
    + destruct (ib_Receipt b); [|done]. destruct Hr as [Hr _]. destruct Ho as [Ho|[Ho _]]; congruence.
  - split; cbn; [done|set_solver|done| |done].
    destruct (ib_Receipt b); [|done]. destruct Hr as [Hr _]. destruct Ho as [Ho|[Ho _]]; congruence.
  - destruct Hlive as [Hls (u & Hu & Htu)]. destruct (Hl Hls) as (s & ep & st' & u' & H1 & H2 & H3 & H4 & H5 & H6 & H7). simplify_eq.
    split; cbn; [done|done| |done|congruence].
    intros _. exists s, ep, st, ((now + seconds 30) `min` (st + seconds 120))%Z. unfold seconds in *. split_and!; try done; lia.
  - split; cbn; [done|set_solver|done|done|done].
Qed.

Lemma advances_refl T T' b : advances T T' b b.
Proof.
  split; try done. intros u Hu Hun. rewrite decide_True by done. split; try done; [|congruence]. intros _. by exists u.
Qed.
Lemma advances_trans T T' T'' d i b b' b'' : (T <= T')%Z -> (T' <= T'')%Z -> row_ok T' d i b' ->
  advances T T' b b' -> advances T' T'' b' b'' -> advances T T'' b b''.
Proof.
  intros Ht Ht' Hok [Hs Hg Hb Hf Hl] [Hs' Hg' Hb' Hf' Hl'].
  split; [unfold same_row in *; naive_solver congruence | lia | tauto | |].
  { intros Hb0. pose proof (Hf Hb0) as ->. by apply Hf'. }
  intros u Hu Hun. specialize (Hl u Hu Hun). pose proof (ro_state _ _ _ _ Hok) as Hst.
  assert (ib_State b' <> "PENDING") as Hnp by (apply Hb; congruence).
  destruct (decide (ib_State b' = "LEASED")) as [Hls|Hls].
  - destruct (ro_leased _ _ _ _ Hok Hls) as (s & ep & st & v & _ & _ & _ & Hv & _). specialize (Hl' v Hls Hv).
    destruct (decide (ib_Generation b' = ib_Generation b)) as [Hd|Hd].
    + destruct Hl as [Hr Hs0 Ho Hle _]. destruct (Hle Hls) as (v' & Hv' & Huv). rewrite Hv in Hv'. injection Hv' as <-. rewrite Hd in Hl'.
      case_decide; [|lia]. destruct Hl' as [Hr' Hs0' Ho' Hle' Hre']. split.
      * by rewrite Hr'.
      * congruence.
      * intros Hx. rewrite Ho' by done. apply Ho. congruence.
      * intros Hx. destruct (Hle' Hx) as (w & Hw & Hvw). exists w. split; [done|lia].
      * intros Hx. specialize (Hre' Hx). lia.
    + rewrite decide_False by lia. lia.
  - assert (b'' = b') as -> by (apply Hf'; set_solver). destruct (decide _) as [Hd|Hd]; [|lia].
    destruct Hl as [Hr Hs0 Ho Hle Hre]. split; try done. intros Hx. specialize (Hre Hx). lia.
Qed.

(** ** The inbox *)

Record inbox_ok (T : time) (d : Db) : Prop := {
  io_rows i b : inbox d !! i = Some b -> row_ok T d i b;
  io_runs i j b c : inbox d !! i = Some b -> inbox d !! j = Some c -> ib_RunID b = ib_RunID c -> i = j;
  io_live i j b c s : inbox d !! i = Some b -> inbox d !! j = Some c -> ib_Owner b = Some s -> ib_Owner c = Some s ->
    live_at T b -> live_at T c -> i = j
}.

Lemma row_ok_later T T' d d' i b : (T <= T')%Z -> (forall i run p, input_and_task i run d = Some p -> input_and_task i run d' = Some p) ->
  row_ok T d i b -> row_ok T' d' i b.
Proof.
  intros Ht Hd [Hg Hs Hl Hr Hrev]. split; [done|done| | |done].
  - intros Hls. destruct (Hl Hls) as (s & ep & st & u & ? & ? & ? & ? & ? & ? & ?). exists s, ep, st, u. split_and!; try done; lia.
  - destruct (ib_Receipt b); [|done]. destruct Hr as [? (m & k & Hi & Hv)]. split; [done|]. exists m, k. split; [by apply Hd | done].
Qed.
Lemma live_earlier T T' b : (T <= T')%Z -> live_at T' b -> live_at T b.
Proof. intros Ht [Hs (u & Hu & Hl)]. split; [done|]. exists u. split; [done|lia]. Qed.

(** A row that moved is live only if it was live before under the same worker,
    or was claimed by a worker without a live lease. *)
Lemma row_move_live t t' d i b b' s : (t <= t')%Z -> row_ok t d i b -> row_move t t' d i b b' -> live_at t' b' -> ib_Owner b' = Some s ->
  idle s t' (inbox d) \/ (live_at t b /\ ib_Owner b = Some s).
Proof.
  intros Ht Hok [s' ep st now Ho Hid|Ho|st now Hl Hst Hn|r Hl Ha] Hl' Hs; cbn in *.
  - left. by injection Hs as <-.
  - destruct Hl' as [Hx _]. done.
  - by right.
  - destruct Hl' as [Hx _]. done.
Qed.

Lemma inbox_move_ok t t' d d' : (t <= t')%Z -> (forall i run p, input_and_task i run d = Some p -> input_and_task i run d' = Some p) ->
  inbox_ok t d -> inbox_move t t' d (inbox d') -> inbox_ok t' d'.
Proof.
  intros Ht Hd [Hrows Hruns Hlive] Hm.
  remember (inbox d') as m' eqn:Em. destruct Hm as [m [|i b b' Hb Hmv]|i key run digest it p Hn Hfresh].
  - split; rewrite <- Em.
    + intros i b Hb. eapply row_ok_later; eauto.
    + done.
    + intros i j b c s ???? Hl%(live_earlier t) Hl'%(live_earlier t); eauto.
  - pose proof (row_move_ok _ _ _ _ _ _ Ht (Hrows _ _ Hb) Hmv) as Hok.
    destruct (row_move_advances _ _ _ _ _ _ (Hrows _ _ Hb) Hmv) as [(_ & Hrun & _) _ _ _ _].
    split; rewrite <- Em.
    + intros j c [[-> <-]|[_ Hj]]%lookup_insert_Some; [apply (row_ok_later t' t' d) | apply (row_ok_later t t' d)]; eauto; lia.
    + intros j j' c c' [[-> <-]|[_ Hj]]%lookup_insert_Some [[-> <-]|[_ Hj']]%lookup_insert_Some; rewrite ?Hrun; eauto.
    + intros j j' c c' s [[-> <-]|[? Hj]]%lookup_insert_Some [[-> <-]|[? Hj']]%lookup_insert_Some Hs Hs' Hl Hl'; [done|..].
      * destruct (row_move_live _ _ _ _ _ _ s Ht (Hrows _ _ Hb) Hmv Hl Hs) as [Hid|[Hlb Hsb]]; [by destruct (Hid _ _ Hj' Hs')|].
        apply (live_earlier t) in Hl'; eauto.
      * destruct (row_move_live _ _ _ _ _ _ s Ht (Hrows _ _ Hb) Hmv Hl' Hs') as [Hid|[Hlb Hsb]]; [by destruct (Hid _ _ Hj Hs)|].
        apply (live_earlier t) in Hl; eauto.
      * apply (live_earlier t) in Hl, Hl'; eauto.
  - split; rewrite <- Em.
    + intros j c [[-> <-]|[_ Hj]]%lookup_insert_Some; [|by eapply row_ok_later; eauto].
      split; cbn; [done|set_solver|done|done|done].
    + intros j j' c c' [[-> <-]|[_ Hj]]%lookup_insert_Some [[-> <-]|[_ Hj']]%lookup_insert_Some; cbn; intros He; [done| | |by eauto].
      * by destruct (Hfresh _ _ Hj').
      * by destruct (Hfresh _ _ Hj).
    + intros j j' c c' s [[-> <-]|[_ Hj]]%lookup_insert_Some [[-> <-]|[_ Hj']]%lookup_insert_Some; cbn; try done.
      intros ?? Hl%(live_earlier t) Hl'%(live_earlier t); eauto.
Qed.

(** Every step of the system is a move of the inbox. *)
Lemma wstep_inbox s s' : (0 < s.1)%Z -> wstep s s' -> inbox_move s.1 s'.1 s.2 (inbox s'.2).
Proof.
  intros Ht Hst. destruct Hst as [t t' c e d d' n He _ Hc|t t' m j o d Ht' _ _ _]; cbn [fst snd] in *; [by eapply inbox_effect | exact (im_update _ _ d _ (im_same _ _ d))].
Qed.

Lemma inbox_reachable s : wreachable s -> inbox_ok s.1 s.2.
Proof.
  revert s. apply wreachable_ind.
  - intros t m _. split; cbn; intros *; by rewrite lookup_empty.
  - intros s s' Hr Hok Hst. eapply inbox_move_ok; [by apply wstep_time| |done|apply wstep_inbox; [by apply wreachable_time | done]].
    intros i run p. by apply wstep_documents.
Qed.

(** A row is never removed, and only advances. *)
Lemma inbox_advances s s' i b : wreachable s -> rtc wstep s s' -> inbox s.2 !! i = Some b ->
  exists b', inbox s'.2 !! i = Some b' /\ advances s.1 s'.1 b b'.
Proof.
  intros Hr Hss Hb. revert s' Hss. apply (rtc_ind_r (fun s' => exists b', inbox s'.2 !! i = Some b' /\ advances s.1 s'.1 b b')).
  { exists b. split; [done | apply advances_refl]. }
  intros y z Hy Hyz (b' & Hb' & Had).
  assert (wreachable y) as Hry by (by eapply wreachable_steps).
  assert (s.1 <= y.1)%Z as Hsy.
  { clear -Hy. induction Hy as [|x y z Hxy%wstep_time _ IH]; lia. }
  pose proof (io_rows _ _ (inbox_reachable _ Hry) _ _ Hb') as Hok. pose proof (wstep_time _ _ Hyz) as Ht.
  destruct (wstep_inbox _ _ (wreachable_time _ Hry) Hyz) as [m [|j c c' Hc Hmv]|j key run digest it p Hn Hfresh].
  { exists b'. split; [done|]. eapply advances_trans; eauto using advances_refl. }
  { destruct (decide (j = i)) as [->|Hne].
  - simplify_eq. exists c'. rewrite lookup_insert_eq. split; [done|]. eapply advances_trans; eauto using row_move_advances.
  - rewrite lookup_insert_ne by done. exists b'. split; [done|]. eapply advances_trans; eauto using advances_refl. }
  rewrite lookup_insert_ne by congruence. exists b'. split; [done|]. eapply advances_trans; eauto using advances_refl.
Qed.

(** ** Properties *)

Lemma lease_refused s t d e n : (forall b, inbox d !! tk_InboxID t = Some b -> row_token (tk_InboxID t) b = t -> ib_Owner b <> Some s) ->
  is_ok (lockWorkerLease s t e d n) = false.
Proof.
  intros Hb. destruct (lockWorkerLease s t e d n) as [[[[[r ep] mode] d'] n']|] eqn:E; [|done].
  apply lockWorkerLease_ok in E as (_ & _ & _ & _ & _ & _ & b & Hi & Ht & Ho & _). by destruct (Hb b Hi Ht).
Qed.
Lemma refused_bind {A B} (m : txn A) (k : A -> txn B) e d n : is_ok (m e d n) = false -> is_ok ((m ≫= k) e d n) = false.
Proof. unfold mbind, txn_bind. by destruct (m e d n). Qed.

(** The three calls that take a lease's token. *)
Definition token_refused (t : Token) (subject : string) (e : TxEnv) (d : Db) : Prop :=
  is_ok (RenewInput subject t e d 0) = false
  /\ (forall r, rp_Token r = t -> is_ok (ReportInput subject r e d 0) = false)
  /\ (forall r, rp_Token (pr_Input r) = t -> is_ok (ReportPrepared subject r e d 0) = false).

Lemma token_refused_by t s e d :
  (forall b, inbox d !! tk_InboxID t = Some b -> row_token (tk_InboxID t) b = t -> ib_Owner b <> Some s) -> token_refused t s e d.
Proof. intros Hb. split_and!; [|intros r <-|intros r <-]; by apply refused_bind, lease_refused. Qed.

(** C14: a lease is exclusive and fenced.  Whatever any client does meanwhile,
    until the lease expires its row stays with its worker, under its token,
    either still leased or validated by that worker; and once the row has been
    leased again, or revoked, nobody gets anywhere with the old token. *)
Theorem leases_fenced s s' i b w u : wreachable s -> rtc wstep s s' ->
  inbox s.2 !! i = Some b -> ib_State b = "LEASED" -> ib_Owner b = Some w -> ib_Until b = Some u ->
  exists b', inbox s'.2 !! i = Some b' /\ same_row b b' /\ (ib_Generation b <= ib_Generation b')%N
    /\ ((s'.1 < u)%Z -> row_token i b' = row_token i b /\ ib_Owner b' = Some w /\
         (live_at s'.1 b' \/ exists r, ib_Receipt b' = Some r /\ rc_Worker r = w /\ rc_Token r = row_token i b))
    /\ (ib_Generation b' <> ib_Generation b \/ ib_State b' = "REVOKED" ->
         (u <= s'.1)%Z /\ forall subject e, token_refused (row_token i b) subject e s'.2).
Proof.
  intros Hr Hss Hb Hls How Hu. destruct (inbox_advances s s' i b Hr Hss Hb) as (b' & Hb' & [Hs Hg Hbe Hf Hl]).
  exists b'. specialize (Hl u Hls Hu). pose proof (io_rows _ _ (inbox_reachable _ (wreachable_steps _ _ Hr Hss)) _ _ Hb') as Hok.
  split_and!; [done..| |].
  - intros Ht. destruct (decide (ib_Generation b' = ib_Generation b)); [|lia]. destruct Hl as [Hrt Hst Ho Hle Hre].
    assert (row_token i b' = row_token i b) as Htk by (unfold row_token in *; congruence).
    assert (ib_State b' <> "REVOKED") as Hnr by (intros Hx; specialize (Hre Hx); lia).
    rewrite (Ho Hnr). split_and!; [done..|].
    destruct (decide (ib_State b' = "LEASED")) as [Hls'|Hls'].
    + left. split; [done|]. destruct (Hle Hls') as (u' & Hu' & Huu). exists u'. split; [done|lia].
    + right. pose proof (ro_state _ _ _ _ Hok) as Hst'. pose proof (ro_receipt _ _ _ _ Hok) as Hrc.
      assert (ib_State b' = "INPUT_VALIDATED") as Hv by (assert (ib_State b' <> "PENDING") by (apply Hbe; congruence); set_solver).
      destruct (ib_Receipt b') as [r|]; [|done]. destruct Hrc as (_ & m & k & _ & Hv' & Ho'). exists r.
      split_and!; [done|rewrite (Ho Hnr) in Ho'; congruence|]. rewrite <- Htk.
      exact (verified_token _ _ Hv').
  - intros Hd. assert (u <= s'.1)%Z as Hle.
    { destruct (decide (ib_Generation b' = ib_Generation b)) as [Hge|]; [|done]. destruct Hd as [Hd|Hd]; [done|].
      by apply (sl_revoked _ _ _ _ Hl). }
    split; [done|]. intros subject e. apply token_refused_by. cbn. intros c Hc Htc Hoc. rewrite Hb' in Hc. injection Hc as <-.
    destruct Hd as [Hd|Hd]; [unfold row_token in Htc; congruence|].
    by rewrite (ro_revoked _ _ _ _ Hok Hd) in Hoc.
Qed.

(** C21: the bounds of the inbox.  A lease ends at most thirty seconds from now
    and two minutes after it was taken, its generation fits a [bigint]; a run
    has one row, and a worker at most one lease that is still good. *)
Theorem leases_bounded s i b : wreachable s -> inbox s.2 !! i = Some b ->
  (ib_Generation b <= int64_max)%N
  /\ (ib_State b = "LEASED" -> exists w st u, ib_Owner b = Some w /\ ib_StartedAt b = Some st /\ ib_Until b = Some u
       /\ (st <= s.1)%Z /\ (u <= s.1 + seconds 30)%Z /\ (u <= st + seconds 120)%Z)
  /\ (forall j c, inbox s.2 !! j = Some c -> ib_RunID c = ib_RunID b -> j = i)
  /\ (forall j c w, inbox s.2 !! j = Some c -> ib_Owner b = Some w -> ib_Owner c = Some w ->
        live_at s.1 b -> live_at s.1 c -> j = i).
Proof.
  intros Hr Hb. destruct (inbox_reachable s Hr) as [Hrows Hruns Hlive]. destruct (Hrows _ _ Hb) as [Hg Hs Hl Hrc Hrev]. split_and!.
  - done.
  - intros Hls. destruct (Hl Hls) as (w & ep & st & u & ? & ? & ? & ? & ? & ? & ?). exists w, st, u. done.
  - intros j c Hc He. by apply (Hruns j i c b).
  - intros j c w Hc Ho Ho' Hlb Hlc. by apply (Hlive j i c b w).
Qed.

(** An admitted input is final.  The receipt of a row is the validation of
    the run's frozen input under the lease that was held; the row never changes
    again, and the worker that asks again gets the same receipt, whatever
    became of its lease and its run. *)
Theorem admissions_final s s' i b r : wreachable s -> rtc wstep s s' -> inbox s.2 !! i = Some b -> ib_Receipt b = Some r ->
  inbox s'.2 !! i = Some b
  /\ exists m k, input_and_task (it_InputDigest (ib_Intent b)) (ib_RunID b) s.2 = Some (m, k)
       /\ let a := mkAssignment (row_token i b) zero_time (ib_Intent b) (ib_IntentDigest b) m k in
          VerifyReceipt a r = Ok tt /\ ib_Owner b = Some (rc_Worker r)
          /\ forall report e, NewReport a = Ok report ->
               m_Mode (recoveryState (core s'.2)) = "NORMAL" \/ m_Mode (recoveryState (core s'.2)) = "RECOVERY_RECONCILIATION" ->
               ReportInput (rc_Worker r) report e s'.2 0 = Ok (Discard r, s'.2, 0).
Proof.
  intros Hr Hss Hb Hrc. destruct (inbox_advances s s' i b Hr Hss Hb) as (b' & Hb' & Had).
  pose proof (ro_receipt _ _ _ _ (io_rows _ _ (inbox_reachable _ Hr) _ _ Hb)) as Hok. rewrite Hrc in Hok.
  destruct Hok as [Hst (m & k & Hm & Hv & Ho)].
  assert (b' = b) as -> by (apply (ad_final _ _ _ _ Had); rewrite Hst; set_solver).
  split; [done|]. exists m, k. split; [done|]. cbn. split; [done|]. split; [done|].
  intros report e Hn Hmode. destruct (verified _ _ Hv) as (Hva & Htk & Hw). apply Validate_spec in Hva as Hfr. destruct Hfr as (Hf & Hc & _).
  unfold NewReport in Hn. rewrite Hva in Hn. cbn in Hn. destruct (Digest _) as [digest|] eqn:Ed; [|done]. injection Hn as <-.
  unfold ReportInput. unfold mbind at 1, txn_bind at 1. cbn [rp_Token].
  assert (Token_Valid (row_token i b) = true) as Hva'.
  { unfold Token_Valid. rewrite bool_decide_eq_true_2 by apply (cm_lease _ Hc). pose proof (fr_profile _ Hf) as Hp. cbn in Hp |- *.
    unfold ValidProfile. rewrite Hp. apply (cm_worker _ Hc). }
  rewrite (lockWorkerLease_ready (rc_Worker r) (row_token i b) e s'.2 0 b Hva' Hw Hmode Hb' eq_refl Ho (fr_intent _ Hf)).
  2:{ pose proof (fr_run _ Hf) as Hrun. cbn in Hrun. by rewrite <- Hrun, (input_and_task_run _ _ _ _ _ Hm). }
  cbn beta iota zeta. cbn [bx_receipt bx_state]. rewrite Hrc, Hst. rewrite decide_True by done. cbn beta iota zeta. rewrite Ed.
  rewrite decide_False; [done|]. cbn [rp_ValidationDigest]. cbn in Htk. intros [?|[?|?]]; congruence.
Qed.

End leases.

(** ** Examples: the row of the turn, claimed and then admitted *)

Definition row_of (cs : list wcall) : InboxRow :=
  default (mkInboxRow "" "" "" turn_intent "" "" None 0 None None None None) (inbox (turn_state cs).2 !! 7%Z).
Definition claimed_row : InboxRow := Eval vm_compute in row_of claimed_calls.
Definition admitted_row : InboxRow := Eval vm_compute in row_of admitted_calls.
Lemma claimed_inbox : inbox (turn_state claimed_calls).2 !! 7%Z = Some claimed_row.
Proof. vm_compute. reflexivity. Qed.
Lemma admitted_inbox : inbox (turn_state admitted_calls).2 !! 7%Z = Some admitted_row.
Proof. vm_compute. reflexivity. Qed.
Lemma admitted_later : rtc wstep (turn_state claimed_calls) (turn_state admitted_calls).
Proof. apply turn_steps. vm_compute. reflexivity. Qed.
Lemma claimed_reachable : wreachable (turn_state claimed_calls).
Proof. apply turn_reachable. vm_compute. reflexivity. Qed.
Lemma admitted_reachable : wreachable (turn_state admitted_calls).
Proof. apply (wreachable_steps _ _ claimed_reachable admitted_later). Qed.

Lemma leases_fenced_witness :
  exists b', inbox (turn_state admitted_calls).2 !! 7%Z = Some b' /\ same_row claimed_row b'
    /\ (ib_Generation b' <> 1%N \/ ib_State b' = "REVOKED" ->
         forall subject e, token_refused (row_token 7 claimed_row) subject e (turn_state admitted_calls).2).
Proof.
  destruct (leases_fenced (turn_state claimed_calls) (turn_state admitted_calls) 7 claimed_row turn_worker (turn_start + seconds 31))
    as (b' & Hb' & Hs & _ & _ & Hd); [exact claimed_reachable | exact admitted_later | exact claimed_inbox | reflexivity..|].
  exists b'. split; [exact Hb'|]. split; [exact Hs|]. intros Hg. apply (proj2 (Hd Hg)).
Defined.

Lemma leases_bounded_witness :
  (ib_Generation claimed_row <= int64_max)%N
  /\ exists w st u, ib_Owner claimed_row = Some w /\ ib_StartedAt claimed_row = Some st /\ ib_Until claimed_row = Some u
       /\ (u <= st + seconds 120)%Z.
Proof.
  destruct (leases_bounded (turn_state claimed_calls) 7 claimed_row claimed_reachable claimed_inbox) as (Hg & Hl & _).
  split; [exact Hg|].
  destruct (Hl eq_refl) as (w & st & u & Hw & Hst & Hu & _ & _ & Hb). exists w, st, u.
  split; [exact Hw|]. split; [exact Hst|]. split; [exact Hu | exact Hb].
Defined.

Lemma admissions_final_witness :
  inbox (turn_state admitted_calls).2 !! 7%Z = Some admitted_row /\ is_Some (ib_Receipt admitted_row).
Proof.
  destruct (ib_Receipt admitted_row) as [r|] eqn:Hr; [|discriminate Hr]. split; [|exists r; reflexivity].
  apply (admissions_final (turn_state admitted_calls) (turn_state admitted_calls) 7 admitted_row r);
    [exact admitted_reachable | apply rtc_refl | exact admitted_inbox | exact Hr].
Defined.
