(* ===== verification/Relays.v ===== *)
(** The outbox beside the worker side: where the inbox comes from, who may
    settle a message, and what a delivery rests on. *)
From S2P Require Import Prelude Canonical Json Core Run Session Recovery Verification Action Store Binding Journal WorkerQueue Preparation Control Db WorkerStore CoreStore OutboxStore ContinueStore Txn OutboxMoves Workers TurnDemo Leases.
From S2P Require Outbox.

#[local] Existing Instance Outbox.Lease_eq_dec.

Section relays.
Context `{Hash}.

(** ** The outbox over the steps *)

Definition outbox_grows : relation Db := fun d d' => outbox_later (outbox d) (outbox d').
#[local] Instance outbox_grows_preorder : PreOrder outbox_grows.
Proof. split; [intros d; apply outbox_later_refl | intros d1 d2 d3; apply outbox_later_trans]. Qed.
Lemma moves_outbox {A} (m : txn A) : Keeps outbox m -> Moves outbox_grows m.
Proof. intros Hk e d n a d' n' Hm. unfold outbox_grows. rewrite (Hk _ _ _ _ _ _ Hm). apply outbox_later_refl. Qed.

Lemma continue_outbox f a q e d n r d' n' : ContinueCodex f a q e d n = Ok (r, d', n') -> outbox_later (outbox d) (outbox d').
Proof.
  revert e d n r d' n'. change (Moves outbox_grows (ContinueCodex f a q)).
  assert (forall x y z, Moves outbox_grows (insertOutbox x y z)) as Hi.
  { intros x y z e d n k d' n' Hk. by eapply insertOutbox_later. }
  unfold ContinueCodex, continue_run.
  repeat moves_step ltac:(first [apply Hi | apply moves_outbox; solve [keep_stores]]).
Qed.

Lemma wstep_outbox s s' : wstep s s' -> outbox_later (outbox s.2) (outbox s'.2).
Proof.
  destruct 1 as [t t' c e d d' n _ _ Hc|t t' m j o d _ _ _ Ho]; cbn [snd]; [|done].
  destruct (writes_outbox c) eqn:Hw; [|rewrite (keeps_outbox c Hw _ _ _ _ _ _ Hc); apply outbox_later_refl].
  destruct c; try done; apply forget_commit in Hc as [a Hc]; [by eapply relay_later | by eapply continue_outbox].
Qed.
Lemma wsteps_outbox s s' : rtc wstep s s' -> outbox_later (outbox s.2) (outbox s'.2).
Proof. induction 1 as [s|s s1 s' Hst _ IH]; [apply outbox_later_refl|]. eapply outbox_later_trans; [by apply wstep_outbox | done]. Qed.

(** ** Where the inbox comes from *)

Definition sourced (d : Db) (b : InboxRow) : Prop := exists k o, outbox d !! k = Some o /\ ob_Key o = ib_OutboxKey b
  /\ ob_Topic o = "run.started" /\ ob_State o = "DISPATCHED" /\ run_intent o = Some (ib_Intent b)
  /\ Intent_Digest (ib_Intent b) = Ok (ib_IntentDigest b) /\ ib_RunID b = it_RunID (ib_Intent b).
Record inbox_sourced_ok (d : Db) : Prop := {
  is_sourced i b : inbox d !! i = Some b -> sourced d b;
  is_unique i j b c : inbox d !! i = Some b -> inbox d !! j = Some c -> ib_OutboxKey b = ib_OutboxKey c -> i = j
}.

Lemma sourced_later d d' b b' : outbox_later (outbox d) (outbox d') -> same_row b b' -> sourced d b -> sourced d' b'.
Proof.
  intros Hl (K & R & D & I & P) (k & o & Ho & Hk & Ht & Hs & Hi & Hd & Hr). destruct (Hl _ _ Ho) as (o' & Ho' & [->|(_ & Hf & _)]).
  - exists k, o. split_and!; congruence.
  - destruct Hf. by left.
Qed.
Lemma row_move_same t t' d i b b' : row_move t t' d i b b' -> same_row b b'.
Proof. by destruct 1. Qed.

Lemma sourced_update t t' d d' : outbox_later (outbox d) (outbox d') -> inbox_update t t' d (inbox d') -> inbox_sourced_ok d -> inbox_sourced_ok d'.
Proof.
  intros Ho Hu [Hs Hk]. remember (inbox d') as m eqn:Em. destruct Hu as [|i b b' Hb Hm].
  - split; rewrite <- Em; [|done]. intros i b Hb. eapply sourced_later; [done| |by eapply Hs]. done.
  - apply row_move_same in Hm as Hsame. pose proof Hsame as (K & _). split; rewrite <- Em.
    + intros j c [[<- <-]|[_ Hj]]%lookup_insert_Some; (eapply sourced_later; [done| |by eapply Hs]; done).
    + intros j j' c c' [[<- <-]|[_ Hj]]%lookup_insert_Some [[<- <-]|[_ Hj']]%lookup_insert_Some; rewrite ?K; intros He; [done| | |by eapply Hk].
      * by eapply (Hk _ _ b c').
      * by eapply (Hk _ _ c b).
Qed.

Lemma sourced_relay f owner e d v d' n : relayRunStart f owner e d 0 = Ok (Commit v, d', n) -> inbox_sourced_ok d -> inbox_sourced_ok d'.
Proof.
  intros Hr [Hs Hk]. pose proof (relay_later _ _ _ _ _ _ _ _ Hr) as Hlater.
  destruct (relay_ok _ _ _ _ _ _ _ _ Hr) as (_ & _ & k & o & r & dg & m & x & now & Hc & _ & _ & Ht & _ & Hd').
  assert (inbox d' = m) as Hin by by rewrite Hd'.
  apply relay_candidate_spec in Hc as (Ho & Htop & _).
  assert (forall i b, inbox d !! i = Some b -> sourced d' b) as Hold by (intros i b Hb; eapply sourced_later; [exact Hlater| |by eapply Hs]; done).
  split; rewrite Hin; destruct Ht as [r dg Hdead|i dg j b Hi Hdg Hj Hkey Hdig Hrun|i dg profile Hi Hdg Hn Hf]; try done.
  - intros j b [[<- <-]|[_ Hj]]%lookup_insert_Some; [|by eapply Hold].
    eexists k, _. rewrite Hd'. cbn [outbox set_journal set_inbox set_outbox]. split; [apply lookup_insert_eq|].
    by split_and!.
  - intros j j' b b' [[<- <-]|[_ Hj]]%lookup_insert_Some [[<- <-]|[_ Hj']]%lookup_insert_Some Heq; [done| | |by eapply Hk].
    + symmetry in Heq. by destruct (Hf _ _ Hj') as [? _].
    + by destruct (Hf _ _ Hj) as [? _].
Qed.

Lemma sourced_reachable s : wreachable s -> inbox_sourced_ok s.2.
Proof.
  revert s. apply wreachable_ind; [intros t m _; split; cbn; intros *; by rewrite lookup_empty|].
  intros s s' Hr Hok Hst. pose proof (wstep_outbox _ _ Hst) as Ho. pose proof (wreachable_time _ Hr) as Ht.
  destruct Hst as [t t' c e d d' n He _ Hc|t t' m j o d Ht' _ _ _]; cbn [fst snd] in *.
  - destruct (is_relay c) eqn:Hrel; [|eapply sourced_update; [done| |done]; by eapply inbox_updates].
    destruct c; try done. apply forget_commit in Hc as [a Hc]. by eapply sourced_relay.
  - eapply (sourced_update t t'); [done|apply (im_same t t' d)|done].
Qed.

(** C20: every row of the worker inbox comes from the outbox.  It stands for one
    message about a started run, which carries its intent, was dispatched for
    good, and is the source of no other row: a run is queued for a worker once,
    whatever relays, retries and expired leases there were. *)
Theorem inbox_from_outbox s : wreachable s ->
  (forall i b, inbox s.2 !! i = Some b -> sourced s.2 b)
  /\ forall i j b c, inbox s.2 !! i = Some b -> inbox s.2 !! j = Some c -> ib_OutboxKey b = ib_OutboxKey c -> i = j.
Proof. intros [Hs Hk]%sourced_reachable. by split. Qed.

(** ** Leases of messages *)

Lemma settle_needs l r e d n v : settleOutbox l r e d n = Ok v -> exists o u k, outbox d !! Outbox.l_ID l = Some o /\ held l o
  /\ ob_Until o = Some u /\ (tx_clock e k < u)%Z.
Proof.
  destruct v as [[v d'] n']. intros (o & now & Ho & Hl & _)%settle_ok. apply leased_to_held in Hl as (Hh & u & Hu & Ht). eauto 8.
Qed.
Lemma settle_refused l r e d n : (forall o, outbox d !! Outbox.l_ID l = Some o -> ~ held l o) -> is_ok (settleOutbox l r e d n) = false.
Proof.
  intros Hn. destruct (settleOutbox l r e d n) as [v|] eqn:E; [|done]. apply settle_needs in E as (o & _ & _ & Ho & Hh & _). by destruct (Hn o Ho).
Qed.

(** What [Dispatch], its [n]-th reading of the clock the first, has checked when
    it calls the recipient: the row is leased to the caller for this very
    attempt, with time left after what the check itself took. *)
Record deliverable (l : Outbox.Lease) (risk : string) (e : TxEnv) (n : nat) (d : Db) (o : OutboxRow) : Prop := {
  dl_row : outbox d !! Outbox.l_ID l = Some o;
  dl_held : held l o;
  dl_live : exists u, ob_Until o = Some u /\ (tx_clock e (n + 2) + (tx_clock e (n + 3) - tx_clock e (n + 1)) < u)%Z;
  dl_mode : m_Mode (recoveryState (core d)) = "NORMAL" \/ m_Mode (recoveryState (core d)) = "RECOVERY_RECONCILIATION";
  dl_risk : Outbox.Classify (ob_Topic o) (ob_RiskClass o) = Ok risk;
  dl_epoch : risk <> risk_Observe -> m_Mode (recoveryState (core d)) = "NORMAL" /\ ob_Epoch o = Some (m_Epoch (recoveryState (core d)))
}.

Lemma authorize_delivery_ok l risk opened e d n o epoch deadline d' n' : Outbox.Lease_Valid l = true ->
  authorize_delivery l risk opened e d (S n) = Ok ((o, epoch, deadline), d', n') ->
  d' = d /\ epoch = m_Epoch (recoveryState (core d)) /\ deliverable l risk e n d o.
Proof.
  intros Hv. unfold authorize_delivery. intros Ha. tx. passed. split; [done|]. split; [done|].
  match goal with Hl : row_lease _ _ = _ |- _ => rename Hl into Hlease end.
  match goal with Hu : ob_Until _ = Some _ |- _ => rename Hu into Huntil end.
  unfold row_lease in Hlease. rewrite <- Hlease in Hv. unfold Outbox.Lease_Valid in Hv. cbn in Hv.
  apply andb_true_iff in Hv as [[_ Hne%bool_decide_eq_true]%andb_true_iff _]. subst. split; try done.
  - destruct (ob_Owner o0) as [w|] eqn:Ew; [|done]. rewrite <- Hlease. by split_and!; [|rewrite Ew|].
  - eexists. split; [exact Huntil|]. replace (n + 1) with (S n) by lia. replace (n + 2) with (S (S n)) by lia.
    replace (n + 3) with (S (S (S n))) by lia. lia.
  - destruct (decide (m_Mode (recoveryState (core d)) = "NORMAL")); [by left | right]. apply dec_stable. tauto.
  - intros Hx. destruct (ob_Epoch o0) as [ep|]; [|done]. cbn in *.
    destruct (decide (m_Mode (recoveryState (core d)) = "NORMAL")); [|tauto]. split; [done|].
    f_equal. apply dec_stable. tauto.
Qed.
(** A refusal says what it is. *)
Lemma authorize_delivery_err l risk opened e d n x : authorize_delivery l risk opened e d n = Err x ->
  errors_is x Outbox.ErrOutcomeUnknown = false.
Proof.
  unfold authorize_delivery, mbind, txn_bind, gets, clock_timestamp, refuse. cbn. intros Hx.
  repeat (case_match; cbn in *); simplify_eq; done.
Qed.

Lemma bind_err {A B} (m : txn A) (k : A -> txn B) e d n x : (m ≫= k) e d n = Err x ->
  m e d n = Err x \/ exists a d1 n1, m e d n = Ok (a, d1, n1) /\ k a e d1 n1 = Err x.
Proof. unfold mbind, txn_bind. destruct (m e d n) as [[[a d1] n1]|y]; [intros Hx; right; by exists a, d1, n1 | intros [= ->]; by left]. Qed.
Lemma bind_at {A B} (m : txn A) (k : A -> txn B) e d n a d1 n1 : m e d n = Ok (a, d1, n1) -> (m ≫= k) e d n = k a e d1 n1.
Proof. unfold mbind, txn_bind. by intros ->. Qed.
Lemma map_error_err {A} f (m : txn A) e d n x : map_error f m e d n = Err x -> exists y, x = f y /\ m e d n = Err y.
Proof. unfold map_error. destruct (m e d n) as [v|y]; [done|]. intros [= <-]. by exists y. Qed.
Lemma unknown_unknown x : errors_is (outcome_unknown x) Outbox.ErrOutcomeUnknown = true.
Proof. reflexivity. Qed.

(** Either nobody was called, whoever it would have been; or the message was
    deliverable, and only then does it matter what the recipient does with it. *)
Lemma dispatch_cases text l risk e d n :
  (exists x, errors_is x Outbox.ErrOutcomeUnknown = false /\ forall f, Dispatch text l risk f e d n = Err x)
  \/ exists o, deliverable l risk e n d o
       /\ (forall f g, f (scanOutbox text (Outbox.l_ID l) o) = g (scanOutbox text (Outbox.l_ID l) o) ->
             Dispatch text l risk f e d n = Dispatch text l risk g e d n)
       /\ forall f x, Dispatch text l risk f e d n = Err x -> errors_is x Outbox.ErrOutcomeUnknown = true.
Proof.
  unfold Dispatch. destruct (Outbox.Lease_Valid l) eqn:Hv; cbn [negb]; [|left; by exists Outbox.ErrLeaseLost].
  destruct (negb (Outbox.ValidRisk risk)); [left; by exists Outbox.ErrRiskClass|].
  assert (forall B (k : time -> txn B), (clock_timestamp ≫= k) e d n = k (tx_clock e n) e d (S n)) as Hclock by done.
  setoid_rewrite Hclock.
  destruct (authorize_delivery l risk (tx_clock e n) e d (S n)) as [[[[[o epoch] deadline] d1] n1]|x] eqn:Ha.
  - right. exists o. split; [by eapply authorize_delivery_ok in Ha as (_ & _ & ?)|]. split.
    + intros f g Hfg. rewrite !(bind_at _ _ _ _ _ _ _ _ Ha). cbn zeta. by rewrite Hfg.
    + intros f x. rewrite (bind_at _ _ _ _ _ _ _ _ Ha). cbn zeta. intros [Hx|(fin & d2 & n2 & _ & Hx)]%bind_err; [done|].
      case_decide; [by injection Hx as <-|]. by apply map_error_err in Hx as (y & -> & _).
  - left. exists x. split; [by eapply authorize_delivery_err|]. intros f. unfold mbind, txn_bind. by rewrite Ha.
Qed.

Lemma dispatch_ok text l risk f e d n v d' n' : Dispatch text l risk f e d n = Ok (v, d', n') ->
  exists o now j ev, let r := f (scanOutbox text (Outbox.l_ID l) o) in
  deliverable l risk e n d o /\ leased_to l (tx_clock e j) o = true /\ Outbox.Resolution_Validate r = Ok tt /\ v = Commit (Outbox.rs_State r)
  /\ (exists i, auditInput "outbox.settled" "Outbox" (ob_Key o)
        (settled_json (ob_Key o) (ob_Attempts o) (m_Epoch (recoveryState (core d))) (Outbox.rs_State r)) = Ok i
      /\ Build (u64_succ (head_of (journal d)).1) (head_of (journal d)).2 i (tx_clock e (S (S j))) = Ok ev)
  /\ d' = set_journal (journal d ++ [ev]) (set_outbox (<[Outbox.l_ID l :=
       settled_row r (retry_micros (Outbox.rs_RetryAfter r)) (clamp (Outbox.rs_LastError r)) now o]> (outbox d)) d).
Proof.
  unfold Dispatch, appendAudit. intros Hd. tx.
  match goal with E : negb (Outbox.Lease_Valid _) = false |- _ => apply negb_false_iff in E; rename E into Hv end.
  match goal with E : authorize_delivery _ _ _ _ _ _ = _ |- _ => apply authorize_delivery_ok in E as (-> & -> & Hdl); [|done] end.
  match goal with E : settleOutbox _ _ _ _ _ = _ |- _ => apply settle_ok in E as (o' & now & Ho & Hl & Hr & -> & -> & ->) end.
  rewrite (dl_row _ _ _ _ _ _ Hdl) in Ho. injection Ho as <-. eexists o, _, _, _. split_and!; try done.
  eexists. split; [eassumption|]. done.
Qed.

(** ** Properties *)

(** With this lease nothing is settled, and nobody is called: the refusal says
    so, and is the same whatever the recipient would have done. *)
Definition refused (l : Outbox.Lease) (d : Db) : Prop :=
  (forall r e n, is_ok (settleOutbox l r e d n) = false)
  /\ forall text risk e n, exists x, errors_is x Outbox.ErrOutcomeUnknown = false /\ forall f, Dispatch text l risk f e d n = Err x.

Lemma dispatch_refused l d : (forall o, outbox d !! Outbox.l_ID l = Some o -> ~ held l o) -> refused l d.
Proof.
  intros Hn. split; [intros r e n; by apply settle_refused|]. intros text risk e n.
  destruct (dispatch_cases text l risk e d n) as [?|(o & [Ho Hh _ _ _ _] & _)]; [done|]. by destruct (Hn _ Ho).
Qed.

Lemma lease_spent l o o1 d d' : outbox_later (outbox d) (outbox d') -> held l o -> row_later o o1 -> ~ held l o1 ->
  outbox d !! Outbox.l_ID l = Some o1 -> refused l d'.
Proof.
  intros Hl Hh Hr Hn Ho. destruct (Hl _ _ Ho) as (o2 & Ho2 & Hr2). apply dispatch_refused. intros o3.
  rewrite Ho2. intros [= <-]. exact (lease_never_returns l o o1 o2 Hh Hr Hn Hr2).
Qed.

(** C19: a message's life.  A message stays in the outbox as the message it is;
    once dispatched or dead-lettered it never changes; and a lease that was
    lost, or whose attempt was settled, is never valid again: with it nothing
    is settled, and a delivery is refused before the recipient is called, with
    an error that says so and does not depend on the recipient, whoever has
    leased the message since. *)
Theorem messages_fenced s s1 s' l o : rtc wstep s s1 -> rtc wstep s1 s' -> outbox s.2 !! Outbox.l_ID l = Some o ->
  exists o1 o', outbox s1.2 !! Outbox.l_ID l = Some o1 /\ outbox s'.2 !! Outbox.l_ID l = Some o' /\ same_message o o1 /\ same_message o1 o'
  /\ (settled_for_good o1 -> o' = o1)
  /\ (held l o -> ~ held l o1 -> (forall r e n, is_ok (settleOutbox l r e s'.2 n) = false)
        /\ forall text risk e n, exists x, errors_is x Outbox.ErrOutcomeUnknown = false
             /\ forall f, Dispatch text l risk f e s'.2 n = Err x).
Proof.
  intros H1%wsteps_outbox H2%wsteps_outbox Ho. destruct (H1 _ _ Ho) as (o1 & Ho1 & Hr1). destruct (H2 _ _ Ho1) as (o' & Ho' & Hr2).
  exists o1, o'. split_and!; try done.
  - by destruct Hr1 as [->|(? & _)].
  - by destruct Hr2 as [->|(? & _)].
  - intros Hs. by destruct Hr2 as [->|(_ & ? & _)].
  - intros Hh Hn. by apply (lease_spent l o o1 s1.2).
Qed.

(** C13: a delivery is guarded.  Either the recipient is not called at all: the
    outcome is one error, the same whatever recipient there is, which is not an
    unknown outcome.  Or the message was deliverable when the recipient was
    called: leased to the caller for this attempt, the lease still running,
    for the risk that the message's topic has, and, for anything but an
    observation, in normal mode and in the recovery epoch the lease was taken
    in; the outcome then depends on the recipient only in what it does with that
    message.  An error is then an unknown outcome.  Without one, the lease
    still ran when the resolution was written, in the transaction that also
    writes one linked audit event and nothing else; and the lease is spent for
    good. *)
Theorem dispatch_guarded text l risk f e d :
  (exists x, errors_is x Outbox.ErrOutcomeUnknown = false /\ forall g, Dispatch text l risk g e d 0 = Err x)
  \/ exists o, let m := scanOutbox text (Outbox.l_ID l) o in
     deliverable l risk e 0 d o
     /\ (forall g, g m = f m -> Dispatch text l risk g e d 0 = Dispatch text l risk f e d 0)
     /\ match Dispatch text l risk f e d 0 with
        | Err x => errors_is x Outbox.ErrOutcomeUnknown = true
        | Ok (v, d', _) => exists now j ev, leased_to l (tx_clock e j) o = true
            /\ Outbox.Resolution_Validate (f m) = Ok tt /\ v = Commit (Outbox.rs_State (f m))
            /\ d' = set_journal (journal d ++ [ev]) (set_outbox (<[Outbox.l_ID l :=
                 settled_row (f m) (retry_micros (Outbox.rs_RetryAfter (f m))) (clamp (Outbox.rs_LastError (f m))) now o]> (outbox d)) d)
            /\ logs (journal d) (journal d')
            /\ forall d2, outbox_later (outbox d') (outbox d2) -> refused l d2
        end.
Proof.
  destruct (dispatch_cases text l risk e d 0) as [Hx|(o & Hdl & Hdep & Herr)]; [by left | right]. exists o. cbn zeta.
  split; [done|]. split; [intros g Hg; by apply Hdep|].
  destruct (Dispatch text l risk f e d 0) as [[[v d'] n']|x] eqn:E; [|by eapply Herr].
  apply dispatch_ok in E as (o' & now & j & ev & Hdl' & Hl & Hr & -> & (i & Hi & Hb) & ->).
  pose proof (dl_row _ _ _ _ _ _ Hdl) as Ho. rewrite (dl_row _ _ _ _ _ _ Hdl') in Ho. injection Ho as ->.
  exists now, j, ev. split_and!; try done; [by exists i, (tx_clock e (S (S j))), ev|]. intros d2 Hlater.
  eapply (lease_spent l o _ _ d2 Hlater); [apply Hdl | by eapply row_settled_later | | by apply lookup_insert_eq].
  intros (Hs & _). cbn in Hs. apply resolution_state in Hr as [Hr|[Hr|Hr]]; congruence.
Qed.

End relays.

(** ** Examples *)

Lemma claimed_there : exists b, inbox (turn_state claimed_calls).2 !! 7%Z = Some b.
Proof.
  destruct (inbox (turn_state claimed_calls).2 !! 7%Z) as [b|] eqn:E; [by exists b|].
  assert (match inbox (turn_state claimed_calls).2 !! 7%Z with Some _ => true | None => false end = true) as Hb by (vm_compute; reflexivity).
  by rewrite E in Hb.
Qed.
Lemma inbox_from_outbox_witness : exists b, inbox (turn_state claimed_calls).2 !! 7%Z = Some b /\ sourced (turn_state claimed_calls).2 b.
Proof.
  destruct claimed_there as [b Hb]. exists b. split; [exact Hb|].
  destruct (inbox_from_outbox (turn_state claimed_calls)) as [Hs _]; [|exact (Hs 7%Z b Hb)]. apply turn_reachable. vm_compute. reflexivity.
Defined.

(** The message of the run, leased by a dispatcher that then fails to settle it in time. *)
Definition started_row : OutboxRow := default (new_message "" 0 (mkOutboxMessage "" "" "" "" "" (JObj []))) (turn_outbox !! 1%Z).
Definition lost_lease : Outbox.Lease := Outbox.mkLease 1 "dispatcher-1" 1.
Definition first_attempt : OutboxRow := with_lease "dispatcher-1" 1 (turn_start + seconds 30) 0 "" started_row.
Definition second_attempt : OutboxRow := with_lease "dispatcher-2" 2 (turn_start + seconds 90) 0 "" started_row.
Definition with_message (o : OutboxRow) : Db := set_outbox {[1%Z := o]} turn_db.

Example first_dispatch text : exists v, Dispatch text lost_lease risk_ControlledMutation (fun _ => Outbox.mkResolution "DISPATCHED" 0 "")
  (at_clock turn_start) (with_message first_attempt) 0 = Ok v /\ v.1.1 = Commit "DISPATCHED".
Proof. eexists. split; [vm_compute; reflexivity | reflexivity]. Qed.

Lemma retaken : rtc wstep (turn_start, with_message first_attempt) ((turn_start + seconds 60)%Z, with_message second_attempt).
Proof.
  apply rtc_once. apply (ws_core _ _ turn_memory [] {[1%Z := second_attempt]} (with_message first_attempt)); [done|done|constructor|].
  intros k o Ho. change (({[1%Z := first_attempt]} : gmap Z OutboxRow) !! k = Some o) in Ho. apply lookup_singleton_Some in Ho as [<- <-]. exists second_attempt. split; [done|]. right.
  split_and!; [done | by intros [?|?] | by left].
Qed.

Lemma messages_fenced_witness : is_ok (settleOutbox lost_lease (Outbox.mkResolution "DISPATCHED" 0 "")
  (at_clock (turn_start + seconds 60)) (with_message second_attempt) 0) = false.
Proof.
  destruct (messages_fenced (turn_start, with_message first_attempt) _ _ lost_lease first_attempt retaken (rtc_refl _ _) eq_refl)
    as (o1 & o' & Ho1 & _ & _ & _ & _ & Hf).
  injection Ho1 as <-. destruct (Hf ltac:(done) ltac:(by intros (_ & Ho & _))) as [Hs _].
  exact (Hs _ _ _).
Defined.
