(* ===== verification/Commits.v ===== *)
(** What a committed transaction leaves behind: one audit event for whatever it
    changed, a journal that verifies, and, when its answer is lost, all or
    nothing. *)
From S2P Require Import Prelude Canonical Json Core Run Session Recovery Verification Action Store Binding Journal WorkerQueue Preparation Control Sandbox Offline Codex Db WorkerStore ExecStore ControlStore CoreStore OutboxStore ContinueStore Txn OutboxMoves Workers TurnDemo.

Section commits.
Context `{Hash}.

(** ** One event per transaction *)

(** Nothing but the worker's last sign of life. *)
Definition seen_only (d d' : Db) : Prop := d' = set_workers (workers d') d.

Class Quiet {A} (m : txn A) := quiet e d n a d' n' : m e d n = Ok (a, d', n') -> seen_only d d'.
Class Logs {A} (m : txn A) := one_event e d n a d' n' : m e d n = Ok (a, d', n') -> logs (journal d) (journal d').
Definition audited {A} (m : txn A) : Prop := forall e d n a d' n', m e d n = Ok (a, d', n') ->
  seen_only d d' \/ logs (journal d) (journal d').

Lemma seen_refl d : seen_only d d.
Proof. by destruct d. Qed.
Lemma seen_trans d1 d2 d3 : seen_only d1 d2 -> seen_only d2 d3 -> seen_only d1 d3.
Proof. unfold seen_only. intros -> ->. by destruct d1. Qed.
Lemma seen_journal d d' : seen_only d d' -> journal d' = journal d.
Proof. by intros ->. Qed.

Lemma quiet_unchanged {A} (m : txn A) : Keeps (fun d => d) m -> Quiet m.
Proof. intros Hk e d n a d' n' Hm. pose proof (Hk _ _ _ _ _ _ Hm) as Hd. cbn in Hd. subst. apply seen_refl. Qed.
Lemma quiet_seen s p t : Quiet (modify (fun d => set_workers (<[s := mkWorkerRow p t]> (workers d)) d)).
Proof. intros e d n a d' n' (-> & _)%tx_modify. by destruct d. Qed.
Lemma quiet_bind {A B} (m : txn A) (k : A -> txn B) : Quiet m -> (forall a, Quiet (k a)) -> Quiet (m ≫= k).
Proof. intros Hm Hk e d n a d' n' (x & d1 & n1 & E & E')%tx_bind. eapply seen_trans; [by eapply Hm | by eapply Hk]. Qed.
Lemma logs_audit ev run v : Logs (workerAudit ev run v).
Proof. intros e d n a d' n' (x & -> & _ & i & _ & Hb)%audit_effect. exists i, (tx_clock e n), x. by destruct d. Qed.
Lemma logs_append i now : Logs (appendAudit i now).
Proof. intros e d n a d' n' Ha. unfold appendAudit in Ha. tx. eexists i, now, _. split; [eassumption|]. by destruct d. Qed.
Lemma logs_then {A B} (m : txn A) (k : A -> txn B) : Logs m -> (forall a, Keeps journal (k a)) -> Logs (m ≫= k).
Proof. intros Hm Hk e d n a d' n' (x & d1 & n1 & E & E')%tx_bind. rewrite (Hk _ _ _ _ _ _ _ E'). by eapply Hm. Qed.
Lemma logs_after {A B} (m : txn A) (k : A -> txn B) : Keeps journal m -> (forall a, Logs (k a)) -> Logs (m ≫= k).
Proof. intros Hm Hk e d n a d' n' (x & d1 & n1 & E & E')%tx_bind. rewrite <- (Hm _ _ _ _ _ _ E). by eapply Hk. Qed.
Lemma logs_refuse {A} x : Logs (refuse (A := A) x).
Proof. by intros ??????. Qed.
Lemma audited_quiet {A} (m : txn A) : Quiet m -> audited m.
Proof. intros Hq e d n a d' n' Hm. left. by eapply Hq. Qed.
Lemma audited_logs {A} (m : txn A) : Logs m -> audited m.
Proof. intros Hq e d n a d' n' Hm. right. by eapply Hq. Qed.
Lemma audited_bind {A B} (m : txn A) (k : A -> txn B) : Quiet m -> (forall a, audited (k a)) -> audited (m ≫= k).
Proof.
  intros Hm Hk e d n a d' n' (x & d1 & n1 & E & E')%tx_bind. pose proof (Hm _ _ _ _ _ _ E) as Hs.
  destruct (Hk _ _ _ _ _ _ _ E') as [Hs'|Hl]; [left; by eapply seen_trans | right]. by rewrite <- (seen_journal _ _ Hs).
Qed.
Lemma audited_then {A B} (m : txn A) (k : A -> txn B) : audited m -> (forall a, Keeps (fun d => d) (k a)) -> audited (m ≫= k).
Proof. intros Hm Hk e d n a d' n' (x & d1 & n1 & E & E')%tx_bind. apply unchanged in E' as ->; [by eapply Hm | apply Hk]. Qed.
End commits.

(** Reads first, then writes around one audit record. *)
Ltac quiet_step := first [apply quiet_seen | apply quiet_unchanged; solve [keep] ].
Ltac logs_step :=
  first
    [ apply logs_audit | apply logs_append | apply logs_refuse
    | apply logs_then; [solve [repeat logs_one] | intros ?; solve [keep_writes]]
    | apply logs_after; [solve [keep_writes] | intros ?]
    | match goal with |- Logs (match ?x with _ => _ end) => destruct x end
    | progress cbn beta iota zeta ]
with logs_one := first [apply logs_audit | apply logs_append].
Ltac audited_step :=
  first
    [ apply audited_quiet; solve [quiet_step]
    | apply audited_logs; solve [repeat logs_step]
    | apply audited_bind; [solve [quiet_step] | intros ?]
    | match goal with |- audited (match ?x with _ => _ end) => destruct x end
    | progress cbn beta iota zeta ].

Section commits.
Context `{Hash}.

Lemma relay_audited f owner : audited (relayRunStart f owner).
Proof.
  intros e d n [v|v] d' n' Hr; [right; by apply relay_ok in Hr as (_ & _ & ? & ? & ? & ? & ? & ? & ? & _ & _ & _ & _ & Hl & _)|].
  left. unfold relayRunStart, appendAudit in Hr. tx; apply seen_refl.
Qed.
Lemma continue_audited f a q : audited (ContinueCodex f a q).
Proof.
  assert (forall fresh start epoch mode inbox, Logs (continue_run a q fresh start epoch mode inbox)) as Hl.
  { intros fresh start epoch mode inbox. unfold continue_run, stopped_run. case_decide; [apply logs_refuse|].
    apply logs_after; [keep|]. intros st.
    apply logs_after; [keep|]. intros b. destruct b; [apply logs_refuse|].
    do 5 (apply logs_after; [solve [keep_stores]|intros ?]).
    apply logs_then; [apply logs_audit|]. intros ?. keep_stores. }
  unfold ContinueCodex, readContinuation. repeat first [audited_step | apply audited_logs, Hl].
Qed.
Lemma calls_audited c : audited (wcall_txn c).
Proof.
  destruct c; cbn [wcall_txn]; unfold forget; try (apply audited_then; [|intros ?; solve [keep]]);
    try apply relay_audited; try apply continue_audited;
    unfold claimInput, RenewInput, ReportInput, ReportPrepared, write_inbox,
      StartOffline, StartCodex, authorize, RenewOffline, RenewCodex, renew_execution, FailOffline, FailCodex, fail_execution,
      FinishOffline, FinishCodex, BindCodexControl, QueueCodexControl, queue_control, ClaimCodexControl, SettleCodexControl,
      CloseCodexControl, SaveCodexCheckpoint, ReconcileExecutionAbandoned, abandon.
  all: repeat audited_step.
  (* the two permits, built from what [authorize] returned *)
  all: apply audited_then; [|intros ?; solve [keep]]; repeat audited_step.
Qed.

(** ** The journal *)

Definition chained (d : Db) : Prop := chain 0 "" (journal d) /\ (N.of_nat (length (journal d)) < u64_modulus)%N.

Lemma head_chain j : chain 0 "" j -> (head_of j).1 = N.of_nat (length j)
  /\ (head_of j).2 = match last j with Some x => e_Digest x | None => "" end.
Proof.
  unfold head_of. destruct j as [|x l _] using rev_ind; [done|]. intros (_ & _ & Hn & _)%chain_app. rewrite last_snoc. cbn.
  split; [|done]. rewrite length_app. cbn [length]. lia.
Qed.
Lemma logs_chain j j' : chain 0 "" j -> (N.of_nat (length j) < u64_modulus)%N -> logs j j' ->
  chain 0 "" j' /\ (N.of_nat (length j') < u64_modulus)%N.
Proof.
  intros Hc Hl (i & now & x & Hb & ->). destruct (head_chain j Hc) as [H1 H2]. rewrite H1, H2 in Hb.
  apply Build_ok in Hb as (Hn & Hp & _ & _ & Hs).
  assert (N.of_nat (length j) + 1 < u64_modulus)%N as Hlt.
  { destruct (decide (N.of_nat (length j) + 1 < u64_modulus)%N) as [|Hge]; [done|]. exfalso. apply (se_number _ Hs). rewrite Hn.
    unfold u64_succ. replace (N.of_nat (length j) + 1)%N with u64_modulus by lia. by rewrite N.Div0.mod_same. }
  rewrite u64_succ_small in Hn by done. split; [|rewrite length_app; cbn [length]; lia].
  apply chain_app. split_and!; [done..|lia|done].
Qed.
Lemma logs_chain_rtc j j' : rtc logs j j' -> chain 0 "" j /\ (N.of_nat (length j) < u64_modulus)%N ->
  (chain 0 "" j' /\ (N.of_nat (length j') < u64_modulus)%N) /\ exists l, j' = j ++ l.
Proof.
  induction 1 as [j|j j1 j' Hl _ IH]; intros Hc; [split; [done|]; exists []; by rewrite app_nil_r|].
  destruct (IH (logs_chain _ _ (proj1 Hc) (proj2 Hc) Hl)) as [Hc' [l ->]]. split; [done|].
  destruct Hl as (i & now & x & _ & ->). exists (x :: l). by rewrite <- app_assoc.
Qed.

Lemma wstep_logs s s' : wstep s s' -> rtc logs (journal s.2) (journal s'.2).
Proof.
  intros Hst. destruct Hst as [t t' c e d d' n _ _ Hc|t t' m j o d _ _ Hj _]; cbn [snd]; [|done].
  destruct (calls_audited c _ _ _ _ _ _ Hc) as [Hs|Hl]; [by rewrite (seen_journal _ _ Hs) | by apply rtc_once].
Qed.
Lemma journal_reachable s : wreachable s -> chained s.2.
Proof.
  revert s. apply wreachable_ind; [intros t m _; split; [constructor | done]|].
  intros s s' _ Hc Hl%wstep_logs. by apply (logs_chain_rtc _ _ Hl).
Qed.

(** A journal with room takes the event of a named type. *)
Lemma audit_ready ev run v e d n : chained d -> (N.of_nat (length (journal d)) + 1 < u64_modulus)%N -> ev <> "" ->
  exists x, workerAudit ev run v e d n = Ok (tt, set_journal (journal d ++ [x]) d, S n).
Proof.
  intros [Hc _] Hl Hev. destruct (head_chain _ Hc) as [Hn _].
  unfold workerAudit, auditInput, appendAudit. destruct (Digest_ok v) as (pd & Hpd & Hvd). rewrite Hpd. cbn.
  unfold head_of in Hn.
  unfold mbind, txn_bind. cbn. rewrite Hn, u64_succ_small by done. unfold Build.
  rewrite decide_False by lia. cbn [in_Type in_PayloadDigest]. rewrite decide_False by done.
  rewrite decide_False by (intros ->; done). cbn zeta.
  match goal with |- context [Digest ?c] => destruct (Digest_ok c) as (dg & Hdg & _) end. eexists. rewrite Hdg. cbn. reflexivity.
Qed.

(** C22: every method of the worker store is atomic and audited.  Its
    transaction either changes nothing, or it records the worker's sign of life
    and nothing else, or it adds exactly one event to the journal, linked to
    the last one, with everything else it writes; and a caller that gets an
    error other than the unknown outcome knows that nothing happened. *)
Theorem calls_atomic c e answer d :
  let r := transact (wcall_txn c) e answer d in
  (r.2 = d \/ seen_only d r.2 \/ logs (journal d) (journal r.2))
  /\ (r.2 <> d -> exists n, wcall_txn c e d 0 = Ok (Commit tt, r.2, n))
  /\ match r.1 with
     | Ok _ => forall n d1, wcall_txn c e d 0 = Ok (Commit tt, d1, n) -> r.2 = d1
     | Err x => errors_is x ErrCommitOutcomeUnknown = false -> r.2 = d
     end.
Proof.
  cbn zeta. unfold transact. destruct (wcall_txn c e d 0) as [[[v d1] n]|x] eqn:E; [|by split; [left|split]].
  destruct v as [[]|[]]; [|by split; [left|split]].
  pose proof (calls_audited c _ _ _ _ _ _ E) as Ha.
  destruct answer as [|applied cause]; cbn [fst snd].
  - split; [by right|]. split; [intros _; by exists n|]. intros n' d' [= <- <-]. done.
  - destruct applied; cbn [fst snd].
    + split; [by right|]. split; [intros _; by exists n|]. done.
    + split; [by left|]. split; [done|]. done.
Qed.

(** C23: whatever the workers, the people and the rest of the control plane
    do, the journal verifies, and its past is never rewritten. *)
Theorem journal_grows s s' : wreachable s -> rtc wstep s s' ->
  Verify (journal s'.2) = Ok tt /\ exists l, journal s'.2 = journal s.2 ++ l.
Proof.
  intros Hr Hss. destruct (journal_reachable _ (wreachable_steps _ _ Hr Hss)) as [Hc Hl]. split; [by apply Verify_loop_chain; [lia|]|].
  assert (rtc logs (journal s.2) (journal s'.2)) as Hj.
  { clear -Hss. induction Hss as [|x y z Hxy%wstep_logs _ IH]; [done | by etrans]. }
  by apply (logs_chain_rtc _ _ Hj), journal_reachable.
Qed.

End commits.

Lemma journal_grows_witness : Verify (journal (turn_state running_calls).2) = Ok tt /\ length (journal (turn_state running_calls).2) = 9.
Proof.
  split; [|vm_compute; reflexivity].
  apply (journal_grows (turn_state claimed_calls) (turn_state running_calls)).
  - apply turn_reachable. vm_compute. reflexivity.
  - apply (turn_steps claimed_calls). vm_compute. reflexivity.
Defined.
