(* ===== verification/Executions.v ===== *)
(** Executions under every interleaving: one authorised execution per worker
    and one lane per run, each resting on an admitted and prepared input, and
    each settled once. *)
From S2P Require Import Prelude Canonical Json Core Run Session Recovery Verification Action Store Binding Journal WorkerQueue Preparation Control Sandbox Offline Codex Db WorkerStore ExecStore ControlStore CoreStore OutboxStore ContinueStore Txn OutboxMoves Workers TurnDemo Leases.

Section executions.
Context `{Hash}.

(** ** What the calls leave alone *)

Definition writes_offline (c : wcall) : bool :=
  match c with CallStartOffline _ _ | CallRenewOffline _ _ | CallFinishOffline _ _ | CallFailOffline _ _ | CallAbandon _ _ => true | _ => false end.
Definition writes_codex (c : wcall) : bool :=
  match c with CallStartCodex _ _ | CallRenewCodex _ _ | CallFinishCodex _ _ | CallFailCodex _ _ | CallAbandon _ _ | CallContinue _ _ _ => true | _ => false end.
Lemma keeps_offline c : writes_offline c = false -> Keeps offline_rows (wcall_txn c).
Proof. frame c. Qed.
Lemma keeps_codex c : writes_codex c = false -> Keeps codex_rows (wcall_txn c).
Proof. frame c. Qed.
Definition writes_prepared (c : wcall) : bool := match c with CallPrepare _ _ => true | _ => false end.
Lemma keeps_prepared c : writes_prepared c = false -> Keeps prepared (wcall_txn c).
Proof. frame c. Qed.

(** ** Moves of a lane *)

(** A worker that is authorised for nothing. *)
Definition unoccupied (w : string) (d : Db) : Prop := lane_busy offline_lane w d = false /\ lane_busy codex_lane w d = false.

Section lane.
Context {P R : Type} (ln : Lane P R) (check : Assignment -> P -> outcome unit) (sound : Db -> ExecRow P R -> R -> Prop).
Context (Hset : forall m d, ln_rows ln (ln_set ln m d) = m).
Context (Hjournal : forall j d, ln_rows ln (set_journal j d) = ln_rows ln d).

(** What an execution rests on: the admitted row of its run, the frozen input
    the profile was checked against, and the worker's own preparation of it. *)
Definition grounded (d : Db) (run : string) (x : ExecRow P R) : Prop := exists b m k pr,
  let a := mkAssignment (row_token (ex_InboxID x) b) zero_time (ib_Intent b) (ib_IntentDigest b) m k in
  inbox d !! ex_InboxID x = Some b /\ ib_RunID b = run /\ ib_State b = "INPUT_VALIDATED" /\ ib_Owner b = Some (ex_Worker x)
  /\ input_and_task (it_InputDigest (ib_Intent b)) run d = Some (m, k) /\ check a (ex_Profile x) = Ok tt
  /\ prepared d !! ex_InboxID x = Some pr
  /\ prep_Verify a (pw_Receipt pr) (pc_Facts (pw_Receipt pr)) (ex_Worker x) = Ok tt
  /\ ex_Preparation x = pc_FactsDigest (pw_Receipt pr) /\ ib_Profile b = xt_WorkerProfile (ex_Token x).

Inductive exec_row_move (t t' : time) (d : Db) (run : string) (x : ExecRow P R) : ExecRow P R -> Prop :=
| xr_renew base : ex_State x = Authorized -> (t < ex_Until x)%Z -> (t <= base <= t')%Z ->
    exec_row_move t t' d run x (set_ex_Until (Z.min (base + ln_lease ln) (ex_StartedAt x + ln_total ln)) x)
| xr_finish r : ex_State x = Authorized -> (t < ex_Until x)%Z -> sound d x r ->
    exec_row_move t t' d run x (finish_row r x)
| xr_fail : ex_State x = Authorized -> exec_row_move t t' d run x (set_ex_State exec_Unknown x)
| xr_abandon a : (ex_State x = Authorized \/ ex_State x = exec_Unknown) -> ex_Receipt x = None -> (ex_Until x <= t')%Z ->
    m_Mode (recoveryState (core d)) = mode_RecoveryReconciliation -> deliveries_of run d = false ->
    exec_row_move t t' d run x (abandon_row a x)
| xr_stop : ex_State x = exec_Unknown -> ex_Receipt x = None -> exec_row_move t t' d run x (set_ex_State Stopped x).

Inductive exec_move (t t' : time) (d : Db) : gmap string (ExecRow P R) -> Prop :=
| xm_same : exec_move t t' d (ln_rows ln d)
| xm_authorize run w tok p prep i started now :
    ln_rows ln d !! run = None -> (forall r y, ln_rows ln d !! r = Some y -> ex_ID y <> xt_ID tok) -> unoccupied w d ->
    xt_RunID tok = run -> ln_digest ln p = Ok (xt_ProfileDigest tok) -> m_Mode (recoveryState (core d)) = mode_Normal ->
    xt_RecoveryEpoch tok = m_Epoch (recoveryState (core d)) ->
    (t <= started <= now)%Z -> (now <= t' /\ now <= started + seconds 5)%Z ->
    let x := mkExecRow (xt_ID tok) i w tok p prep Authorized started (now + ln_lease ln) None None in
    grounded d run x -> exec_move t t' d (<[run := x]> (ln_rows ln d))
| xm_row run x x' : ln_rows ln d !! run = Some x -> exec_row_move t t' d run x x' -> exec_move t t' d (<[run := x']> (ln_rows ln d)).

(** ** Rows have their keys *)

Record keyed (d : Db) : Prop := {
  ky_id run x : ln_rows ln d !! run = Some x -> ex_ID x = xt_ID (ex_Token x) /\ xt_RunID (ex_Token x) = run;
  ky_unique run run' x x' : ln_rows ln d !! run = Some x -> ln_rows ln d !! run' = Some x' -> ex_ID x = ex_ID x' -> run = run'
}.

Lemma by_execution_some i d run x : by_execution ln i d = Some (run, x) -> ln_rows ln d !! run = Some x /\ ex_ID x = i.
Proof.
  unfold by_execution. intros Hf%head_Some_elem_of. apply list_elem_of_filter in Hf as [Hi Hm]. cbn in Hi.
  split; [by apply elem_of_map_to_list in Hm | done].
Qed.
Lemma by_execution_key d run x : keyed d -> ln_rows ln d !! run = Some x -> by_execution ln (xt_ID (ex_Token x)) d = Some (run, x).
Proof.
  intros [Hid Hu] Hx. destruct (by_execution ln (xt_ID (ex_Token x)) d) as [[run' x']|] eqn:E.
  - apply by_execution_some in E as [Hx' Hi]. destruct (Hid _ _ Hx) as [He _]. rewrite <- He in Hi.
    assert (run' = run) as -> by (eapply Hu; eauto). by simplify_eq.
  - exfalso. unfold by_execution in E. apply head_None in E.
    assert ((run, x) ∈ filter (fun p => ex_ID p.2 = xt_ID (ex_Token x)) (map_to_list (ln_rows ln d))) as Hin.
    { apply list_elem_of_filter. split; [by apply (Hid _ _ Hx) | by apply elem_of_map_to_list]. }
    rewrite E in Hin. by apply elem_of_nil in Hin.
Qed.
Lemma by_execution_none i d run x : by_execution ln i d = None -> ln_rows ln d !! run = Some x -> ex_ID x <> i.
Proof.
  intros E Hx Hi. unfold by_execution in E. apply head_None in E.
  assert ((run, x) ∈ filter (fun p => ex_ID p.2 = i) (map_to_list (ln_rows ln d))) as Hin
    by (apply list_elem_of_filter; split; [done | by apply elem_of_map_to_list]).
  rewrite E in Hin. by apply elem_of_nil in Hin.
Qed.

(** ** The lock *)

Lemma scan_execution_ok r e d n x d' n' : scan_execution ln r e d n = Ok (x, d', n') ->
  d' = d /\ n' = n /\ r = Some x /\ ExecToken_Valid (ex_Token x) = true /\ ln_digest ln (ex_Profile x) = Ok (xt_ProfileDigest (ex_Token x)).
Proof. unfold scan_execution. intros Hs. tx. passed. subst. split_and!; congruence. Qed.

Lemma platform_ok e d n p d' n' : lockWorkerPlatform e d n = Ok (p, d', n') ->
  d' = d /\ n' = n /\ p = (m_Epoch (recoveryState (core d)), m_Mode (recoveryState (core d))).
Proof. unfold lockWorkerPlatform. intros Hp. tx. done. Qed.

Lemma lock_execution_ok s t live e d n x r d' n' : keyed d -> lock_execution ln s t live e d n = Ok (x, r, d', n') ->
  d' = d /\ s <> "" /\ ExecToken_Valid t = true /\ ln_rows ln d !! xt_RunID t = Some x /\ ex_Token x = t /\ ex_Worker x = s
  /\ (live = true -> ex_State x = Authorized /\ m_Mode (recoveryState (core d)) = mode_Normal
        /\ m_Epoch (recoveryState (core d)) = xt_RecoveryEpoch t /\ exists k, (tx_clock e k < ex_Until x)%Z).
Proof.
  intros Hk. unfold lock_execution. intros Hl. destruct live; tx.
  all: repeat match goal with
    | Hs : scanInbox _ _ _ _ = Ok _ |- _ => apply scanInbox_ok in Hs as (-> & -> & _)
    | Hs : scan_execution _ _ _ _ _ = Ok _ |- _ => apply scan_execution_ok in Hs as (-> & -> & Hrow & _ & _)
    | Hs : workerRunActive _ _ _ _ = Ok _ |- _ => apply active_ok in Hs as [-> ->]
    | Hs : lockWorkerPlatform _ _ _ = Ok _ |- _ => apply platform_ok in Hs as (-> & -> & [= -> ->])
    end; passed; subst.
  - match goal with Hb : by_execution ln _ _ = Some _ |- _ => rewrite (by_execution_key _ _ _ Hk Hrow) in Hb; injection Hb as <- <- end.
    match goal with Ha : _ /\ (_ < _)%Z |- _ => destruct Ha end. split_and!; try done. intros _. split_and!; try done. eauto.
  - done.
Qed.

(** ** The moves of the calls *)

Lemma by_execution_journal i j d : by_execution ln i (set_journal j d) = by_execution ln i d.
Proof. unfold by_execution. by rewrite Hjournal. Qed.

(** What was locked, and the row the statement then finds. *)
Ltac locked Hk :=
  repeat match goal with
    | p : (_ * _)%type |- _ => destruct p
    | Hl : lock_execution _ _ _ _ _ _ _ = Ok _ |- _ =>
        apply (lock_execution_ok _ _ _ _ _ _ _ _ _ _ Hk) in Hl; destruct Hl as (-> & ? & ? & ? & ? & ? & ?)
    | Hx : true = true -> _ |- _ => destruct (Hx eq_refl) as (? & ? & ? & ? & ?); clear Hx
    | Hx : false = true -> _ |- _ => clear Hx
    | Ha : workerAudit _ _ _ _ _ _ = Ok _ |- _ => apply audit_effect in Ha; destruct Ha as (? & -> & -> & _)
    | Hb : by_execution _ _ (set_journal _ _) = _ |- _ => rewrite by_execution_journal in Hb
    | Hx : ln_rows ln ?d !! _ = Some ?x, Ht : ex_Token ?x = ?t, Hb : by_execution ln (xt_ID ?t) ?d = _ |- _ =>
        rewrite <- Ht, (by_execution_key _ _ _ Hk Hx) in Hb; injection Hb; clear Hb; intros; subst
    end.

Lemma renew_execution_moves ev s t0 e d a d' n t t' : keyed d -> env_ok t t' e ->
  renew_execution ln ev s t0 e d 0 = Ok (Commit a, d', n) -> exec_move t t' d (ln_rows ln d').
Proof.
  intros Hk He. unfold renew_execution, write_execution_row. intros Hc. tx. locked Hk. rewrite Hset, Hjournal.
  eapply xm_row; [eassumption|]. apply xr_renew; [done| |].
  - match goal with Hx : (_ < ex_Until _)%Z /\ _ |- _ => destruct Hx end. pose proof (eo_from _ _ _ He (S n0)). lia.
  - split; [apply (eo_from _ _ _ He) | apply (eo_to _ _ _ He)].
Qed.

Lemma fail_execution_moves ev s t0 e d a d' n t t' : keyed d ->
  fail_execution ln ev s t0 e d 0 = Ok (Commit a, d', n) -> exec_move t t' d (ln_rows ln d').
Proof.
  intros Hk. unfold fail_execution, write_execution_row. intros Hc. tx; locked Hk; passed; rewrite ?Hset, ?Hjournal.
  - eapply xm_row; [eassumption|]. by apply xr_fail.
  - apply xm_same.
Qed.

Lemma finish_execution_moves t0 r e d d1 x n u d' n' t t' : keyed d -> env_ok t t' e -> ln_rows ln d1 = ln_rows ln d ->
  ln_rows ln d !! xt_RunID t0 = Some x -> ex_Token x = t0 -> sound d x r ->
  finish_execution ln t0 r e d1 n = Ok (u, d', n') -> exec_move t t' d (ln_rows ln d').
Proof.
  intros Hk He Hd Hx <- Hs. unfold finish_execution, write_execution_row. intros Hc. tx.
  assert (by_execution ln (xt_ID (ex_Token x)) d = by_execution ln (xt_ID (ex_Token x)) d1) as Hb by (unfold by_execution; by rewrite Hd).
  rewrite (by_execution_key _ _ _ Hk Hx) in Hb. rewrite Hset, Hd.
  match goal with Hy : by_execution ln _ _ = Some _ |- _ => rewrite Hy in Hb; injection Hb as <- <- end.
  match goal with Hx : _ /\ (_ < ex_Until _)%Z |- _ => destruct Hx end. pose proof (eo_from _ _ _ He n).
  eapply xm_row; [eassumption|]. apply xr_finish; [done|lia|done].
Qed.

Lemma abandon_moves reconciler q e d a d' n t t' : env_ok t t' e -> m_Mode (recoveryState (core d)) = mode_RecoveryReconciliation ->
  abandon ln reconciler q e d 0 = Ok (Commit a, d', n) -> exec_move t t' d (ln_rows ln d').
Proof.
  intros He Hm. unfold abandon, write_execution_row, appendAudit. intros Hc. tx; repeat match goal with
    | Hs : scan_execution _ _ _ _ _ = Ok _ |- _ => apply scan_execution_ok in Hs as (-> & -> & Hrow & _ & _) end; [apply xm_same|].
  rewrite Hset, Hjournal. destruct (ln_rows ln d !! xa_RunID q) as [y|] eqn:Hy; [|done]. cbn in Hrow. case_decide; [|done].
  injection Hrow as ->. eapply xm_row; [eassumption|].
  match goal with Hn : ~ (is_Some _ \/ _) |- _ => apply Decidable.not_or in Hn as [Hn1 Hn2] end.
  apply xr_abandon; [| |pose proof (eo_to _ _ _ He 0); lia|done|done].
  - destruct (decide (ex_State a1 = "AUTHORIZED")); [by left|]. destruct (decide (ex_State a1 = "UNKNOWN")); [by right|]. tauto.
  - by apply eq_None_not_Some.
Qed.

Lemma lane_busy_spec w d run x : lane_busy ln w d = false -> ln_rows ln d !! run = Some x -> ex_Worker x = w -> ex_State x <> Authorized.
Proof.
  intros Hb Hx Hw Hs. apply not_true_iff_false in Hb. apply Hb, existsb_exists. exists x. split.
  - apply list_elem_of_In, list_elem_of_fmap. exists (run, x). split; [done|]. by apply elem_of_map_to_list.
  - unfold authorized_worker. by rewrite Hw, Hs, !bool_decide_eq_true_2.
Qed.

Lemma preparation_ok i e d n p d' n' : preparation_of i e d n = Ok (p, d', n') ->
  d' = d /\ n' = n /\ exists pr, prepared d !! i = Some pr /\ pw_Receipt pr = p.
Proof. unfold preparation_of. intros Hp. tx. split_and!; [done..|]. eauto. Qed.

Lemma inbox_by_run_ok run d i b : inbox_by_run run d = Some (i, b) -> inbox d !! i = Some b /\ ib_RunID b = run.
Proof.
  unfold inbox_by_run. intros Hf%head_Some_elem_of. apply list_elem_of_filter in Hf as [Hi Hm]. cbn in Hi.
  split; [by apply elem_of_map_to_list in Hm | done].
Qed.

Lemma authorize_ok s run wp p digest ep ev e d n a d' n' : s <> "" ->
  authorize ln s run wp p digest ep check ev e d n = Ok (a, d', n') -> exists i profile prep,
  let tok := mkExecToken (tx_nonce e) run profile digest ep in
  let x := mkExecRow (xt_ID tok) i s tok p prep Authorized (tx_clock e (S n)) (tx_clock e (S (S n)) + ln_lease ln)%Z None None in
  ln_rows ln d !! run = None /\ (forall r y, ln_rows ln d !! r = Some y -> ex_ID y <> xt_ID tok)
  /\ grounded d run x /\ ln_rows ln d' = <[run := x]> (ln_rows ln d).
Proof.
  intros Hs. unfold authorize, insert_execution, write_execution_row. intros Hc. tx. reads. cbn in *.
  match goal with Hb : inbox_by_run _ _ = Some _ |- _ => apply inbox_by_run_ok in Hb as [Hi <-] end.
  match goal with Hq : preparation_of _ _ _ _ = Ok _ |- _ => apply preparation_ok in Hq as (-> & -> & pr & Hpr & <-) end.
  match goal with Ht : _ || _ = false |- _ => apply orb_false_iff in Ht as [Ht1 Ht2] end.
  apply bool_decide_eq_false in Ht1, Ht2. rewrite by_execution_journal in Ht2. rewrite Hjournal in Ht1.
  match goal with Hn : ~ (_ \/ _) |- _ => apply Decidable.not_or in Hn as [Ho%dec_stable [_ Hst%dec_stable]%Decidable.not_or] end.
  match goal with Hv : negb _ = false |- _ => apply negb_false_iff in Hv; rename Hv into Hver end.
  exists x, (ib_Profile x0), (pc_FactsDigest (pw_Receipt pr)). cbn. rewrite Hset, Hjournal.
  destruct (ib_Owner x0) as [w|] eqn:Ew; [|done]. cbn in Ho. subst w. split_and!; try done.
  - by apply eq_None_not_Some.
  - intros r y Hy. eapply by_execution_none; [|exact Hy]. by apply eq_None_not_Some.
  - exists x0, x1, x2, pr. cbn. split_and!; try done;
      [by match goal with Hx : check _ _ = Ok ?u |- _ => destruct u end | by apply is_ok_unit].
Qed.

Lemma authorize_moves s run wp p digest ep ev e d n a d' n' t t' : env_ok t t' e -> unoccupied s d -> s <> "" ->
  m_Mode (recoveryState (core d)) = mode_Normal -> ep = m_Epoch (recoveryState (core d)) -> ln_digest ln p = Ok digest ->
  authorize ln s run wp p digest ep check ev e d n = Ok (a, d', n') -> exec_move t t' d (ln_rows ln d').
Proof.
  intros He Hu Hs Hm Hep Hp Hc. destruct (authorize_ok _ _ _ _ _ _ _ _ _ _ _ _ _ Hs Hc) as (i & profile & prep & Hn & Hf & Hg & ->).
  pose proof (eo_from _ _ _ He (S n)). pose proof (eo_to _ _ _ He (S (S n))). pose proof (eo_order _ _ _ He (S n) (S (S n)) ltac:(lia)).
  pose proof (eo_short _ _ _ He (S n) (S (S n))).
  by apply (xm_authorize t t' d run s (mkExecToken (tx_nonce e) run profile digest ep) p prep i (tx_clock e (S n)) (tx_clock e (S (S n)))).
Qed.

End lane.

(** ** The invariant of a lane *)

Section lane_invariant.
Context {P R : Type} (ln : Lane P R) (check : Assignment -> P -> outcome unit) (sound : Db -> ExecRow P R -> R -> Prop).
Context (Hspan : (ln_lease ln + seconds 5 <= ln_total ln)%Z).

Record settled (T : time) (d : Db) (run : string) (x : ExecRow P R) : Prop := {
  st_state : ex_State x ∈ [Authorized; Finished; exec_Unknown; ExecutionAbandoned; Stopped];
  st_digest : ln_digest ln (ex_Profile x) = Ok (xt_ProfileDigest (ex_Token x));
  st_started : (ex_StartedAt x <= T)%Z;
  st_until : (ex_Until x <= T + ln_lease ln)%Z /\ (ex_Until x <= ex_StartedAt x + ln_total ln)%Z;
  st_receipt : match ex_Receipt x with Some r => ex_State x = Finished /\ sound d x r | None => ex_State x <> Finished end;
  st_abandoned : is_Some (ex_Reconciled x) <-> ex_State x = ExecutionAbandoned;
  st_grounded : grounded check d run x
}.
Record lane_ok (T : time) (d : Db) : Prop := {
  lo_keyed : keyed ln d;
  lo_rows run x : ln_rows ln d !! run = Some x -> settled T d run x
}.

(** What only later steps can do to a row. *)
Record same_execution (x x' : ExecRow P R) : Prop := {
  sx_same : ex_ID x' = ex_ID x /\ ex_InboxID x' = ex_InboxID x /\ ex_Worker x' = ex_Worker x /\ ex_Token x' = ex_Token x
            /\ ex_Profile x' = ex_Profile x /\ ex_Preparation x' = ex_Preparation x /\ ex_StartedAt x' = ex_StartedAt x;
  sx_state : ex_State x' = ex_State x \/ ex_State x = Authorized \/ (ex_State x = exec_Unknown /\ ex_State x' ∈ [ExecutionAbandoned; Stopped]);
  sx_final : ex_State x ∈ [Finished; ExecutionAbandoned; Stopped] -> x' = x
}.

Lemma exec_row_move_same t t' d run x x' : exec_row_move ln sound t t' d run x x' -> same_execution x x'.
Proof.
  clear Hspan. intros [base Hs _ _|r Hs _ _|Hs|a Hs Hr _ _ _|Hs _]; (split; cbn; [done| |]); try (intros Hf; rewrite Hs in Hf; set_solver); auto.
  - destruct Hs as [Hs|Hs]; [by right; left | right; right; split; [done | set_solver]].
  - intros Hf. destruct Hs as [Hs|Hs]; rewrite Hs in Hf; set_solver.
  - right; right. split; [done | set_solver].
Qed.
Lemma same_execution_trans x y z : same_execution x y -> same_execution y z -> same_execution x z.
Proof.
  clear Hspan ln. intros [Hs Hst Hf] [Hs' Hst' Hf']. split.
  - naive_solver congruence.
  - destruct Hst as [Hst|[Hst|[Hst Hst2]]]; [rewrite <- Hst; done | by right; left |].
    right; right. split; [done|]. rewrite (Hf'); [done | set_solver].
  - intros Hx. pose proof (Hf Hx) as ->. by apply Hf'.
Qed.

Lemma settled_later T T' d d' run x : (T <= T')%Z -> (grounded check d run x -> grounded check d' run x) ->
  (forall r, sound d x r -> sound d' x r) -> settled T d run x -> settled T' d' run x.
Proof.
  intros Ht Hg Hs [H1 H2 H3 [H4 H4'] H5 H6 H7]. split; try done; try lia; auto.
  destruct (ex_Receipt x); [|done]. destruct H5; auto.
Qed.
Lemma exec_row_move_settled t t' d run x x' : (t <= t')%Z -> settled t d run x -> exec_row_move ln sound t t' d run x x' ->
  (forall r, sound d x r -> sound d (finish_row r x) r) -> settled t' d run x'.
Proof.
  intros Ht [H1 H2 H3 [H4 H4'] H5 H6 H7] Hm Hsd.
  assert (ex_State x <> Finished -> ex_Receipt x = None) as Hnr by (intros; destruct (ex_Receipt x); [by destruct H5 | done]).
  destruct Hm as [base Hs Hl Hb|r Hs Hl Hr|Hs|a Hs Hr Hu _ _|Hs Hr]; split; cbn; try done; try lia; try set_solver.
  - rewrite Hnr by (rewrite Hs; done). by rewrite Hs.
  - split; [intros Hx%H6; rewrite Hs in Hx; done | done].
  - by rewrite Hnr by (rewrite Hs; done).
  - split; [intros Hx%H6; rewrite Hs in Hx; done | done].
  - by rewrite Hr.
  - by rewrite Hr.
  - split; [intros Hx%H6; rewrite Hs in Hx; done | done].
Qed.

Context (Hsound : forall d x r, sound d x r -> sound d (finish_row r x) r).

Lemma exec_move_ok t t' d d' : (t <= t')%Z -> (forall run (x : ExecRow P R), grounded check d run x -> grounded check d' run x) ->
  (forall x r, sound d x r -> sound d' x r) -> lane_ok t d -> exec_move ln check sound t t' d (ln_rows ln d') -> lane_ok t' d'.
Proof.
  intros Ht Hg Hs [[Hid Hu] Hrows] Hm.
  assert (forall run x, settled t d run x -> settled t' d' run x) as Hlater
    by (intros r y Hy; apply (settled_later t t' d d' r y); auto).
  remember (ln_rows ln d') as m' eqn:Em. destruct Hm as [|run w tok p prep i started now Hn Hfresh Huo Hrun Hdig Hmode Hep Hst Hnow x Hgr|run x x' Hx Hmv].
  - split; [split|]; rewrite <- Em; eauto.
  - split; [split|]; rewrite <- Em.
    + intros r y [[<- <-]|[_ Hy]]%lookup_insert_Some; [done | eauto].
    + intros r r' y y' [[<- <-]|[_ Hy]]%lookup_insert_Some [[<- <-]|[_ Hy']]%lookup_insert_Some He; [done| | |eauto].
      * symmetry in He. by destruct (Hfresh _ _ Hy').
      * by destruct (Hfresh _ _ Hy).
    + intros r y [[<- <-]|[_ Hy]]%lookup_insert_Some; [|eauto].
      unfold seconds in *. split; cbn; try done; try lia; try set_solver; eauto.
  - pose proof (exec_row_move_same _ _ _ _ _ _ Hmv) as [(Hi & _ & _ & Htk & _) _ _].
    split; [split|]; rewrite <- Em.
    + intros r y [[<- <-]|[_ Hy]]%lookup_insert_Some; [rewrite Hi, Htk; eauto | eauto].
    + intros r r' y y' [[<- <-]|[_ Hy]]%lookup_insert_Some [[<- <-]|[_ Hy']]%lookup_insert_Some; rewrite ?Hi; eauto.
    + intros r y [[<- <-]|[_ Hy]]%lookup_insert_Some; [|eauto].
      apply (settled_later t' t' d d'); [lia|eauto..|]. eapply exec_row_move_settled; eauto.
Qed.

(** A row that is there stays there, as the same execution. *)
Lemma exec_move_row t t' d d' run x : ln_rows ln d !! run = Some x -> exec_move ln check sound t t' d (ln_rows ln d') ->
  exists x', ln_rows ln d' !! run = Some x' /\ same_execution x x'.
Proof.
  intros Hx Hm. remember (ln_rows ln d') as m' eqn:Em.
  assert (same_execution x x) as Hrefl by (split; [done | by left | done]).
  destruct Hm as [|run' w tok p prep i started now Hn Hfresh Huo Hrun Hdig Hmode Hep Hst Hnow y Hgr|run' y y' Hy Hmv].
  - by exists x.
  - rewrite lookup_insert_ne by congruence. by exists x.
  - destruct (decide (run' = run)) as [->|Hne]; [|rewrite lookup_insert_ne by done; by exists x].
    rewrite lookup_insert_eq. simplify_eq. exists y'. split; [done|]. by eapply exec_row_move_same.
Qed.

(** ** Who is authorised *)

Definition authorised (d : Db) (run w : string) : Prop :=
  exists x, ln_rows ln d !! run = Some x /\ ex_Worker x = w /\ ex_State x = Authorized.
Lemma exec_move_authorised t t' d d' : exec_move ln check sound t t' d (ln_rows ln d') ->
  (forall run w, authorised d' run w -> authorised d run w)
  \/ exists run0 w0, unoccupied w0 d /\ forall run w, authorised d' run w -> authorised d run w \/ (run = run0 /\ w = w0).
Proof.
  unfold authorised. intros Hm. remember (ln_rows ln d') as m' eqn:Em.
  destruct Hm as [|run' w' tok p prep i started now Hn Hfresh Huo Hrun Hdig Hmode Hep Hst Hnow y Hgr|run' y y' Hy Hmv].
  - by left.
  - right. exists run', w'. split; [done|]. intros run w (x & [[<- <-]|[_ Hx]]%lookup_insert_Some & Hw & Hs); [by right|]. left. eauto.
  - left. intros run w (x & [[<- <-]|[_ Hx]]%lookup_insert_Some & Hw & Hs); [|eauto].
    destruct Hmv; cbn in *; try done; eauto.
Qed.
Lemma unoccupied_authorised d run w : lane_busy ln w d = false -> ~ authorised d run w.
Proof. intros Hb (x & Hx & Hw & Hs). by eapply (lane_busy_spec ln). Qed.

End lane_invariant.

(** ** The offline lane *)

Definition offline_sound (d : Db) (x : ExecRow OfflineProfile OfflineReceipt) (r : OfflineReceipt) : Prop :=
  orc_Kind r = offline_Kind /\ orc_Token r = ex_Token x /\ orc_Worker r = ex_Worker x /\ orc_PreparationDigest r = ex_Preparation x
  /\ OfflineResult_Validate (orc_Result r) (ex_Profile x) = Ok tt
  /\ Digest (OfflineResult_json (orc_Result r)) = Ok (orc_ResultDigest r).
Definition offline_move := exec_move offline_lane offline_CheckAssignment offline_sound.

Lemma start_offline_moves s q e d a d' n t t' : env_ok t t' e -> migrations_ok e d ->
  StartOffline s q e d 0 = Ok (Commit a, d', n) -> offline_move t t' d (offline_rows d').
Proof.
  intros He Hmig. unfold StartOffline, lane_schema. intros Hc. tx.
  match goal with Hp : lockWorkerPlatform _ _ _ = Ok _ |- _ => apply platform_ok in Hp as (-> & -> & [= -> ->]) end. passed.
  eapply (authorize_moves offline_lane); [done..| | | | |reflexivity| |done]; try done.
  split; [done|]. destruct (decide (codex_rows d = ∅)) as [He0|He0].
  - unfold lane_busy. cbn. rewrite He0. by rewrite map_to_list_empty.
  - rewrite (Hmig He0) in *. done.
Qed.

Lemma finish_offline_moves s q e d a d' n t t' : env_ok t t' e -> keyed offline_lane d ->
  FinishOffline s q e d 0 = Ok (Commit a, d', n) -> offline_move t t' d (offline_rows d').
Proof.
  intros He Hk. unfold FinishOffline. intros Hc. tx.
  repeat match goal with
    | p : (_ * _)%type |- _ => destruct p
    | Hl : lock_execution _ _ _ _ _ _ _ = Ok _ |- _ => apply (lock_execution_ok offline_lane _ _ _ _ _ _ _ _ _ _ Hk) in Hl; destruct Hl as (-> & ? & ? & ? & ? & ? & ?)
    end.
  match goal with Ha : workerAudit _ _ _ _ _ _ = Ok _ |- _ => apply audit_effect in Ha as (x & -> & -> & _) end. simplify_eq.
  eapply (finish_execution_moves offline_lane); [done..|exact Hk|exact He| |eassumption|done| |eassumption]; [done|].
  split_and!; try done. by apply is_ok_unit, negb_false_iff.
Qed.

Lemma abandon_mode r q e d a d' n : ReconcileExecutionAbandoned r q e d 0 = Ok (Commit a, d', n) ->
  m_Mode (recoveryState (core d)) = mode_RecoveryReconciliation
  /\ (abandon offline_lane r q e d 0 = Ok (Commit a, d', n) \/ abandon codex_lane r q e d 0 = Ok (Commit a, d', n)).
Proof. unfold ReconcileExecutionAbandoned. intros Hc. tx; passed; split; auto. Qed.
#[local] Instance abandon_codex_keeps r q : Keeps offline_rows (abandon codex_lane r q).
Proof. unfold abandon. keep_writes. Qed.
#[local] Instance abandon_offline_keeps r q : Keeps codex_rows (abandon offline_lane r q).
Proof. unfold abandon. keep_writes. Qed.

Lemma offline_effect c e d d' n t t' : env_ok t t' e -> migrations_ok e d -> keyed offline_lane d ->
  wcall_txn c e d 0 = Ok (Commit tt, d', n) -> offline_move t t' d (offline_rows d').
Proof.
  intros He Hm Hk Hc. destruct (writes_offline c) eqn:Hw; [|rewrite (keeps_offline c Hw _ _ _ _ _ _ Hc); apply xm_same].
  destruct c; try done; cbn [wcall_txn] in Hc; try (apply forget_commit in Hc as [a Hc]).
  - by eapply start_offline_moves.
  - by eapply (renew_execution_moves offline_lane).
  - by eapply finish_offline_moves.
  - by eapply (fail_execution_moves offline_lane).
  - apply abandon_mode in Hc as [Hmode [Hc|Hc]]; [by eapply (abandon_moves offline_lane)|].
    rewrite (abandon_codex_keeps _ _ _ _ _ _ _ _ Hc). apply xm_same.
Qed.

(** ** The Codex lane *)

(** The sealed transcript the worker's result names: of this execution's turn
    and process tree, every command accepted. *)
Definition sealed_for (d : Db) (x : ExecRow CodexProfile CodexReceipt) (y : CodexReceipt) : Prop := exists b tr digest,
  runtimes d !! ex_ID x = Some (mkRuntimeRow b "SEALED" (Some tr) (Some digest))
  /\ ControlTranscript_Digest tr = Ok digest /\ cc_Binding (ct_Close tr) = b /\ is_ok (ControlBinding_Validate b) = true
  /\ AllowsDelivery tr = true /\ let c := xr_Codex (xc_Result y) in
     xr_ControlTranscriptDigest (xc_Result y) = digest /\ cc_ProcessScope (ct_Close tr) = er_ProcessScope c
     /\ cb_ThreadID b = er_ThreadID c /\ cb_TurnID b = er_TurnID c.
Definition codex_sound (d : Db) (x : ExecRow CodexProfile CodexReceipt) (y : CodexReceipt) : Prop :=
  xc_Token y = ex_Token x /\ ExecToken_Valid (ex_Token x) = true /\ xc_Worker y = ex_Worker x
  /\ (exists a prep u, CodexReceipt_Verify y (ex_Worker x) (mkCodexPermit (ex_Token x) a prep (ex_Profile x) u) (xc_Result y) = Ok tt)
  /\ sealed_for d x y.
Definition codex_move := exec_move codex_lane codex_CheckAssignment codex_sound.

Lemma start_codex_moves s q e d a d' n t t' : env_ok t t' e ->
  StartCodex s q e d 0 = Ok (Commit a, d', n) -> codex_move t t' d (codex_rows d').
Proof.
  intros He. unfold StartCodex, lane_schema. intros Hc. tx.
  match goal with Hp : lockWorkerPlatform _ _ _ = Ok _ |- _ => apply platform_ok in Hp as (-> & -> & [= -> ->]) end. passed.
  match goal with Hb : _ || _ = false |- _ => apply orb_false_iff in Hb as [? ?] end.
  by eapply (authorize_moves codex_lane).
Qed.

Lemma controlRuntime_ok r e d n x d' n' : controlRuntime r e d n = Ok (x, d', n') ->
  d' = d /\ n' = n /\ exists row, r = Some row /\ is_ok (ControlBinding_Validate (ru_Binding row)) = true /\
  ((row = mkRuntimeRow (ru_Binding row) "ACTIVE" None None /\ x = mkRuntime (ru_Binding row) "ACTIVE" None "")
   \/ exists tr digest, row = mkRuntimeRow (ru_Binding row) "SEALED" (Some tr) (Some digest) /\ ControlTranscript_Digest tr = Ok digest
      /\ cc_Binding (ct_Close tr) = ru_Binding row /\ x = mkRuntime (ru_Binding row) "SEALED" (Some tr) digest).
Proof.
  unfold controlRuntime. intros Hc. tx; passed; (split; [done|]; split; [done|]; exists a; split; [done|]; split; [done|]).
  - right. exists c, s. destruct a as [b st tr dg]; cbn in *. subst. done.
  - left. destruct a as [b st tr dg]; cbn in *. subst.
    match goal with H1 : ~ is_Some tr, H2 : ~ is_Some dg |- _ => apply eq_None_not_Some in H1 as ->; apply eq_None_not_Some in H2 as -> end.
    done.
Qed.

Lemma finish_codex_moves s q e d a d' n t t' : env_ok t t' e -> keyed codex_lane d ->
  FinishCodex s q e d 0 = Ok (Commit a, d', n) -> codex_move t t' d (codex_rows d').
Proof.
  intros He Hk. unfold FinishCodex. intros Hc. tx. reads.
  repeat match goal with
    | p : (_ * _)%type |- _ => destruct p
    | Hl : lock_execution _ _ _ _ _ _ _ = Ok _ |- _ => apply (lock_execution_ok codex_lane _ _ _ _ _ _ _ _ _ _ Hk) in Hl; destruct Hl as (-> & ? & ? & ? & ? & ? & ?)
    | Hq : preparation_of _ _ _ _ = Ok _ |- _ => apply preparation_ok in Hq; destruct Hq as (-> & -> & ? & ? & <-)
    | Hq : controlRuntime _ _ _ _ = Ok _ |- _ => apply controlRuntime_ok in Hq; destruct Hq as (-> & -> & ? & ? & ? & Hrt)
    end.
  match goal with Hv : CodexReceipt_Verify _ _ _ _ = Ok ?u |- _ => destruct u; rename Hv into Hver end.
  destruct Hrt as [[_ ->]|(tr & digest & Hrow & Hd & Hb & ->)]; [done|]. cbn in *.
  match goal with Ht : Some tr = Some _ |- _ => injection Ht as <- end. passed. simplify_eq.
  eapply (finish_execution_moves codex_lane); [done..|exact Hk|exact He| |eassumption|done| |eassumption]; [done|].
  unfold codex_sound. cbn. split_and!; try done.
  - match goal with Ht : ex_Token _ = xo_Token q |- _ => by rewrite Ht end.
  - eexists _, _, _. exact Hver.
  - match goal with Hx : codex_rows d !! _ = Some ?x |- _ => destruct (ky_id _ _ Hk _ _ Hx) as [Hid _] end.
    exists (ru_Binding x4), tr, (xr_ControlTranscriptDigest (xo_Result q)). split; [|split_and!; done].
    match goal with Ht : ex_Token _ = xo_Token q, Hr : runtimes d !! _ = Some _ |- _ => rewrite Hid, Ht, Hr end. f_equal. exact Hrow.
Qed.

(** ** The end of a stopped run *)

(** What [stopped_run] read of the run it ends. *)
Record stoppable (actor : string) (q : ContinueRequest) (epoch : N) (bx : inboxRecord) (d : Db) (st : Stop) : Prop := {
  sp_run : runs (core d) !! cq_SourceRunID q = Some (st_run st) /\ r_State (st_run st) = "RUNNING" /\ r_ControlOwner (st_run st) = "RUNTIME"
    /\ r_Version (st_run st) = cq_ExpectedRunVersion q /\ r_CurrentEpoch (st_run st) = cq_ExecutionEpoch q;
  sp_session : sessions (core d) !! cq_SourceRunID q = Some (st_session st) /\ s_ExecutionEpoch (st_session st) = r_CurrentEpoch (st_run st)
    /\ s_Owner (st_session st) = "RUNTIME" /\ s_Paused (st_session st) = false;
  sp_execution : codex_rows d !! cq_SourceRunID q = Some (st_execution st) /\ ex_State (st_execution st) = exec_Unknown
    /\ ex_Receipt (st_execution st) = None /\ ex_Worker (st_execution st) = bx_owner bx /\ xt_RecoveryEpoch (ex_Token (st_execution st)) = epoch;
  sp_controls : exists b tr dg, runtimes d !! xt_ID (ex_Token (st_execution st)) = Some (mkRuntimeRow b "SEALED" (Some tr) (Some dg))
    /\ ControlTranscript_Digest tr = Ok dg /\ cc_Binding (ct_Close tr) = b /\ Continuable tr = true
    /\ cb_Token b = ex_Token (st_execution st) /\ cb_ExecutionEpoch b = r_CurrentEpoch (st_run st)
    /\ so_Binding (st_checkpoint st) = b /\ so_TranscriptDigest (st_checkpoint st) = dg;
  sp_checkpoint : (exists dg, snapshots d !! xt_ID (ex_Token (st_execution st)) = Some (st_checkpoint st, dg))
    /\ SourceCheckpoint_Digest (st_checkpoint st) = Ok (cq_CheckpointDigest q)
    /\ so_TaskDigest (st_checkpoint st) = r_TaskContractDigest (st_run st)
    /\ so_InputDigest (st_checkpoint st) = r_RunInputManifestDigest (st_run st);
  sp_work : works (core d) !! tc_WorkItemID (as_Task (st_assignment st)) = Some (st_work st)
    /\ wi_Version (st_work st) = cq_ExpectedWorkVersion q /\ wi_State (st_work st) = WorkExecuting /\ wi_HumanOwner (st_work st) = actor
    /\ wi_ActiveRunID (st_work st) = cq_SourceRunID q;
  sp_assignment : input_and_task (r_RunInputManifestDigest (st_run st)) (bx_runID bx) d = Some (as_Input (st_assignment st), as_Task (st_assignment st))
}.

Lemma checkpointRow_ok r e d n x d' n' : checkpointRow r e d n = Ok (Some x, d', n') -> d' = d /\ n' = n /\ exists dg, r = Some (x, dg).
Proof. unfold checkpointRow. intros Hc. destruct r as [[c dg]|]; tx; passed; simplify_eq; eauto. Qed.

Lemma stopped_ok actor q epoch bx e d n st d' n' : stopped_run actor q epoch bx e d n = Ok (st, d', n') ->
  d' = d /\ n' = n /\ stoppable actor q epoch bx d st.
Proof.
  unfold stopped_run. intros Hc. tx. passed.
  match goal with Hs : scan_execution _ _ _ _ _ = Ok _ |- _ => apply scan_execution_ok in Hs as (-> & -> & Hx & _ & _) end.
  match goal with Hr : controlRuntime _ _ _ _ = Ok _ |- _ => apply controlRuntime_ok in Hr as (-> & -> & ru & Hru & _ & Hst) end.
  match goal with Hk : checkpointRow _ _ _ _ = Ok _ |- _ => apply checkpointRow_ok in Hk as (-> & -> & dg & Hsnap) end.
  match goal with Hl : loadWorkerAssignment _ _ _ _ = Ok _ |- _ => apply load_ok in Hl as (-> & -> & m & k & v & Hit & _ & -> & _) end.
  destruct Hst as [[_ ->]|(tr & digest & Hrow & Hd & Hb & ->)]; [done|]. cbn in *. subst. split; [done|]. split; [done|].
  split; cbn; try done.
  - exists (so_Binding s), tr, (so_TranscriptDigest s). rewrite Hru, Hrow. split_and!; congruence.
  - split_and!; [by eexists|done..].
  - by match goal with Hi : r_RunInputManifestDigest _ = _ |- _ => rewrite Hi end.
Qed.


(** The rows [insertExecution] adds. *)
Definition executed (r : Run) (a : Attempt) (s : Session) (i : RunInputManifest) (dg : string) (m : Memory) : Memory :=
  set_sessions (<[s_RunID s := s]> (sessions m))
    (set_attempts (<[r_ID r := <[at_ID a := mkAttempt (at_ID a) (at_Epoch a) (micro (at_StartedAt a)) zero_time]>
                                (default ∅ (attempts m !! r_ID r))]> (attempts m))
      (set_runs (<[r_ID r := r]> (runs m)) (set_runInputs (<[dg := i]> (runInputs m)) m))).
Lemma executed_ok r a s i e d n u d' n' : insertExecution r a s i e d n = Ok (u, d', n') -> n' = n /\ exists dg,
  RunInputManifest_Digest i = Ok dg /\ runs (core d) !! r_ID r = None /\ sessions (core d) !! s_RunID s = None /\ runInputs (core d) !! dg = None
  /\ d' = set_core (executed r a s i dg (core d)) d.
Proof.
  unfold insertExecution, insert_input, insert_run, insert_attempt, insert_session, write_core. intros Hi. tx. cbn in *.
  repeat match goal with E : _ /\ _ |- _ => destruct E end. split; [done|]. eexists. by split_and!.
Qed.

Lemma readContinuation_none o e d n x : readContinuation o e d n = Err x -> errors_is x ErrNotFound = true -> o = None.
Proof.
  destruct o as [c|]; [|done]. unfold readContinuation, row, mbind, txn_bind, map_error, of_outcome, of_option. cbn.
  case_match; unfold refuse; intros [= <-]; vm_compute; discriminate.
Qed.

(** What a continuation leaves behind. *)
Definition continued_db (q : ContinueRequest) (st : Stop) (c : ContinuationReceipt) (dg : string) (now : time) (key : Z) (o : OutboxRow)
    (ev : Event) (d : Db) : Db :=
  set_outbox (<[key := o]> (outbox d)) (set_journal (journal d ++ [ev]) (set_continued (<[cq_SourceRunID q := c]> (continued d))
    (ln_set codex_lane (<[cq_SourceRunID q := set_ex_State Stopped (st_execution st)]> (codex_rows d))
      (set_core (redirect_work (tc_WorkItemID (as_Task (st_assignment st))) (cq_RunID q)
        (end_source (cq_SourceRunID q) now (executed (cn_Run c) (cn_Attempt c) (cn_Session c) (cn_Input c) dg (core d)))) d)))).

Lemma by_execution_codex i d d' : codex_rows d' = codex_rows d -> by_execution codex_lane i d' = by_execution codex_lane i d.
Proof. unfold by_execution. cbn. by intros ->. Qed.
Lemma successor_request actor q st now c : successor actor q st now = Ok c -> cn_Request c = q.
Proof. unfold successor. intros Hs. ok_inv. done. Qed.

Lemma continue_ok f actor q e d c d' n : keyed codex_lane d -> ContinueCodex f actor q e d 0 = Ok (Commit c, d', n) ->
  exists i b st now dg risk ev,
  let bx := mkInboxRecord i (ib_RunID b) (ib_State b) (default "" (ib_Owner b)) (ib_IntentDigest b) (ib_Profile b)
      (ib_Generation b) (default 0%N (ib_RecoveryEpoch b)) (ib_Intent b) (ib_Receipt b) in
  ContinueRequest_Validate q = Ok tt /\ m_Mode (recoveryState (core d)) = mode_Normal /\ m_Epoch (recoveryState (core d)) = cq_RecoveryEpoch q
  /\ inbox_by_run (cq_SourceRunID q) d = Some (i, b) /\ continued d !! cq_SourceRunID q = None
  /\ stoppable actor q (cq_RecoveryEpoch q) bx d st /\ unresolved (cq_SourceRunID q) d = false
  /\ now = tx_clock e 1 /\ successor actor q st now = Ok c
  /\ RunInputManifest_Digest (cn_Input c) = Ok dg /\ runs (core d) !! r_ID (cn_Run c) = None /\ runInputs (core d) !! dg = None
  /\ (forall k o, continued d !! k = Some o -> r_ID (cn_Run o) <> cq_RunID q)
  /\ (forall k o, outbox d !! k = Some o -> ob_Key o <> "run:" +:+ cq_RunID q +:+ ":started")
  /\ (exists audit k, auditInput "run.source-continuation-authorized" "Run" (cq_SourceRunID q) (ContinuationReceipt_json c) = Ok audit
       /\ Build (u64_succ (head_of (journal d)).1) (head_of (journal d)).2 audit (tx_clock e k) = Ok ev)
  /\ d' = continued_db q st c dg now f (new_message risk (tx_clock e 0) (run_intent_message (mkIntent (cq_RunID q) (r_TaskContractDigest (st_run st))
        (r_RunInputManifestDigest (cn_Run c)) 1))) ev d.
Proof.
  intros Hk. unfold ContinueCodex, continue_run, stop_source, insert_continuation, write_core, write_execution_row. intros Hc. tx.
  all: match goal with Ha : workerAudit _ _ _ _ _ _ = Ok _ |- _ => apply audit_effect in Ha as (ev & -> & -> & audit & Haudit & Hbuild) end.
  all: match goal with Hp : lockWorkerPlatform _ _ _ = Ok _ |- _ => apply platform_ok in Hp as (-> & -> & [= -> ->]) end; reads; passed.
  all: match goal with Hs : stopped_run _ _ _ _ _ _ _ = Ok _ |- _ => apply stopped_ok in Hs as (-> & -> & Hst) end.
  all: match goal with Hi : insertExecution _ _ _ _ _ _ _ = Ok _ |- _ => apply executed_ok in Hi as (-> & dg & Hdg & Hnr & _ & Hni & ->) end.
  all: destruct (sp_execution _ _ _ _ _ _ Hst) as (Hx & _);
    match goal with Hb : by_execution _ _ _ = _ |- _ => rewrite (by_execution_codex _ d) in Hb by reflexivity; rewrite (by_execution_key codex_lane _ _ _ Hk Hx) in Hb end; simplify_eq.
  match goal with Hs : successor _ _ _ _ = Ok _ |- _ => pose proof (successor_request _ _ _ _ _ Hs) as Hq; rewrite Hq in * end.
  match goal with Ho : insertOutbox _ _ _ _ _ _ = Ok _ |- _ => apply insertOutbox_ok in Ho as (risk & _ & Hkey & _ & _ & _ & ->) end.
  match goal with Hc : _ || _ = false |- _ => apply orb_false_iff in Hc as [_ Hfree] end. cbn in Hkey, Hfree.
  match goal with Hr : (_ ≫= _) _ _ _ = Err _ |- _ => unfold mbind, txn_bind, gets in Hr; apply readContinuation_none in Hr; [|done] end.
  exists x, x0, a1, (tx_clock e 1), dg, risk, ev. cbn in *. split_and!; try done.
  - by apply is_ok_unit.
  - by match goal with He : m_Epoch _ = _ |- _ => rewrite <- He end.
  - intros k o Ho He. apply not_true_iff_false in Hfree. apply Hfree, existsb_exists. exists o. split; [|by apply bool_decide_eq_true].
    apply list_elem_of_In, list_elem_of_fmap. exists (k, o). split; [done|]. by apply elem_of_map_to_list.
  - by eexists _, _.
Qed.

Lemma continue_moves f actor q e d a d' n t t' : keyed codex_lane d -> ContinueCodex f actor q e d 0 = Ok (Commit a, d', n) ->
  codex_move t t' d (codex_rows d').
Proof.
  intros Hk (i & b & st & now & dg & risk & ev & _ & _ & _ & _ & _ & Hst & _ & _ & _ & _ & _ & _ & _ & _ & _ & ->)%(continue_ok _ _ _ _ _ _ _ _ Hk).
  destruct (sp_execution _ _ _ _ _ _ Hst) as (Hx & Hs & Hr & _). cbn. apply (xm_row codex_lane _ _ t t' d _ _ _ Hx). by apply xr_stop.
Qed.

Lemma codex_effect c e d d' n t t' : env_ok t t' e -> keyed codex_lane d ->
  wcall_txn c e d 0 = Ok (Commit tt, d', n) -> codex_move t t' d (codex_rows d').
Proof.
  intros He Hk Hc. destruct (writes_codex c) eqn:Hw; [|rewrite (keeps_codex c Hw _ _ _ _ _ _ Hc); apply xm_same].
  destruct c; try done; cbn [wcall_txn] in Hc; try (apply forget_commit in Hc as [a Hc]).
  - by eapply start_codex_moves.
  - by eapply (renew_execution_moves codex_lane).
  - by eapply finish_codex_moves.
  - by eapply (fail_execution_moves codex_lane).
  - apply abandon_mode in Hc as [Hmode [Hc|Hc]]; [|by eapply (abandon_moves codex_lane)].
    rewrite (abandon_offline_keeps _ _ _ _ _ _ _ _ Hc). apply xm_same.
  - by eapply continue_moves.
Qed.

(** ** Runtimes and preparations *)

Inductive runtime_move (d : Db) : gmap string RuntimeRow -> Prop :=
| rt_same : runtime_move d (runtimes d)
| rt_bind b x : runtimes d !! xt_ID (cb_Token b) = None -> is_ok (ControlBinding_Validate b) = true ->
    codex_rows d !! xt_RunID (cb_Token b) = Some x -> ex_Token x = cb_Token b ->
    runtime_move d (<[xt_ID (cb_Token b) := mkRuntimeRow b "ACTIVE" None None]> (runtimes d))
| rt_seal b tr digest : runtimes d !! xt_ID (cb_Token b) = Some (mkRuntimeRow b "ACTIVE" None None) ->
    ControlTranscript_Digest tr = Ok digest -> cc_Binding (ct_Close tr) = b ->
    runtime_move d (<[xt_ID (cb_Token b) := mkRuntimeRow b "SEALED" (Some tr) (Some digest)]> (runtimes d)).

Definition writes_runtimes (c : wcall) : bool := match c with CallBind _ _ | CallClose _ _ => true | _ => false end.
Lemma keeps_runtimes c : writes_runtimes c = false -> Keeps runtimes (wcall_txn c).
Proof. frame c. Qed.

Lemma controlRuntime_absent r e d n x : controlRuntime r e d n = Err x -> errors_is x ErrNotFound = true -> r = None.
Proof.
  destruct r as [b|]; [|done]. unfold controlRuntime, row, mbind, txn_bind, map_error, of_outcome, of_option. cbn.
  repeat case_match; unfold refuse; intros [= <-]; intros Hx; vm_compute in Hx; discriminate.
Qed.

Lemma bind_moves s b e d a d' n : keyed codex_lane d -> BindCodexControl s b e d 0 = Ok (Commit a, d', n) -> runtime_move d (runtimes d').
Proof.
  intros Hk. unfold BindCodexControl, write_runtime. intros Hc. tx.
  match goal with Hl : lock_execution _ _ _ _ _ _ _ = Ok _ |- _ =>
    apply (lock_execution_ok codex_lane _ _ _ _ _ _ _ _ _ _ Hk) in Hl as (-> & _ & _ & Hx & Ht & _) end. reads.
  eapply rt_bind; [| |exact Hx|exact Ht]; [|by apply negb_false_iff].
  match goal with Hx : _ = Err ?x, He : negb (errors_is ?x _) = false |- _ =>
    apply negb_false_iff in He; unfold mbind, txn_bind, gets in Hx; by apply controlRuntime_absent in Hx end.
Qed.

Lemma settle_runtimes ts l e d n u d' n' : settle_all ts l e d n = Ok (u, d', n') -> runtimes d' = runtimes d.
Proof. apply (keeps_settle_all runtimes). intros r. unfold write_control. keep. Qed.

Lemma close_moves s c e d a d' n : CloseCodexControl s c e d 0 = Ok (Commit a, d', n) -> runtime_move d (runtimes d').
Proof.
  unfold CloseCodexControl, lockControlRuntime. intros Hc. tx.
  match goal with Hl : lock_execution _ _ _ _ _ _ _ = Ok _ |- _ => apply unchanged in Hl as ->; [|apply _] end.
  match goal with Hq : controlRuntime _ _ _ _ = Ok _ |- _ => apply controlRuntime_ok in Hq as (-> & -> & row & Hrow & Hv & Hrt) end.
  destruct Hrt as [[Hr ->]|(tr & digest & _ & _ & _ & ->)]; [|done]. passed. cbn in *.
  match goal with Hl : settle_all _ _ _ _ _ = Ok _ |- _ => apply settle_runtimes in Hl as Hs end.
  match goal with Hl : scan_all _ _ _ _ = Ok _ |- _ => apply unchanged in Hl as ->; [|apply _] end.
  match goal with Ha : workerAudit _ _ _ _ _ _ = Ok _ |- _ => apply audit_effect in Ha as (ev & -> & _) end.
  match goal with Hb : ru_Binding row = cc_Binding c |- _ => rewrite Hb in * end.
  rewrite Hs, Hrow. cbn. rewrite Hr. cbn. apply rt_seal; [by rewrite Hrow, Hr|done|done].
Qed.

Lemma runtime_effect c e d d' n : keyed codex_lane d -> wcall_txn c e d 0 = Ok (Commit tt, d', n) -> runtime_move d (runtimes d').
Proof.
  intros Hk Hc. destruct (writes_runtimes c) eqn:Hw; [|rewrite (keeps_runtimes c Hw _ _ _ _ _ _ Hc); apply rt_same].
  destruct c; try done; cbn [wcall_txn] in Hc; try (apply forget_commit in Hc as [a Hc]); eauto using bind_moves, close_moves.
Qed.

(** A sealed runtime stays as it is; so does a preparation. *)
Lemma sealed_stays c e d d' n i b tr digest : keyed codex_lane d -> wcall_txn c e d 0 = Ok (Commit tt, d', n) ->
  runtimes d !! i = Some (mkRuntimeRow b "SEALED" tr digest) -> runtimes d' !! i = runtimes d !! i.
Proof.
  intros Hk Hc Hi. destruct (runtime_effect _ _ _ _ _ Hk Hc) as [|b' x Hn _ _ _|b' tr' digest' Hb _ _]; [done|..];
    rewrite lookup_insert_ne; [done| |done|]; intros He; rewrite <- He in Hi; congruence.
Qed.

Lemma prepared_stays c e d d' n i p : wcall_txn c e d 0 = Ok (Commit tt, d', n) -> prepared d !! i = Some p -> prepared d' !! i = Some p.
Proof.
  intros Hc Hi. destruct (writes_prepared c) eqn:Hw; [|by rewrite (keeps_prepared c Hw _ _ _ _ _ _ Hc)].
  destruct c; try done. cbn [wcall_txn] in Hc. apply forget_commit in Hc as [a Hc].
  unfold ReportPrepared, insert_preparation, validate_row, write_inbox in Hc. tx. reads. cbn in *.
  match goal with Ht : _ || _ = false |- _ => apply orb_false_iff in Ht as [Hfree%bool_decide_eq_false _] end.
  rewrite lookup_insert_ne; [done|]. intros He. rewrite He, Hi in Hfree. apply Hfree. by eexists.
Qed.

End executions.
