(* ===== verification/Lanes.v ===== *)
(** Every reachable state of the worker side keeps its executions: in one lane
    per run, one at a time per worker, each resting on an admitted input,
    settled once, and finished only with a sealed transcript. *)
From S2P Require Import Prelude Canonical Json Core Run Session Recovery Verification Action Store Binding Journal WorkerQueue Preparation Control Sandbox Offline Codex Db WorkerStore ExecStore ControlStore Txn Workers TurnDemo Leases Executions.

Section lanes.
Context `{Hash}.

Lemma offline_span : (ln_lease offline_lane + seconds 5 <= ln_total offline_lane)%Z.
Proof. done. Qed.
Lemma codex_span : (ln_lease codex_lane + seconds 5 <= ln_total codex_lane)%Z.
Proof. done. Qed.
Definition offline_ok := lane_ok offline_lane offline_CheckAssignment offline_sound.
Definition codex_ok := lane_ok codex_lane codex_CheckAssignment codex_sound.

(** ** What executions rest on stays *)

Lemma wstep_prepared s s' i p : wstep s s' -> prepared s.2 !! i = Some p -> prepared s'.2 !! i = Some p.
Proof. intros Hst. destruct Hst as [t t' c e d d' n _ _ Hc|t t' m j o d _ _ _ _]; cbn [snd]; [by eapply prepared_stays | done]. Qed.

Lemma grounded_stays {P R} (check : Assignment -> P -> outcome unit) s s' run (x : ExecRow P R) : wreachable s -> wstep s s' ->
  grounded check s.2 run x -> grounded check s'.2 run x.
Proof.
  intros Hr Hst (b & m & k & pr & Hb & Hrun & Hv & Ho & Hi & Hc & Hp & Hver & Hd & Hwp).
  destruct (inbox_advances s s' _ b Hr (rtc_once _ _ Hst) Hb) as (b' & Hb' & Had).
  assert (b' = b) as -> by (apply (ad_final _ _ _ _ Had); rewrite Hv; set_solver).
  exists b, m, k, pr. split_and!; try done; [by eapply wstep_documents | by eapply wstep_prepared].
Qed.

Lemma wstep_sealed s s' i b tr dg : keyed codex_lane s.2 -> wstep s s' ->
  runtimes s.2 !! i = Some (mkRuntimeRow b "SEALED" tr dg) -> runtimes s'.2 !! i = Some (mkRuntimeRow b "SEALED" tr dg).
Proof.
  intros Hk Hst Hi. destruct Hst as [t t' c e d d' n _ _ Hc|t t' m j o d _ _ _ _]; cbn [snd] in *; [|done].
  by rewrite (sealed_stays _ _ _ _ _ _ _ _ _ Hk Hc Hi).
Qed.
Lemma codex_sound_stays s s' x r : keyed codex_lane s.2 -> wstep s s' -> codex_sound s.2 x r -> codex_sound s'.2 x r.
Proof.
  intros Hk Hst (Ht & Hv & Hw & Hr & b & tr & dg & Hi & Hrest). split_and!; [done..|]. exists b, tr, dg.
  split; [|done]. by eapply wstep_sealed.
Qed.

Lemma lanes_step s s' : wreachable s -> offline_ok s.1 s.2 /\ codex_ok s.1 s.2 -> wstep s s' -> offline_ok s'.1 s'.2 /\ codex_ok s'.1 s'.2.
Proof.
  intros Hr [Ho Hc] Hst. pose proof (wstep_time _ _ Hst) as Ht. split.
  - eapply (exec_move_ok offline_lane); [exact offline_span|done|exact Ht| |done|exact Ho|].
    { intros run x. by apply grounded_stays. }
    destruct Hst as [t t' c e d d' n He Hm Hcall|t t' m j o d _ _ _ _]; cbn [fst snd] in *; [|exact (xm_same _ _ _ _ _ d)].
    by eapply offline_effect; [| |apply lo_keyed in Ho|].
  - eapply (exec_move_ok codex_lane); [exact codex_span|done|exact Ht| | |exact Hc|].
    { intros run x. by apply grounded_stays. }
    { intros x r. apply codex_sound_stays; [apply (lo_keyed _ _ _ _ _ Hc) | done]. }
    destruct Hst as [t t' c e d d' n He Hm Hcall|t t' m j o d _ _ _ _]; cbn [fst snd] in *; [|exact (xm_same _ _ _ _ _ d)].
    eapply codex_effect; [done|apply (lo_keyed _ _ _ _ _ Hc)|done].
Qed.

Lemma lanes_reachable s : wreachable s -> offline_ok s.1 s.2 /\ codex_ok s.1 s.2.
Proof.
  revert s. apply wreachable_ind; [|intros s s' Hr Hok Hst; by eapply lanes_step].
  intros t m _. split; (split; [split|]); cbn; intros *; by rewrite lookup_empty.
Qed.

(** ** One execution per worker *)

Definition at_work (d : Db) (offline : bool) (run w : string) : Prop :=
  if offline then authorised offline_lane d run w else authorised codex_lane d run w.
Definition one_each (d : Db) : Prop := forall o o' run run' w, at_work d o run w -> at_work d o' run' w -> o = o' /\ run = run'.

(** A call writes to one of the lanes at most. *)
Lemma one_lane c e d d' n : wcall_txn c e d 0 = Ok (Commit tt, d', n) -> offline_rows d' = offline_rows d \/ codex_rows d' = codex_rows d.
Proof.
  intros Hc. destruct (writes_offline c) eqn:Hw; [|left; by apply (keeps_offline c Hw _ _ _ _ _ _ Hc)].
  destruct (writes_codex c) eqn:Hx; [|right; by apply (keeps_codex c Hx _ _ _ _ _ _ Hc)].
  destruct c; try done. cbn [wcall_txn] in Hc. apply forget_commit in Hc as [a Hc]. apply abandon_mode in Hc as [_ [Hc|Hc]].
  - right. by apply (abandon_offline_keeps _ _ _ _ _ _ _ _ Hc).
  - left. by apply (abandon_codex_keeps _ _ _ _ _ _ _ _ Hc).
Qed.

Lemma one_each_step d d' :
  (forall o run w, at_work d' o run w -> at_work d o run w)
  \/ (exists o0 run0 w0, unoccupied w0 d /\ forall o run w, at_work d' o run w -> at_work d o run w \/ (o = o0 /\ run = run0 /\ w = w0)) ->
  one_each d -> one_each d'.
Proof.
  intros [Hs|(o0 & run0 & w0 & [Hu Hu'] & Hs)] Hone o o' run run' w Hw Hw'.
  - by apply (Hone _ _ _ _ w); apply Hs.
  - assert (forall o run, ~ at_work d o run w0) as Hfree.
    { intros [] r; cbn; by apply unoccupied_authorised. }
    destruct (Hs _ _ _ Hw) as [Hb|(-> & -> & ->)], (Hs _ _ _ Hw') as [Hb'|(-> & -> & Hx)]; subst.
    + by apply (Hone _ _ _ _ w).
    + by destruct (Hfree _ _ Hb).
    + by destruct (Hfree _ _ Hb').
    + done.
Qed.

Lemma at_work_rows d d' : offline_rows d' = offline_rows d -> codex_rows d' = codex_rows d ->
  forall o run w, at_work d' o run w -> at_work d o run w.
Proof. intros Ho Hc [] run w; unfold at_work, authorised; cbn; by rewrite ?Ho, ?Hc. Qed.

Lemma one_each_reachable s : wreachable s -> one_each s.2.
Proof.
  revert s. apply wreachable_ind.
  - intros t m _ [] [] run run' w (x & Hx & _); cbn in Hx; by rewrite lookup_empty in Hx.
  - intros s s' Hr Hone Hst. destruct (lanes_reachable s Hr) as [Ho Hc]. revert Hone. apply one_each_step.
    destruct Hst as [t t' c e d d' n He Hm Hcall|t t' m j o d _ _ _ _]; cbn [fst snd] in *; [|left; by apply at_work_rows].
    pose proof (offline_effect _ _ _ _ _ _ _ He Hm (lo_keyed _ _ _ _ _ Ho) Hcall) as Hmo.
    pose proof (codex_effect _ _ _ _ _ _ _ He (lo_keyed _ _ _ _ _ Hc) Hcall) as Hmc.
    destruct (one_lane _ _ _ _ _ Hcall) as [Hk|Hk].
    + destruct (exec_move_authorised codex_lane _ _ _ _ _ _ Hmc) as [Hs|(run0 & w0 & Hu & Hs)].
      * left. intros [] run w; [unfold at_work, authorised; cbn; by rewrite Hk | apply Hs].
      * right. exists false, run0, w0. split; [done|]. intros [] run w; [left; unfold at_work, authorised in *; cbn in *; by rewrite Hk in * |].
        intros Hw. destruct (Hs _ _ Hw) as [?|[-> ->]]; [by left | by right].
    + destruct (exec_move_authorised offline_lane _ _ _ _ _ _ Hmo) as [Hs|(run0 & w0 & Hu & Hs)].
      * left. intros [] run w; [apply Hs | unfold at_work, authorised; cbn; by rewrite Hk].
      * right. exists true, run0, w0. split; [done|]. intros [] run w; [|left; unfold at_work, authorised in *; cbn in *; by rewrite Hk in *].
        intros Hw. destruct (Hs _ _ Hw) as [?|[-> ->]]; [by left | by right].
Qed.

(** ** One lane per run *)

(** One frozen input does not admit both lanes. *)
Lemma lanes_exclude d run (x : ExecRow OfflineProfile OfflineReceipt) (y : ExecRow CodexProfile CodexReceipt) T : inbox_ok T d ->
  grounded offline_CheckAssignment d run x -> grounded codex_CheckAssignment d run y -> False.
Proof.
  intros Hin (b & m & k & pr & Hb & Hrun & _ & _ & Hi & Hca & _) (b' & m' & k' & pr' & Hb' & Hrun' & _ & _ & Hi' & Hca' & _).
  assert (ex_InboxID x = ex_InboxID y) as He by (eapply (io_runs _ _ Hin); [exact Hb | exact Hb' | congruence]).
  rewrite <- He in Hb'. simplify_eq.
  apply CheckAssignment_ok in Hca as (dg & _ & _ & Ht & _). apply codex_CheckAssignment_ok in Hca' as (dg' & _ & _ & Ht' & _).
  cbn in Ht, Ht'. rewrite Ht in Ht'. discriminate.
Qed.

(** What a start that returns a permit needs. *)
Lemma start_offline_needs s q e d v : StartOffline s q e d 0 = Ok v ->
  offline_rows d !! ost_RunID q = None /\ exists x : ExecRow OfflineProfile OfflineReceipt, grounded offline_CheckAssignment d (ost_RunID q) x.
Proof.
  destruct v as [[v d'] n']. unfold StartOffline, lane_schema. intros Hc. tx.
  match goal with Hp : lockWorkerPlatform _ _ _ = Ok _ |- _ => apply platform_ok in Hp as (-> & -> & [= -> ->]) end. passed.
  match goal with Ha : authorize _ _ _ _ _ _ _ _ _ _ _ _ = Ok _ |- _ =>
    apply (authorize_ok offline_lane) in Ha as (i & profile & prep & Hn & _ & Hg & _); [|done..] end. eauto.
Qed.
Lemma start_codex_needs s q e d v : StartCodex s q e d 0 = Ok v ->
  codex_rows d !! xs_RunID q = None /\ exists x : ExecRow CodexProfile CodexReceipt, grounded codex_CheckAssignment d (xs_RunID q) x.
Proof.
  destruct v as [[v d'] n']. unfold StartCodex, lane_schema. intros Hc. tx.
  match goal with Hp : lockWorkerPlatform _ _ _ = Ok _ |- _ => apply platform_ok in Hp as (-> & -> & [= -> ->]) end. passed.
  match goal with Ha : authorize _ _ _ _ _ _ _ _ _ _ _ _ = Ok _ |- _ =>
    apply (authorize_ok codex_lane) in Ha as (i & profile & prep & Hn & _ & Hg & _); [|done..] end. eauto.
Qed.

(** The run has been given to a worker. *)
Definition taken (d : Db) (run : string) : Prop := is_Some (offline_rows d !! run) \/ is_Some (codex_rows d !! run).
Definition no_start (d : Db) (run : string) : Prop := forall subject e,
  (forall q, ost_RunID q = run -> is_ok (StartOffline subject q e d 0) = false)
  /\ (forall q, xs_RunID q = run -> is_ok (StartCodex subject q e d 0) = false).

Lemma taken_no_start s run : wreachable s -> taken s.2 run -> no_start s.2 run.
Proof.
  intros Hr Ht subject e. destruct (lanes_reachable s Hr) as [Ho Hc]. pose proof (inbox_reachable s Hr) as Hin. split; intros q <-.
  - destruct (StartOffline subject q e s.2 0) as [v|] eqn:E; [|done]. apply start_offline_needs in E as [Hn [x Hx]].
    destruct Ht as [[y Hy]|[y Hy]]; [congruence|].
    by destruct (lanes_exclude _ _ x y _ Hin Hx (st_grounded _ _ _ _ _ _ _ (lo_rows _ _ _ _ _ Hc _ _ Hy))).
  - destruct (StartCodex subject q e s.2 0) as [v|] eqn:E; [|done]. apply start_codex_needs in E as [Hn [x Hx]].
    destruct Ht as [[y Hy]|[y Hy]]; [|congruence].
    by destruct (lanes_exclude _ _ y x _ Hin (st_grounded _ _ _ _ _ _ _ (lo_rows _ _ _ _ _ Ho _ _ Hy)) Hx).
Qed.

(** ** Rows over time *)

Lemma lane_rows_stay s s' : wreachable s -> wstep s s' ->
  (forall run x, offline_rows s.2 !! run = Some x -> exists x', offline_rows s'.2 !! run = Some x' /\ same_execution x x')
  /\ (forall run x, codex_rows s.2 !! run = Some x -> exists x', codex_rows s'.2 !! run = Some x' /\ same_execution x x').
Proof.
  intros Hr Hst. destruct (lanes_reachable s Hr) as [Ho Hc].
  destruct Hst as [t t' c e d d' n He Hm Hcall|t t' m j o d _ _ _ _]; cbn [fst snd] in *.
  - split; intros run x Hx.
    + eapply (exec_move_row offline_lane); [exact Hx | by eapply offline_effect; [| |apply (lo_keyed _ _ _ _ _ Ho)|]].
    + eapply (exec_move_row codex_lane); [exact Hx | by eapply codex_effect; [|apply (lo_keyed _ _ _ _ _ Hc)|]].
  - split; intros run x Hx; exists x; (split; [exact Hx | by split; [|left|]]).
Qed.
Lemma lane_rows_advance s s' : wreachable s -> rtc wstep s s' ->
  (forall run x, offline_rows s.2 !! run = Some x -> exists x', offline_rows s'.2 !! run = Some x' /\ same_execution x x')
  /\ (forall run x, codex_rows s.2 !! run = Some x -> exists x', codex_rows s'.2 !! run = Some x' /\ same_execution x x').
Proof.
  intros Hr Hss. induction Hss as [s|s s1 s' Hst Hss IH]; [split; intros run x Hx; exists x; (split; [exact Hx | by split; [|left|]])|].
  destruct (IH (wreachable_step _ _ Hr Hst)) as [IH1 IH2]. destruct (lane_rows_stay _ _ Hr Hst) as [H1 H2].
  split; intros run x Hx.
  - destruct (H1 _ _ Hx) as (y & Hy & Hs). destruct (IH1 _ _ Hy) as (z & Hz & Hs'). exists z. split; [done|]. by eapply same_execution_trans.
  - destruct (H2 _ _ Hx) as (y & Hy & Hs). destruct (IH2 _ _ Hy) as (z & Hz & Hs'). exists z. split; [done|]. by eapply same_execution_trans.
Qed.

(** ** Stale executions *)

(** The execution is over, or the recovery epoch it was authorised in is. *)
Definition stale {P R} (d : Db) (x : ExecRow P R) : Prop :=
  ex_State x <> Authorized \/ m_Mode (recoveryState (core d)) <> mode_Normal
  \/ m_Epoch (recoveryState (core d)) <> xt_RecoveryEpoch (ex_Token x).
Definition commits {A} (m : txn (verdict A)) (e : TxEnv) (d : Db) : bool :=
  match m e d 0 with Ok (Commit _, _, _) => true | _ => false end.

(** A live lock needs the row of the token itself. *)
Lemma stale_lock {P R} (ln : Lane P R) d run (x : ExecRow P R) s e n : keyed ln d -> ln_rows ln d !! run = Some x -> stale d x ->
  is_ok (lock_execution ln s (ex_Token x) true e d n) = false.
Proof.
  intros Hk Hx Hst. destruct (lock_execution _ _ _ _ _ _ _) as [[[[y r] d'] n']|] eqn:E; [|done].
  apply (lock_execution_ok ln _ _ _ _ _ _ _ _ _ _ Hk) in E as (_ & _ & _ & Hy & _ & _ & Hl).
  destruct (ky_id _ _ Hk _ _ Hx) as [_ Hrun]. rewrite Hrun in Hy. simplify_eq.
  destruct (Hl eq_refl) as (Hs & Hm & He & _). destruct Hst as [?|[?|?]]; congruence.
Qed.
Lemma stale_renew {P R} (ln : Lane P R) d run (x : ExecRow P R) ev s e : keyed ln d -> ln_rows ln d !! run = Some x -> stale d x ->
  is_ok (renew_execution ln ev s (ex_Token x) e d 0) = false.
Proof. intros Hk Hx Hst. by eapply refused_bind, stale_lock. Qed.

(** The second lock of a [Finish] saw the tables as they were. *)
Ltac to_the_lock :=
  match goal with Hl : lock_execution ?ln ?s ?t true ?e ?d ?n = Ok _ |- _ =>
    assert (is_ok (lock_execution ln s t true e d n) = true) as Hlive by (by rewrite Hl) end;
  repeat match goal with Hl : _ = Ok (_, ?d1, _), Hx : is_ok (lock_execution _ _ _ true _ ?d1 _) = true |- _ =>
    apply unchanged in Hl; [|apply _]; subst d1 end.
Lemma stale_finish_offline d run x s report e : keyed offline_lane d -> offline_rows d !! run = Some x -> stale d x ->
  orp_Token report = ex_Token x -> commits (FinishOffline s report) e d = false.
Proof.
  intros Hk Hx Hst Ht. unfold commits. destruct (FinishOffline s report e d 0) as [[[v d'] n']|] eqn:E; [|done]. destruct v as [r|]; [|done].
  unfold FinishOffline in E. tx. to_the_lock. rewrite Ht in Hlive. by rewrite (stale_lock offline_lane d run x) in Hlive.
Qed.
Lemma stale_finish_codex d run x s report e : keyed codex_lane d -> codex_rows d !! run = Some x -> stale d x ->
  xo_Token report = ex_Token x -> commits (FinishCodex s report) e d = false.
Proof.
  intros Hk Hx Hst Ht. unfold commits. destruct (FinishCodex s report e d 0) as [[[v d'] n']|] eqn:E; [|done]. destruct v as [r|]; [|done].
  unfold FinishCodex in E. tx. reads. to_the_lock. rewrite Ht in Hlive. by rewrite (stale_lock codex_lane d run x) in Hlive.
Qed.

(** ** Properties *)

(** C9: a worker is authorised for one execution at a time, in whichever lane,
    and a run is executed in one lane only. *)
Theorem executions_exclusive s : wreachable s ->
  (forall o o' run run' w, at_work s.2 o run w -> at_work s.2 o' run' w -> o = o' /\ run = run')
  /\ forall run, ~ (is_Some (offline_rows s.2 !! run) /\ is_Some (codex_rows s.2 !! run)).
Proof.
  intros Hr. split; [by apply one_each_reachable|]. intros run [[x Hx] [y Hy]]. destruct (lanes_reachable s Hr) as [Ho Hc].
  by eapply (lanes_exclude _ run x y _ (inbox_reachable s Hr)); eapply st_grounded, lo_rows.
Qed.

(** C15: every execution is in order.  It is for the profile its token names and
    rests on the admitted input of its run, checked against that profile and
    prepared by the worker it was given to; its lease is bounded by the lane's
    limits; it has a receipt exactly when it finished, and that receipt is for
    it, with a result that its profile allows and, in the Codex lane, with the
    sealed transcript of its own turn; it has a reconciliation exactly when it
    was abandoned. *)
Theorem executions_well_formed s run : wreachable s ->
  (forall x, offline_rows s.2 !! run = Some x -> settled offline_lane offline_CheckAssignment offline_sound s.1 s.2 run x)
  /\ (forall x, codex_rows s.2 !! run = Some x -> settled codex_lane codex_CheckAssignment codex_sound s.1 s.2 run x).
Proof. intros Hr. destruct (lanes_reachable s Hr) as [Ho Hc]. split; intros x Hx; [by apply Ho | by apply Hc]. Qed.

(** C10: a run is executed once.  Whatever happens later, its execution is
    still there, of the same worker, token, profile and preparation; what
    finished or was abandoned never changes again; no start of the run ever
    succeeds, in either lane; and once the execution is over, or the recovery
    has moved on to another epoch, it is neither renewed nor finished. *)
Theorem executions_once s s' run : wreachable s -> rtc wstep s s' ->
  (forall x, offline_rows s.2 !! run = Some x -> no_start s'.2 run /\ exists x', offline_rows s'.2 !! run = Some x' /\ same_execution x x'
     /\ (stale s'.2 x' -> forall w e, is_ok (RenewOffline w (ex_Token x) e s'.2 0) = false
          /\ forall report, orp_Token report = ex_Token x -> commits (FinishOffline w report) e s'.2 = false))
  /\ (forall x, codex_rows s.2 !! run = Some x -> no_start s'.2 run /\ exists x', codex_rows s'.2 !! run = Some x' /\ same_execution x x'
     /\ (stale s'.2 x' -> forall w e, is_ok (RenewCodex w (ex_Token x) e s'.2 0) = false
          /\ forall report, xo_Token report = ex_Token x -> commits (FinishCodex w report) e s'.2 = false)).
Proof.
  intros Hr Hss. pose proof (wreachable_steps _ _ Hr Hss) as Hr'. destruct (lanes_reachable _ Hr') as [[Hko _] [Hkc _]].
  destruct (lane_rows_advance _ _ Hr Hss) as [Ho Hc]. split; intros x Hx.
  - destruct (Ho _ _ Hx) as (x' & Hx' & Hs). split; [apply taken_no_start; [done | by left; eexists]|]. exists x'. split; [done|]. split; [done|].
    intros Hst w e. destruct (sx_same _ _ Hs) as (_ & _ & _ & Ht & _). rewrite <- Ht.
    split; [by apply (stale_renew offline_lane _ run) | intros report Hrep; by eapply stale_finish_offline].
  - destruct (Hc _ _ Hx) as (x' & Hx' & Hs). split; [apply taken_no_start; [done | by right; eexists]|]. exists x'. split; [done|]. split; [done|].
    intros Hst w e. destruct (sx_same _ _ Hs) as (_ & _ & _ & Ht & _). rewrite <- Ht.
    split; [by apply (stale_renew codex_lane _ run) | intros report Hrep; by eapply stale_finish_codex].
Qed.

End lanes.

(** ** Examples: the execution of the turn *)

Lemma running_reachable : wreachable (turn_state running_calls).
Proof. apply turn_reachable. vm_compute. reflexivity. Qed.
Lemma running_taken : is_Some (codex_rows (turn_state running_calls).2 !! "run-1").
Proof. vm_compute. eexists. reflexivity. Qed.

Lemma executions_exclusive_witness : offline_rows (turn_state running_calls).2 !! "run-1" = None.
Proof.
  destruct (executions_exclusive (turn_state running_calls) running_reachable) as [_ Hx].
  destruct (offline_rows (turn_state running_calls).2 !! "run-1") as [x|] eqn:E; [|reflexivity].
  destruct (Hx "run-1"). split; [rewrite E; eexists; reflexivity | exact running_taken].
Defined.

Lemma executions_well_formed_witness : exists x, codex_rows (turn_state running_calls).2 !! "run-1" = Some x
  /\ grounded codex_CheckAssignment (turn_state running_calls).2 "run-1" x.
Proof.
  destruct running_taken as [x Hx]. exists x. split; [exact Hx|].
  destruct (executions_well_formed (turn_state running_calls) "run-1" running_reachable) as [_ Hc]. apply (st_grounded _ _ _ _ _ _ _ (Hc x Hx)).
Defined.

Lemma executions_once_witness : no_start (turn_state sealed_calls).2 "run-1".
Proof.
  destruct running_taken as [x Hx].
  destruct (executions_once (turn_state running_calls) (turn_state sealed_calls) "run-1" running_reachable) as [_ Hc].
  - apply (turn_steps running_calls). vm_compute. reflexivity.
  - destruct (Hc x Hx) as [Hn _]. exact Hn.
Defined.
