(* ===== verification/Controls.v ===== *)
(** The controls of a live turn under every interleaving: bounded, one in
    flight at a time, sealed exactly once into a transcript of exactly the
    commands that were recorded; and a turn can always be closed. *)
From S2P Require Import Prelude Canonical Json Core Run Session Recovery Verification Action Store Binding Journal WorkerQueue Preparation Control Sandbox Offline Codex Db WorkerStore ExecStore ControlStore Txn Workers TurnDemo Leases Executions Lanes.

Section controls.
Context `{Hash}.

(** ** Moves of a turn *)

Definition active (b : ControlBinding) : RuntimeRow := mkRuntimeRow b "ACTIVE" None None.
Definition live_turn (d : Db) (i : string) (b : ControlBinding) : Prop := runtimes d !! i = Some (active b) /\ xt_ID (cb_Token b) = i.
Definition recorded (r : SteeringRow) : Prop := ControlDelivery_Validate (delivery_of_row r) = Ok tt.
Definition settle_row (turnStatus : string) (now : time) (r : SteeringRow) : SteeringRow :=
  set_sw (closed_state turnStatus (sw_State r)) (sw_DispatchedAt r) (Some now) r.
Definition control_at (d : Db) (k i : string) (r : SteeringRow) : Prop := controls d !! k = Some r /\ sw_Execution r = i.

Inductive turn_move (t t' : time) (d d' : Db) : Prop :=
| tm_same : runtimes d' = runtimes d -> controls d' = controls d -> turn_move t t' d d'
| tm_bind b : controls d' = controls d -> runtimes d !! xt_ID (cb_Token b) = None -> ControlBinding_Validate b = Ok tt ->
    runtimes d' = <[xt_ID (cb_Token b) := active b]> (runtimes d) -> turn_move t t' d d'
| tm_queue k i r b : runtimes d' = runtimes d -> controls d' = <[k := r]> (controls d) -> live_turn d i b ->
    k = sc_ID (sw_Command r) -> sw_Execution r = i -> pl_Binding (sw_Payload r) = b -> recorded r -> sw_State r = "QUEUED" -> sw_DispatchedAt r = None ->
    (t <= sc_CreatedAt (sw_Command r) <= t')%Z -> steering_taken (sw_Command r) d = false ->
    length (controls_of i d) < MaxControls -> existsb is_interrupt (controls_of i d) = false -> turn_move t t' d d'
| tm_claim k i r b now : runtimes d' = runtimes d -> live_turn d i b -> control_at d k i r -> sw_State r = "QUEUED" ->
    existsb in_flight (controls_of i d) = false -> (t <= now <= t')%Z ->
    recorded (set_sw "DISPATCHING" (Some now) (sw_ResolvedAt r) r) ->
    controls d' = <[k := set_sw "DISPATCHING" (Some now) (sw_ResolvedAt r) r]> (controls d) -> turn_move t t' d d'
| tm_settle k i r b now outcome : runtimes d' = runtimes d -> live_turn d i b -> control_at d k i r -> sw_State r = "DISPATCHING" ->
    (t <= now <= t')%Z -> settlement_allowed outcome (pl_Kind (sw_Payload r)) = true ->
    recorded (set_sw outcome (sw_DispatchedAt r) (Some now) r) ->
    controls d' = <[k := set_sw outcome (sw_DispatchedAt r) (Some now) r]> (controls d) -> turn_move t t' d d'
| tm_close i b c digest : live_turn d i b -> cc_Binding c = b ->
    (forall k r, controls d !! k = Some r -> exists r', controls d' !! k = Some r' /\
       if of_execution i r && still_open r then exists now, (t <= now <= t')%Z /\ r' = settle_row (cc_TurnStatus c) now r else r' = r) ->
    (forall k, controls d !! k = None -> controls d' !! k = None) ->
    (forall r, r ∈ controls_of i d' -> recorded r) ->
    let tr := mkTranscript 2 c (delivery_of_row <$> merge_sort by_sequence (controls_of i d')) in
    ControlTranscript_Digest tr = Ok digest ->
    runtimes d' = <[i := mkRuntimeRow b "SEALED" (Some tr) (Some digest)]> (runtimes d) -> turn_move t t' d d'.

Definition named (d : Db) : Prop := forall k r, controls d !! k = Some r -> sc_ID (sw_Command r) = k.

Lemma scanControl_ok r e d n x d' n' : scanControl r e d n = Ok (x, d', n') ->
  d' = d /\ n' = n /\ exists row, r = Some row /\ x = delivery_of_row row /\ recorded row.
Proof. unfold scanControl. intros Hs. tx. split_and!; [done..|]. eexists. split_and!; [done..|]. by apply is_ok_unit. Qed.

Lemma lockControlRuntime_ok b e d n x d' n' : lockControlRuntime b e d n = Ok (x, d', n') ->
  d' = d /\ n' = n /\ ControlBinding_Validate b = Ok tt /\ rn_Binding x = b
  /\ ((live_turn d (xt_ID (cb_Token b)) b /\ x = mkRuntime b "ACTIVE" None "")
      \/ exists tr digest, runtimes d !! xt_ID (cb_Token b) = Some (mkRuntimeRow b "SEALED" (Some tr) (Some digest))
         /\ ControlTranscript_Digest tr = Ok digest /\ cc_Binding (ct_Close tr) = b /\ x = mkRuntime b "SEALED" (Some tr) digest).
Proof.
  unfold lockControlRuntime. intros Hl. tx.
  match goal with Hq : controlRuntime _ _ _ _ = Ok _ |- _ => apply controlRuntime_ok in Hq as (-> & -> & row & Hrow & Hv & Hrt) end.
  passed. apply is_ok_unit in Hv.
  destruct Hrt as [[Hr ->]|(tr & digest & Hr & Hd & Hb & ->)]; cbn in *; subst b.
  - split_and!; [done..|]. left. split; [|done]. split; [by rewrite Hrow, Hr at 1 | done].
  - split_and!; [done..|]. right. exists tr, digest. split_and!; try done. by rewrite Hrow, Hr at 1.
Qed.

Lemma elem_controls_of r i d : r ∈ controls_of i d <-> exists k, control_at d k i r.
Proof.
  unfold controls_of, control_at, of_execution. rewrite list_elem_of_filter, bool_decide_eq_true, list_elem_of_fmap. split.
  - intros [He ([k r'] & -> & Hk%elem_of_map_to_list)]. by exists k.
  - intros (k & Hk & He). split; [done|]. exists (k, r). split; [done|]. by apply elem_of_map_to_list.
Qed.

(** ** The closing UPDATE *)

Lemma settle_all_ok ts l e d n u d' n' : settle_all ts l e d n = Ok (u, d', n') ->
  NoDup ((fun r => sc_ID (sw_Command r)) <$> l) ->
  (forall r, r ∈ l -> exists j, controls d' !! sc_ID (sw_Command r) = Some (settle_row ts (tx_clock e j) r))
  /\ (forall k, k ∉ (fun r => sc_ID (sw_Command r)) <$> l -> controls d' !! k = controls d !! k).
Proof.
  revert d n u d' n'. induction l as [|r l IH]; intros d n u d' n'; cbn [settle_all]; intros Hs Hn.
  { apply tx_ret in Hs as (_ & -> & _). split; [intros r Hr; by apply elem_of_nil in Hr | done]. }
  unfold write_control in Hs. tx. csimpl in *. apply NoDup_cons in Hn as [Hni Hn]. destruct (IH _ _ _ _ _ Hs Hn) as [H1 H2]. split.
  - intros r' [->|Hr]%elem_of_cons; [|by apply H1]. exists n. rewrite H2 by done. cbn. by rewrite lookup_insert_eq.
  - intros k Hk. apply not_elem_of_cons in Hk as [Hk Hkl]. rewrite H2 by done. cbn. by rewrite lookup_insert_ne.
Qed.

Lemma scan_all_ok l e d n x d' n' : scan_all l e d n = Ok (x, d', n') -> x = delivery_of_row <$> l /\ Forall recorded l.
Proof.
  revert n x d' n'. induction l as [|r l IH]; intros n x d' n'; cbn [scan_all]; intros Hs; tx; [by split|].
  match goal with Hc : scanControl _ _ _ _ = Ok _ |- _ => apply scanControl_ok in Hc as (-> & -> & row & [= <-] & -> & Hr) end.
  match goal with Hc : scan_all _ _ _ _ = Ok _ |- _ => apply IH in Hc as [-> Hf] end. split; [done | by constructor].
Qed.

Lemma controls_of_NoDup d i : named d -> NoDup (controls_of i d).
Proof.
  intros Hn. apply NoDup_filter, NoDup_fmap_2_strong; [|apply NoDup_map_to_list].
  intros [k r] [k' r'] Hk%elem_of_map_to_list Hk'%elem_of_map_to_list He. cbn in He. subst r'. apply Hn in Hk, Hk'. by subst.
Qed.
Lemma named_ids d l : named d -> NoDup l -> (forall r, r ∈ l -> exists k, controls d !! k = Some r) -> NoDup ((fun r => sc_ID (sw_Command r)) <$> l).
Proof.
  intros Hn Hl Hin. apply NoDup_fmap_2_strong; [|done]. intros x y (k & Hk)%Hin (k' & Hk')%Hin He.
  pose proof (Hn _ _ Hk) as H1. pose proof (Hn _ _ Hk') as H2. rewrite <- H1 in Hk. rewrite <- H2 in Hk'. rewrite He in Hk. congruence.
Qed.

(** ** Every committed transaction makes one move of a turn *)

Ltac turn_reads := repeat match goal with
  | p : (_ * _)%type |- _ => destruct p
  | Hl : lock_execution _ _ _ _ _ _ _ = Ok _ |- _ => apply unchanged in Hl; [|apply _]; subst
  | Hl : lockControlRuntime _ _ _ _ = Ok _ |- _ => apply lockControlRuntime_ok in Hl; destruct Hl as (-> & -> & ? & ? & ?)
  | Hl : scanControl _ _ _ _ = Ok _ |- _ => apply scanControl_ok in Hl; destruct Hl as (-> & -> & ? & ? & -> & ?)
  | Ha : workerAudit _ _ _ _ _ _ = Ok _ |- _ => apply audit_effect in Ha; destruct Ha as (? & -> & -> & _)
  end.
(** The runtime the guards let through. *)
Ltac is_active := match goal with
  | Hr : _ \/ (exists tr digest, _ /\ _ /\ _ /\ _) |- _ =>
      destruct Hr as [[? ->]|(? & ? & _ & _ & _ & ->)]; cbn [rn_State rn_Transcript rn_Binding] in *; [|done]
  end.

Lemma claim_turn s b e d a d' n t t' : named d -> env_ok t t' e -> ClaimCodexControl s b e d 0 = Ok (Commit a, d', n) -> turn_move t t' d d'.
Proof.
  intros Hn He. unfold ClaimCodexControl, write_control. intros Hc. tx. turn_reads. passed. is_active. simplify_eq.
  match goal with Hf : next_queued _ _ = Some ?r |- _ => unfold next_queued in Hf; apply head_Some_elem_of in Hf;
    rewrite merge_sort_Permutation, list_elem_of_filter, elem_controls_of in Hf; destruct Hf as (Hq & k & Hk) end.
  pose proof (Hn _ _ (proj1 Hk)) as Hid.
  eapply tm_claim; [done|eassumption|exact Hk|done|done| |eassumption|cbn; by rewrite <- Hid].
  split; [apply (eo_from _ _ _ He) | apply (eo_to _ _ _ He)].
Qed.

Lemma settle_turn s x e d a d' n t t' : named d -> env_ok t t' e -> SettleCodexControl s x e d 0 = Ok (Commit a, d', n) -> turn_move t t' d d'.
Proof.
  intros Hn He. unfold SettleCodexControl, write_control. intros Hc. tx. turn_reads. passed. is_active. simplify_eq.
  destruct (controls d !! se_ID x) as [r|] eqn:Hr; [|done]. cbn in *.
  match goal with Hf : (if of_execution ?i r then _ else _) = Some _ |- _ =>
    destruct (of_execution i r) eqn:Ho; [injection Hf as -> | done]; unfold of_execution in Ho; apply bool_decide_eq_true in Ho end.
  pose proof (Hn _ _ Hr) as Hid.
  eapply (tm_settle _ _ _ _ (se_ID x)); [done|eassumption|by split|done| |eassumption|eassumption|cbn; by rewrite Hid].
  split; [apply (eo_from _ _ _ He) | apply (eo_to _ _ _ He)].
Qed.

Lemma bind_turn s b e d a d' n t t' : BindCodexControl s b e d 0 = Ok (Commit a, d', n) -> turn_move t t' d d'.
Proof.
  unfold BindCodexControl, write_runtime. intros Hc. tx. turn_reads. reads. passed.
  apply (tm_bind _ _ _ _ b); [done| |by apply is_ok_unit|done].
  match goal with Hx : _ = Err ?x, He : errors_is ?x _ = true |- _ =>
    unfold mbind, txn_bind, gets in Hx; by apply controlRuntime_absent in Hx end.
Qed.

Lemma advance_keeps run epoch sequence e d n u d' n' : advance_session run epoch sequence e d n = Ok (u, d', n') ->
  controls d' = controls d /\ runtimes d' = runtimes d.
Proof. unfold advance_session. intros Hc. tx. done. Qed.
Lemma bump_keeps run e d n u d' n' : bump_run run e d n = Ok (u, d', n') -> controls d' = controls d /\ runtimes d' = runtimes d.
Proof. unfold bump_run. intros Hc. by tx. Qed.

(** A validated input makes a valid command. *)
Lemma queued_recorded run kind x tok digest now : ControlInput_Validate x kind = Ok tt -> xt_RunID tok = run -> (0 < now)%Z ->
  let b := mkControlBinding tok (ci_ExecutionEpoch x) (ci_ThreadID x) (ci_TurnID x) in
  let payload := mkControlPayload b kind (ci_Text x) in
  ControlBinding_Validate b = Ok tt -> Digest (ControlPayload_json payload) = Ok digest ->
  recorded (mkSteeringRow (mkSteering (ci_ID x) run (ci_ExecutionEpoch x) (ci_Sequence x) (ci_Actor x) digest now)
              (xt_ID tok) payload "QUEUED" None None).
Proof.
  intros Hv Hr Hn b payload Hb Hd. unfold recorded, ControlDelivery_Validate. cbn. fold b. rewrite Hd, Hb.
  assert (mkControlInput (ci_ID x) (ci_ExecutionEpoch x) (ci_Sequence x) (ci_Actor x) (ci_ThreadID x) (ci_TurnID x) (ci_Text x) = x) as ->
    by (by destruct x).
  rewrite Hv, decide_False; [done|]. unfold IsZero. intros [?|[?|[?|[?|[?|?%bool_decide_eq_true]]]]]; try done; lia.
Qed.

Lemma queue_turn run kind x e d a d' n t t' : (0 < t)%Z -> keyed codex_lane d -> env_ok t t' e ->
  QueueCodexControl run kind x e d 0 = Ok (Commit a, d', n) -> turn_move t t' d d'.
Proof.
  intros Ht Hk He. unfold QueueCodexControl, queue_control, insert_control, write_control. intros Hc. tx. reads.
  match goal with Hs : scan_execution _ _ _ _ _ = Ok _ |- _ => apply scan_execution_ok in Hs as (-> & -> & Hx & _ & _) end.
  destruct (ky_id _ _ Hk _ _ Hx) as [_ Hrun].
  turn_reads. passed. is_active. repeat match goal with
    | Hs : advance_session _ _ _ _ _ _ = Ok _ |- _ => apply advance_keeps in Hs as [Hc1 Hr1]
    | Hs : bump_run _ _ _ _ = Ok _ |- _ => apply bump_keeps in Hs as [Hc2 Hr2] end.
  cbn in Hc1, Hr1.
  eapply tm_queue; [by rewrite <- Hr1, <- Hr2|by rewrite <- Hc1, <- Hc2|eassumption|done|done|done| |done|done| |done| |done].
  - apply queued_recorded; [by apply is_ok_unit|done|by eapply clock_positive|done|done].
  - cbn. split; [apply (eo_from _ _ _ He) | apply (eo_to _ _ _ He)].
  - cbn [cb_Token]. lia.
Qed.

(** The UPDATE settles what is still open of one execution, and only that. *)
Lemma settle_rows i ts e d n u d' n' t t' : named d -> env_ok t t' e ->
  settle_all ts (filter (fun r => still_open r = true) (controls_of i d)) e d n = Ok (u, d', n') ->
  (forall k r, controls d !! k = Some r -> exists r', controls d' !! k = Some r' /\
     if of_execution i r && still_open r then exists now, (t <= now <= t')%Z /\ r' = settle_row ts now r else r' = r)
  /\ (forall k, controls d !! k = None -> controls d' !! k = None).
Proof.
  intros Hn He Hs. apply settle_all_ok in Hs as [Hset Hkeep].
  2:{ apply (named_ids d); [done|by apply NoDup_filter, controls_of_NoDup|].
      intros r (_ & (k & Hk & _)%elem_controls_of)%list_elem_of_filter. by exists k. }
  split.
  - intros k r Hk. pose proof (Hn _ _ Hk) as Hid. destruct (of_execution i r && still_open r) eqn:Hopen.
    + apply andb_true_iff in Hopen as [Ho Hop]. destruct (Hset r) as [j Hj].
      { apply list_elem_of_filter. split; [done|]. apply elem_controls_of. exists k. split; [done|].
        unfold of_execution in Ho. by apply bool_decide_eq_true in Ho. }
      rewrite Hid in Hj. eexists. split; [exact Hj|]. exists (tx_clock e j). split; [|done].
      split; [apply (eo_from _ _ _ He) | apply (eo_to _ _ _ He)].
    + exists r. split; [|done]. rewrite Hkeep; [done|].
      intros (r' & He' & Hr')%list_elem_of_fmap. apply list_elem_of_filter in Hr' as [Hop (k' & Hk' & Ho)%elem_controls_of].
      pose proof (Hn _ _ Hk') as Hid'. assert (k' = k) as -> by congruence. simplify_eq.
      unfold of_execution in Hopen. by rewrite Hop, bool_decide_eq_true_2 in Hopen.
  - intros k Hk. rewrite Hkeep; [done|]. intros (r' & -> & Hr')%list_elem_of_fmap.
    apply list_elem_of_filter in Hr' as [_ (k' & Hk' & _)%elem_controls_of]. pose proof (Hn _ _ Hk') as Hid'. congruence.
Qed.

Lemma close_turn s c e d a d' n t t' : named d -> env_ok t t' e -> CloseCodexControl s c e d 0 = Ok (Commit a, d', n) -> turn_move t t' d d'.
Proof.
  intros Hn He. unfold CloseCodexControl. intros Hc. tx. turn_reads. is_active. passed.
  match goal with Hs : scan_all _ _ _ _ = Ok _ |- _ => apply scan_all_ok in Hs as Hscan; apply unchanged in Hs; [|apply _]; subst end.
  destruct Hscan as [-> Hrec].
  match goal with Hs : settle_all _ _ _ _ _ = Ok _ |- _ => apply settle_runtimes in Hs as Hrt; apply (settle_rows _ _ _ _ _ _ _ _ t t' Hn He) in Hs as [Hset Hkeep] end.
  match goal with Hl : live_turn _ _ _ |- _ => pose proof Hl as [Hact _]; rewrite <- Hrt in Hact; rewrite Hact end. cbn [ru_Binding active].
  eapply tm_close; [eassumption|done|exact Hset|exact Hkeep| |eassumption|cbn; by rewrite Hrt].
  cbn. intros r Hr. rewrite Forall_forall in Hrec. apply Hrec. by rewrite merge_sort_Permutation.
Qed.

Definition writes_turn (c : wcall) : bool :=
  match c with CallBind _ _ | CallQueue _ _ _ | CallClaimControl _ _ | CallSettle _ _ | CallClose _ _ => true | _ => false end.
Lemma keeps_turn c : writes_turn c = false -> Keeps (fun d => (runtimes d, controls d)) (wcall_txn c).
Proof. frame c. Qed.

Lemma turn_effect c e d d' n t t' : (0 < t)%Z -> keyed codex_lane d -> named d -> env_ok t t' e ->
  wcall_txn c e d 0 = Ok (Commit tt, d', n) -> turn_move t t' d d'.
Proof.
  intros Ht Hk Hn He Hc. destruct (writes_turn c) eqn:Hw.
  - destruct c; try done; cbn [wcall_txn] in Hc; try (apply forget_commit in Hc as [a Hc]);
      eauto using bind_turn, queue_turn, claim_turn, settle_turn, close_turn.
  - pose proof (keeps_turn c Hw _ _ _ _ _ _ Hc) as [= Hr Hcs]. by apply tm_same.
Qed.

(** ** The invariant *)

Definition complete (d : Db) (i : string) (tr : ControlTranscript) : Prop :=
  forall x, x ∈ ct_Deliveries tr <-> exists k r, control_at d k i r /\ x = delivery_of_row r.
Definition runtime_ok (d : Db) (i : string) (rt : RuntimeRow) : Prop :=
  xt_ID (cb_Token (ru_Binding rt)) = i /\ ControlBinding_Validate (ru_Binding rt) = Ok tt /\
  (rt = active (ru_Binding rt)
   \/ exists tr digest, rt = mkRuntimeRow (ru_Binding rt) "SEALED" (Some tr) (Some digest)
      /\ ControlTranscript_Digest tr = Ok digest /\ cc_Binding (ct_Close tr) = ru_Binding rt /\ complete d i tr).
Record row_recorded (T : time) (d : Db) (r : SteeringRow) : Prop := {
  rr_recorded : recorded r;
  rr_times : (sc_CreatedAt (sw_Command r) <= T)%Z /\ forall s, sw_DispatchedAt r = Some s -> (s <= T)%Z;
  rr_bound : exists rt, runtimes d !! sw_Execution r = Some rt /\ ru_Binding rt = pl_Binding (sw_Payload r)
}.
Record turn_ok (T : time) (d : Db) : Prop := {
  to_named : named d;
  to_rows k r : controls d !! k = Some r -> row_recorded T d r;
  to_places k k' r r' : controls d !! k = Some r -> controls d !! k' = Some r' ->
    same_place (sw_Command r) (sw_Command r') = true -> k = k';
  to_limit i : length (controls_of i d) <= MaxControls;
  to_flight i k k' r r' : control_at d k i r -> control_at d k' i r' -> in_flight r = true -> in_flight r' = true -> k = k';
  to_interrupt i k k' r r' : control_at d k i r -> control_at d k' i r' -> is_interrupt r = true -> is_interrupt r' = true -> k = k';
  to_runtimes i rt : runtimes d !! i = Some rt -> runtime_ok d i rt
}.

Lemma controls_count d d' i extra : named d -> named d' ->
  (forall k r, control_at d' k i r -> (exists r0, control_at d k i r0) \/ k ∈ extra) ->
  length (controls_of i d') <= length (controls_of i d) + length extra.
Proof.
  intros Hn Hn' Hk. set (id r := sc_ID (sw_Command r)).
  rewrite <- (length_fmap id (controls_of i d')), <- (length_fmap id (controls_of i d)), <- length_app.
  apply submseteq_length, NoDup_submseteq.
  - apply (named_ids d'); [done|by apply controls_of_NoDup|]. intros r (k & Hr & _)%elem_controls_of. by exists k.
  - intros k (r & -> & (k' & Hr)%elem_controls_of)%list_elem_of_fmap. unfold id. rewrite (Hn' _ _ (proj1 Hr)).
    apply elem_of_app. destruct (Hk _ _ Hr) as [[r0 Hr0]|He]; [left | by right].
    apply list_elem_of_fmap. exists r0. split; [symmetry; apply (Hn _ _ (proj1 Hr0)) | apply elem_controls_of; by exists k'].
Qed.

Lemma existsb_controls (p : SteeringRow -> bool) i d k r : existsb p (controls_of i d) = false -> control_at d k i r -> p r = false.
Proof.
  intros Hf Hr. apply not_true_iff_false. intros Hp. apply not_true_iff_false in Hf. apply Hf, existsb_exists.
  exists r. split; [|done]. apply list_elem_of_In, elem_controls_of. by exists k.
Qed.

(** A row of another execution does not matter to a transcript. *)
Lemma complete_kept d d' i tr : (forall k r, control_at d' k i r <-> control_at d k i r) -> complete d i tr -> complete d' i tr.
Proof. intros Hk Hc x. rewrite (Hc x). split; intros (k & r & Hr & He); exists k, r; (split; [by apply Hk | done]). Qed.
Lemma runtime_kept d d' i rt : (forall k r, control_at d' k i r <-> control_at d k i r) -> runtime_ok d i rt -> runtime_ok d' i rt.
Proof.
  intros Hk (Hi & Hv & [Ha|(tr & dg & Hr & Hd & Hb & Hc)]); (split; [done|]; split; [done|]); [by left|].
  right. exists tr, dg. split_and!; try done. by eapply complete_kept.
Qed.
(** While its turn is live, a transcript is not there yet. *)
Lemma live_runtime d i b rt : live_turn d i b -> runtimes d !! i = Some rt -> rt = active b.
Proof. intros [Hl _] Hr. congruence. Qed.

(** One row of execution [i] was written. *)
Definition one_row (d d' : Db) (k i : string) (r' : SteeringRow) : Prop :=
  forall j i' r, control_at d' j i' r -> (j = k /\ r = r' /\ i' = i) \/ (j <> k /\ control_at d j i' r).
Definition one_of (p : SteeringRow -> bool) (d : Db) : Prop :=
  forall i k k' r r', control_at d k i r -> control_at d k' i r' -> p r = true -> p r' = true -> k = k'.
Lemma one_kept p d d' k i r' : one_row d d' k i r' -> one_of p d -> (p r' = true -> forall j r, j <> k -> control_at d j i r -> p r = false) -> one_of p d'.
Proof.
  intros Hat Hone Hnew i' j j' r1 r2 H1 H2 F1 F2.
  destruct (Hat _ _ _ H1) as [(-> & -> & ->)|[N1 A1]], (Hat _ _ _ H2) as [(-> & -> & E2)|[N2 A2]]; [done| | |by eapply Hone].
  - by rewrite (Hnew F1 j' r2) in F2.
  - subst i'. by rewrite (Hnew F2 j r1) in F1.
Qed.
Lemma one_row_count d d' k i r' : named d -> named d' -> one_row d d' k i r' -> (forall j, length (controls_of j d) <= MaxControls) ->
  (is_Some (controls d !! k) /\ (forall r, controls d !! k = Some r -> sw_Execution r = i) \/ length (controls_of i d) < MaxControls) ->
  forall j, length (controls_of j d') <= MaxControls.
Proof.
  intros Hn Hn' Hat Hlim Hroom j. specialize (Hlim j).
  assert (forall extra, (j = i -> (exists r0, control_at d k i r0) \/ k ∈ extra) -> length (controls_of j d') <= length (controls_of j d) + length extra) as Hcount.
  { intros extra Hk. apply controls_count; [done..|]. intros k' r Hr. destruct (Hat _ _ _ Hr) as [(-> & -> & ->)|[_ ?]]; [by apply Hk | left; by exists r]. }
  destruct Hroom as [[[r0 Hk0] Hsame]|Hlt].
  - etransitivity; [apply (Hcount [])|simpl; lia]. intros _. left. exists r0. split; [done | by apply Hsame].
  - destruct (decide (j = i)) as [->|Hne].
    + etransitivity; [apply (Hcount [k])|simpl; lia]. intros _. right. left.
    + etransitivity; [apply (Hcount [])|simpl; lia]. done.
Qed.

(** One row of a live turn was added or changed. *)
Lemma turn_row_ok t t' d d' k i b r' : (t <= t')%Z -> turn_ok t d -> live_turn d i b -> runtimes d' = runtimes d ->
  controls d' = <[k := r']> (controls d) -> sc_ID (sw_Command r') = k -> sw_Execution r' = i -> pl_Binding (sw_Payload r') = b ->
  recorded r' -> (sc_CreatedAt (sw_Command r') <= t')%Z -> (forall s, sw_DispatchedAt r' = Some s -> (s <= t')%Z) ->
  (forall j r, j <> k -> controls d !! j = Some r -> same_place (sw_Command r') (sw_Command r) = false) ->
  (is_Some (controls d !! k) /\ (forall r, controls d !! k = Some r -> sw_Execution r = i) \/ length (controls_of i d) < MaxControls /\ controls d !! k = None) ->
  (in_flight r' = true -> forall j r, j <> k -> control_at d j i r -> in_flight r = false) ->
  (is_interrupt r' = true -> forall j r, j <> k -> control_at d j i r -> is_interrupt r = false) -> turn_ok t' d'.
Proof.
  intros Ht [Hn Hrows Hpl Hlim Hfl Hin Hrt] Hlive Hr Hc Hid Hex Hb Hrec Hcr Hdi Hplaces Hroom Hflight Hint.
  assert (named d') as Hn'.
  { intros j r. rewrite Hc. intros [[<- <-]|[_ Hj]]%lookup_insert_Some; [done | by apply Hn]. }
  assert (one_row d d' k i r') as Hat.
  { intros j i' r. unfold control_at. rewrite Hc. intros [[[<- <-]|[? Hj]]%lookup_insert_Some <-]; [left; by rewrite Hex | right]. done. }
  split; [done|..].
  - intros j r. rewrite Hc. intros [[<- <-]|[_ Hj]]%lookup_insert_Some.
    + split; [done|done|]. exists (active b). rewrite Hr, Hex, Hb. split; [apply Hlive | done].
    + destruct (Hrows _ _ Hj) as [H1 [H2 H3] H4]. split; [done| |by rewrite Hr]. split; [lia|]. intros s Hs. specialize (H3 s Hs). lia.
  - intros j j' r1 r2. rewrite Hc.
    intros [[<- <-]|[? Hj]]%lookup_insert_Some [[<- <-]|[? Hj']]%lookup_insert_Some Hp; [done| | |by eapply Hpl].
    + by rewrite (Hplaces j' r2) in Hp.
    + exfalso. assert (same_place (sw_Command r') (sw_Command r1) = true) as Hp' by
        (unfold same_place in *; apply bool_decide_eq_true in Hp; apply bool_decide_eq_true; naive_solver).
      by rewrite (Hplaces j r1) in Hp'.
  - eapply one_row_count; [exact Hn|exact Hn'|exact Hat|exact Hlim|]. destruct Hroom as [Hr0|[Hlt _]]; [by left | by right].
  - by eapply (one_kept in_flight).
  - by eapply (one_kept is_interrupt).
  - intros i' rt. rewrite Hr. intros Hi'. destruct (decide (i' = i)) as [->|Hne].
    + pose proof (live_runtime _ _ _ _ Hlive Hi') as ->. destruct (Hrt _ _ Hi') as (Hx & Hv & _). split; [done|]. split; [done|]. by left.
    + apply (runtime_kept d); [|by apply Hrt]. intros j r. split; intros Hj.
      * destruct (Hat _ _ _ Hj) as [(_ & _ & ?)|[_ ?]]; done.
      * unfold control_at in *. rewrite Hc. destruct Hj as [Hj He]. rewrite lookup_insert_ne; [done|]. intros <-.
        destruct Hroom as [[_ Hsame]|[_ Hnone]]; [specialize (Hsame _ Hj); congruence | congruence].
Qed.

(** What the closing UPDATE keeps of a row. *)
Record kept_row (i : string) (r r' : SteeringRow) : Prop := {
  kr_same : sw_Command r' = sw_Command r /\ sw_Execution r' = sw_Execution r /\ sw_Payload r' = sw_Payload r /\ sw_DispatchedAt r' = sw_DispatchedAt r;
  kr_flight : in_flight r' = true -> in_flight r = true;
  kr_other : r' = r \/ sw_Execution r = i
}.
Lemma settled_flight ts st : in_flight (mkSteeringRow (mkSteering "" "" 0 0 "" "" 0) "" (mkControlPayload (mkControlBinding (mkExecToken "" "" "" "" 0) 0 "" "") "" "")
    (closed_state ts st) None None) = true -> st ∈ ["DISPATCHING"; "INTERRUPT_ACKNOWLEDGED"; "UNKNOWN"].
Proof.
  unfold in_flight, closed_state. cbn. rewrite bool_decide_eq_true. repeat case_decide; subst; set_solver.
Qed.
Lemma settle_row_kept i ts now r : sw_Execution r = i -> kept_row i r (settle_row ts now r).
Proof.
  intros Hi. split; [done| |by right]. unfold in_flight. rewrite !bool_decide_eq_true. intros Hf. apply (settled_flight ts).
  unfold in_flight. by apply bool_decide_eq_true.
Qed.

Lemma close_rows t t' d d' i ts :
  (forall k r, controls d !! k = Some r -> exists r', controls d' !! k = Some r' /\
     if of_execution i r && still_open r then exists now, (t <= now <= t')%Z /\ r' = settle_row ts now r else r' = r) ->
  (forall k, controls d !! k = None -> controls d' !! k = None) ->
  (forall k r', controls d' !! k = Some r' -> exists r, controls d !! k = Some r /\ kept_row i r r')
  /\ (forall k r, controls d !! k = Some r -> exists r', controls d' !! k = Some r' /\ kept_row i r r').
Proof.
  intros Hk Hnone.
  assert (forall k r, controls d !! k = Some r -> exists r', controls d' !! k = Some r' /\ kept_row i r r') as Hfwd.
  { intros k r Hr. destruct (Hk _ _ Hr) as (r' & Hr' & Hcase). exists r'. split; [done|].
    destruct (of_execution i r && still_open r) eqn:Ho; [|subst; split; auto].
    destruct Hcase as (now & _ & ->). apply andb_true_iff in Ho as [Ho _]. apply settle_row_kept.
    unfold of_execution in Ho. by apply bool_decide_eq_true in Ho. }
  split; [|done]. intros k r' Hr'. destruct (controls d !! k) as [r|] eqn:Hr; [|by rewrite (Hnone _ Hr) in Hr'].
  destruct (Hfwd _ _ Hr) as (r2 & Hr2 & Hkept). simplify_eq. eauto.
Qed.

Lemma turn_close_ok t t' d d' i b c digest : (t <= t')%Z -> turn_ok t d -> live_turn d i b -> cc_Binding c = b ->
  (forall k r', controls d' !! k = Some r' -> exists r, controls d !! k = Some r /\ kept_row i r r') ->
  (forall k r, controls d !! k = Some r -> exists r', controls d' !! k = Some r' /\ kept_row i r r') ->
  (forall r, r ∈ controls_of i d' -> recorded r) ->
  let tr := mkTranscript 2 c (delivery_of_row <$> merge_sort by_sequence (controls_of i d')) in
  ControlTranscript_Digest tr = Ok digest -> runtimes d' = <[i := mkRuntimeRow b "SEALED" (Some tr) (Some digest)]> (runtimes d) -> turn_ok t' d'.
Proof.
  intros Ht [Hn Hrows Hpl Hlim Hfl Hin Hrt] Hlive Hb Hbwd Hfwd Hrec tr Hd Hr.
  assert (named d') as Hn'.
  { intros k r' Hr'. destruct (Hbwd _ _ Hr') as (r & Hk & [(-> & _) _ _]). by apply Hn. }
  assert (forall k i' r', control_at d' k i' r' -> exists r, control_at d k i' r /\ kept_row i r r') as Hat.
  { intros k i' r' [Hr' <-]. destruct (Hbwd _ _ Hr') as (r & Hk & Hkept). exists r. split; [|done]. split; [done|].
    by destruct Hkept as [(_ & -> & _) _ _]. }
  split; [done|..].
  - intros k r' Hr'. destruct (Hbwd _ _ Hr') as (r & Hk & Hkept). destruct (Hrows _ _ Hk) as [H1 [H2 H3] (rt & Hrt' & Hbd)].
    destruct Hkept as [(Ec & Ee & Ep & Ed) _ Ho]. split.
    + destruct Ho as [->|Ho]; [done|]. apply Hrec, elem_controls_of. exists k. split; [done | congruence].
    + rewrite Ec, Ed. split; [lia|]. intros s Hs. specialize (H3 s Hs). lia.
    + rewrite Ee, Ep, Hr. destruct (decide (i = sw_Execution r)) as [Heq|Hne]; [|rewrite lookup_insert_ne by done; by exists rt].
      rewrite <- Heq in Hrt' |- *. rewrite lookup_insert_eq. eexists. split; [done|]. cbn.
      by rewrite (live_runtime _ _ _ _ Hlive Hrt') in Hbd.
  - intros k k' r1 r2 H1 H2 Hp. destruct (Hbwd _ _ H1) as (q1 & K1 & [(E1 & _) _ _]), (Hbwd _ _ H2) as (q2 & K2 & [(E2 & _) _ _]).
    rewrite E1, E2 in Hp. by eapply Hpl.
  - intros i'. etransitivity; [apply (controls_count d d' i' []); [done..|]|simpl; specialize (Hlim i'); lia].
    intros k r' Hr'. left. destruct (Hat _ _ _ Hr') as (r & ? & _). by exists r.
  - intros i' k k' r1 r2 H1 H2 F1 F2. destruct (Hat _ _ _ H1) as (q1 & K1 & G1), (Hat _ _ _ H2) as (q2 & K2 & G2).
    apply (Hfl i' k k' q1 q2); [done..|by apply G1|by apply G2].
  - intros i' k k' r1 r2 H1 H2 F1 F2. destruct (Hat _ _ _ H1) as (q1 & K1 & [(_ & _ & P1 & _) _ _]), (Hat _ _ _ H2) as (q2 & K2 & [(_ & _ & P2 & _) _ _]).
    unfold is_interrupt in *. rewrite P1 in F1. rewrite P2 in F2. by apply (Hin i' k k' q1 q2).
  - intros i' rt. rewrite Hr. intros [[<- <-]|[Hne Hi']]%lookup_insert_Some.
    + destruct Hlive as [Hl Hi]. destruct (Hrt _ _ Hl) as (_ & Hv & _). split; [done|]. split; [done|]. right. exists tr, digest.
      split_and!; try done. intros x. cbn. rewrite list_elem_of_fmap. setoid_rewrite (merge_sort_Permutation by_sequence (controls_of i d')).
      setoid_rewrite elem_controls_of. naive_solver.
    + apply (runtime_kept d); [|by apply Hrt]. intros k r. split; intros Hk.
      * destruct (Hat _ _ _ Hk) as (q & Kq & [_ _ [->|He]]); [done|]. destruct Kq. congruence.
      * destruct Hk as [Hk He]. destruct (Hfwd _ _ Hk) as (q & Kq & [_ _ [->|He']]); [done|]. congruence.
Qed.

(** Nothing but a fresh turn was added. *)
Lemma turn_bind_ok t t' d d' b : (t <= t')%Z -> turn_ok t d -> controls d' = controls d -> runtimes d !! xt_ID (cb_Token b) = None ->
  ControlBinding_Validate b = Ok tt -> runtimes d' = <[xt_ID (cb_Token b) := active b]> (runtimes d) -> turn_ok t' d'.
Proof.
  intros Ht [Hn Hrows Hpl Hlim Hfl Hin Hrt] Ec Hfree Hv Er. unfold named, control_at, controls_of in *. split; unfold named, control_at, controls_of; rewrite ?Ec; auto.
  - intros k r Hr. destruct (Hrows _ _ Hr) as [H1 [H2 H3] (rt & Hrt' & Hbd)]. split; [done| |].
    + split; [lia|]. intros s Hs. specialize (H3 s Hs). lia.
    + exists rt. rewrite Er, lookup_insert_ne by congruence. done.
  - intros i rt. rewrite Er. intros [[<- <-]|[_ Hi]]%lookup_insert_Some; [by repeat split; auto|].
    apply (runtime_kept d); [|by apply Hrt]. intros k r. unfold control_at. by rewrite Ec.
Qed.
Lemma turn_same_ok t t' d d' : (t <= t')%Z -> turn_ok t d -> runtimes d' = runtimes d -> controls d' = controls d -> turn_ok t' d'.
Proof.
  intros Ht [Hn Hrows Hpl Hlim Hfl Hin Hrt] Er Ec. unfold named, control_at, controls_of in *. split; unfold named, control_at, controls_of; rewrite ?Ec; auto.
  - intros k r Hr. destruct (Hrows _ _ Hr) as [H1 [H2 H3] H4]. split; [done| |by rewrite Er].
    split; [lia|]. intros s Hs. specialize (H3 s Hs). lia.
  - intros i rt. rewrite Er. intros Hi. apply (runtime_kept d); [|by apply Hrt]. intros k r. unfold control_at. by rewrite Ec.
Qed.

(** One row was settled or dispatched; its command stays. *)
Lemma turn_update_ok t t' d d' k i b r st di re : (t <= t')%Z -> turn_ok t d -> live_turn d i b -> control_at d k i r -> runtimes d' = runtimes d ->
  controls d' = <[k := set_sw st di re r]> (controls d) -> recorded (set_sw st di re r) -> (forall s, di = Some s -> (s <= t')%Z) ->
  (in_flight (set_sw st di re r) = true -> forall j r', j <> k -> control_at d j i r' -> in_flight r' = false) -> turn_ok t' d'.
Proof.
  intros Ht Hok Hl [Hk Hi] Er Ec Hrec Hdi Hfl. pose proof Hok as [Hn Hrows Hpl Hlim _ Hin _].
  destruct (Hrows _ _ Hk) as [_ [H2 _] (rt & Hrt & Hbd)]. rewrite Hi in Hrt.
  rewrite (live_runtime _ _ _ _ Hl Hrt) in Hbd. cbn in Hbd.
  eapply (turn_row_ok t t' d d' k i b); try done; cbn; [by apply Hn|lia| | |].
  - intros j r' Hne Hj. apply not_true_iff_false. intros Hp. apply Hne. symmetry. by eapply Hpl.
  - left. split; [by eexists|]. intros r' Hr'. by simplify_eq.
  - unfold is_interrupt at 1. cbn. intros Hint j r' Hne Hj. apply not_true_iff_false. intros Hint'. apply Hne.
    by eapply (Hin i j k r' r).
Qed.

Lemma steering_free c d : steering_taken c d = false -> controls d !! sc_ID c = None /\ forall j r, controls d !! j = Some r -> same_place c (sw_Command r) = false.
Proof.
  unfold steering_taken. rewrite !orb_false_iff. intros [[[Hf _] Hp] _]. split.
  - apply bool_decide_eq_false in Hf. by apply eq_None_not_Some.
  - intros j r Hj. apply not_true_iff_false. intros Hp'. apply not_true_iff_false in Hp. apply Hp, existsb_exists.
    exists (sw_Command r). split; [|done]. apply list_elem_of_In, list_elem_of_fmap. exists r. split; [done|].
    apply list_elem_of_fmap. exists (j, r). split; [done|]. by apply elem_of_map_to_list.
Qed.

Lemma turn_move_ok t t' d d' : (t <= t')%Z -> turn_ok t d -> turn_move t t' d d' -> turn_ok t' d'.
Proof.
  intros Ht Hok Hm. pose proof Hok as [Hn Hrows _ _ Hfl _ _].
  destruct Hm as [Er Ec|b Ec Hfree Hv Er|k i r b Er Ec Hl Hid Hex Hb Hrec Hst Hdi Hcr Htk Hlen Hni|k i r b now Er Hl Hk Hst Hnf Hnow Hrec Ec
                 |k i r b now out Er Hl Hk Hst Hnow Hal Hrec Ec|i b c digest Hl Hb Hset Hnone Hrec tr Hd Er].
  - by eapply turn_same_ok.
  - by eapply turn_bind_ok.
  - apply steering_free in Htk as [Hnew Hplaces]. rewrite <- Hid in Hnew.
    eapply (turn_row_ok t t' d d' k i b r); try done; [lia|by rewrite Hdi|intros j r' _; by apply Hplaces|by right| |].
    + unfold in_flight at 1. by rewrite Hst.
    + intros _ j r' _ Hj. by eapply existsb_controls.
  - eapply turn_update_ok; try done; [by intros s [= <-]; lia|]. intros _ j r' _ Hj. by eapply existsb_controls.
  - pose proof (proj1 Hk) as Hk'. destruct (Hrows _ _ Hk') as [_ [_ Hs] _].
    eapply turn_update_ok; try done; [intros s Hd'; specialize (Hs s Hd'); lia|].
    intros _ j r' Hne Hj. apply not_true_iff_false. intros Hf. apply Hne. eapply (Hfl i j k r' r); try done.
    unfold in_flight. by rewrite Hst.
  - destruct (close_rows t t' d d' i (cc_TurnStatus c) Hset Hnone) as [Hb1 Hb2]. by eapply turn_close_ok.
Qed.

End controls.
