(* ===== verification/Turns.v ===== *)
(** Turns under every interleaving: what holds of the controls in every
    reachable state, that a sealed transcript is final, and that a live turn can
    always be closed. *)
From S2P Require Import Prelude Canonical Json Core Run Session Recovery Verification Action Store Binding Journal WorkerQueue Preparation Control Sandbox Offline Codex Db WorkerStore ExecStore ControlStore Txn Workers TurnDemo Leases Executions Commits Lanes Controls.

Section turns.
Context `{Hash}.

Lemma wstep_turn s s' : wreachable s -> named s.2 -> wstep s s' -> turn_move s.1 s'.1 s.2 s'.2.
Proof.
  intros Hr Hn Hst. pose proof (wreachable_time _ Hr) as Ht. destruct (lanes_reachable _ Hr) as [_ [Hk _]].
  destruct Hst as [t t' c e d d' n He _ Hc|t t' m j o d _ _ _ _]; cbn [fst snd] in *; [by eapply turn_effect | by apply tm_same].
Qed.

Lemma turns_reachable s : wreachable s -> turn_ok s.1 s.2.
Proof.
  revert s. apply wreachable_ind.
  - intros t m _. split; cbn; try (intros *; unfold control_at; cbn; rewrite lookup_empty; naive_solver).
    + by intros k r.
    + intros i. by vm_compute; lia.
  - intros s s' Hr Hok Hst. pose proof (wstep_time _ _ Hst) as Ht. eapply turn_move_ok; [exact Ht|exact Hok|].
    apply wstep_turn; [done|apply (to_named _ _ Hok)|done].
Qed.

(** The runtime of a turn belongs to its execution. *)
Definition bound (d : Db) (i : string) (r : RuntimeRow) : Prop :=
  exists run x, codex_rows d !! run = Some x /\ ex_ID x = i /\ ex_Token x = cb_Token (ru_Binding r).
Lemma bound_reachable s : wreachable s -> forall i r, runtimes s.2 !! i = Some r -> bound s.2 i r.
Proof.
  revert s. apply (wreachable_ind (fun s => forall i r, runtimes s.2 !! i = Some r -> bound s.2 i r)); [by intros t m _ i r|]. intros s s' Hr Hbd Hst.
  assert (forall i r, bound s.2 i r -> bound s'.2 i r) as Hkeep.
  { intros i r (run & x & Hx & Hi & Ht). destruct (lane_rows_advance _ _ Hr (rtc_once _ _ Hst)) as [_ Hadv].
    destruct (Hadv _ _ Hx) as (x' & Hx' & [(Ei & _ & _ & Et & _) _ _]). exists run, x'. split_and!; congruence. }
  intros i r Hi. apply Hkeep. destruct (lanes_reachable _ Hr) as [_ [Hk _]].
  destruct Hst as [t t' c e d d' n _ _ Hc|t t' m j o d _ _ _ _]; cbn [fst snd] in *; [|by apply Hbd].
  revert Hi. destruct (runtime_effect _ _ _ _ _ Hk Hc) as [|b x _ _ Hx Ht|b tr dg Hb _ _].
  - apply Hbd.
  - intros [[<- <-]|[_ Hi]]%lookup_insert_Some; [|by apply Hbd]. exists (xt_RunID (cb_Token b)), x. split; [done|].
    destruct (ky_id _ _ Hk _ _ Hx) as [-> _]. by rewrite Ht.
  - intros [[<- <-]|[_ Hi]]%lookup_insert_Some; [|by apply Hbd]. exact (Hbd _ _ Hb).
Qed.

(** ** A sealed turn is final *)

Lemma sealed_turn_final t t' d d' i b tr dg : turn_move t t' d d' -> runtimes d !! i = Some (mkRuntimeRow b "SEALED" tr dg) ->
  runtimes d' !! i = runtimes d !! i /\ forall k r, control_at d k i r -> control_at d' k i r.
Proof.
  intros Hm Hi. destruct Hm as [Er Ec|b' Ec Hfree _ Er|k j r b' Er Ec [Hl _] Hid Hex _ _ _ _ _ Htk _ _|k j r b' now Er [Hl _] [Hk Hj] _ _ _ _ Ec
                 |k j r b' now out Er [Hl _] [Hk Hj] _ _ _ _ Ec|j b' c digest [Hl _] _ Hset _ _ tr' _ Er]; unfold control_at, active in *.
  - by rewrite Er, Ec.
  - rewrite Er, Ec, lookup_insert_ne by congruence. done.
  - apply steering_free in Htk as [Hnew _]. rewrite Er, Ec. split; [done|]. intros k0 r0 [Hk He]. split; [|done].
    rewrite lookup_insert_ne; congruence.
  - rewrite Er, Ec. split; [done|]. intros k0 r0 [Hk0 He]. split; [|done]. rewrite lookup_insert_ne; congruence.
  - rewrite Er, Ec. split; [done|]. intros k0 r0 [Hk0 He]. split; [|done]. rewrite lookup_insert_ne; congruence.
  - assert (j <> i) as Hne by congruence. rewrite Er, lookup_insert_ne by done. split; [done|]. intros k r [Hk He]. split; [|done].
    destruct (Hset _ _ Hk) as (r' & Hr' & Hcase). rewrite Hr'. f_equal.
    unfold of_execution in Hcase. rewrite bool_decide_eq_false_2 in Hcase by congruence. exact Hcase.
Qed.

(** C16: The controls of a turn, in every reachable state.  An execution has at
    most sixty-four, at most one of them is in flight and at most one is an
    interrupt, no two have the same place in their run's sequence; every one is
    a valid delivery for the turn its execution is bound to, and the digest of
    a sealed transcript is the digest of exactly the deliveries in the table. *)
Theorem controls_ordered s : wreachable s ->
  (forall i, length (controls_of i s.2) <= MaxControls)
  /\ (forall i k k' r r', control_at s.2 k i r -> control_at s.2 k' i r' ->
        (in_flight r = true /\ in_flight r' = true) \/ (is_interrupt r = true /\ is_interrupt r' = true)
        \/ same_place (sw_Command r) (sw_Command r') = true -> k = k')
  /\ (forall k r, controls s.2 !! k = Some r -> sc_ID (sw_Command r) = k /\ recorded r
        /\ exists rt, runtimes s.2 !! sw_Execution r = Some rt /\ ru_Binding rt = pl_Binding (sw_Payload r))
  /\ (forall i rt, runtimes s.2 !! i = Some rt -> runtime_ok s.2 i rt).
Proof.
  intros Hr. destruct (turns_reachable s Hr) as [Hn Hrows Hpl Hlim Hfl Hin Hrt]. split_and!; [done| | |done].
  - intros i k k' r r' Hk Hk' [[? ?]|[[? ?]|?]]; [by eapply Hfl | by eapply Hin | by eapply Hpl; [apply Hk | apply Hk'|]].
  - intros k r Hk. destruct (Hrows _ _ Hk) as [H1 _ H3]. split_and!; [by apply Hn | done | done].
Qed.

(** C17: A sealed turn is final.  Whatever any client does after the transcript
    was sealed, the runtime keeps it with its digest, and the execution keeps
    exactly the controls the transcript lists, as it lists them. *)
Theorem transcripts_final s s' i b tr dg : wreachable s -> rtc wstep s s' ->
  runtimes s.2 !! i = Some (mkRuntimeRow b "SEALED" tr dg) ->
  runtimes s'.2 !! i = Some (mkRuntimeRow b "SEALED" tr dg)
  /\ (forall k r, control_at s'.2 k i r <-> control_at s.2 k i r).
Proof.
  intros Hr Hss Hi. assert (runtimes s'.2 !! i = Some (mkRuntimeRow b "SEALED" tr dg) /\ (forall k r, control_at s.2 k i r -> control_at s'.2 k i r)) as [Hi' Hk].
  { revert Hr Hi. induction Hss as [s|s s1 s' Hst Hss IH]; [done|]. intros Hr Hi.
    destruct (sealed_turn_final _ _ _ _ _ _ _ _ (wstep_turn _ _ Hr (to_named _ _ (turns_reachable _ Hr)) Hst) Hi) as [He Hk].
    rewrite Hi in He. destruct (IH (wreachable_step _ _ Hr Hst) He) as [H1 H2]. split; [done|]. eauto. }
  split; [done|]. intros k r. split; [|apply Hk]. intros Hk'.
  destruct (to_runtimes _ _ (turns_reachable _ Hr) _ _ Hi) as (_ & _ & [?|(tr1 & dg1 & Hrow & _ & _ & Hc)]); [done|].
  destruct (to_runtimes _ _ (turns_reachable _ (wreachable_steps _ _ Hr Hss)) _ _ Hi') as (_ & _ & [?|(tr2 & dg2 & Hrow' & _ & _ & Hc')]); [done|].
  injection Hrow as -> ->. injection Hrow' as <- <-. cbn in *.
  destruct (proj1 (Hc (delivery_of_row r))) as (k0 & r0 & Hk0 & He); [by apply Hc'; eauto|].
  assert (k0 = k) as ->.
  { pose proof (to_named _ _ (turns_reachable _ (wreachable_steps _ _ Hr Hss))) as Hn'. pose proof (to_named _ _ (turns_reachable _ Hr)) as Hn.
    rewrite <- (Hn' _ _ (proj1 Hk')), <- (Hn _ _ (proj1 Hk0)). unfold delivery_of_row in He. congruence. }
  apply Hk in Hk0 as Hk1. destruct Hk1, Hk'. by simplify_eq.
Qed.

(** ** A live turn can be closed *)

(** The states the closing UPDATE leaves are settled, and fit what was observed. *)
Lemma settled_state ts st dg re c p t : st ∈ ["QUEUED"; "DISPATCHING"; "INTERRUPT_ACKNOWLEDGED"] ->
  ControlDelivery_state (mkControlDelivery c p st dg re) = Ok tt ->
  ControlDelivery_state (mkControlDelivery c p (closed_state ts st) dg (Some t)) = Ok tt
  /\ Control.settled (mkControlDelivery c p (closed_state ts st) dg (Some t)).
Proof.
  intros Hst Hv. unfold ControlDelivery_state, Control.settled, closed_state in *. cbn in *.
  unfold ControlQueued, ControlDispatching, ControlAccepted, ControlInterruptACK, ControlInterrupted, ControlUnknown, ControlNotApplied in *.
  apply elem_of_cons in Hst as [->|[->|[->|[]%elem_of_nil]%elem_of_cons]%elem_of_cons].
  - decided. split; [done | split; done].
  - decided. case_decide; [done|]. rewrite decide_False by (intros [?|?]; naive_solver). split; [done | split; done].
  - destruct (decide (ts = "interrupted")) as [->|Hts]; [|rewrite (decide_False (P := _ /\ ts = _)) by tauto].
    all: decided; repeat (case_decide; [done|]); rewrite (decide_False (P := dg = None \/ _)) by (intros [?|?]; tauto || done).
    all: rewrite ?decide_False by (intros [[? ?]|[_ ?]]; [done | tauto]); split; [done | split; done].
Qed.

(** Settling what is open keeps a delivery valid, and leaves nothing pending. *)
Lemma settled_row ts now r : recorded r -> still_open r = true -> (0 < now)%Z -> (sc_CreatedAt (sw_Command r) <= now)%Z ->
  (forall s, sw_DispatchedAt r = Some s -> (s <= now)%Z) ->
  recorded (settle_row ts now r) /\ Control.settled (delivery_of_row (settle_row ts now r)).
Proof.
  intros Hv Ho Hn Hc Hd. apply bool_decide_eq_true in Ho. unfold recorded, ControlDelivery_Validate in *. cbn in *.
  destruct (Digest _) as [dg|]; [|done]. case_decide; [done|].
  destruct (observed_badly (sw_DispatchedAt r) (sc_CreatedAt (sw_Command r))); [done|].
  rewrite (bool_decide_eq_false_2 (now < _)%Z), orb_false_r by lia. unfold IsZero. rewrite bool_decide_eq_false_2 by lia. cbn in *.
  replace (match sw_DispatchedAt r with Some s => bool_decide (now < s)%Z | None => false end) with false.
  2:{ destruct (sw_DispatchedAt r) as [s|]; [|done]. specialize (Hd s eq_refl). symmetry. apply bool_decide_eq_false. lia. }
  match type of Hv with (if ?b then _ else _) = _ => destruct b; [done|] end.
  by eapply settled_state.
Qed.
Lemma closed_row r : still_open r = false -> Control.settled (delivery_of_row r).
Proof.
  unfold still_open. rewrite bool_decide_eq_false. intros Ho. unfold Control.settled. cbn. split; intros He; apply Ho; rewrite He; set_solver.
Qed.

Lemma scan_all_total l e d n : Forall recorded l -> scan_all l e d n = Ok (delivery_of_row <$> l, d, n).
Proof.
  induction 1 as [|r l Hr _ IH]; [done|]. cbn [scan_all]. unfold mbind, txn_bind, scanControl. cbn.
  unfold mbind, txn_bind. cbn. rewrite Hr. cbn. by rewrite IH.
Qed.
Lemma settle_all_total ts l e d n : exists d' n', settle_all ts l e d n = Ok (tt, d', n').
Proof. revert d n. induction l as [|r l IH]; intros d n; cbn [settle_all]; [by eexists _, _|]. unfold mbind, txn_bind. cbn. apply IH. Qed.

Lemma inbox_by_run_key T d i b : inbox_ok T d -> inbox d !! i = Some b -> inbox_by_run (ib_RunID b) d = Some (i, b).
Proof.
  intros Hok Hb. unfold inbox_by_run. assert ((i, b) ∈ filter (fun p => ib_RunID p.2 = ib_RunID b) (map_to_list (inbox d))) as Hin
    by (apply list_elem_of_filter; split; [done | by apply elem_of_map_to_list]).
  destruct (head _) as [[j c]|] eqn:E; [|by apply head_None in E; rewrite E in Hin; apply elem_of_nil in Hin].
  apply head_Some_elem_of, list_elem_of_filter in E as [Hr Hc%elem_of_map_to_list]. cbn in Hr.
  assert (j = i) as -> by (by eapply (io_runs _ _ Hok)). by simplify_eq.
Qed.

(** The worker of an execution can lock it, whatever has become of its lease. *)
Lemma lock_ready T d run x e n : inbox_ok T d -> codex_ok T d -> codex_rows d !! run = Some x -> ExecToken_Valid (ex_Token x) = true ->
  m_Mode (recoveryState (core d)) = "NORMAL" \/ m_Mode (recoveryState (core d)) = "RECOVERY_RECONCILIATION" ->
  exists r, lock_execution codex_lane (ex_Worker x) (ex_Token x) false e d n = Ok (x, r, d, n).
Proof.
  intros Hin Hc Hx Hv Hm. pose proof (lo_rows _ _ _ _ _ Hc _ _ Hx) as Hs. destruct (ky_id _ _ (lo_keyed _ _ _ _ _ Hc) _ _ Hx) as [_ Hrun].
  destruct (st_grounded _ _ _ _ _ _ _ Hs) as (b & m & k & pr & Hb & Hbr & _ & Ho & Hik & _ & _ & Hver & _ & Hwp).
  unfold prep_Verify in Hver. ok_inv. destruct a. passed.
  match goal with Hr : VerifyReceipt _ _ = Ok _ |- _ => apply verified in Hr as (Hva & _ & Hw) end.
  apply Validate_spec in Hva as ([Hi Hri _ Hrm _ _] & _). cbn in *. rewrite <- Hbr in Hrun.
  pose proof (input_and_task_run _ _ _ _ _ Hik) as Hrr.
  unfold lock_execution, lockWorkerPlatform. rewrite decide_False by (intros [?|?]; congruence). unfold mbind, txn_bind, gets. cbn beta iota.
  rewrite decide_False by (intros [? ?]; tauto). unfold mret, txn_ret, map_error. cbn beta iota.
  rewrite Hrun, (inbox_by_run_key _ _ _ _ Hin Hb). 
  unfold scanInbox, row. unfold mbind, txn_bind. cbn. rewrite Hi. rewrite decide_False by (intros [?|?]; congruence). cbn. rewrite Ho. cbn.
  rewrite decide_False by (intros [?|?]; congruence). rewrite Hbr, Hx. cbn.
  unfold scan_execution, row, map_error, mbind, txn_bind. cbn. rewrite Hv. cbn.
  rewrite (st_digest _ _ _ _ _ _ _ Hs : CodexProfile_Digest _ = _). rewrite decide_False by auto. cbn.
  rewrite decide_False by (intros [?|?]; congruence). by eexists.
Qed.

Lemma strictly_sorted l : StronglySorted by_sequence l -> NoDup l ->
  (forall x y, x ∈ l -> y ∈ l -> sc_Sequence (sw_Command x) = sc_Sequence (sw_Command y) -> x = y) ->
  StronglySorted N.lt ((fun r => sc_Sequence (sw_Command r)) <$> l).
Proof.
  induction 1 as [|x l Hs IH Hall]; intros Hn Hinj; csimpl; constructor.
  - apply NoDup_cons in Hn as [_ Hn]. apply IH; [done|]. intros y z Hy Hz. apply Hinj; by right.
  - apply Forall_fmap, Forall_forall. intros y Hy. rewrite Forall_forall in Hall. specialize (Hall y Hy). unfold by_sequence in Hall. cbn.
    apply N.le_neq. split; [done|]. intros He. apply NoDup_cons in Hn as [Hni _]. apply Hni.
    assert (x = y) as -> by (apply Hinj; [left | by right | done]). done.
Qed.

Section closing.
Context (t t' : time) (d d1 : Db) (i : string) (b : ControlBinding) (c : ControlClose).
Hypotheses (Ht : (0 < t)%Z) (Hok : turn_ok t d) (Hl : live_turn d i b) (Hc : ControlClose_Validate c = Ok tt) (Hb : cc_Binding c = b).
Hypothesis Hset : forall k r, controls d !! k = Some r -> exists r', controls d1 !! k = Some r' /\
  if of_execution i r && still_open r then exists now, (t <= now <= t')%Z /\ r' = settle_row (cc_TurnStatus c) now r else r' = r.
Hypothesis Hnone : forall k, controls d !! k = None -> controls d1 !! k = None.

Lemma closing_row k r' : control_at d1 k i r' -> recorded r' /\ Control.settled (delivery_of_row r') /\ pl_Binding (sw_Payload r') = b
  /\ exists r, control_at d k i r /\ sw_Command r' = sw_Command r.
Proof.
  intros [Hr' Hi]. destruct (controls d !! k) as [r|] eqn:Hk; [|by rewrite (Hnone _ Hk) in Hr'].
  destruct (Hset _ _ Hk) as (r2 & Hr2 & Hcase). assert (r2 = r') as -> by congruence. destruct (to_rows _ _ Hok _ _ Hk) as [Hrec [Hcr Hdi] (rt & Hrt & Hbd)].
  assert (sw_Execution r = i) as He by (destruct (_ && _); [by destruct Hcase as (now & _ & ->) | by subst r']).
  rewrite He in Hrt. rewrite (live_runtime _ _ _ _ Hl Hrt) in Hbd. cbn in Hbd.
  unfold of_execution in Hcase. rewrite (bool_decide_eq_true_2 _ He) in Hcase. cbn in Hcase. destruct (still_open r) eqn:Ho.
  - destruct Hcase as (now & Hnow & ->). edestruct (settled_row (cc_TurnStatus c) now r) as [H1 H2]; [done|done|lia|lia| |].
    { intros s Hs. specialize (Hdi s Hs). lia. }
    split_and!; [done|done|done|]. exists r. done.
  - subst r'. split_and!; [done|by apply closed_row|done|]. exists r. done.
Qed.

Lemma closing_sealed : let l := merge_sort by_sequence (controls_of i d1) in
  Forall recorded l /\ sealed (mkTranscript 2 c (delivery_of_row <$> l)).
Proof.
  intros l. destruct (close_rows t t' d d1 i (cc_TurnStatus c) Hset Hnone) as [Hbwd _].
  assert (named d1) as Hn. { intros k r' Hr'. destruct (Hbwd _ _ Hr') as (r & Hk & [(-> & _) _ _]). by apply (to_named _ _ Hok). }
  assert (forall r, r ∈ l <-> exists k, control_at d1 k i r) as Hel by (intros r; unfold l; by rewrite merge_sort_Permutation, elem_controls_of).
  assert (NoDup l) as Hnd by (unfold l; rewrite merge_sort_Permutation; by apply controls_of_NoDup).
  split; [apply Forall_forall; intros r (k & Hk)%Hel; by destruct (closing_row _ _ Hk)|].
  split; cbn [ct_Version ct_Close ct_Deliveries]; [done|done| | | |].
  - rewrite length_fmap. unfold l. rewrite merge_sort_Permutation. etransitivity; [|apply (to_limit _ _ Hok i)].
    etransitivity; [apply (controls_count d d1 i []); [apply (to_named _ _ Hok)|done|]|simpl; lia].
    intros k r' Hr'. left. destruct (closing_row _ _ Hr') as (_ & _ & _ & r & ? & _). by exists r.
  - apply Forall_fmap, Forall_forall. intros r (k & Hk)%Hel. destruct (closing_row _ _ Hk) as (H1 & H2 & H3 & _). split; [done|]. split; [cbn; congruence | done].
  - rewrite <- list_fmap_compose. apply (named_ids d1); [done..|]. intros r (k & Hk & _)%Hel. by exists k.
  - rewrite <- list_fmap_compose. apply strictly_sorted; [|done|].
    + apply Sorted_StronglySorted; [intros x y z; unfold by_sequence; lia|]. apply Sorted_merge_sort. intros x y. unfold by_sequence. lia.
    + intros x y (k & Hx)%Hel (k' & Hy)%Hel He. destruct (closing_row _ _ Hx) as (Rx & _ & Bx & rx & Kx & Cx), (closing_row _ _ Hy) as (Ry & _ & By & ry & Ky & Cy).
      apply Delivery_ok in Rx as (_ & _ & Ex & Nx & _), Ry as (_ & _ & Ey & Ny & _). cbn in *.
      assert (k = k') as <-; [|destruct Hx, Hy; congruence].
      eapply (to_places _ _ Hok); [apply Kx|apply Ky|]. unfold same_place. rewrite <- Cx, <- Cy. apply bool_decide_eq_true. split_and!; congruence.
Qed.
End closing.

Lemma runtime_ready d i b e n : live_turn d i b -> ControlBinding_Validate b = Ok tt ->
  lockControlRuntime b e d n = Ok (mkRuntime b "ACTIVE" None "", d, n).
Proof.
  intros [Hl Hi] Hv. unfold lockControlRuntime, controlRuntime, mbind, txn_bind, gets. rewrite Hi, Hl. cbn.
  unfold mbind, txn_bind. cbn. rewrite Hv. cbn. decided. unfold gets. cbn.
  cbn. by rewrite decide_False by (intros Hn; by apply Hn).
Qed.

(** C11: A live turn can always be closed.  In every reachable state, whatever
    its controls are waiting for and whether or not the lease has run out, a
    valid closing report of the execution's worker commits: it seals the turn
    into a transcript of that report, with a digest, under which the runtime is
    then sealed.  The platform is not starting up or degraded, and the clock
    does not run backwards. *)
Theorem turns_close s t' i b c e : wreachable s -> runtimes s.2 !! i = Some (active b) -> ControlClose_Validate c = Ok tt -> cc_Binding c = b ->
  m_Mode (recoveryState (core s.2)) = "NORMAL" \/ m_Mode (recoveryState (core s.2)) = "RECOVERY_RECONCILIATION" -> env_ok s.1 t' e ->
  (N.of_nat (length (journal s.2)) + 1 < u64_modulus)%N ->
  exists x tr digest d' n, codex_rows s.2 !! xt_RunID (cb_Token b) = Some x /\ ex_Token x = cb_Token b
    /\ CloseCodexControl (ex_Worker x) c e s.2 0 = Ok (Commit tr, d', n) /\ ct_Close tr = c
    /\ runtimes d' !! i = Some (mkRuntimeRow b "SEALED" (Some tr) (Some digest)).
Proof.
  intros Hr Hi Hv Hb Hm He Hj. pose proof (turns_reachable s Hr) as Hok. destruct (lanes_reachable s Hr) as [_ Hco].
  destruct (bound_reachable s Hr i _ Hi) as (run & x & Hx & Hid & Htok). cbn in Htok.
  destruct (ky_id _ _ (lo_keyed _ _ _ _ _ Hco) _ _ Hx) as [Hid' Hrun]. rewrite Htok in Hid', Hrun.
  assert (live_turn s.2 i b) as Hl by (split; [done | congruence]).
  destruct (to_runtimes _ _ Hok _ _ Hi) as (_ & Hbv & _). cbn in Hbv.
  assert (ExecToken_Valid (ex_Token x) = true) as Htv.
  { rewrite Htok. unfold ControlBinding_Validate in Hbv. destruct (ExecToken_Valid (cb_Token b)); done. }
  destruct (lock_ready _ _ _ _ e 0 (inbox_reachable s Hr) Hco Hx Htv Hm) as [r Hlock].
  destruct (settle_all_total (cc_TurnStatus c) (filter (fun r => still_open r = true) (controls_of i s.2)) e s.2 0) as (d1 & n1 & Hs).
  pose proof (settle_runtimes _ _ _ _ _ _ _ _ Hs) as Hrt1. 
  destruct (settle_rows _ _ _ _ _ _ _ _ s.1 t' (to_named _ _ Hok) He Hs) as [Hset Hnone].
  destruct (closing_sealed s.1 t' s.2 d1 i b c (wreachable_time _ Hr) Hok Hl Hv Hb Hset Hnone) as [Hrec Hsealed].
  apply Digest_sealed in Hsealed. destruct (ControlTranscript_Digest _) as [digest|] eqn:Hd; [|done].
  set (tr := mkTranscript 2 c _) in *. set (d2 := set_runtimes (<[i := mkRuntimeRow b "SEALED" (Some tr) (Some digest)]> (runtimes s.2)) d1).
  assert (journal d2 = journal s.2) as Hj2.
  { apply (keeps_settle_all journal) in Hs; [|intros r0; unfold write_control; keep]. by rewrite <- Hs. }
  destruct (audit_ready "worker.codex.controls-sealed" (xt_RunID (cb_Token b)) (ControlTranscript_json tr) e d2 n1) as [ev Haudit];
    [unfold chained; rewrite Hj2; by apply journal_reachable|by rewrite Hj2|done|].
  exists x, tr, digest, (set_journal (journal d2 ++ [ev]) d2), (S n1).
  split; [congruence|]. split; [done|]. split; [|split; [done|cbn; by rewrite lookup_insert_eq]].
  unfold CloseCodexControl. rewrite Hv. cbn [is_ok negb]. rewrite Hb, <- Htok. unfold mbind, txn_bind. rewrite Hlock. cbn beta iota.
  rewrite (runtime_ready s.2 i b) by done. cbn beta iota. rewrite decide_False by done. unfold gets at 1. rewrite Htok, <- Hid', Hid, Hs.
  cbn beta iota zeta. unfold gets. rewrite scan_all_total by done. fold tr. rewrite Hd. cbn beta iota.
  unfold of_outcome, modify. rewrite Hrt1, Hi. cbn [ru_Binding active]. fold d2. rewrite Haudit. done.
Qed.

End turns.

(** ** Examples: the controls of the turn *)

Lemma still_clock t : env_ok t t (at_clock t).
Proof. split; intros; unfold at_clock, seconds; cbn; lia. Qed.
Lemma sealed_reachable : wreachable (turn_state sealed_calls).
Proof. apply turn_reachable. vm_compute. reflexivity. Qed.
Lemma sealed_runtime : exists tr dg, runtimes (turn_state sealed_calls).2 !! turn_id = Some (mkRuntimeRow turn_binding "SEALED" tr dg).
Proof. vm_compute. eexists _, _. reflexivity. Qed.
Lemma running_turn : runtimes (turn_state running_calls).2 !! turn_id = Some (active turn_binding).
Proof. vm_compute. reflexivity. Qed.
Lemma running_platform : m_Mode (recoveryState (core (turn_state running_calls).2)) = "NORMAL".
Proof. vm_compute. reflexivity. Qed.

Lemma controls_ordered_witness : length (controls_of turn_id (turn_state running_calls).2) <= MaxControls.
Proof. destruct (controls_ordered (turn_state running_calls) running_reachable) as [Hl _]. apply Hl. Defined.

Lemma transcripts_final_witness : exists tr dg, runtimes (turn_state finished_calls).2 !! turn_id = Some (mkRuntimeRow turn_binding "SEALED" tr dg).
Proof.
  destruct sealed_runtime as (tr & dg & Hs). exists tr, dg.
  refine (proj1 (transcripts_final (turn_state sealed_calls) (turn_state finished_calls) turn_id turn_binding tr dg sealed_reachable _ Hs)).
  apply (turn_steps sealed_calls). exact finished_replays.
Defined.

Lemma turns_close_witness : exists w tr d' n,
  CloseCodexControl w turn_close (at_clock (turn_state running_calls).1) (turn_state running_calls).2 0 = Ok (Commit tr, d', n)
  /\ ct_Close tr = turn_close.
Proof.
  destruct (turns_close (turn_state running_calls) (turn_state running_calls).1 turn_id turn_binding turn_close
              (at_clock (turn_state running_calls).1) running_reachable running_turn) as (x & tr & dg & d' & n & _ & _ & Hc & Ht & _).
  - vm_compute. reflexivity.
  - reflexivity.
  - left. exact running_platform.
  - apply still_clock.
  - vm_compute. reflexivity.
  - exists (ex_Worker x), tr, d', n. exact (conj Hc Ht).
Defined.
