(* ===== verification/Continuations.v ===== *)
(** A run that was stopped by an observed interruption is continued by another
    run: what the decision does, and that it is made once. *)
From S2P Require Import Prelude Canonical Json Core Run Session Recovery Verification Action Store Binding Journal WorkerQueue Preparation Control Sandbox Offline Codex Db WorkerStore ExecStore ControlStore CoreStore ActionStore OutboxStore ContinueStore Txn OutboxMoves Workers TurnDemo Leases Executions Lanes.

Section continuations.
Context `{Hash}.

(** ** The successor *)

Lemma successor_ok actor q st now c : successor actor q st now = Ok c -> ContinuationReceipt_Validate c = Ok tt /\ cn_Request c = q /\ cn_Actor c = actor
  /\ cn_Run c = mkRun (cq_RunID q) (r_TaskContractDigest (st_run st)) (r_RunInputManifestDigest (cn_Run c)) "RUNNING" 1 1 (cq_AttemptID q) "RUNTIME"
  /\ cn_Session c = Session_New (cq_RunID q) 1 /\ cn_Attempt c = mkAttempt (cq_AttemptID q) 1 now zero_time
  /\ (let i := as_Input (st_assignment st) in exists ref, SourceCheckpoint_ContinuationRef (st_checkpoint st) = Ok ref
      /\ cn_Input c = mkRunInput (Some ref) (cq_RunID q) (ri_TaskContractDigest i) (ri_ContextRefs i) (ri_RuntimeProfile i)
                        (ri_ToolProfile i) (ri_WorkerProfile i) (ri_PolicyProfile i))
  /\ RunInputManifest_Digest (cn_Input c) = Ok (r_RunInputManifestDigest (cn_Run c)).
Proof.
  unfold successor. intros Hs. ok_inv. match goal with E : StartAttempt _ _ _ = Ok _ |- _ => unfold StartAttempt in E; ok_inv end.
  match goal with E : ContinuationReceipt_Validate _ = Ok ?u |- _ => destruct u end. split_and!; try done. by eexists.
Qed.

(** ** The decision *)

Definition set_stopped (r : ExecRow CodexProfile CodexReceipt) : ExecRow CodexProfile CodexReceipt := set_ex_State Stopped r.
(** The work item, on the successor. *)
Definition redirected (run : string) (w : WorkItem) : WorkItem := set_wi_Version (wi_Version w + 1) (set_wi_Active (wi_ActiveTaskContractDigest w) run w).

(** The turn was interrupted on purpose, its processes are gone, and nothing of it may be delivered. *)
Definition stopped_turn (d : Db) (x : ExecRow CodexProfile CodexReceipt) : Prop := exists b tr dg,
  runtimes d !! xt_ID (ex_Token x) = Some (mkRuntimeRow b "SEALED" (Some tr) (Some dg)) /\ ControlTranscript_Digest tr = Ok dg
  /\ cc_Binding (ct_Close tr) = b /\ cb_Token b = ex_Token x /\ Continuable tr = true /\ AllowsDelivery tr = false.

Lemma continuable_no_delivery tr : Continuable tr = true -> AllowsDelivery tr = false.
Proof.
  unfold Continuable, AllowsDelivery. intros Hc. repeat (apply andb_true_iff in Hc as [Hc ?]).
  match goal with Ht : bool_decide (cc_TurnStatus _ = _) = true |- _ => apply bool_decide_eq_true in Ht as -> end.
  by rewrite andb_false_r.
Qed.

Lemma stoppable_turn actor q epoch bx d st : stoppable actor q epoch bx d st -> stopped_turn d (st_execution st).
Proof.
  intros Hst. destruct (sp_controls _ _ _ _ _ _ Hst) as (b & tr & dg & Hr & Hd & Hb & Hc & Ht & _).
  exists b, tr, dg. split_and!; try done. by apply continuable_no_delivery.
Qed.

Lemma distinct_runs q : ContinueRequest_Validate q = Ok tt -> cq_RunID q <> cq_SourceRunID q.
Proof. unfold ContinueRequest_Validate. intros Hv. ok_inv. guards. done. Qed.

(** The attempts after it: the successor's is there, the source's current one ended. *)
Definition attempts_after (src run : string) (r : Run) (aid : string) (now : time) (l : gmap string (gmap string Attempt)) :
    gmap string (gmap string Attempt) :=
  <[src := ended_attempts (r_CurrentAttemptID r) now (default ∅ (l !! src))]>
    (<[run := <[aid := mkAttempt aid 1 (micro now) zero_time]> (default ∅ (l !! run))]> l).

(** The core tables after it. *)
Lemma taken_over q st c dg now m r s w : cn_Run c = r -> cn_Session c = s -> r_ID r = cq_RunID q -> s_RunID s = cq_RunID q ->
  cn_Attempt c = mkAttempt (cq_AttemptID q) 1 now zero_time -> cq_RunID q <> cq_SourceRunID q ->
  runs m !! cq_SourceRunID q = Some (st_run st) -> sessions m !! cq_SourceRunID q = Some (st_session st) ->
  works m !! tc_WorkItemID (as_Task (st_assignment st)) = Some w ->
  redirect_work (tc_WorkItemID (as_Task (st_assignment st))) (cq_RunID q)
    (end_source (cq_SourceRunID q) now (executed r (cn_Attempt c) s (cn_Input c) dg m))
  = set_works (<[tc_WorkItemID (as_Task (st_assignment st)) := redirected (cq_RunID q) w]> (works m))
      (set_attempts (attempts_after (cq_SourceRunID q) (cq_RunID q) (st_run st) (cq_AttemptID q) now (attempts m))
        (set_sessions (<[cq_SourceRunID q := fenced_session (st_session st)]> (<[cq_RunID q := s]> (sessions m)))
          (set_runInputs (<[dg := cn_Input c]> (runInputs m))
            (set_runs (<[cq_SourceRunID q := aborted_run (st_run st)]> (<[cq_RunID q := r]> (runs m))) m)))).
Proof.
  intros Hr Hs Hri Hsi Hat Hne Hrun Hses Hw. unfold end_source, executed, attempts_after. rewrite Hat. cbn.
  rewrite Hri, Hsi, !lookup_insert_ne, Hrun, Hses by done. unfold redirect_work. cbn. by rewrite Hw.
Qed.

(** No action is admitted on a run that was continued. *)
Lemma continued_denied op c e d n : continued d !! op_RunID op = Some c -> is_ok (checkActionAdmission op e d n) = false.
Proof.
  intros Hc. destruct (checkActionAdmission op e d n) as [[[u d'] n']|] eqn:E; [|done].
  unfold checkActionAdmission in E. tx. match goal with Hn : ~ (continued _ !! _ <> None) |- _ => by rewrite Hc in Hn; destruct Hn end.
Qed.

Lemma input_and_task_input i run d m k : input_and_task i run d = Some (m, k) -> runInputs (core d) !! i = Some m.
Proof.
  unfold input_and_task. destruct (runInputs (core d) !! i) as [m'|]; [|done]. cbn. destruct (tasksByDigest (core d) !! _); [|done]. cbn.
  case_decide; [|done]. by intros [= -> _].
Qed.

(** C12: what a continuation does.  It is decided by the person who owns the
    work, on a run that is still running but whose execution was given up: its
    turn was interrupted by an observed command, its processes are gone, its
    transcript is sealed and allows no delivery, its source is kept under the
    digest the decision names, and no operation, delivery or other execution of
    it is open.  The database it leaves is given in full: it aborts that run,
    fences its session, ends its current attempt and its execution, without a
    delivery; it starts a new run with a fresh epoch from that very checkpoint,
    under the same task; the work moves on to the new run; the decision is kept;
    one message asks for a worker; and one linked event records the decision.
    Every other row of every table is what it was.  The old run then accepts no
    epoch, and no action of it is ever admitted. *)
Theorem continuation_takes_over s0 f actor q e c d' n : wreachable s0 -> ContinueCodex f actor q e s0.2 0 = Ok (Commit c, d', n) ->
  let d := s0.2 in let src := cq_SourceRunID q in let run := cq_RunID q in
  exists r s x k i w wid ref risk start now ev,
    (runs (core d) !! src = Some r /\ r_State r = "RUNNING" /\ r_CurrentEpoch r = cq_ExecutionEpoch q /\ sessions (core d) !! src = Some s
     /\ codex_rows d !! src = Some x /\ ex_State x = exec_Unknown /\ ex_Receipt x = None /\ stopped_turn d x /\ unresolved src d = false
     /\ fst <$> snapshots d !! xt_ID (ex_Token x) = Some k /\ SourceCheckpoint_Digest k = Ok (cq_CheckpointDigest q)
     /\ runInputs (core d) !! r_RunInputManifestDigest r = Some i
     /\ works (core d) !! wid = Some w /\ wi_HumanOwner w = actor /\ wi_ActiveRunID w = src)
  /\ (runs (core d) !! run = None /\ SourceCheckpoint_ContinuationRef k = Ok ref
     /\ let inputDigest := r_RunInputManifestDigest (cn_Run c) in
        let input := mkRunInput (Some ref) run (ri_TaskContractDigest i) (ri_ContextRefs i) (ri_RuntimeProfile i) (ri_ToolProfile i)
                       (ri_WorkerProfile i) (ri_PolicyProfile i) in
        cn_Run c = mkRun run (r_TaskContractDigest r) inputDigest "RUNNING" 1 1 (cq_AttemptID q) "RUNTIME"
        /\ RunInputManifest_Digest input = Ok inputDigest
        /\ d' = set_outbox (<[f := new_message risk start (run_intent_message (mkIntent run (r_TaskContractDigest r) inputDigest 1))]> (outbox d))
                (set_journal (journal d ++ [ev]) (set_continued (<[src := c]> (continued d)) (set_codex (<[src := set_stopped x]> (codex_rows d))
                 (set_core (set_works (<[wid := redirected run w]> (works (core d)))
                   (set_attempts (attempts_after src run r (cq_AttemptID q) now (attempts (core d)))
                     (set_sessions (<[src := fenced_session s]> (<[run := Session_New run 1]> (sessions (core d))))
                       (set_runInputs (<[inputDigest := input]> (runInputs (core d)))
                         (set_runs (<[src := aborted_run r]> (<[run := cn_Run c]> (runs (core d)))) (core d)))))) d))))
        /\ exists audit at', auditInput "run.source-continuation-authorized" "Run" src (ContinuationReceipt_json c) = Ok audit
             /\ Build (u64_succ (head_of (journal d)).1) (head_of (journal d)).2 audit at' = Ok ev)
  /\ (forall epoch, is_ok (Run_CheckEpoch (aborted_run r) epoch) = false)
  /\ Run_CheckEpoch (cn_Run c) 1 = Ok tt
  /\ forall op e2 d2 n2, continued d2 !! src = Some c -> op_RunID op = src -> is_ok (checkActionAdmission op e2 d2 n2) = false.
Proof.
  intros Hreach Hc d src run. destruct (lanes_reachable _ Hreach) as [_ [Hk _]]. fold d in Hc, Hk.
  destruct (continue_ok _ _ _ _ _ _ _ _ Hk Hc)
    as (j & b & st & now & dg & risk & ev & Hv & _ & _ & Hb & _ & Hst & Hun & -> & Hs & Hdg & Hnr & Hni & _ & _ & (audit & k & Haudit & Hev) & ->).
  apply distinct_runs in Hv as Hne.
  destruct (successor_ok _ _ _ _ _ Hs) as (_ & _ & _ & Hrun & Hses & Hat & (ref & Href & Hin) & Hd).
  destruct (sp_run _ _ _ _ _ _ Hst) as (Hr & Hrs & _ & _ & Hre). destruct (sp_session _ _ _ _ _ _ Hst) as (Hse & _).
  destruct (sp_execution _ _ _ _ _ _ Hst) as (Hx & Hxs & Hxr & _). destruct (sp_work _ _ _ _ _ _ Hst) as (Hw & _ & _ & Hwo & Hwa).
  destruct (sp_checkpoint _ _ _ _ _ _ Hst) as ((kd & Hk1) & Hk2 & _).
  pose proof (sp_assignment _ _ _ _ _ _ Hst) as Hi. apply input_and_task_input in Hi.
  assert (dg = r_RunInputManifestDigest (cn_Run c)) as -> by congruence.
  assert (r_ID (cn_Run c) = cq_RunID q) as Hid by (by rewrite Hrun).
  assert (s_RunID (cn_Session c) = cq_RunID q) as Hsid by (by rewrite Hses).
  pose proof (taken_over q st c (r_RunInputManifestDigest (cn_Run c)) (tx_clock e 1) (core d) _ _ _ eq_refl eq_refl Hid Hsid Hat Hne Hr Hse Hw) as Htaken.
  exists (st_run st), (st_session st), (st_execution st), (st_checkpoint st), (as_Input (st_assignment st)), (st_work st),
    (tc_WorkItemID (as_Task (st_assignment st))), ref, risk, (tx_clock e 0), (tx_clock e 1), ev.
  split; [|split; [|split_and!]].
  - split_and!; try done; [by eapply stoppable_turn | by rewrite Hk1].
  - unfold src, run. cbn zeta. rewrite <- Hin, <- Hses. split_and!; try done; [by rewrite <- Hid | | by eexists _, _].
    unfold continued_db. by rewrite Htaken.
  - intros epoch. unfold Run_CheckEpoch. case_decide; [done|]. by rewrite decide_True by (by right).
  - rewrite Hrun. reflexivity.
  - intros op e2 d2 n2 Hc2 <-. by eapply continued_denied.
Qed.

(** ** Decided once *)

(** What a continuation on record rests on. *)
Definition rests (d : Db) (src : string) (c : ContinuationReceipt) : Prop :=
  ContinuationReceipt_Validate c = Ok tt /\ cq_SourceRunID (cn_Request c) = src
  /\ exists x, codex_rows d !! src = Some x /\ ex_State x = Stopped /\ ex_Receipt x = None /\ stopped_turn d x.
Record continued_ok (d : Db) : Prop := {
  co_rests src c : continued d !! src = Some c -> rests d src c;
  co_unique src src' c c' : continued d !! src = Some c -> continued d !! src' = Some c' -> r_ID (cn_Run c) = r_ID (cn_Run c') -> src = src'
}.

Lemma rests_stays s s' src c : wreachable s -> wstep s s' -> rests s.2 src c -> rests s'.2 src c.
Proof.
  intros Hr Hst (Hv & Hq & x & Hx & Hs & Hn & b & tr & dg & Hrt & Htr). destruct (lane_rows_stay s s' Hr Hst) as [_ Hc].
  destruct (Hc _ _ Hx) as (x' & Hx' & Hsx). assert (x' = x) as -> by (apply (sx_final _ _ Hsx); rewrite Hs; set_solver).
  split_and!; [done..|]. exists x. split_and!; [done..|]. exists b, tr, dg. split; [|done].
  destruct (lanes_reachable s Hr) as [_ Hco]. by eapply wstep_sealed; [apply (lo_keyed _ _ _ _ _ Hco)|..].
Qed.

Lemma continued_moves s s' : wreachable s -> wstep s s' -> continued s'.2 = continued s.2
  \/ exists src c, continued s.2 !! src = None /\ continued s'.2 = <[src := c]> (continued s.2) /\ rests s'.2 src c
       /\ forall k o, continued s.2 !! k = Some o -> r_ID (cn_Run o) <> r_ID (cn_Run c).
Proof.
  intros Hr Hst. pose proof Hst as Hstep. destruct Hst as [t t' c e d d' n He Hm Hc|t t' m j o d _ _ _ _]; [|by left].
  destruct (is_continue c) eqn:Hk; [|left; by apply (keeps_continued c Hk _ _ _ _ _ _ Hc)].
  destruct c as [| | | | | | | | | | | | | | | | | | | |f actor q]; try done. apply forget_commit in Hc as (c & Hc). right.
  destruct (lanes_reachable _ Hr) as [_ [Hky _]]. cbn [snd] in *.
  destruct (continue_ok _ _ _ _ _ _ _ _ Hky Hc) as (i & b & st & now & dg & risk & ev & Hv & _ & _ & _ & Hn & Hst & _ & -> & Hs & _ & _ & _ & Hfree & _ & _ & ->).
  destruct (successor_ok _ _ _ _ _ Hs) as (Hval & Hq & _ & Hrun & _). destruct (sp_execution _ _ _ _ _ _ Hst) as (Hx & _ & Hxr & _).
  exists (cq_SourceRunID q), c. split_and!; [done|done| |].
  - split_and!; [done|by rewrite Hq|]. exists (set_stopped (st_execution st)). split_and!; try done; [|exact (stoppable_turn _ _ _ _ _ _ Hst)].
    cbn. by rewrite lookup_insert_eq.
  - rewrite Hrun. exact Hfree.
Qed.

Lemma continued_reachable s : wreachable s -> continued_ok s.2.
Proof.
  revert s. apply wreachable_ind; [intros t m _; split; cbn; intros *; by rewrite lookup_empty|].
  intros s s' Hr [Hre Hu] Hst. destruct (continued_moves s s' Hr Hst) as [Hc|(k & c & Hn & Hc & Hrc & Hf)]; split; rewrite Hc.
  - intros src c Hs. eapply rests_stays; eauto.
  - exact Hu.
  - intros src o [[<- <-]|[_ Ho]]%lookup_insert_Some; [done|]. eapply rests_stays; eauto.
  - intros src src' o o' [[<- <-]|[_ Ho]]%lookup_insert_Some [[<- <-]|[_ Ho']]%lookup_insert_Some Heq; [done| | |by eapply Hu].
    + by destruct (Hf _ _ Ho').
    + by destruct (Hf _ _ Ho).
Qed.

Lemma continued_stays s s' src c : wreachable s -> rtc wstep s s' -> continued s.2 !! src = Some c -> continued s'.2 !! src = Some c.
Proof.
  intros Hr Hss. induction Hss as [|s s1 s' Hst Hss IH]; [done|]. intros Hc. apply IH; [by eapply wreachable_step|].
  destruct (continued_moves s s1 Hr Hst) as [He|(k & o & Hn & He & _)]; rewrite He; [done|]. rewrite lookup_insert_ne by congruence. done.
Qed.

(** Asked again, the transaction returns what it decided. *)
Lemma continue_again f actor q e d v d' n : keyed codex_lane d -> is_Some (continued d !! cq_SourceRunID q) ->
  ContinueCodex f actor q e d 0 = Ok (v, d', n) -> exists c, continued d !! cq_SourceRunID q = Some c /\ v = Discard c /\ d' = d
    /\ cn_Actor c = actor /\ cn_Request c = q.
Proof.
  intros Hk [c Hc] Hr. destruct v as [v|v].
  - exfalso. destruct (continue_ok _ _ _ _ _ _ _ _ Hk Hr) as (i & b & st & now & dg & risk & ev & _ & _ & _ & _ & Hn & _). congruence.
  - unfold ContinueCodex, continue_run in Hr. tx.
    match goal with Hp : lockWorkerPlatform _ _ _ = Ok _ |- _ => apply platform_ok in Hp as (-> & -> & _) end. reads. passed.
    match goal with Hr : (_ ≫= readContinuation) _ _ _ = Ok _ |- _ => unfold readContinuation in Hr end. tx.
    exists a0. by split_and!.
Qed.

(** C18: a continuation is decided once and for good.  The decision stays on
    record; the execution it ended stays stopped, without a receipt, on its
    sealed transcript, and is neither finished nor started again in either
    lane; asked again for the run, the store returns that decision to the actor
    who made it and to nobody else, and changes nothing; and no other run is
    continued by the same successor. *)
Theorem continuations_final s s' src c : wreachable s -> rtc wstep s s' -> continued s.2 !! src = Some c ->
  continued s'.2 !! src = Some c /\ rests s'.2 src c /\ no_start s'.2 src
  /\ (forall x w report e, codex_rows s'.2 !! src = Some x -> xo_Token report = ex_Token x -> commits (FinishCodex w report) e s'.2 = false)
  /\ (forall f actor q e v d' n, cq_SourceRunID q = src -> ContinueCodex f actor q e s'.2 0 = Ok (v, d', n) ->
        v = Discard c /\ d' = s'.2 /\ actor = cn_Actor c /\ q = cn_Request c)
  /\ (forall src' c', continued s'.2 !! src' = Some c' -> r_ID (cn_Run c') = r_ID (cn_Run c) -> src' = src).
Proof.
  intros Hr Hss Hc. pose proof (wreachable_steps _ _ Hr Hss) as Hr'. pose proof (continued_stays _ _ _ _ Hr Hss Hc) as Hc'.
  destruct (continued_reachable _ Hr') as [Hre Hu]. destruct (lanes_reachable _ Hr') as [_ [Hk _]].
  destruct (Hre _ _ Hc') as (Hv & Hq & x & Hx & Hs & Hrest). split_and!; [done|by apply Hre| | | |].
  - apply taken_no_start; [done | right; by eexists].
  - intros x' w report e Hx' Ht. eapply stale_finish_codex; [exact Hk|exact Hx'| |done]. left. simplify_eq. rewrite Hs. done.
  - intros f actor q e v d' n <- Ha. destruct (continue_again _ _ _ _ _ _ _ _ Hk ltac:(by eexists) Ha) as (c1 & Hc1 & -> & -> & <- & <-). by simplify_eq.
  - intros src' c2 Hc2 Hid. by eapply Hu.
Qed.

End continuations.

(** ** Examples: the turn that was interrupted *)

Lemma stopped_reachable : wreachable (turn_state stopped_calls).
Proof. apply turn_reachable. vm_compute. reflexivity. Qed.
Lemma continued_steps : rtc wstep (turn_state stopped_calls) (turn_state continued_calls).
Proof. apply (turn_steps stopped_calls). vm_compute. reflexivity. Qed.
Definition committed {A} (r : outcome (verdict A * Db * nat)) : bool := match r with Ok (Commit _, _, _) => true | _ => false end.
Lemma committed_ok {A} (r : outcome (verdict A * Db * nat)) : committed r = true -> exists c d' n, r = Ok (Commit c, d', n).
Proof. destruct r as [[[[c|c] d'] n]|]; [by eexists _, _, _ | done..]. Qed.
Lemma is_some_some {A} (o : option A) : match o with Some _ => true | None => false end = true -> exists a, o = Some a.
Proof. destruct o as [a|]; [by eexists | done]. Qed.
Lemma turn_continued : exists c d' n,
  ContinueCodex 2 "urn:engineering-platform:olga" turn_continue (at_clock (turn_state stopped_calls).1) (turn_state stopped_calls).2 0 = Ok (Commit c, d', n).
Proof. apply committed_ok. vm_compute. reflexivity. Qed.

Lemma continuation_takes_over_witness : exists c d', runs (core d') !! "run-2" = Some (cn_Run c) /\ Run_CheckEpoch (cn_Run c) 1 = Ok tt.
Proof.
  destruct turn_continued as (c & d' & n & Hc). exists c, d'.
  destruct (continuation_takes_over (turn_state stopped_calls) _ _ _ _ _ _ _ stopped_reachable Hc)
    as (r & s & x & k & i & w & wid & ref & risk & start & now & ev & _ & (_ & _ & _ & _ & Hd & _) & _ & He & _).
  split; [|exact He]. rewrite Hd. cbn. rewrite lookup_insert_ne by discriminate. apply lookup_insert_eq.
Defined.

Lemma turn_decided : exists c, continued (turn_state continued_calls).2 !! "run-1" = Some c.
Proof. apply is_some_some. vm_compute. reflexivity. Qed.
Lemma continuations_final_witness : no_start (turn_state continued_calls).2 "run-1".
Proof.
  destruct turn_decided as [c E].
  destruct (continuations_final (turn_state continued_calls) (turn_state continued_calls) "run-1" c) as (_ & _ & Hn & _); [|constructor|exact E|exact Hn].
  apply turn_reachable. exact continued_replays.
Defined.
