(* ===== verification/CoreRefine.v ===== *)
(** The PostgreSQL core store implements the memory store: each of its
    transactions, called the way the handlers call it, commits exactly a step
    of [Lifecycle], and records one audit event. *)
From S2P Require Import Prelude Canonical Json Core Run Session Recovery Verification Review Action Store Journal Control Lifecycle Db ControlStore Txn Workers CoreStore ActionStore.

Section core_refine.
Context `{Hash}.

(** ** What a mutation does around its statements *)

(** [d'] is [d] with the core tables [m], the outbox [o] and one event more. *)
Definition recorded (m : Memory) (o : gmap Z OutboxRow) (d d' : Db) : Prop :=
  exists i now x, Build (u64_succ (head_of (journal d)).1) (head_of (journal d)).2 i now = Ok x
    /\ d' = set_outbox o (set_journal (journal d ++ [x]) (set_core m d)).

Lemma tx_write_core f u e d n d' n' : write_core f e d n = Ok (u, d', n') -> d' = set_core (f (core d)) d /\ n' = n.
Proof. exact (tx_modify _ u e d d' n n'). Qed.

Lemma mutation_ok {A} (apply : txn A) input e d n v d' n' : mutation apply input e d n = Ok (v, d', n') ->
  exists a d1 n1 now x, v = Commit a /\ apply e d (S n) = Ok (a, d1, n1)
    /\ Build (u64_succ (head_of (journal d1)).1) (head_of (journal d1)).2 input now = Ok x
    /\ d' = set_journal (journal d1 ++ [x]) d1.
Proof.
  unfold mutation, Mutate, appendAudit. cbn [mu_Outbox mu_Apply mu_Audit insert_messages]. intros Hm. tx.
  eexists _, _, _, _, _. split_and!; [done|eassumption|eassumption|done].
Qed.

End core_refine.

Ltac core_tx := repeat first
  [ tx_step
  | match goal with Hw : write_core _ _ _ _ = Ok _ |- _ => apply tx_write_core in Hw; destruct Hw as [? ?]; subst end ];
  cbn beta iota zeta in *.

(** Takes a mutation that committed apart: its statements are left in [Ha], its
    event in [Hb]. *)
Ltac mutated Hc :=
  apply mutation_ok in Hc; destruct Hc as (? & ? & ? & now & x & Hv & Ha & Hb & ->);
  injection Hv; clear Hv; intros; subst.

Section core_refine.
Context `{Hash}.

(** ** The methods, inverted *)


Lemma u64_succ_bigint v : (v + 1 <= int64_max)%N -> u64_succ v = (v + 1)%N /\ room v.
Proof. unfold int64_max, room. intros Hv. split; [apply u64_succ_small|]; unfold u64_modulus in *; lia. Qed.

Lemma create_work_refines item e d n d' n' : CreateWorkContext item e d n = Ok (Commit tt, d', n') ->
  exists m', CreateWork (set_wi_CreatedAt (micro (wi_CreatedAt item)) item) (core d) = Ok (tt, m') /\ recorded m' (outbox d) d d'.
Proof.
  unfold CreateWorkContext, insert_work. intros Hc. do 2 tx_step. mutated Hc.
  case_decide as Hv; core_tx; (eexists; split; [|eexists _, now, x; split; [exact Hb | reflexivity]]);
    unfold CreateWork; cbn in *.
  - rewrite H1, decide_True by done. done.
  - rewrite H1, decide_False by done. done.
Qed.

(** A conditional update of one work item. *)
Lemma update_work_ok id v cond f e d n u d' n' : update_work id v cond f e d n = Ok (u, d', n') ->
  exists w, works (core d) !! id = Some w /\ wi_Version w = v /\ cond w = true /\ u64_succ v = (v + 1)%N /\ room v
    /\ d' = set_core (set_works (<[id := set_wi_Version (u64_succ v) (f w)]> (works (core d))) (core d)) d.
Proof.
  unfold update_work. intros Hu. core_tx. match goal with E : _ = Some w |- _ => rename E into Ew end.
  destruct (works (core d) !! id) as [w'|]; [|done]. cbn in Ew. case_decide as Hc; [|done]. injection Ew as <-. destruct Hc as [Hv Hc].
  match goal with Hr : (v + 1 <= int64_max)%N |- _ => destruct (u64_succ_bigint v Hr) as [He Hroom] end.
  exists w'. rewrite He. split_and!; done.
Qed.

Lemma update_run_ok id v value e d n u d' n' : update_run id v value e d n = Ok (u, d', n') ->
  exists r, runs (core d) !! id = Some r /\ r_Version r = v /\ same_frozen r value /\ room v
    /\ d' = set_core (set_runs (<[id := mkRun (r_ID r) (r_TaskContractDigest value) (r_RunInputManifestDigest value)
              (r_State value) (u64_succ v) (r_CurrentEpoch value) (r_CurrentAttemptID value) (r_ControlOwner value)]> (runs (core d))) (core d)) d.
Proof.
  unfold update_run. intros Hu. core_tx. match goal with E : _ = Some r |- _ => rename E into Er end.
  destruct (runs (core d) !! id) as [r'|]; [|done]. cbn in Er. case_decide as Hc; [|done]. injection Er as <-. destruct Hc as [Hv [Ht Hi]].
  match goal with Hr : (v + 1 <= int64_max)%N |- _ => destruct (u64_succ_bigint v Hr) as [He Hroom] end.
  exists r'. rewrite He, <- Ht, <- Hi. split_and!; done.
Qed.

Lemma update_session_ok id sess e d n u d' n' : update_session id sess e d n = Ok (u, d', n') ->
  exists s, sessions (core d) !! id = Some s
    /\ d' = set_core (set_sessions (<[id := mkSession (s_RunID s) (s_ExecutionEpoch sess) (s_Owner sess) (s_LastSequence sess)
              (s_Paused sess)]> (sessions (core d))) (core d)) d.
Proof. unfold update_session. intros Hu. core_tx. by exists s. Qed.

(** What the store's callers pass back: the record as they read it, with the
    columns that the statement does not set left alone. *)
Definition same_identity (item w : WorkItem) : Prop := wi_ID item = wi_ID w /\ wi_CreatedAt item = wi_CreatedAt w.
(** A version names one content of its record. *)
Definition names_work (m : Memory) (w : WorkItem) : Prop :=
  forall w', works m !! wi_ID w = Some w' -> wi_Version w' = wi_Version w -> w' = w.

Lemma update_work_refines id v item e d n d' n' :
  (forall w, works (core d) !! id = Some w -> same_identity item w) ->
  UpdateWorkContext id v item e d n = Ok (Commit tt, d', n') ->
  exists m', UpdateWork id v item (core d) = Ok (tt, m') /\ recorded m' (outbox d) d d'.
Proof.
  unfold UpdateWorkContext. intros Hi Hc. tx_step. tx_step. mutated Hc.
  apply update_work_ok in Ha as (w & Hw & <- & _ & _ & _ & ->). destruct (Hi _ Hw) as [He Ht].
  eexists. split; [|eexists _, now, x; split; [exact Hb | reflexivity]].
  assert (rewrite_work item w = set_wi_Version (wi_Version w) item) as -> by (destruct item, w; cbn in *; by subst).
  unfold UpdateWork. rewrite Hw. cbn. by rewrite decide_False by tauto.
Qed.

(** ** Tasks *)

(** What the unique indexes and the document columns agree on. *)
Record keys_ok (m : Memory) : Prop := {
  ko_tasks id versions : tasks m !! id = Some versions -> latestTaskRev m !! id = Some (max_revision versions) /\ u64_ok (max_revision versions);
  ko_plans digest plan : verificationPlans m !! digest = Some plan -> Plan_Digest plan = Ok digest;
  ko_deliveries id item : deliveries m !! id = Some item -> dr_ID item = id;
  ko_attempts id : is_Some (attempts m !! id) -> is_Some (runs m !! id);
  ko_sessions id : is_Some (sessions m !! id) -> is_Some (runs m !! id)
}.

Lemma max_revision_insert versions r task : versions !! r = None -> max_revision (<[r := task]> versions) = N.max r (max_revision versions).
Proof. intros Hr. unfold max_revision. rewrite map_fold_insert_L; [done|lia|done]. Qed.
Lemma max_revision_empty : max_revision ∅ = 0%N.
Proof. apply map_fold_empty. Qed.

(** The digest of this plan already stands for a different one. *)
Definition plan_taken (m : Memory) (plan : Plan) : Prop :=
  exists digest p, Plan_Digest plan = Ok digest /\ verificationPlans m !! digest = Some p /\ p <> plan.

Lemma insert_plan_ok digest plan e d n u d' n' : Plan_Digest plan = Ok digest ->
  insert_plan digest plan e d n = Ok (u, d', n') -> plan_taken (core d) plan
  \/ verificationPlans (core d) ⊆ <[digest := plan]> (verificationPlans (core d))
     /\ d' = set_core (set_verificationPlans (<[digest := plan]> (verificationPlans (core d))) (core d)) d.
Proof.
  unfold insert_plan. intros Hp Hi. core_tx; [|right; split; [by apply insert_subseteq | done]].
  destruct (decide (p = plan)) as [->|Hne]; [right | left; by exists digest, p].
  rewrite insert_id by done. split; [done|]. by destruct d as [[] ? ? ? ? ? ? ? ? ? ? ?].
Qed.

Lemma insert_task_ok task digest e d n u d' n' : insert_task task digest e d n = Ok (u, d', n') ->
  let versions := default ∅ (tasks (core d) !! tc_ID task) in
  tc_Revision task <> 0%N /\ versions !! tc_Revision task = None /\ tasksByDigest (core d) !! digest = None
  /\ d' = set_core (set_tasksByDigest (<[digest := task]> (tasksByDigest (core d)))
         (set_latestTaskRev (<[tc_ID task := tc_Revision task]> (latestTaskRev (core d)))
            (set_tasks (<[tc_ID task := <[tc_Revision task := task]> versions]> (tasks (core d))) (core d)))) d.
Proof. unfold insert_task. intros Hi. core_tx. split_and!; [lia|tauto|tauto|done]. Qed.

Lemma digests_ok task plan td : tc_Revision task <> 0%N -> tc_VerificationPlanID task <> "" ->
  TaskContract_Digest task = Ok td -> tc_VerificationPlanID task = pl_ID plan ->
  Plan_Digest plan = Ok (tc_VerificationPlanDigest task) -> task_digests task plan = Ok (td, tc_VerificationPlanDigest task).
Proof.
  intros Hr Hi Ht He Hp. unfold task_digests. rewrite decide_False.
  - rewrite Ht. cbn. rewrite Hp. cbn. rewrite decide_False; [done|]. intuition congruence.
  - intros [?|[Hz|?]]; [done| |done]. apply (ValidDigest_nonempty (tc_VerificationPlanDigest task)); [|done].
    destruct (Digest_ok (Plan_json plan)) as (dg & Hd & Hv). unfold Plan_Digest in Hp. congruence.
Qed.

Lemma admit_ok task td pd m : keys_ok m -> tasksByDigest m !! td = None ->
  default ∅ (tasks m !! tc_ID task) !! tc_Revision task = None ->
  tc_Revision task = u64_succ (max_revision (default ∅ (tasks m !! tc_ID task))) ->
  admit_revision task td pd m = Ok (default ∅ (tasks m !! tc_ID task)).
Proof.
  intros Hk Ht Hv Hr. unfold admit_revision. rewrite Ht.
  assert (match verificationPlans m !! pd with
          | Some existing => match Plan_Digest existing with
                             | Ok existingDigest => if decide (existingDigest <> pd) then Err ErrConflict else Ok tt
                             | Err _ => Err ErrConflict end
          | None => Ok tt end = Ok tt) as ->.
  { destruct (verificationPlans m !! pd) as [p|] eqn:Ep; [|done]. rewrite (ko_plans _ Hk _ _ Ep). by rewrite decide_False by tauto. }
  cbn. destruct (tasks m !! tc_ID task) as [vs|] eqn:Ev; cbn in *.
  - rewrite Hv, (proj1 (ko_tasks _ Hk _ _ Ev)). cbn. by rewrite decide_False by tauto.
  - rewrite max_revision_empty in Hr. by rewrite decide_False by (intros Hne; apply Hne, Hr).
Qed.

Lemma freeze_refines task plan td current e d n d' n' : keys_ok (core d) -> names_work (core d) current ->
  TaskContract_Digest task = Ok td -> pl_ID plan <> "" ->
  CreateTaskAndUpdateWorkContext task plan (wi_Version current) (frozen_work td current) e d n = Ok (Commit tt, d', n') ->
  plan_taken (core d) plan \/ exists pd m', works (core d) !! wi_ID current = Some current /\ wi_ID current = tc_WorkItemID task
    /\ room (wi_Version current) /\ task_digests task plan = Ok (td, pd)
    /\ verificationPlans (core d) ⊆ <[pd := plan]> (verificationPlans (core d))
    /\ CreateTaskAndUpdateWork task plan td pd (wi_Version current) (frozen_work td current) (core d) = Ok (tt, m')
    /\ recorded m' (outbox d) d d'.
Proof.
  unfold CreateTaskAndUpdateWorkContext, freeze_task. intros Hk Hn Ht Hpl Hc.
  tx_step. tx_step. tx_step. tx_step. tx_step; [tx_step|]. tx_step. tx_step. mutated Hc. passed.
  core_tx. passed.
  match goal with E : works (core _) !! _ = Some _ |- _ => pose proof (Hn _ E ltac:(done)) as ->; rename E into Hw end.
  match goal with E : insert_plan _ _ _ _ _ = _ |- _ => apply insert_plan_ok in E as [?|[Hsub ->]]; [by left| |done] end.
  match goal with E : insert_task _ _ _ _ _ = _ |- _ => apply insert_task_ok in E as (Hr & Hv & Htd & ->) end.
  apply update_work_ok in Ha as (w & Hw' & _ & _ & _ & Hroom & ->). cbn in Hw', Hv, Htd, Hroom |- *.
  assert (w = current) as -> by (change (wi_ID (frozen_work td current)) with (wi_ID current) in Hw; congruence).
  right. eexists _, _. split; [exact Hw|]. split; [done|]. split; [exact Hroom|]. split; [by apply digests_ok; [| congruence | ..]|].
  split; [exact Hsub|].
  split; [|eexists _, now, x; split; [exact Hb | reflexivity]].
  unfold CreateTaskAndUpdateWork. rewrite Hw. cbn [of_option mbind]. cbn. rewrite !decide_False by tauto.
  rewrite admit_ok by done. reflexivity.
Qed.

(** ** Executions *)

Lemma outbox_inserted fresh start m e d n id d' n' : insertOutbox fresh start m e d n = Ok (id, d', n') ->
  id = fresh /\ outbox d !! fresh = None
  /\ exists risk, Outbox.Classify (om_Topic m) (om_RiskClass m) = Ok risk
       /\ d' = set_outbox (<[fresh := new_message risk start m]> (outbox d)) d.
Proof.
  unfold insertOutbox. intros Hi. core_tx. split; [done|]. split; [|by eexists].
  match goal with E : _ || _ = false |- _ => apply orb_false_iff in E as [?%bool_decide_eq_false _] end.
  by apply eq_None_not_Some.
Qed.

Lemma insertExecution_ok value attempt sess input e d n u d' n' : s_RunID sess = r_ID value ->
  insertExecution value attempt sess input e d n = Ok (u, d', n') ->
  exists dg, RunInputManifest_Digest input = Ok dg /\ absent_execution (r_ID value) dg (core d) = Ok tt
    /\ (0 < r_Version value)%N
    /\ d' = set_core (set_attempts (<[r_ID value := <[at_ID attempt := mkAttempt (at_ID attempt) (at_Epoch attempt)
              (micro (at_StartedAt attempt)) zero_time]> (default ∅ (attempts (core d) !! r_ID value))]> (attempts (core d)))
            (store_execution value sess input dg (core d))) d.
Proof.
  unfold insertExecution, insert_input, insert_run, insert_attempt, insert_session. intros Hs Hi. core_tx.
  eexists. split; [eassumption|]. rewrite Hs in *. cbn in *. split_and!; [|lia|reflexivity].
  unfold absent_execution.
  repeat match goal with E : _ /\ _ |- _ => destruct E end. repeat match goal with E : _ !! _ = None |- _ => rewrite E; clear E end.
  done.
Qed.

Lemma start_refines fresh id aid t input dg attempt value current e d n d' n' : keys_ok (core d) -> names_work (core d) current ->
  RunInputManifest_Digest input = Ok dg -> ri_RunID input = id ->
  StartAttempt (Run_New id (ri_TaskContractDigest input) dg) aid t = Ok (attempt, value) ->
  CreateExecutionAndUpdateWorkContext fresh value attempt (Session_New id (at_Epoch attempt)) input (wi_Version current)
    (started_work id current) e d n = Ok (Commit tt, d', n') ->
  exists m' start risk, works (core d) !! wi_ID current = Some current /\ room (wi_Version current)
    /\ StartAttempt (Run_New id (ri_TaskContractDigest input) dg) aid (micro t)
         = Ok (mkAttempt (at_ID attempt) (at_Epoch attempt) (micro t) zero_time, value)
    /\ CreateExecutionAndUpdateWork value (mkAttempt (at_ID attempt) (at_Epoch attempt) (micro t) zero_time)
         (Session_New id (at_Epoch attempt)) input dg (wi_Version current) (started_work id current) (core d) = Ok (tt, m')
    /\ outbox d !! fresh = None /\ Outbox.Classify "run.started" "" = Ok risk
    /\ recorded m' (<[fresh := new_message risk start (run_started value)]> (outbox d)) d d'.
Proof.
  unfold CreateExecutionAndUpdateWorkContext, Mutate, start_execution, appendAudit.
  cbn [mu_Apply mu_Audit mu_Outbox insert_messages]. intros Hk Hn Hd Hri Hs Hc.
  injection Hs as <- <-. cbn in Hc |- *. core_tx. passed. cbn in *.
  match goal with E : works (core d) !! _ = Some _ |- _ => pose proof (Hn _ E ltac:(done)) as ->; rename E into Hw end.
  match goal with E : insertExecution _ _ _ _ _ _ _ = _ |- _ =>
    apply insertExecution_ok in E as (dg' & Hdg & Hab & _ & ->); [cbn in * | done] end.
  match goal with E : update_work _ _ _ _ _ _ _ = _ |- _ => apply update_work_ok in E as (w & Hw' & _ & _ & _ & Hroom & ->); cbn in * end.
  match goal with E : insertOutbox _ _ _ _ _ _ = _ |- _ => apply outbox_inserted in E as (-> & Hf & risk & Hr & ->); cbn in * end.
  assert (w = current) as -> by congruence. assert (dg' = dg) as -> by congruence.
  eexists _, _, risk. split; [done|]. split; [done|]. split; [done|]. split.
  - unfold CreateExecutionAndUpdateWork. cbn. rewrite Hw. cbn. rewrite decide_False by (intuition congruence).
    destruct (tasksByDigest (core d) !! ri_TaskContractDigest input) as [k|]; [|done]. cbn. rewrite Hab. cbn. reflexivity.
  - split; [done|]. split; [done|]. eexists _, _, _. split; [eassumption|]. unfold default_run_version. cbn.
    destruct (attempts (core d) !! ri_RunID input) as [mine|] eqn:Ea; [|reflexivity].
    exfalso. destruct (ko_attempts _ Hk (ri_RunID input)) as [r Hrun]; [by eexists|].
    apply absent_execution_inv in Hab as (Hnone & _). congruence.
Qed.

Definition names_execution (m : Memory) (id : string) (p : Run * Session) : Prop :=
  forall r, runs m !! id = Some r -> r_Version r = r_Version p.1 -> r = p.1 /\ sessions m !! id = Some p.2.

(** The two statements that rewrite a run and its session. *)
Lemma execution_written id v p r' s' e d n u d1 n1 u' d' n' : names_execution (core d) id p -> r_Version p.1 = v ->
  r_ID r' = r_ID p.1 -> s_RunID s' = s_RunID p.2 ->
  update_run id v r' e d n = Ok (u, d1, n1) -> update_session id s' e d1 n1 = Ok (u', d', n') ->
  find_execution id (core d) = Ok p /\ same_frozen p.1 r' /\ room v
  /\ d' = set_core (write_execution id v r' s' (core d)) d.
Proof.
  intros Hn Hpv Hri Hsi (r & Hr & Hv & Hf & Hroom & ->)%update_run_ok Hc.
  apply update_session_ok in Hc as (s & Hs & ->). cbn in *. destruct (Hn _ Hr ltac:(congruence)) as [-> Hs'].
  assert (s = p.2) as -> by congruence. split; [|split; [done|split; [done|]]].
  - unfold find_execution. rewrite Hr. cbn. rewrite Hs. cbn. by destruct p.
  - rewrite <- Hri, <- Hsi. unfold write_execution. by destruct r', s'.
Qed.

Lemma control_refines id p value e d n d' n' : names_execution (core d) id p ->
  r_ID value.1 = r_ID p.1 -> s_RunID value.2 = s_RunID p.2 ->
  UpdateExecutionContext id (r_Version p.1) value.1 value.2 e d n = Ok (Commit tt, d', n') ->
  exists m', find_execution id (core d) = Ok p /\ room (r_Version p.1)
    /\ UpdateExecution id (r_Version p.1) value.1 value.2 (core d) = Ok (tt, m') /\ recorded m' (outbox d) d d'.
Proof.
  unfold UpdateExecutionContext. intros Hn Hri Hsi Hc. tx_step. tx_step. mutated Hc.
  tx_step. eapply (execution_written _ _ p) in Ha as (Hf & Hs & Hroom & Hd); [|done..|eassumption]. subst x1.
  eexists. split; [done|]. split; [done|]. split; [|eexists _, now, x; split; [exact Hb | reflexivity]].
  unfold UpdateExecution. rewrite Hf. cbn. destruct p as [r s]. cbn in *. by rewrite !decide_False by tauto.
Qed.

Lemma complete_refines id p value work e d n d' n' : names_execution (core d) id p -> names_work (core d) work ->
  r_ID value = r_ID p.1 -> r_ID p.1 = id ->
  wi_ActiveTaskContractDigest work = r_TaskContractDigest value -> wi_ActiveRunID work = id ->
  UpdateExecutionAndWorkContext id (r_Version p.1) value p.2 (wi_Version work) (set_wi_State WorkVerifying work) e d n
    = Ok (Commit tt, d', n') ->
  exists m', find_execution id (core d) = Ok p /\ room (r_Version p.1)
    /\ works (core d) !! wi_ID work = Some work /\ room (wi_Version work)
    /\ UpdateExecutionAndWork id (r_Version p.1) value p.2 (wi_Version work) (set_wi_State WorkVerifying work) (core d) = Ok (tt, m')
    /\ recorded m' (outbox d) d d'.
Proof.
  unfold UpdateExecutionAndWorkContext. intros Hn Hnw Hri Hid Ht Hrun Hc. tx_step. tx_step. mutated Hc.
  tx_step. tx_step.
  match goal with F : update_session _ _ _ _ _ = _ |- _ =>
    eapply (execution_written _ _ p) in F as (Hf & Hs & Hroom & Hd); [|done..|eassumption] end. subst d1.
  apply update_work_ok in Ha as (w & Hw & Hv & _ & _ & Hwroom & ->). cbn in *.
  pose proof (Hnw _ Hw Hv). subst w.
  eexists. split_and!; try done; [|eexists _, now, x; split; [exact Hb | reflexivity]].
  unfold UpdateExecutionAndWork. rewrite Hf. cbn. destruct p as [r s]. cbn in *. rewrite Hw. cbn.
  rewrite !decide_False by (intuition congruence). reflexivity.
Qed.

Lemma steering_absent cmd d : steering_taken cmd d = false -> steeringCommands (core d) !! sc_ID cmd = None.
Proof.
  unfold steering_taken. intros (((_ & Hs)%orb_false_iff & _)%orb_false_iff & _)%orb_false_iff.
  apply bool_decide_eq_false in Hs. by apply eq_None_not_Some.
Qed.

(** [last_steering_sequence] and [version] are all that a steering sets. *)
Lemma steering_refines id r s sess cmd e d n d' n' : r_ID r = id -> s_RunID s = id ->
  names_execution (core d) id (r, s) -> ApplySteering s cmd = Ok sess ->
  RecordSteeringContext id (r_Version r) r sess cmd e d n = Ok (Commit tt, d', n') ->
  exists m', find_execution id (core d) = Ok (r, s) /\ room (r_Version r) /\ ApplySteering s (micro_steering cmd) = Ok sess
    /\ RecordSteering id (r_Version r) r sess (micro_steering cmd) (core d) = Ok (tt, m') /\ recorded m' (outbox d) d d'
    /\ steering_taken (micro_steering cmd) d = false.
Proof.
  unfold RecordSteeringContext, record_steering, insert_steering. intros Hri Hsi Hn Hap Hc.
  tx_step; [tx_step|]. passed. tx_step. tx_step. mutated Hc. core_tx. passed.
  match goal with E : runs (core d) !! _ = Some _ |- _ => rename E into Hr end.
  match goal with E : _ ≫= _ = Some r0 |- _ => cbn in E; rewrite Hr in E; cbn in E; case_decide as Hv; [|done]; injection E as <- end.
  destruct (Hn _ Hr Hv) as [-> Hs]. cbn in Hs.
  match goal with E : _ ≫= _ = Some s0 |- _ => cbn in E; rewrite Hs in E; cbn in E; case_decide as Hl; [|done]; injection E as <- end.
  match goal with E : (r_Version r + 1 <= int64_max)%N |- _ => destruct (u64_succ_bigint _ E) as [He Hroom] end.
  assert (find_execution (r_ID r) (core d) = Ok (r, s)) as Hf by (unfold find_execution; rewrite Hr; cbn; by rewrite Hs).
  pose proof (ApplySteering_inv _ _ _ Hap) as (_ & _ & _ & ->).
  eexists. split; [done|]. split; [done|]. split; [done|].
  split; [|split; [eexists _, now, x; split; [exact Hb | reflexivity] | done]].
  unfold RecordSteering. rewrite Hf. cbn in *. rewrite decide_False by tauto. rewrite decide_False by (intuition (congruence || lia)).
  match goal with E : steering_taken _ _ = _ |- _ => rewrite (steering_absent _ _ E) end.
  unfold write_execution. by rewrite He.
Qed.

(** ** Documents *)

Lemma checkpoint_refines item e d n dg d' n' : CreateCheckpointContext item e d n = Ok (Commit dg, d', n') ->
  exists m', Checkpoint_Digest item = Ok dg /\ CreateCheckpoint item dg (core d) = Ok (dg, m') /\ recorded m' (outbox d) d d'.
Proof.
  unfold CreateCheckpointContext, insert_checkpoint. intros Hc. do 4 tx_step. mutated Hc. core_tx.
  eexists. split; [done|]. split; [|eexists _, now, x; split; [exact Hb | reflexivity]].
  unfold CreateCheckpoint. repeat match goal with E : _ /\ _ |- _ => destruct E end.
  by repeat match goal with E : _ !! _ = None |- _ => rewrite E; clear E end.
Qed.

Lemma delivery_refines item e d n d' n' : CreateDeliveryContext item e d n = Ok (Commit tt, d', n') ->
  exists m', CreateDelivery item (core d) = Ok (tt, m') /\ recorded m' (outbox d) d d'.
Proof.
  unfold CreateDeliveryContext, insert_delivery. intros Hc. do 2 tx_step. mutated Hc. core_tx.
  eexists. split; [|eexists _, now, x; split; [exact Hb | reflexivity]].
  unfold CreateDelivery. match goal with E : deliveries _ !! _ = None /\ _ |- _ => by rewrite (proj1 E) end.
Qed.

(** The documents a registered piece of evidence was checked against are never replaced. *)
Definition documents_kept (m m' : Memory) : Prop :=
  deliveries m ⊆ deliveries m' /\ tasksByDigest m ⊆ tasksByDigest m' /\ verificationPlans m ⊆ verificationPlans m'.

Lemma read_row_ok {A} (o : option A) a : read_row o = Ok a -> o = Some a.
Proof. unfold read_row. destruct o; [by intros [= ->] | done]. Qed.

Lemma evidence_refines d1 d2 d3 item e d n d' n' :
  documents_kept (core d1) (core d) -> documents_kept (core d2) (core d) -> documents_kept (core d3) (core d) ->
  CreateEvidenceContext d1 d2 d3 item e d n = Ok (Commit tt, d', n') ->
  exists m', CreateEvidence item (core d) = Ok (tt, m') /\ recorded m' (outbox d) d d'.
Proof.
  unfold CreateEvidenceContext, insert_evidence. intros (Hd & _) (_ & Ht & _) (_ & _ & Hp) Hc. do 4 tx_step. mutated Hc. core_tx.
  eexists. split; [|eexists _, now, x; split; [exact Hb | reflexivity]].
  match goal with E : evidence_checked _ _ _ _ = _ |- _ => unfold evidence_checked in E; rename E into Ha end.
  ok_inv. guards.
  repeat match goal with E : read_row _ = _ |- _ => apply read_row_ok in E | E : GetDeliveryContext _ _ = _ |- _ => unfold GetDeliveryContext in E
    | E : GetTaskByDigestContext _ _ = _ |- _ => unfold GetTaskByDigestContext in E
    | E : GetVerificationPlanByDigestContext _ _ = _ |- _ => unfold GetVerificationPlanByDigestContext in E end.
  unfold CreateEvidence.
  match goal with E : evidence _ !! _ = None |- _ => rewrite E end.
  match goal with E : deliveries (core d1) !! _ = Some _ |- _ => rewrite (lookup_weaken _ _ _ _ E Hd); cbn end.
  rewrite decide_False by tauto.
  match goal with E : tasksByDigest (core d2) !! _ = Some _ |- _ => rewrite (lookup_weaken _ _ _ _ E Ht); cbn end.
  match goal with E : verificationPlans (core d3) !! _ = Some _ |- _ => rewrite (lookup_weaken _ _ _ _ E Hp); cbn end.
  match goal with E : _ || _ = false |- _ => by rewrite E end.
Qed.

Lemma verification_refines report e d n d' n' : CreateVerificationContext report e d n = Ok (Commit tt, d', n') ->
  exists m', CreateVerification report (core d) = Ok (tt, m') /\ recorded m' (outbox d) d d'.
Proof.
  unfold CreateVerificationContext, insert_verification. intros Hc. do 2 tx_step. mutated Hc. core_tx.
  eexists. split; [|eexists _, now, x; split; [exact Hb | reflexivity]].
  unfold CreateVerification. match goal with E : verificationReports _ !! _ = None |- _ => by rewrite E end.
Qed.

(** ** Reviews and closures *)

Lemma review_subject_ok report d vr dr : keys_ok (core d) -> review_subject report d = Some (vr, dr) ->
  verificationReports (core d) !! rv_VerificationReportID report = Some vr
  /\ deliveries (core d) !! rv_DeliveryReceiptID report = Some dr
  /\ vr_DeliveryReceiptID vr = dr_ID dr.
Proof.
  unfold review_subject. intros Hk Hs. destruct (verificationReports (core d) !! _) as [vr'|]; [|done]. cbn in Hs.
  destruct (deliveries (core d) !! _) as [dr'|] eqn:Ed; [|done]. cbn in Hs. case_decide; [|done]. injection Hs as -> ->.
  split_and!; [done..|]. by rewrite (ko_deliveries _ Hk _ _ Ed).
Qed.

(** The work a review leaves: moved on by a PASS, as it was after a FAIL. *)
Definition reviewed_work (report : ReviewReport) (current : WorkItem) : WorkItem :=
  if decide (rv_Result report = ResultPass) then set_wi_State WorkReviewing current else current.
Lemma reviewed_same report w : wi_ID (reviewed_work report w) = wi_ID w
  /\ wi_ActiveTaskContractDigest (reviewed_work report w) = wi_ActiveTaskContractDigest w
  /\ wi_ActiveRunID (reviewed_work report w) = wi_ActiveRunID w
  /\ set_wi_State (wi_State (reviewed_work report w)) w = reviewed_work report w.
Proof. unfold reviewed_work. case_decide; [done|]. by destruct w. Qed.

Lemma review_refines report current e d n d' n' : keys_ok (core d) -> names_work (core d) current ->
  CreateReviewAndUpdateWorkContext report (wi_Version current) (reviewed_work report current) e d n = Ok (Commit tt, d', n') ->
  exists m', works (core d) !! wi_ID current = Some current /\ room (wi_Version current) /\ ReviewReport_Validate report = Ok tt
    /\ CreateReviewAndUpdateWork report (wi_Version current) (reviewed_work report current) (core d) = Ok (tt, m')
    /\ recorded m' (outbox d) d d'.
Proof.
  unfold CreateReviewAndUpdateWorkContext, store_review, insert_review. intros Hk Hn Hc. do 4 tx_step. mutated Hc.
  destruct (reviewed_same report current) as (Hri & Hrt & Hrr & Hrs). rewrite Hri, Hrt, Hrr in Ha. core_tx. passed.
  match goal with E : review_subject _ _ = Some _ |- _ => apply review_subject_ok in E as (Hvr & Hdr & Hvd); [|done] end.
  match goal with E : works (core d) !! _ = Some _ |- _ => pose proof (Hn _ E ltac:(done)) as ->; rename E into Hw end.
  apply update_work_ok in Ha as (w & Hw' & _ & _ & _ & Hroom & ->). cbn in Hw'. assert (w = current) as -> by congruence.
  repeat match goal with E : _ /\ _ |- _ => destruct E end.
  match goal with E : ReviewReport_Validate _ = Ok ?u |- _ => destruct u end.
  eexists. split; [done|]. split; [done|]. split; [done|]. split; [|eexists _, now, x; split; [exact Hb | reflexivity]].
  unfold CreateReviewAndUpdateWork.
  match goal with E : reviewReports _ !! _ = None |- _ => rewrite E end.
  match goal with E : reviewByVerification _ !! _ = None |- _ => rewrite E end.
  rewrite Hvr. cbn. rewrite Hdr. cbn. rewrite Hri, Hw. cbn. rewrite decide_True; [cbn; by rewrite Hrs|].
  unfold review_authorized. rewrite Hrt, Hrr. intuition congruence.
Qed.

Lemma closure_refines item current e d n d' n' : names_work (core d) current ->
  CreateClosureAndUpdateWorkContext item (wi_Version current) (set_wi_State WorkClosed current) e d n = Ok (Commit tt, d', n') ->
  exists m', works (core d) !! wi_ID current = Some current /\ room (wi_Version current)
    /\ CreateClosureAndUpdateWork item (wi_Version current) (set_wi_State WorkClosed current) (core d) = Ok (tt, m')
    /\ recorded m' (outbox d) d d'.
Proof.
  unfold CreateClosureAndUpdateWorkContext, store_closure, insert_closure. intros Hn Hc. do 2 tx_step. mutated Hc. core_tx. passed.
  apply update_work_ok in Ha as (w & Hw & Hv & Hh & _ & Hroom & ->). cbn in *.
  pose proof (Hn _ Hw Hv). subst w. apply bool_decide_eq_true in Hh as (? & ? & _ & ? & _).
  eexists. split; [done|]. split; [done|]. split; [|eexists _, now, x; split; [exact Hb | reflexivity]].
  unfold CreateClosureAndUpdateWork.
  match goal with E : closures _ !! _ = None |- _ => rewrite E end. cbn. rewrite Hw. cbn.
  match goal with E : reviewReports _ !! _ = Some _ |- _ => rewrite E end. cbn.
  rewrite decide_True; [reflexivity|]. unfold closure_authorized. cbn. intuition congruence.
Qed.

(** ** Recovery and actions *)

Lemma begin_recovery_refines epoch e d n r d' n' : BeginRecoveryContext epoch e d n = Ok (Commit r, d', n') ->
  exists m', BeginRecovery epoch (core d) = Ok (r, m') /\ recorded m' (outbox d) d d'.
Proof.
  unfold BeginRecoveryContext, begin_recovery. intros Hc. do 2 tx_step. mutated Hc. core_tx. passed.
  match goal with E : (epoch + 1 <= int64_max)%N |- _ => destruct (u64_succ_bigint _ E) as [He _] end.
  eexists. split; [|eexists _, now, x; split; [exact Hb | reflexivity]].
  unfold BeginRecovery. rewrite !decide_False by tauto. unfold Manager_Begin. cbn.
  match goal with E : m_Epoch _ = epoch |- _ => by rewrite E, He end.
Qed.

Lemma admission_keeps op : Keeps (fun d => d) (checkActionAdmission op).
Proof. unfold checkActionAdmission. keep. Qed.

Definition micro_operation (op : Operation) : Operation := set_op_Updated (micro (op_UpdatedAt op)) op.

Lemma reserve_refines op e d n d' n' : CreateContext op e d n = Ok (Commit tt, d', n') ->
  exists m', CreateOperation (micro_operation op) (core d) = Ok (tt, m') /\ recorded m' (outbox d) d d'.
Proof.
  unfold CreateContext, insert_operation. intros Hc. do 2 tx_step. mutated Hc. tx_step.
  match goal with E : checkActionAdmission _ _ _ _ = _ |- _ => apply (admission_keeps op) in E; cbn in E; subst end.
  core_tx. eexists. split; [|eexists _, now, x; split; [exact Hb | reflexivity]].
  unfold CreateOperation. repeat match goal with E : _ /\ _ |- _ => destruct E end. cbn.
  by repeat match goal with E : _ !! _ = None |- _ => rewrite E; clear E end.
Qed.

(** [previousStates] and the narrower rule for confirmations allow what [Transition] allows. *)
Lemma previous_allowed op o allowed : previousStates (op_State op) = Ok allowed -> SameReservation o op = true ->
  op_State o ∈ (if originalConfirmation op then [op_Dispatched] else allowed) -> op_transition_valid o (op_State op) = true.
Proof.
  unfold SameReservation. intros Hp Hs Hin. apply bool_decide_eq_true in Hs as (_ & _ & _ & _ & _ & Hrisk & _).
  unfold previousStates in Hp. unfold originalConfirmation in Hin. unfold op_transition_valid.
  repeat case_decide; try discriminate Hp; injection Hp as <-; case_bool_decide;
    repeat (apply elem_of_cons in Hin as [Hin|Hin]); try (by apply elem_of_nil in Hin);
    rewrite ?Hin in *; try done; apply bool_decide_eq_true; intuition congruence.
Qed.

Lemma micro_micro t : micro (micro t) = micro t.
Proof. unfold micro. by rewrite Z.div_mul. Qed.

Lemma update_operation_ok op previous e d n u d' n' : update_operation op previous e d n = Ok (u, d', n') ->
  exists o, operations (core d) !! op_ID op = Some o /\ op_State o ∈ previous /\ SameReservation o op = true
    /\ d' = set_core (set_operations (<[op_ID op := micro_operation op]> (operations (core d))) (core d)) d.
Proof. unfold update_operation. intros Hu. core_tx. eexists. split_and!; eauto; tauto. Qed.

(** The operation [UpdateContext] writes. *)
Definition settled (op : Operation) : Operation := if originalConfirmation op then micro_operation op else op.
Lemma settled_same op : op_ID (settled op) = op_ID op /\ op_State (settled op) = op_State op
  /\ micro_operation (settled op) = micro_operation op /\ forall o, SameReservation o (settled op) = SameReservation o op.
Proof.
  unfold settled. destruct (originalConfirmation op); [|done]. split_and!; [done..| |done].
  unfold micro_operation, set_op_Updated, set_op_State. cbn. by rewrite micro_micro.
Qed.

Lemma settle_refines op e d n d' n' : UpdateContext op e d n = Ok (Commit tt, d', n') ->
  exists m', UpdateOperation (micro_operation op) (core d) = Ok (tt, m') /\ recorded m' (outbox d) d d'.
Proof.
  unfold UpdateContext. intros Hc. do 4 tx_step. mutated Hc. change (if originalConfirmation op then _ else op) with (settled op) in *.
  destruct (settled_same op) as (Hid & Hst & Hmi & Hsame). tx_step.
  match goal with E : (if decide _ then _ else _) _ _ _ = Ok (_, ?d1, _) |- _ => assert (d1 = d) as ->
    by (case_decide; [by apply (admission_keeps (settled op)) in E | by apply tx_ret in E as (_ & -> & _)]) end.
  apply tx_map_error, update_operation_ok in Ha as (o & Ho & Hin & Hs & ->).
  rewrite Hid, Hmi in *. rewrite Hsame in Hs.
  eexists. split; [|eexists _, now, x; split; [exact Hb | reflexivity]].
  unfold UpdateOperation. change (op_ID (micro_operation op)) with (op_ID op). rewrite Ho.
  replace (SameReservation o (micro_operation op)) with true by (symmetry; exact Hs). cbn.
  match goal with E : previousStates _ = Ok _ |- _ => unfold Operation_Transition; rewrite (previous_allowed _ _ _ E Hs Hin) end.
  reflexivity.
Qed.
End core_refine.
