(* ===== verification/Commands.v ===== *)
(** One table of steering commands.  [steering_commands] holds the commands
    that only carry a digest, which the core store writes, and the controls of
    live turns, which carry their payload; [Db] keeps them apart.  [records] is
    the authority's view of both; a queued control is a recorded steering of
    [Lifecycle] there, and what workers do to controls does not show. *)
From S2P Require Import Prelude Canonical Core Run Session Recovery Verification Review Routing Action Store Journal Control Lifecycle Authority Db WorkerStore ExecStore ControlStore CoreStore Txn Workers Leases Executions Controls CoreRefine.

Section commands.
Context `{Hash}.

Definition with_commands (extra : gmap string SteeringCommand) (m : Memory) : Memory :=
  set_steeringCommands (steeringCommands m ∪ extra) m.
Definition commands_of (d : Db) : gmap string SteeringCommand := sw_Command <$> controls d.
Definition records (d : Db) : Memory := with_commands (commands_of d) (core d).

Lemma records_plain d : controls d = ∅ -> records d = core d.
Proof.
  intros Hc. unfold records, with_commands, commands_of. rewrite Hc, fmap_empty, map_union_empty. by destruct (core d).
Qed.

(** ** The other commands do not disturb a step *)

(** The commands [m'] has and [m] does not are none of [extra]. *)
Definition new_elsewhere (extra : gmap string SteeringCommand) (m m' : Memory) : Prop :=
  forall id, steeringCommands m !! id = None -> is_Some (steeringCommands m' !! id) -> extra !! id = None.

(** An operation that does not look at commands. *)
Definition blind {A} (extra : gmap string SteeringCommand) (f : Memory -> outcome (A * Memory)) : Prop :=
  forall m, f (with_commands extra m) = match f m with Ok (a, m') => Ok (a, with_commands extra m') | Err x => Err x end.
Lemma blind_ok {A} extra (f : Memory -> outcome (A * Memory)) m r : blind extra f -> f m = Ok r ->
  f (with_commands extra m) = Ok (r.1, with_commands extra r.2).
Proof. intros Hb Hf. rewrite Hb, Hf. by destruct r. Qed.

Ltac see_blind :=
  intros ?; unfold BeginRecovery, CompleteRecovery, CreateWork, CreateTaskAndUpdateWork, CreateExecutionAndUpdateWork, UpdateExecution,
    UpdateExecutionAndWork, CreateCheckpoint, CreateOperation, UpdateOperation, CreateDelivery, CreateEvidence, CreateVerification,
    CreateReviewAndUpdateWork, CreateClosureAndUpdateWork, find_execution, store_execution, absent_execution, execution_consistent,
    admit_revision, store_revision, review_authorized, closure_authorized, write_execution, ledger_create, ledger_update;
  unfold mbind, outcome_bind, of_option; cbn; repeat (match goal with |- context [match ?x with _ => _ end] =>
    lazymatch x with context [match _ with _ => _ end] => fail | _ => destruct x end end; cbn); reflexivity.

Lemma RecordSteering_with extra id v value sess cmd m m' : RecordSteering id v value sess cmd m = Ok (tt, m') ->
  new_elsewhere extra m m' -> RecordSteering id v value sess cmd (with_commands extra m) = Ok (tt, with_commands extra m').
Proof.
  unfold RecordSteering, find_execution, of_option, mbind, outcome_bind, write_execution. cbn. intros Hop Hnew.
  destruct (runs m !! id), (sessions m !! id); try done. cbn in *. repeat (case_decide; [done|]).
  destruct (steeringCommands m !! sc_ID cmd) eqn:E; [done|]. injection Hop as <-.
  rewrite lookup_union, E, (Hnew (sc_ID cmd)); [|done|cbn; rewrite lookup_insert_eq; by eexists]. cbn.
  unfold with_commands. cbn. by rewrite insert_union_l.
Qed.

Lemma step_with extra m m' : step m m' -> new_elsewhere extra m m' -> step (with_commands extra m) (with_commands extra m').
Proof.
  intros Hst Hnew. destruct Hst.
  all: try match goal with Hop : ?f ?m0 = Ok (?a, ?m') |- _ => lazymatch f with RecordSteering _ _ _ _ _ => fail | _ =>
    apply (blind_ok extra f) in Hop; [cbn [fst snd] in Hop | clear; see_blind] end end.
  - by eapply step_begin_recovery.
  - by eapply step_complete_recovery.
  - by eapply step_create_work.
  - by eapply step_freeze_task.
  - by eapply step_start_run.
  - by eapply step_control.
  - eapply step_steer; [done..|]. by apply RecordSteering_with.
  - by eapply step_complete_run.
  - by eapply step_checkpoint.
  - by eapply step_reserve.
  - by eapply step_settle.
  - by eapply step_deliver.
  - by eapply step_evidence.
  - by eapply step_verify.
  - by eapply step_review.
  - by eapply step_close.
Qed.

(** ** A queued control *)

Lemma queue_effect run kind i e d c d' n : QueueCodexControl run kind i e d 0 = Ok (Commit c, d', n) ->
  exists row s, let cmd := sw_Command row in
    sc_RunID cmd = run /\ steering_taken cmd d = false /\ controls d' = <[sc_ID cmd := row]> (controls d)
    /\ sessions (core d) !! run = Some s /\ ApplySteering s cmd = Ok (set_s_LastSequence (sc_Sequence cmd) s)
    /\ let m := set_sessions (<[run := set_s_LastSequence (sc_Sequence cmd) s]> (sessions (core d))) (core d) in
       match runs (core d) !! run with
       | Some r => (r_Version r + 1 <= int64_max)%N /\ core d' = set_runs (<[run := set_r_Version (r_Version r + 1) r]> (runs m)) m
       | None => core d' = m
       end.
Proof.
  unfold QueueCodexControl, queue_control, insert_control, write_control, advance_session, bump_run. intros Hc. tx; reads.
  all: match goal with Hs : scan_execution _ _ _ _ _ = Ok _ |- _ => apply scan_execution_ok in Hs as (-> & -> & _) end.
  all: match goal with Hl : lock_execution _ _ _ _ _ _ _ = Ok _ |- _ => apply unchanged in Hl; [|apply _]; subst end;
    match goal with Hl : lockControlRuntime _ _ _ _ = Ok _ |- _ => apply lockControlRuntime_ok in Hl; destruct Hl as (-> & _) end;
    match goal with Ht : steering_taken (sw_Command ?r) _ = _, s : Session |- _ => exists r, s end;
    cbn in *; match goal with Hr : runs _ !! _ = _ |- _ => rewrite Hr end; passed;
    split_and!; try done; unfold ApplySteering; cbn; rewrite !decide_False by (intuition (congruence || lia)); done.
Qed.

(** It is a steering of the view. *)
Lemma queue_step run kind i e d c d' n : keys_ok (core d) -> reachable (records d) -> QueueCodexControl run kind i e d 0 = Ok (Commit c, d', n) ->
  step (records d) (records d') /\ verificationPlans (core d') = verificationPlans (core d) /\ controls d' <> controls d /\ (named d -> named d').
Proof.
  intros Hk Hr (row & s & Hrun & Hfree & Hcs & Hs & Hap & Hm)%queue_effect. set (cmd := sw_Command row) in *.
  destruct (ko_sessions _ Hk run ltac:(by eexists)) as [r Hrr]. rewrite Hrr in Hm. destruct Hm as [Hv Hm].
  destruct (u64_succ_bigint _ Hv) as [Hsucc Hroom]. pose proof (steering_absent _ _ Hfree) as Hnone.
  pose proof (steering_free _ _ Hfree) as [Hnew _].
  assert (execution (records d) run = Some (r, s)) as Hx by (unfold execution; cbn; by rewrite Hrr, Hs).
  apply (ok_executions _ (reachable_ok _ Hr)) in Hx as (Hri & Hsi & Hep & _). cbn in Hri, Hsi, Hep.
  pose proof (ApplySteering_inv _ _ _ Hap) as (Hce & _ & Hlt & _). split_and!.
  - eapply (step_steer _ run r _ cmd); [done|done|by exists s|]. unfold RecordSteering, find_execution, records. cbn. rewrite Hrr, Hs. cbn.
    rewrite decide_False by tauto. rewrite decide_False by (unfold same_frozen; intuition (congruence || lia)).
    rewrite lookup_union, Hnone. unfold commands_of at 1. rewrite lookup_fmap, Hnew. cbn. rewrite Hm, <- Hsucc.
    unfold with_commands, commands_of. rewrite Hcs, fmap_insert. cbn. by rewrite insert_union_r.
  - by rewrite Hm.
  - intros He. rewrite He in Hcs. apply (f_equal (fun l => l !! sc_ID cmd)) in Hcs. by rewrite Hnew, lookup_insert_eq in Hcs.
  - intros Hn k r'. rewrite Hcs. intros [[<- <-]|[_ Hk']]%lookup_insert_Some; [done | by apply Hn].
Qed.

(** ** What workers do to controls *)

Lemma rewritten d k r r' : controls d !! k = Some r -> sw_Command r' = sw_Command r ->
  sw_Command <$> <[k := r']> (controls d) = commands_of d.
Proof. intros Hk Hc. unfold commands_of. rewrite fmap_insert, Hc. apply insert_id. by rewrite lookup_fmap, Hk. Qed.

Lemma settled_commands ts l e d n u d' n' : settle_all ts l e d n = Ok (u, d', n') -> named d ->
  (forall r, r ∈ l -> exists k, controls d !! k = Some r) -> NoDup l -> commands_of d' = commands_of d.
Proof.
  intros Hs Hn Hin Hl. apply settle_all_ok in Hs as [Hset Hkeep]; [|by apply (named_ids d)].
  apply map_eq. intros k. unfold commands_of. rewrite !lookup_fmap.
  destruct (decide (k ∈ (fun r => sc_ID (sw_Command r)) <$> l)) as [(r & -> & Hr)%list_elem_of_fmap|Hk]; [|by rewrite Hkeep].
  destruct (Hset r Hr) as [j ->], (Hin r Hr) as [k Hk]. pose proof (Hn _ _ Hk) as <-. by rewrite Hk.
Qed.

Ltac control_reads := repeat match goal with
  | p : (_ * _)%type |- _ => destruct p
  | Hl : lock_execution _ _ _ _ _ _ _ = Ok _ |- _ => apply unchanged in Hl; [|apply _]; subst
  | Hl : lockControlRuntime _ _ _ _ = Ok _ |- _ => apply lockControlRuntime_ok in Hl; destruct Hl as (-> & -> & _)
  | Hl : scanControl _ _ _ _ = Ok _ |- _ => apply scanControl_ok in Hl; destruct Hl as (-> & -> & ? & ? & -> & _)
  | Hl : scan_all _ _ _ _ = Ok _ |- _ => apply unchanged in Hl; [|apply _]; subst
  | Ha : workerAudit _ _ _ _ _ _ = Ok _ |- _ => apply audit_effect in Ha; destruct Ha as (? & -> & -> & _)
  end.

Lemma claim_commands s b e d a d' n : ClaimCodexControl s b e d 0 = Ok (Commit a, d', n) -> named d -> commands_of d' = commands_of d.
Proof.
  unfold ClaimCodexControl, write_control. intros Hc Hn. tx. control_reads. simplify_eq.
  match goal with Hf : next_queued _ _ = Some ?r |- _ => unfold next_queued in Hf; apply head_Some_elem_of in Hf;
    rewrite merge_sort_Permutation, list_elem_of_filter, elem_controls_of in Hf; destruct Hf as (_ & k & Hk & _) end.
  pose proof (Hn _ _ Hk) as <-. by eapply rewritten.
Qed.
Lemma settle_commands s x e d a d' n : SettleCodexControl s x e d 0 = Ok (Commit a, d', n) -> named d -> commands_of d' = commands_of d.
Proof.
  unfold SettleCodexControl, write_control. intros Hc Hn. tx. control_reads. simplify_eq.
  destruct (controls d !! se_ID x) as [r|] eqn:Hr; [|done]. cbn in *.
  match goal with Hf : (if of_execution ?i r then _ else _) = Some _ |- _ => destruct (of_execution i r); [injection Hf as ->|done] end.
  pose proof (Hn _ _ Hr) as Hid. rewrite <- Hid in Hr. by eapply rewritten.
Qed.
Lemma close_commands s c e d a d' n : CloseCodexControl s c e d 0 = Ok (Commit a, d', n) -> named d -> commands_of d' = commands_of d.
Proof.
  unfold CloseCodexControl, write_runtime. intros Hc Hn. tx. control_reads.
  match goal with Hs : settle_all _ _ _ _ _ = Ok _ |- _ =>
    etransitivity; [|apply (settled_commands _ _ _ _ _ _ _ _ Hs Hn)] end.
  - unfold commands_of. by destruct (runtimes _ !! _).
  - intros r [_ (k & Hk & _)%elem_controls_of]%list_elem_of_filter. by exists k.
  - by apply NoDup_filter, controls_of_NoDup.
Qed.

(** Dispatching, settling and closing change states only. *)
Lemma control_commands c e d d' n : wcall_txn c e d 0 = Ok (Commit tt, d', n) -> named d ->
  (forall run kind i, c <> CallQueue run kind i) -> commands_of d' = commands_of d /\ named d'.
Proof.
  intros Hc Hn Hq. assert (commands_of d' = commands_of d) as He.
  { destruct (writes_turn c) eqn:Hw; [|pose proof (keeps_turn c Hw _ _ _ _ _ _ Hc) as [= _ Hcs]; unfold commands_of; by rewrite Hcs].
    destruct c; try done; cbn [wcall_txn] in Hc; try apply forget_commit in Hc as [a Hc].
    - refine ((_ : Keeps commands_of (BindCodexControl _ _)) _ _ _ _ _ _ Hc). unfold BindCodexControl, write_runtime. keep.
    - by destruct (Hq run kind i).
    - by eapply claim_commands.
    - by eapply settle_commands.
    - by eapply close_commands. }
  split; [done|]. intros k r Hk. assert (commands_of d' !! k = Some (sw_Command r)) as Hkc by (unfold commands_of; by rewrite lookup_fmap, Hk).
  rewrite He in Hkc. unfold commands_of in Hkc. rewrite lookup_fmap in Hkc. destruct (controls d !! k) as [r0|] eqn:E; [|done].
  injection Hkc as Hkc. rewrite <- Hkc. by apply Hn.
Qed.
End commands.
