(* ===== verification/CoreHistory.v ===== *)
(** What the handlers and the PostgreSQL core store do together, while workers,
    control clients and dispatchers commit their own transactions.  A history is
    the list of states that committed transactions left, newest first; each call
    of the core store rests on records that its handler read, every one in a
    statement of its own, in some state of the history. *)
From S2P Require Import Prelude Canonical Core Run Session Recovery Verification Review Routing Action Store Journal Lifecycle Demo Authority Db WorkerStore ExecStore ControlStore CoreStore ActionStore OutboxStore Txn OutboxMoves Workers TurnDemo Leases Relays Commits Controls CoreRefine Commands.
From S2P Require Outbox.

Section core_history.
Context `{Hash}.

(** Read in some committed state. *)
Definition seen (h : list Db) (P : Memory -> Prop) : Prop := exists d, d ∈ h /\ P (records d).
Definition read_work (h : list Db) (w : WorkItem) : Prop := seen h (fun m => works m !! wi_ID w = Some w).
Definition read_execution (h : list Db) (id : string) (p : Run * Session) : Prop := seen h (fun m => execution m id = Some p).
Definition read_task (h : list Db) (digest : string) (t : TaskContract) : Prop := seen h (fun m => tasksByDigest m !! digest = Some t).
Definition read_delivery (h : list Db) (r : DeliveryReceipt) : Prop := seen h (fun m => deliveries m !! dr_ID r = Some r).

(** The transactions the handlers start, the plans that they hand over, and
    what they have read and checked. *)
Inductive core_call (h : list Db) : list Plan -> txn (verdict unit) -> Prop :=
| cc_create_work item : core_call h [] (CreateWorkContext item)
| cc_freeze task plan td current :
    read_work h current -> wi_ID current = tc_WorkItemID task -> TaskContract_Digest task = Ok td ->
    ValidatePlan plan (tc_AcceptanceCriteria task) = true -> (tc_CapabilityIDs task, tc_SkillIDs task) ∈ all_routes ->
    core_call h [plan] (CreateTaskAndUpdateWorkContext task plan (wi_Version current) (frozen_work td current))
| cc_start fresh id aid t input dg attempt value current task :
    read_work h current -> read_task h (ri_TaskContractDigest input) task -> tc_WorkItemID task = wi_ID current ->
    RunInputManifest_Digest input = Ok dg -> ri_RunID input = id ->
    StartAttempt (Run_New id (ri_TaskContractDigest input) dg) aid t = Ok (attempt, value) ->
    core_call h [] (CreateExecutionAndUpdateWorkContext fresh value attempt (Session_New id (at_Epoch attempt)) input
      (wi_Version current) (started_work id current))
| cc_control id p value :
    read_execution h id p -> control_call p value ->
    core_call h [] (UpdateExecutionContext id (r_Version p.1) value.1 value.2)
| cc_steer id p sess cmd :
    read_execution h id p -> ApplySteering p.2 cmd = Ok sess ->
    core_call h [] (RecordSteeringContext id (r_Version p.1) p.1 sess cmd)
| cc_complete id n p value work :
    read_execution h id p -> Run_Complete p.1 n = Ok value -> read_work h work -> wi_State work = WorkExecuting ->
    wi_ActiveTaskContractDigest work = r_TaskContractDigest value -> wi_ActiveRunID work = id ->
    core_call h [] (UpdateExecutionAndWorkContext id (r_Version p.1) value p.2 (wi_Version work) (set_wi_State WorkVerifying work))
| cc_checkpoint item p :
    read_execution h (cp_RunID item) p -> r_TaskContractDigest p.1 = cp_TaskContractDigest item ->
    r_RunInputManifestDigest p.1 = cp_RunInputManifestDigest item -> core_call h [] (forget (CreateCheckpointContext item))
| cc_deliver item p task :
    read_execution h (dr_RunID item) p -> r_State p.1 = run_Completed ->
    r_TaskContractDigest p.1 = dr_TaskContractDigest item -> read_task h (dr_TaskContractDigest item) task ->
    tc_WorkItemID task = dr_WorkItemID item -> tc_TargetID task = dr_TargetID item -> tc_BaseCommit task = dr_BaseCommit item ->
    CalculateSubjectDigest item = Ok (dr_SubjectDigest item) -> core_call h [] (CreateDeliveryContext item)
| cc_evidence d1 d2 d3 item : d1 ∈ h -> d2 ∈ h -> d3 ∈ h -> core_call h [] (CreateEvidenceContext d1 d2 d3 item)
| cc_verify delivery task plan items id verifier t :
    read_delivery h delivery -> read_task h (dr_TaskContractDigest delivery) task ->
    seen h (fun m => verificationPlans m !! tc_VerificationPlanDigest task = Some plan) ->
    Forall (fun i => seen h (fun m => evidence m !! ev_ID i = Some i)) items ->
    let report := Evaluate plan (dr_SubjectDigest delivery) items in
    core_call h [] (CreateVerificationContext (mkReport id (dr_ID delivery) (vr_PlanID report) (tc_VerificationPlanDigest task)
      (vr_SubjectDigest report) (vr_Result report) verifier (vr_Criteria report) (vr_EvidenceIDs report) t))
| cc_review report current : read_work h current ->
    core_call h [] (CreateReviewAndUpdateWorkContext report (wi_Version current) (reviewed_work report current))
| cc_close item delivery p current :
    read_work h current -> wi_ID current = cl_WorkItemID item ->
    seen h (fun m => deliveries m !! cl_DeliveryReceiptID item = Some delivery) ->
    dr_WorkItemID delivery = cl_WorkItemID item -> dr_RunID delivery = cl_RunID item ->
    dr_TaskContractDigest delivery = cl_TaskContractDigest item -> dr_SubjectDigest delivery = cl_SubjectDigest item ->
    read_execution h (cl_RunID item) p -> r_State p.1 = run_Completed -> cl_Result item = "CLOSED" ->
    core_call h [] (CreateClosureAndUpdateWorkContext item (wi_Version current) (set_wi_State WorkClosed current))
| cc_begin_recovery epoch : core_call h [] (forget (BeginRecoveryContext epoch))
| cc_reserve op : op_State op = op_Planned -> core_call h [] (CreateContext op)
| cc_settle op : core_call h [] (UpdateContext op).

(** What else commits: workers and control clients, whose transactions leave the
    core tables alone; dispatchers; a queued control, which numbers itself in
    the session of its run; and the completion of a recovery.  Of this the
    library has what it writes, not the proof that it asks for first; here it
    may come at any moment of a recovery.  A continuation is left out. *)
Definition writes_core (c : wcall) : bool := match c with CallQueue _ _ _ | CallContinue _ _ _ => true | _ => false end.
Inductive side_call : txn (verdict unit) -> Prop :=
| sc_worker c : writes_core c = false -> side_call (wcall_txn c)
| sc_claim text worker limit duration : side_call (forget (Claim text worker limit duration))
| sc_dispatch text l risk deliver : side_call (forget (Dispatch text l risk deliver)).
Inductive beside (d d' : Db) : Prop :=
| bs_side body e n : side_call body -> body e d 0 = Ok (Commit tt, d', n) -> beside d d'
| bs_queue run kind i e c n : QueueCodexControl run kind i e d 0 = Ok (Commit c, d', n) -> beside d d'
| bs_recovered epoch r m : CompleteRecovery epoch true (core d) = Ok (r, m) -> recorded m (outbox d) d d' -> beside d d'.

(** [history frozen h]: the transactions that led to [h] handed over the plans [frozen]. *)
Inductive history : list Plan -> list Db -> Prop :=
| h_empty : history [] [empty_db NewMemory]
| h_core frozen new h d body e d' n : history frozen (d :: h) -> core_call (d :: h) new body ->
    body e d 0 = Ok (Commit tt, d', n) -> history (new ++ frozen) (d' :: d :: h)
| h_beside frozen h d d' : history frozen (d :: h) -> beside d d' -> history frozen (d' :: d :: h).

(** Two of these plans differ and have one digest. *)
Definition plans_clash (plans : list Plan) : Prop :=
  exists p q digest, p ∈ plans /\ q ∈ plans /\ p <> q /\ Plan_Digest p = Ok digest /\ Plan_Digest q = Ok digest.
Lemma plans_clash_mono a b : a ⊆ b -> plans_clash a -> plans_clash b.
Proof. intros Hab (p & q & dg & Hp & Hq & Hx). exists p, q, dg. split; [by apply Hab|]. split; [by apply Hab | done]. Qed.

(** ** What the calls rely on *)

Lemma keys_new : keys_ok NewMemory.
Proof. split; cbn; intros *; rewrite lookup_empty; done. Qed.

Lemma max_revision_next versions r task : versions !! r = None -> r <> 0%N -> u64_ok (max_revision versions) ->
  (r = 1%N /\ versions = ∅ \/ r = u64_succ (max_revision versions)) ->
  max_revision (<[r := task]> versions) = r /\ u64_ok r.
Proof.
  intros Hv Hr Hok Hn. rewrite max_revision_insert by done. destruct Hn as [[-> ->] | Hn]; [by rewrite max_revision_empty|].
  pose proof (u64_succ_ok (max_revision versions)). rewrite <- Hn in *.
  assert (r = max_revision versions + 1)%N as ->; [|split; [lia | done]].
  rewrite Hn. apply u64_succ_next; [congruence | done].
Qed.

Lemma insert_is_Some {V} (k i : string) (v : V) (a : gmap string V) : is_Some (a !! i) -> is_Some (<[k := v]> a !! i).
Proof. intros Ha. apply lookup_insert_is_Some'. by right. Qed.

Lemma step_keys m m' : step m m' -> keys_ok m -> keys_ok m'.
Proof.
  intros Hst Hk. destruct Hk as [Kt Kp Kd Ka Ks]. step_cases Hst.
  all: split; cbn in *; try done; try (intros k Hks; apply insert_is_Some; by apply Ka);
    try (intros k; rewrite !lookup_insert_is_Some'; specialize (Ks k); tauto).
  - intros id vs'. destruct (decide (id = tc_ID task)) as [->|]; [|rewrite !lookup_insert_ne by done; apply Kt].
    rewrite !lookup_insert_eq. intros [= <-]. apply task_digests_inv in Hd as (Hne & _).
    apply admit_revision_inv in Had as (_ & [(_ & Hr & ->) | (Hvs & Hnone & Hr)]).
    + destruct (max_revision_next ∅ (tc_Revision task) task) as [-> ?]; [apply lookup_empty|done|by rewrite max_revision_empty|by left|done].
    + destruct (Kt _ _ Hvs) as [Hl Hok]. rewrite Hl in Hr.
      destruct (max_revision_next vs (tc_Revision task) task) as [-> ?]; [done..|by right|done].
  - apply task_digests_inv in Hd as (_ & _ & Hp & _). by apply (insert_all _ _ _ (fun d p => Plan_Digest p = Ok d)).
  - intros i. replace (r_ID (default_run_version value)) with (r_ID value) by (unfold default_run_version; by case_decide).
    rewrite !lookup_insert_is_Some'. specialize (Ka i). tauto.
  - by apply (insert_all _ _ _ (fun id d => dr_ID d = id)).
Qed.

Lemma keys_records d : keys_ok (records d) <-> keys_ok (core d).
Proof. split; intros []; by split. Qed.

(** ** The invariant of a history *)

(** [d'] comes from [d]. *)
Record leads (d d' : Db) : Prop := {
  ld_steps : rtc step (records d) (records d');
  ld_plans : verificationPlans (core d) ⊆ verificationPlans (core d')
}.

(** All of [h] led to [d]. *)
Record settled_history (frozen : list Plan) (h : list Db) (d : Db) : Prop := {
  sh_past d0 : d0 ∈ h -> reachable (records d0) /\ leads d0 d;
  sh_keys : keys_ok (core d);
  sh_frozen digest p : verificationPlans (core d) !! digest = Some p -> p ∈ frozen
}.

Section reads.
Context (frozen : list Plan) (h : list Db) (d : Db) (Hh : settled_history frozen h d).

Lemma seen_later P : seen h P -> exists m, P m /\ reachable m /\ later m (records d) /\ verificationPlans m ⊆ verificationPlans (core d).
Proof.
  intros (d0 & Hin & HP). destruct (sh_past _ _ _ Hh _ Hin) as [Hr [Hs Hp]].
  exists (records d0). split_and!; try done. by apply steps_later.
Qed.

Lemma read_work_names w : read_work h w -> names_work (core d) w.
Proof.
  intros (m & Hw & _ & L & _)%seen_later w' Hw' Hv. destruct (lt_works _ _ L _ _ Hw) as (w'' & Hw'' & _ & _ & _ & _ & He).
  cbn in Hw''. rewrite Hw' in Hw''. injection Hw'' as <-. by apply He.
Qed.
Lemma read_execution_names id p : read_execution h id p -> names_execution (core d) id p /\ r_ID p.1 = id /\ s_RunID p.2 = id.
Proof.
  intros (m & Hp & Hr & L & _)%seen_later. split.
  - intros r Hr' Hv. destruct (lt_executions _ _ L _ _ Hp) as (p' & Hp' & _ & _ & _ & _ & _ & He).
    unfold execution in Hp'. cbn in Hp'. rewrite Hr' in Hp'. destruct (sessions (core d) !! id) as [s|]; [|done]. injection Hp' as <-.
    cbn in He. rewrite <- He by done. done.
  - apply (ok_executions _ (reachable_ok _ Hr)) in Hp as (? & ? & _). done.
Qed.
Lemma read_task_kept digest t : read_task h digest t -> tasksByDigest (core d) !! digest = Some t.
Proof. intros (m & Ht & _ & L & _)%seen_later. eapply lookup_weaken; [exact Ht | apply L]. Qed.
Lemma read_deliveries_kept k r : seen h (fun m => deliveries m !! k = Some r) -> deliveries (core d) !! k = Some r.
Proof. intros (m & Hd & _ & L & _)%seen_later. eapply lookup_weaken; [exact Hd | apply L]. Qed.
(** What was frozen with a run, and that it was completed, stays. *)
Lemma read_execution_kept id p : read_execution h id p -> exists r s, runs (core d) !! id = Some r /\ sessions (core d) !! id = Some s
  /\ same_frozen p.1 r /\ (r_State p.1 = run_Completed -> r_State r = run_Completed).
Proof.
  intros (m & Hp & _ & L & _)%seen_later. destruct (lt_executions _ _ L _ _ Hp) as ([r s] & Hp' & _ & Hf & _ & _ & Ht & _).
  unfold execution in Hp'. cbn in Hp'. destruct (runs (core d) !! id), (sessions (core d) !! id); try done. injection Hp' as -> ->.
  exists r, s. split_and!; try done. intros Hc. rewrite <- Hc. apply Ht. by left.
Qed.
End reads.

Lemma control_call_ids p p' : control_call p p' -> r_ID p'.1 = r_ID p.1 /\ s_RunID p'.2 = s_RunID p.2.
Proof.
  destruct 1 as [r s n r' s' Hr Hs|r s n r' s' Hr Hs|r s n e r' s' Hr Hs]; cbn;
    unfold Run_Pause, Run_Resume, Run_Takeover, Session_Pause, Session_Resume, Session_Takeover in *; ok_inv; repeat case_decide; by ok_inv.
Qed.

(** ** One call *)

(** The plans [new] may have been added, nothing replaced. *)
Definition plans_added (new : list Plan) (m m' : Memory) : Prop := verificationPlans m ⊆ verificationPlans m'
  /\ forall digest p, verificationPlans m' !! digest = Some p -> verificationPlans m !! digest = Some p \/ p ∈ new.

(** What a committed call did: one step, one event, and at most more outbox messages. *)
Definition one_step (new : list Plan) (d d' : Db) : Prop :=
  step (records d) (records d') /\ outbox_later (outbox d) (outbox d') /\ logs (journal d) (journal d')
  /\ plans_added new (core d) (core d').

Lemma recorded_new new m o d d' : recorded m o d d' -> step (core d) m -> outbox d ⊆ o -> plans_added new (core d) m ->
  new_elsewhere (commands_of d) (core d) m -> one_step new d d' /\ controls d' = controls d.
Proof.
  intros (i & now & x & Hb & ->) Hs Ho Hp Hn. split; [|done].
  split_and!; [by apply (step_with (commands_of d)) | by apply outbox_later_sub | | done]. by exists i, now, x.
Qed.
Lemma recorded_step new m o d d' : recorded m o d d' -> step (core d) m -> outbox d ⊆ o -> plans_added new (core d) m ->
  steeringCommands m = steeringCommands (core d) -> one_step new d d' /\ controls d' = controls d.
Proof. intros Hr Hs Ho Hp Hc. eapply recorded_new; [done..|]. intros id. rewrite Hc. intros -> [? ?]. done. Qed.
Lemma same_added m m' : verificationPlans m' = verificationPlans m -> plans_added [] m m'.
Proof. intros He. unfold plans_added. rewrite He. split; [done | by left]. Qed.

End core_history.

(** The plans, and the commands, that an operation of [Store] leaves alone. *)
Ltac left_alone :=
  match goal with Hm : _ = Ok (_, ?m) |- _ ?m = _ =>
    unfold CreateWork, CreateTaskAndUpdateWork, CreateExecutionAndUpdateWork, UpdateExecution, RecordSteering, UpdateExecutionAndWork,
      CreateCheckpoint, CreateDelivery, CreateEvidence, CreateVerification, CreateReviewAndUpdateWork, CreateClosureAndUpdateWork,
      BeginRecovery, CompleteRecovery, CreateOperation, UpdateOperation in Hm; ok_inv; repeat case_match; by simplify_eq
  end.
Ltac same_plans := apply same_added; left_alone.

Section core_history.
Context `{Hash}.

Lemma freeze_adds task plan td pd v work m m' : verificationPlans m ⊆ <[pd := plan]> (verificationPlans m) ->
  CreateTaskAndUpdateWork task plan td pd v work m = Ok (tt, m') -> plans_added [plan] m m'.
Proof.
  intros Hsub (c & vs & _ & _ & _ & _ & _ & ->)%CreateTaskAndUpdateWork_inv. split; [done|].
  cbn. intros digest p [[_ <-]|[_ Hp]]%lookup_insert_Some; [right; left | by left].
Qed.

(** A steering takes a fresh command. *)
Lemma steered_elsewhere id v r s cmd d m : RecordSteering id v r s cmd (core d) = Ok (tt, m) -> steering_taken cmd d = false ->
  new_elsewhere (commands_of d) (core d) m.
Proof.
  intros (? & ? & _ & _ & _ & _ & _ & _ & _ & _ & _ & _ & _ & _ & ->)%RecordSteering_inv Hf k Hk [c Hc]. cbn in Hc.
  apply lookup_insert_Some in Hc as [[<- _]|[_ ?]]; [|congruence]. apply steering_free in Hf as [Hf _].
  unfold commands_of. by rewrite lookup_fmap, Hf.
Qed.

Lemma core_call_step frozen h d new body e d' n' : settled_history frozen h d -> core_call h new body ->
  body e d 0 = Ok (Commit tt, d', n') -> (exists plan, new = [plan] /\ plan_taken (core d) plan) \/ one_step new d d' /\ controls d' = controls d.
Proof.
  intros Hh Hc Hb. pose proof (sh_keys _ _ _ Hh) as Hk.
  destruct Hc as [item | task plan td current Hw Hid Htd Hv Hroute
    | fresh id aid t input dg attempt value current task Hw Ht Hwi Hd Hri Hs
    | id p value Hp Hctl | id p sess cmd Hp Hap | id k p value work Hp Hdone Hw Hst Hat Har
    | item p Hp Ht Hi | item p task Hp Hdone Ht Htask Hwi Hti Hbc Hsub | d1 d2 d3 item H1 H2 H3
    | delivery task plan items id verifier t Hd Ht Hpl Hit report | report current Hw
    | item delivery p current Hw Hid Hd Hdw Hdr Hdt Hds Hp Hdone Hres | epoch | op _ | op].
  - right. apply create_work_refines in Hb as (m' & Hm & Hrec). eapply recorded_step; [done| |done|same_plans|left_alone]. by eapply step_create_work.
  - eapply freeze_refines in Hb as [?|(pd & m' & Hw' & Hid' & Hroom & Hdg & Hsub & Hm & Hrec)];
      [left; by exists plan| |done|by apply (read_work_names frozen h)|done|].
    + right. eapply recorded_step; [done| |done|by eapply freeze_adds|left_alone]. by eapply (step_freeze_task _ task plan (td, pd) current).
    + intros Hpl. unfold ValidatePlan in Hv. rewrite decide_True in Hv by tauto. done.
  - eapply start_refines in Hb as (m' & start & risk & Hw' & Hroom & Hs' & Hm & Hf & _ & Hrec);
      [|done|by apply (read_work_names frozen h)|done..].
    right. eapply recorded_step; [done| |by apply insert_subseteq|same_plans|left_alone].
    eapply (step_start_run _ id aid (micro t)); try done. exists task. split; [by eapply read_task_kept | done].
  - destruct (control_call_ids _ _ Hctl) as [Hi1 Hi2]. destruct (read_execution_names _ _ _ Hh _ _ Hp) as (Hn & _).
    apply (control_refines id p value) in Hb as (m' & Hf & Hroom & Hm & Hrec); [|done..].
    apply find_execution_inv in Hf as [Hr Hs]. right. eapply recorded_step; [done| |done|same_plans|left_alone]. by eapply step_control.
  - destruct (read_execution_names _ _ _ Hh _ _ Hp) as (Hn & Hri & Hsi). destruct p as [r s]. cbn in *.
    apply (steering_refines id r s sess cmd) in Hb as (m' & Hf & Hroom & Hap' & Hm & Hrec & Hfree); [|done..].
    apply find_execution_inv in Hf as [Hr Hs]. right. eapply recorded_new; [done| |done|same_plans|].
    + eapply step_steer; [done..| |done]. by exists s.
    + by eapply steered_elsewhere.
  - destruct (read_execution_names _ _ _ Hh _ _ Hp) as (Hn & Hri & _).
    pose proof (run_call_identity _ _ (call_complete _ _ _ Hdone)) as (Hid & _).
    apply (complete_refines id p value work) in Hb as (m' & Hf & Hroom & Hw' & Hwroom & Hm & Hrec); try done; [|by apply (read_work_names frozen h)].
    apply find_execution_inv in Hf as [Hr Hs]. right. eapply recorded_step; [done| |done|same_plans|left_alone]. by eapply step_complete_run.
  - apply forget_commit in Hb as (dg & Hb). apply checkpoint_refines in Hb as (m' & Hdg & Hm & Hrec).
    destruct (read_execution_kept _ _ _ Hh _ _ Hp) as (r & s & Hr & Hs & [Hf1 Hf2] & _). right. eapply recorded_step; [done| |done|same_plans|left_alone].
    eapply step_checkpoint; try done; congruence.
  - apply delivery_refines in Hb as (m' & Hm & Hrec).
    destruct (read_execution_kept _ _ _ Hh _ _ Hp) as (r & s & Hr & Hs & [Hf1 Hf2] & Hc). right. eapply recorded_step; [done| |done|same_plans|left_alone].
    eapply (step_deliver _ item r task); try done; [by apply Hc | congruence | by eapply read_task_kept].
  - assert (forall d0, d0 ∈ h -> documents_kept (core d0) (core d)) as Hkept.
    { intros d0 Hin. destruct (sh_past _ _ _ Hh _ Hin) as [_ [L%steps_later Hp]]. split_and!; [apply L..|done]. }
    apply evidence_refines in Hb as (m' & Hm & Hrec); [|by apply Hkept..].
    right. eapply recorded_step; [done| |done|same_plans|left_alone]. by eapply step_evidence.
  - apply verification_refines in Hb as (m' & Hm & Hrec). right. eapply recorded_step; [done| |done|same_plans|left_alone].
    eapply (step_verify _ delivery task plan items id verifier t); [| | | |exact Hm].
    + by eapply read_deliveries_kept.
    + by eapply read_task_kept.
    + destruct (seen_later _ _ _ Hh _ Hpl) as (m & Hm' & _ & _ & Hsub). by eapply lookup_weaken.
    + eapply Forall_impl; [exact Hit|]. intros i (m & Hi & _ & L & _)%(seen_later _ _ _ Hh). eapply lookup_weaken; [exact Hi | apply L].
  - eapply review_refines in Hb as (m' & Hw' & Hroom & Hval & Hm & Hrec); [|done|by apply (read_work_names frozen h)].
    right. eapply recorded_step; [done| |done|same_plans|left_alone]. by eapply step_review.
  - eapply closure_refines in Hb as (m' & Hw' & Hroom & Hm & Hrec); [|by apply (read_work_names frozen h)].
    destruct (read_execution_kept _ _ _ Hh _ _ Hp) as (r & s & Hr & Hs & _ & Hc). right. eapply recorded_step; [done| |done|same_plans|left_alone].
    eapply (step_close _ item delivery r current); try done; [by eapply read_deliveries_kept | by apply Hc].
  - apply forget_commit in Hb as (r & Hb). apply begin_recovery_refines in Hb as (m' & Hm & Hrec).
    right. eapply recorded_step; [done| |done|same_plans|left_alone]. by eapply step_begin_recovery.
  - apply reserve_refines in Hb as (m' & Hm & Hrec). right. eapply recorded_step; [done| |done|same_plans|left_alone]. by eapply step_reserve.
  - apply settle_refines in Hb as (m' & Hm & Hrec). right. eapply recorded_step; [done| |done|same_plans|left_alone]. by eapply step_settle.
Qed.

(** ** A transaction beside the core *)

(** The core tables and the commands are left alone, no message is lost, and there is at most one event. *)
Definition aside (d d' : Db) : Prop := core d' = core d /\ commands_of d' = commands_of d /\ outbox_later (outbox d) (outbox d')
  /\ (journal d' = journal d \/ logs (journal d) (journal d')).

Lemma keeps_tables c : writes_core c = false -> Keeps core (wcall_txn c).
Proof. frame c. Qed.
Lemma worker_outbox c e d d' n : writes_core c = false -> wcall_txn c e d 0 = Ok (Commit tt, d', n) -> outbox_later (outbox d) (outbox d').
Proof.
  intros Hw Hc. destruct (writes_outbox c) eqn:Ho; [|rewrite (keeps_outbox c Ho _ _ _ _ _ _ Hc); apply outbox_later_refl].
  destruct c; try done. apply forget_commit in Hc as [a Hc]. by eapply relay_later.
Qed.
Lemma keeps_lease_all {B} (f : Db -> B) owner until epoch l : (forall k o, Keeps f (write_outbox k o)) -> Keeps f (lease_all owner until epoch l).
Proof. intros Hf. induction l as [|[k o] l IH]; cbn; [keep|]. do 3 (apply keeps_bind; [apply _ || done | intros ?]). keep. Qed.
Lemma keeps_claim {B} (f : Db -> B) text worker limit duration : (forall k o, Keeps f (write_outbox k o)) ->
  Keeps f (Claim text worker limit duration).
Proof.
  intros Hf. unfold Claim. case_decide; [keep|]. repeat (apply keeps_bind; [solve [keep] || by apply keeps_lease_all | intros ?]). keep.
Qed.

Lemma side_call_aside body e d d' n : side_call body -> named d -> body e d 0 = Ok (Commit tt, d', n) -> aside d d' /\ named d'.
Proof.
  intros [c Hw | text worker limit duration | text l risk deliver] Hn Hb.
  - destruct (control_commands _ _ _ _ _ Hb Hn) as [Hcs Hn']; [by intros * ->|]. split; [|done].
    split_and!; [by apply (keeps_tables c Hw _ _ _ _ _ _ Hb) | done | by eapply worker_outbox|].
    destruct (calls_audited c _ _ _ _ _ _ Hb) as [Hs%seen_journal|Hl]; [by left | by right].
  - apply forget_commit in Hb as [v Hb].
    assert (forall {B} (f : Db -> B), (forall o d, f (set_outbox o d) = f d) -> f d' = f d) as Hf.
    { intros B f Hf. refine (keeps_claim f _ _ _ _ _ _ _ _ _ _ _ Hb). intros k o. apply keeps_modify. intros d0. apply Hf. }
    split; [|unfold named; by rewrite (Hf _ controls)].
    split_and!; [by apply (Hf _ core) | by apply (Hf _ commands_of) | by eapply claim_later | left; by apply (Hf _ journal)].
  - apply forget_commit in Hb as [v Hb]. apply dispatch_ok in Hb as (o & now & j & ev & Hdl & Hl & Hr & _ & (i & _ & Hx) & ->).
    split; [|done]. split_and!; [done|done| |right; by exists i, (tx_clock e (S (S j))), ev].
    eapply outbox_later_insert; [apply Hdl | by eapply row_settled_later].
Qed.

(** ** Whole histories *)

(** One transaction of any kind. *)
Definition transacted (new : list Plan) (d d' : Db) : Prop :=
  (core d' = core d /\ records d' = records d /\ (journal d' = journal d \/ logs (journal d) (journal d'))
   \/ step (records d) (records d') /\ logs (journal d) (journal d'))
  /\ outbox_later (outbox d) (outbox d') /\ plans_added new (core d) (core d').

Lemma one_transacted new d d' : one_step new d d' -> transacted new d d'.
Proof. intros (Hs & Ho & Hl & Hp). split; [by right | by split]. Qed.
Lemma aside_transacted d d' : aside d d' -> transacted [] d d'.
Proof.
  intros (Hc & Hcs & Ho & Hj). split; [left; split; [done | split; [by unfold records; rewrite Hc, Hcs | done]]|].
  split; [done|]. apply same_added. by rewrite Hc.
Qed.
Lemma beside_transacted d d' : keys_ok (core d) -> reachable (records d) -> named d -> beside d d' -> transacted [] d d' /\ named d'.
Proof.
  intros Hk Hr Hn [body e n Hs Hb | run kind i e c n Hq | epoch r m Hm Hrec].
  - destruct (side_call_aside _ _ _ _ _ Hs Hn Hb) as [Ha Hn']. split; [by apply aside_transacted | done].
  - destruct (queue_step _ _ _ _ _ _ _ _ Hk Hr Hq) as (Hst & Hpl & Hne & Hn'). split; [|by apply Hn'].
    assert (wcall_txn (CallQueue run kind i) e d 0 = Ok (Commit tt, d', n)) as Hc
      by (cbn; unfold forget, mbind, txn_bind; by rewrite Hq).
    apply one_transacted. split_and!; [done | | |by apply same_added].
    + rewrite (keeps_outbox (CallQueue run kind i) eq_refl _ _ _ _ _ _ Hc). apply outbox_later_refl.
    + destruct (calls_audited (CallQueue run kind i) _ _ _ _ _ _ Hc) as [Hj|Hl]; [|done].
      destruct Hne. by rewrite Hj.
  - destruct (recorded_step [] m _ d d' Hrec) as [Hst Hcs]; [by eapply step_complete_recovery | done | same_plans | left_alone|].
    split; [by apply one_transacted|]. unfold named. by rewrite Hcs.
Qed.

(** [d'] was committed [n] transactions after [d]. *)
Record comes_after (n : nat) (d d' : Db) : Prop := {
  ca_reachable : reachable (records d);
  ca_steps : rtc step (records d) (records d');
  ca_plans : verificationPlans (core d) ⊆ verificationPlans (core d');
  ca_outbox : outbox_later (outbox d) (outbox d');
  ca_journal : exists l, journal d' = journal d ++ l /\ length l <= n
}.
Lemma comes_after_refl d : reachable (records d) -> comes_after 0 d d.
Proof. intros Hr. split; [done..|apply outbox_later_refl|]. exists []. by rewrite app_nil_r. Qed.
Lemma logs_grow j j' : j' = j \/ logs j j' -> exists l, j' = j ++ l /\ length l <= 1.
Proof. intros [->|(i & now & x & _ & ->)]; [exists []; rewrite app_nil_r | exists [x]]; split; cbn; [done|lia|done|lia]. Qed.
Lemma transacted_step new d d' : transacted new d d' -> rtc step (records d) (records d').
Proof. intros ([(_ & -> & _)|[Hst _]] & _); [done | by apply rtc_once]. Qed.
Lemma comes_after_one new n d d' d'' : comes_after n d d' -> transacted new d' d'' -> comes_after (S n) d d''.
Proof.
  intros [Hr Hs Hp Ho (l & Hl & Hn)] Htr. pose proof (transacted_step _ _ _ Htr). destruct Htr as (Hst & Ho' & Hp' & _). split; try done.
  - by etrans.
  - by etrans.
  - by eapply outbox_later_trans.
  - destruct (logs_grow (journal d') (journal d'')) as (x & -> & Hx); [tauto|].
    exists (l ++ x). rewrite Hl, app_assoc, length_app. split; [done | lia].
Qed.

Definition ordered (h : list Db) : Prop := forall i j d d', h !! i = Some d' -> h !! j = Some d -> i <= j -> comes_after (j - i) d d'.
Definition adjacent (h : list Db) : Prop := forall i d d', h !! i = Some d' -> h !! S i = Some d -> exists new, transacted new d d'.

(** What holds of a history in which no two plans clash. *)
Record history_ok (frozen : list Plan) (h : list Db) (d : Db) : Prop := {
  ho_keys : keys_ok (core d);
  ho_frozen digest p : verificationPlans (core d) !! digest = Some p -> p ∈ frozen;
  ho_named : named d;
  ho_chained : chained d;
  ho_ordered : ordered h;
  ho_adjacent : adjacent h
}.

Lemma records_new : records (empty_db NewMemory) = NewMemory.
Proof. by apply records_plain. Qed.
Lemma history_ok_new : history_ok [] [empty_db NewMemory] (empty_db NewMemory).
Proof.
  split; [apply keys_new | intros digest p; cbn; by rewrite lookup_empty | intros k r; cbn; by rewrite lookup_empty | split; [constructor | done] | |].
  - intros [|i] [|j] d d' Hi Hj Hle; try done. cbn in Hi, Hj. simplify_eq. apply comes_after_refl. rewrite records_new. apply rtc_refl.
  - intros [|i] d d' _ Hj; done.
Qed.
Lemma history_ok_reachable frozen h d : history_ok frozen (d :: h) d -> reachable (records d).
Proof. intros Hok. exact (ca_reachable _ _ _ (ho_ordered _ _ _ Hok 0 0 d d eq_refl eq_refl (le_n _))). Qed.
Lemma history_ok_settled frozen h d : history_ok frozen (d :: h) d -> settled_history frozen (d :: h) d.
Proof.
  intros [Hk Hf _ _ Ho _]. split; [|done..]. intros d0 (j & Hj)%list_elem_of_lookup.
  destruct (Ho 0 j d0 d eq_refl Hj ltac:(lia)). by split.
Qed.
Lemma history_ok_next frozen new h d d' : history_ok frozen (d :: h) d -> transacted new d d' -> named d' ->
  history_ok (new ++ frozen) (d' :: d :: h) d'.
Proof.
  intros Hok Htr Hn'. pose proof (history_ok_reachable _ _ _ Hok) as Hr. pose proof (transacted_step _ _ _ Htr) as Hrtc.
  destruct Hok as [Hk Hf Hn Hch Ho Ha]. pose proof Htr as (Hst & Hout & Hsub & Hnew). split; [| |done|..].
  - destruct Hst as [[-> _]|[Hst _]]; [done|]. apply keys_records. by eapply step_keys, keys_records.
  - intros digest p [Hp|Hp]%Hnew; apply elem_of_app; [right; by eapply Hf | by left].
  - destruct Hch as [Hc1 Hc2]. destruct Hst as [(_ & _ & [Hj|Hl])|[_ Hl]]; unfold chained; [by rewrite Hj|by eapply logs_chain..].
  - intros [|a] [|b] d1 d2 Hd2 Hd1 Hle; cbn in Hd1, Hd2; [|simplify_eq..|]; try lia.
    + simplify_eq. by eapply comes_after_refl, reachable_step.
    + apply (comes_after_one new _ _ d); [|done]. specialize (Ho 0 b d1 d eq_refl Hd1 ltac:(lia)). by rewrite Nat.sub_0_r in Ho.
    + apply (Ho a b); [done..|lia].
  - intros [|a] d1 d2 Hd2 Hd1; cbn in Hd1, Hd2; [simplify_eq; by exists new | by apply (Ha a)].
Qed.

Lemma taken_clashes frozen m plan : (forall digest p, verificationPlans m !! digest = Some p -> p ∈ frozen) -> keys_ok m ->
  plan_taken m plan -> plans_clash ([plan] ++ frozen).
Proof.
  intros Hf Hk (digest & p & Hd & Hp & Hne). exists p, plan, digest. split; [right; by eapply Hf|].
  split; [left|]. split_and!; [done | by apply (ko_plans _ Hk) | done].
Qed.

Lemma history_is_ok frozen h : history frozen h -> plans_clash frozen \/ exists d rest, h = d :: rest /\ history_ok frozen h d.
Proof.
  induction 1 as [|frozen new h d body e d' n Hh IH Hc Hb|frozen h d d' Hh IH Hb].
  - right. eexists _, []. split; [done | apply history_ok_new].
  - destruct IH as [Hx|(? & ? & [= <- <-] & Hok)]; [left; eapply plans_clash_mono; [|exact Hx]; set_solver|].
    destruct (core_call_step _ _ _ _ _ _ _ _ (history_ok_settled _ _ _ Hok) Hc Hb) as [(plan & -> & Ht)|[Hone Hcs]].
    + left. eapply taken_clashes; [apply Hok..|exact Ht].
    + right. exists d', (d :: h). split; [done|]. apply history_ok_next; [done | by apply one_transacted|].
      unfold named. rewrite Hcs. apply Hok.
  - destruct IH as [Hx|(? & ? & [= <- <-] & Hok)]; [by left|]. right. exists d', (d :: h). split; [done|].
    destruct (beside_transacted d d') as [Htr Hn]; [apply Hok | by eapply history_ok_reachable | apply Hok | done|].
    by apply (history_ok_next frozen []).
Qed.

Lemma history_drop frozen j h d : history frozen h -> h !! j = Some d ->
  exists before rest, before ⊆ frozen /\ drop j h = d :: rest /\ history before (d :: rest).
Proof.
  intros Hh. revert j. induction Hh as [|frozen new h d1 body e d2 n Hh IH Hc Hb|frozen h d1 d2 Hh IH Hb];
    intros [|j] Hj; cbn in Hj; simplify_eq; cbn.
  - eexists _, _. split; [done|]. split; [done | constructor].
  - eexists _, _. split; [done|]. split; [done | by econstructor].
  - destruct (IH j Hj) as (before & rest & Hs & Hd & Hr). exists before, rest. split; [set_solver | done].
  - eexists _, _. split; [done|]. split; [done | by eapply h_beside].
  - by apply IH.
Qed.

Lemma history_first frozen h : history frozen h -> h !! pred (length h) = Some (empty_db NewMemory).
Proof. by induction 1. Qed.

(** C2: the control plane over PostgreSQL is the control plane of
    [Lifecycle].  However the handlers race, each acting on records it read in
    any earlier state, and whatever workers, control clients and dispatchers
    commit in between, queued controls and ended recoveries included, the
    records every committed transaction leaves are reachable there, and later
    ones come from earlier ones by its steps, so that whatever [Authority]
    proves of those holds of the database; no message of the outbox is lost or
    reopened; the journal verifies and is only extended, by at most one event
    for each transaction; and a transaction that changes the core tables is
    exactly one step and leaves exactly one linked event.  Otherwise two
    different plans that were handed over to be frozen in this very history
    have one digest.  Continuations are left out. *)
Theorem histories_refine frozen h i j d d' : history frozen h -> h !! i = Some d' -> h !! j = Some d -> i <= j ->
  plans_clash frozen
  \/ reachable (records d) /\ rtc step (records d) (records d') /\ outbox_later (outbox d) (outbox d')
     /\ Verify (journal d) = Ok tt /\ (exists l, journal d' = journal d ++ l /\ length l <= j - i)
     /\ (j = S i -> core d' <> core d -> step (records d) (records d') /\ logs (journal d) (journal d')).
Proof.
  intros Hh Hi Hj Hle. destruct (history_is_ok _ h Hh) as [?|(_ & _ & _ & [_ _ _ _ Ho Ha])]; [by left|].
  destruct (history_drop _ _ _ _ Hh Hj) as (before & rest & Hsub & _ & Hh').
  destruct (history_is_ok _ _ Hh') as [Hx|(? & ? & [= <- <-] & [_ _ _ [Hc Hlen] _ _])]; [left; by eapply plans_clash_mono|]. right.
  destruct (Ho i j d d' Hi Hj Hle) as [Hr Hs _ Hob Hl]. split_and!; try done; [by apply Verify_loop_chain; [lia | done]|].
  intros -> Hne. destruct (Ha i d d' Hi Hj) as (new & [[He _]|Hst] & _); [done | exact Hst].
Qed.
End core_history.

(** ** Example: a work item is frozen and started, in the database *)

Definition pg_after (body : txn (verdict unit)) (d : Db) : Db :=
  match body (at_clock demo_time) d 0 with Ok (Commit _, d', _) => d' | _ => d end.
Definition committed (body : txn (verdict unit)) (d : Db) : bool :=
  match body (at_clock demo_time) d 0 with Ok (Commit _, _, _) => true | _ => false end.
Lemma commit_after body d : committed body d = true -> exists n, body (at_clock demo_time) d 0 = Ok (Commit tt, pg_after body d, n).
Proof. unfold committed, pg_after. destruct (body (at_clock demo_time) d 0) as [[[[[]|] d'] n]|]; try done. by exists n. Qed.
Lemma history_after frozen new h d body : history frozen (d :: h) -> core_call (d :: h) new body -> committed body d = true ->
  history (new ++ frozen) (pg_after body d :: d :: h).
Proof. intros Hh Hc (n & Hn)%commit_after. by eapply h_core. Qed.

Definition life_plan_digest : string := Eval vm_compute in digest_of (Plan_Digest plan0).
Definition life_task : TaskContract :=
  mkTaskContract "T1" "W1" "DEBUG" (tc_CapabilityIDs task0) (tc_SkillIDs task0) "" 0 "repo" "base" "board-1" ""
    ["board boots"] ["publish"] [] "P1" life_plan_digest 1.
Definition life_task_digest : string := Eval vm_compute in digest_of (TaskContract_Digest life_task).
Definition life_input : RunInputManifest := mkRunInput None "run-1" life_task_digest [] "rt" "tool" "worker" "policy".
Definition life_input_digest : string := Eval vm_compute in digest_of (RunInputManifest_Digest life_input).
Definition life_run : Run := mkRun "run-1" life_task_digest life_input_digest run_Running 1 1 "A1" "RUNTIME".

Definition p0 : Db := empty_db NewMemory.
Definition p1 : Db := pg_after (CreateWorkContext work0) p0.
Definition p2 : Db := pg_after (CreateTaskAndUpdateWorkContext life_task plan0 1 (frozen_work life_task_digest work0)) p1.
Definition life_work : WorkItem := Eval vm_compute in work_in (core p2).
Definition life_start : txn (verdict unit) :=
  CreateExecutionAndUpdateWorkContext 1 life_run attempt0 (Session_New "run-1" (at_Epoch attempt0)) life_input
    (wi_Version life_work) (started_work "run-1" life_work).
Definition p3 : Db := pg_after life_start p2.
Lemma life_freezes : core_call [p1; p0] [plan0] (CreateTaskAndUpdateWorkContext life_task plan0 1 (frozen_work life_task_digest work0)).
Proof.
  apply (cc_freeze _ life_task plan0 life_task_digest work0); [|vm_compute; reflexivity..|].
  - exists p1. split; [left | vm_compute; reflexivity].
  - apply (bool_decide_unpack _). vm_compute. exact I.
Qed.
Lemma life_starts : core_call [p2; p1; p0] [] life_start.
Proof.
  unfold life_start. apply (cc_start _ 1 "run-1" "A1" demo_time life_input life_input_digest attempt0 life_run life_work life_task); [| |vm_compute; reflexivity..].
  - exists p2. split; [left | vm_compute; reflexivity].
  - exists p2. split; [left | vm_compute; reflexivity].
Qed.

(** A dispatcher then claims the message of the run. *)
Definition life_claim : txn (verdict unit) := forget (Claim (fun _ => "") "dispatcher-1" 1 Outbox.Hour).
Definition p4 : Db := pg_after life_claim p3.
Definition life : list Db := [p4; p3; p2; p1; p0].

Lemma life_history : history [plan0] life.
Proof.
  assert (history [plan0] [p3; p2; p1; p0]) as Hh.
  { apply (history_after [plan0] [] _ p2 life_start); [|exact life_starts | vm_compute; reflexivity].
    apply (history_after [] [plan0] _ p1 _); [|exact life_freezes | vm_compute; reflexivity].
    apply (history_after [] [] [] p0 _); [exact h_empty | apply cc_create_work | vm_compute; reflexivity]. }
  destruct (commit_after life_claim p3 ltac:(vm_compute; reflexivity)) as [n Hn]. exact (h_beside _ _ _ _ Hh (bs_side _ _ _ _ n (sc_claim _ _ _ _) Hn)).
Qed.
(** One plan does not clash with itself. *)
Lemma life_clashes_not : ~ plans_clash [plan0].
Proof. intros (p & q & dg & ->%list_elem_of_singleton & ->%list_elem_of_singleton & Hne & _). by apply Hne. Qed.

Lemma histories_refine_witness :
  (runs (core p4) !! "run-1" = Some life_run /\ ob_State <$> outbox p4 !! 1%Z = Some "LEASED")
  /\ reachable (records p1) /\ rtc step (records p1) (records p4).
Proof.
  split; [split; vm_compute; reflexivity|].
  destruct (histories_refine [plan0] life 0 3 p1 p4 life_history eq_refl eq_refl (le_S _ _ (le_S _ _ (le_S _ _ (le_n _)))))
    as [Hc|(Hr & Hs & _)]; [destruct (life_clashes_not Hc) | split; [exact Hr | exact Hs]].
Defined.
