(* ===== verification/Admissions.v ===== *)
(** Actions over the durable store: what was true when the ledger took a
    reservation or a dispatch. *)
From S2P Require Import Prelude Canonical Json Core Run Session Recovery Verification Review Action Store Journal Lifecycle Demo Db Txn Workers TurnDemo CoreStore ActionStore Relays Controls CoreRefine Commands CoreHistory.

Section admissions.
Context `{Hash}.

(** ** Admission *)

(** The platform, the run, its session and its continuations let the operation happen. *)
Record admissible (d : Db) (o : Operation) : Prop := {
  ad_epoch : op_RecoveryEpoch o = m_Epoch (recoveryState (core d));
  ad_mode : op_RiskClass o = risk_Observe \/ m_Mode (recoveryState (core d)) = mode_Normal;
  ad_run : exists r s, runs (core d) !! op_RunID o = Some r /\ sessions (core d) !! op_RunID o = Some s
    /\ r_CurrentEpoch r = op_ExecutionEpoch o /\ s_ExecutionEpoch s = op_ExecutionEpoch o
    /\ r_ControlOwner r = "RUNTIME" /\ s_Owner s = "RUNTIME"
    /\ (r_State r = run_Running /\ s_Paused s = false
        \/ op_RiskClass o = risk_Observe /\ (r_State r = run_Running \/ r_State r = run_Paused));
  ad_current : continued d !! op_RunID o = None
}.

Lemma admission_ok op e d n u d' n' : checkActionAdmission op e d n = Ok (u, d', n') -> d' = d /\ admissible d op.
Proof.
  intros Ha. pose proof (admission_keeps op _ _ _ _ _ _ Ha) as Hd. cbn in Hd. subst. split; [done|].
  unfold checkActionAdmission in Ha. tx. cbn in *. passed. split.
  - done.
  - destruct (decide (op_RiskClass op = risk_Observe)); [by left | right]. destruct (decide (m_Mode (recoveryState (core d)) = "NORMAL")); tauto.
  - eexists a, a0. split_and!; try done; try congruence.
    destruct (decide (op_RiskClass op = risk_Observe)) as [Ho|Ho].
    + right. split; [done|]. destruct (decide (r_State a = "RUNNING")); [by left|]. right.
      destruct (decide (r_State a = "PAUSED")); tauto.
    + left. destruct (decide (r_State a = "RUNNING")); [|tauto]. split; [done|]. destruct (s_Paused a0); tauto.
  - done.
Qed.

(** ** What the calls do to the ledger *)

Lemma keeps_core {B} (f : Db -> B) g : (forall d, f (set_core (g (core d)) d) = f d) -> Keeps f (write_core g).
Proof. intros Hg. by apply keeps_modify. Qed.
Lemma keeps_Mutate {A B} (f : Db -> B) (apply : txn A) input l fresh : (forall j d, f (set_journal j d) = f d) ->
  (forall o d, f (set_outbox o d) = f d) -> Keeps f apply -> Keeps f (Mutate (mkMutation _ apply input l) fresh).
Proof.
  intros Hj Ho Ha. unfold Mutate, appendAudit. cbn [mu_Apply mu_Audit mu_Outbox].
  assert (forall t k, Keeps f (insert_messages fresh t k l)) as Hl.
  { intros t k. revert k. induction l as [|m l IH]; intros k; cbn [insert_messages]; [apply _|].
    unfold insertOutbox. keep. by apply keeps_modify. }
  keep; by apply keeps_modify.
Qed.
Lemma keeps_mutation {A B} (f : Db -> B) (apply : txn A) input : (forall j d, f (set_journal j d) = f d) ->
  (forall o d, f (set_outbox o d) = f d) -> Keeps f apply -> Keeps f (mutation apply input).
Proof. intros Hj Ho Ha. unfold mutation. apply keeps_bind; [by apply keeps_Mutate|]. intros [[a b] c]. apply _. Qed.

Ltac keep_core :=
  match goal with
  | |- Keeps _ (mutation _ _) => apply keeps_mutation; [done..|]
  | |- Keeps _ (Mutate _ _) => apply keeps_Mutate; [done..|]
  | |- Keeps _ (write_core _) => apply keeps_core; reflexivity
  | |- Keeps _ (map_error _ _) => apply keeps_map_error
  | |- Keeps _ (mbind _ _) => apply keeps_bind; [|intros ?]
  | |- Keeps _ (match ?x with _ => _ end) => destruct x
  | |- Keeps _ (mret _) => apply keeps_ret
  | |- Keeps _ (refuse _) => apply keeps_refuse
  | |- Keeps _ (gets _) => apply keeps_gets
  | |- Keeps _ clock_timestamp => apply keeps_clock
  | |- Keeps _ (of_outcome _) => apply keeps_of_outcome
  | |- Keeps _ (row _) => apply keeps_row
  | |- Keeps _ (require _ _) => apply keeps_require
  | _ => progress cbn beta iota zeta
  | _ => progress unfold insert_work, freeze_task, insert_plan, insert_task, start_execution, insertExecution, insert_input, insert_run,
      insert_attempt, insert_session, update_run, update_session, update_work, record_steering, insert_steering, insert_checkpoint,
      insert_delivery, insert_evidence, insert_verification, store_review, insert_review, store_closure, insert_closure, begin_recovery
  end.

(** All the other calls leave it alone. *)
Lemma core_call_ledger h new body e d d' n' : core_call h new body -> body e d 0 = Ok (Commit tt, d', n') ->
  ledger (core d') = ledger (core d) \/ (exists op, body = CreateContext op /\ op_State op = op_Planned) \/ exists op, body = UpdateContext op.
Proof.
  intros Hc. assert (Keeps (fun d => ledger (core d)) body \/ (exists op, body = CreateContext op /\ op_State op = op_Planned) \/ exists op, body = UpdateContext op) as [Hk|?].
  2: { intros Hb. left. exact (Hk _ _ _ _ _ _ Hb). }
  2: { by right. }
  destruct Hc; [left.. | right; left; by eexists | right; right; by eexists]; unfold forget, CreateWorkContext, CreateTaskAndUpdateWorkContext, CreateExecutionAndUpdateWorkContext,
    UpdateExecutionContext, RecordSteeringContext, UpdateExecutionAndWorkContext, CreateCheckpointContext, CreateDeliveryContext,
    CreateEvidenceContext, CreateVerificationContext, CreateReviewAndUpdateWorkContext, CreateClosureAndUpdateWorkContext,
    BeginRecoveryContext;
    repeat keep_core.
Qed.

Lemma reserve_admitted op e d n d' n' : CreateContext op e d n = Ok (Commit tt, d', n') -> admissible d (micro_operation op).
Proof.
  unfold CreateContext. intros Hc. do 2 tx_step. mutated Hc. tx_step.
  match goal with E : checkActionAdmission _ _ _ _ = _ |- _ => apply admission_ok in E as [_ Ha'] end. by destruct Ha'.
Qed.
Lemma dispatch_admitted op e d n d' n' : UpdateContext op e d n = Ok (Commit tt, d', n') -> op_State op = op_Dispatched ->
  admissible d (micro_operation op).
Proof.
  unfold UpdateContext. intros Hc Hs. do 4 tx_step. mutated Hc. change (if originalConfirmation op then _ else op) with (settled op) in *.
  destruct (settled_same op) as (_ & Hst & Hmi & _). rewrite <- Hst in Hs. tx_step.
  match goal with E : (if decide _ then _ else _) _ _ _ = _ |- _ => rewrite decide_True in E by done; apply admission_ok in E as [_ Ha'] end.
  rewrite <- Hmi. by destruct Ha'.
Qed.

(** A call that changes the ledger reserves an operation or moves one; to
    reserve it or to have it dispatched, its state has to admit it. *)
Inductive ledger_move (d : Db) (l : Ledger) : Prop :=
| lm_same : l = ledger (core d) -> ledger_move d l
| lm_reserve op : ledger_create op (ledger (core d)) = Ok (tt, l) -> op_State op = op_Planned -> admissible d op -> ledger_move d l
| lm_settle op : ledger_update op (ledger (core d)) = Ok (tt, l) -> (op_State op = op_Dispatched -> admissible d op) -> ledger_move d l.

Lemma ledger_call h new body e d d' n : core_call h new body -> body e d 0 = Ok (Commit tt, d', n) -> ledger_move d (ledger (core d')).
Proof.
  intros Hc Hb. destruct (core_call_ledger _ _ _ _ _ _ _ Hc Hb) as [->|[(op & -> & Hpl)|[op ->]]]; [by apply lm_same|..].
  - destruct (reserve_refines _ _ _ _ _ _ Hb) as (m' & Hm & i & now & x & _ & ->).
    apply CreateOperation_inv in Hm as [Hm _]. eapply lm_reserve; [exact Hm | exact Hpl | by eapply reserve_admitted].
  - destruct (settle_refines _ _ _ _ _ _ Hb) as (m' & Hm & i & now & x & _ & ->).
    apply UpdateOperation_inv in Hm as [Hm _]. eapply lm_settle; [exact Hm|]. intros Hs. eapply dispatch_admitted; [done | exact Hs].
Qed.

Lemma move_evolves d l : ledger_move d l -> ledger_evolves (ledger (core d)) l.
Proof.
  destruct 1 as [->|op Hc _ _|op Hu _]; [apply ledger_evolves_refl | by eapply ledger_create_evolves | by eapply ledger_update_evolves].
Qed.

Lemma beside_ledger d d' : beside d d' -> ledger (core d') = ledger (core d).
Proof.
  intros [body e n Hs Hb | run kind i e c n Hq | epoch r m Hm (x & now & ev & _ & ->)].
  - destruct Hs as [c Hw | text worker limit duration | text l risk deliver].
    + by rewrite (keeps_tables c Hw _ _ _ _ _ _ Hb).
    + apply forget_commit in Hb as [v Hb].
      assert (forall k o, Keeps core (OutboxStore.write_outbox k o)) as Hw by (intros k o; by apply keeps_modify).
      by rewrite (keeps_claim core text worker limit duration Hw _ _ _ _ _ _ Hb).
    + apply forget_commit in Hb as [v Hb]. by apply dispatch_ok in Hb as (o & now & j & ev & _ & _ & _ & _ & _ & ->).
  - apply queue_effect in Hq as (row & s & _ & _ & _ & _ & _ & Hm). destruct (runs (core d) !! run); [destruct Hm as [_ ->] | rewrite Hm]; done.
  - unfold CompleteRecovery in Hm. ok_inv. repeat case_match; by simplify_eq.
Qed.
Lemma history_move frozen h i d d' : history frozen h -> h !! i = Some d' -> h !! S i = Some d -> ledger_move d (ledger (core d')).
Proof.
  intros Hh. revert i. induction Hh as [|frozen new h d1 body e d2 n Hh IH Hc Hb|frozen h d1 d2 Hh IH Hb];
    intros [|i] Hi Hj; cbn in Hi, Hj; simplify_eq.
  - by eapply ledger_call.
  - by eapply IH.
  - by apply lm_same, beside_ledger.
  - by eapply IH.
Qed.
Lemma ledger_history frozen h i k d d' : history frozen h -> h !! i = Some d' -> h !! (i + k) = Some d -> ledger_evolves (ledger (core d)) (ledger (core d')).
Proof.
  intros Hh Hi. revert d. induction k as [|k IH]; intros d Hk.
  { rewrite Nat.add_0_r in Hk. simplify_eq. apply ledger_evolves_refl. }
  rewrite Nat.add_succ_r in Hk. destruct (h !! (i + k)) as [d1|] eqn:E1.
  2: { apply lookup_ge_None in E1. apply lookup_lt_Some in Hk. lia. }
  eapply ledger_evolves_trans; [|by apply IH]. by eapply move_evolves, history_move.
Qed.
Lemma ledger_history_wf frozen h i d : history frozen h -> h !! i = Some d -> ledger_wf (ledger (core d)).
Proof.
  intros Hh Hi. apply lookup_lt_Some in Hi as Hlt. pose proof (history_first _ h Hh) as H0.
  replace (pred (length h)) with (i + (pred (length h) - i)) in H0 by lia.
  apply (ev_wf _ _ (ledger_history _ _ _ _ _ _ Hh Hi H0)). split; cbn; intros *; rewrite lookup_empty; done.
Qed.

(** What a dispatched operation cannot do again. *)
Lemma no_second_claim frozen h i j d d' p p' id key : history frozen h -> h !! i = Some d' -> h !! S i = Some d -> h !! j = Some p' -> h !! S j = Some p ->
  claims id key (ledger (core d)) (ledger (core d')) -> claims id key (ledger (core p)) (ledger (core p')) -> i < j -> False.
Proof.
  intros Hh Hi Hi' Hj Hj' (o & o' & Ho & _ & _ & Hs & _) (q & q' & _ & Hq & _ & _ & Hqs) Hij.
  replace j with (S i + (j - S i)) in Hj by lia.
  destruct (ev_items _ _ (ledger_history _ _ _ _ _ _ Hh Hi' Hj) _ _ Hq) as (o2 & Ho2 & _ & Hr).
  rewrite Ho in Ho2. injection Ho2 as <-. rewrite Hqs, Hs in Hr. vm_compute in Hr. lia.
Qed.

(** C4: actions over PostgreSQL.  However handlers race, an operation is
    reserved or dispatched only in a state of the database that admits it: its
    recovery epoch is current, anything but an observation has normal mode, its
    run is the runtime's in the operation's epoch, running and not paused, and
    was not continued by another run.  A reservation takes a fresh operation
    and a fresh idempotency key, and an operation that is dispatched was
    reserved as it is and is dispatched by that one transaction only. *)
Theorem actions_admitted frozen h i d d' id o' : history frozen h -> h !! i = Some d' -> h !! S i = Some d ->
  operations (core d') !! id = Some o' -> operations (core d) !! id <> Some o' ->
  (op_State o' = op_Planned -> admissible d o'
     /\ forall k o, operations (core d) !! k = Some o -> k <> id /\ op_IdempotencyKey o <> op_IdempotencyKey o')
  /\ (op_State o' = op_Dispatched -> admissible d o' /\ exists o, operations (core d) !! id = Some o /\ SameReservation o o' = true
     /\ claims id (op_IdempotencyKey o') (ledger (core d)) (ledger (core d'))
     /\ forall j p p', h !! j = Some p' -> h !! S j = Some p -> claims id (op_IdempotencyKey o') (ledger (core p)) (ledger (core p')) -> j = i).
Proof.
  intros Hh Hi Hj Ho' Ho. pose proof (ledger_history_wf _ _ _ _ Hh Hj) as Hwf.
  assert (forall k o, operations (core d) !! k = Some o -> actionIdempotency (core d) !! op_IdempotencyKey o = Some k) as Hidx
    by exact (wf_indexed _ Hwf).
  destruct (history_move _ _ _ _ _ Hh Hi Hj) as [Hl|op Hc Hpl Ha|op Hu Ha].
  - injection Hl as Hl _. congruence.
  - apply ledger_create_inv in Hc as (Hn & Hk & Hl). injection Hl as Hl _. cbn in Hl, Hn, Hk. rewrite Hl in Ho'.
    apply lookup_insert_Some in Ho' as [[<- ->]|[_ ?]]; [|done]. split.
    + intros _. split; [done|]. intros k o Hko. split; [intros ->; congruence|]. intros Hke. apply Hidx in Hko. congruence.
    + intros Hs. by rewrite Hpl in Hs.
  - apply ledger_update_inv in Hu as (o & Hoo & Hsame & Hst & Hl). pose proof Hl as Hl'. injection Hl' as Hl' _. cbn in Hl', Hoo. rewrite Hl' in Ho'.
    apply lookup_insert_Some in Ho' as [[<- ->]|[_ ?]]; [|done]. split.
    { intros Hs. rewrite Hs in Hst. inversion Hst. }
    intros Hs. split; [by apply Ha|]. exists o.
    assert (claims (op_ID o') (op_IdempotencyKey o') (ledger (core d)) (ledger (core d'))) as Hcl.
    { exists o, o'. rewrite Hl. cbn. rewrite lookup_insert_eq. split_and!; try done; [by destruct (SameReservation_ids _ _ Hsame) as (_ & Hk & _)|].
      rewrite Hs in Hst. by inversion Hst. }
    split_and!; [done..|]. intros j p p' Hp' Hp Hcl'. destruct (lt_eq_lt_dec i j) as [[Hij| ->]|Hij]; [exfalso|done|exfalso].
    + by eapply (no_second_claim frozen h i j).
    + by eapply (no_second_claim frozen h j i).
Qed.

End admissions.

(** ** Example: the run of [life] publishes *)

Definition publish_op (state : string) : Operation :=
  mkOperation "OP1" "run-1" 1 0 "publish" risk_ControlledMutation "git.publish" "key-1" "" state demo_time "" "".
Definition p5 : Db := pg_after (CreateContext (publish_op op_Planned)) p4.
Definition p6 : Db := pg_after (UpdateContext (publish_op op_Dispatched)) p5.
Definition published : list Db := p6 :: p5 :: life.

Lemma published_history : history [plan0] published.
Proof.
  apply (history_after [plan0] [] _ p5 _); [|apply cc_settle | vm_compute; reflexivity].
  apply (history_after [plan0] [] _ p4 _); [exact life_history | by apply cc_reserve | vm_compute; reflexivity].
Qed.

Lemma actions_admitted_witness :
  operations (core p6) !! "OP1" = Some (publish_op op_Dispatched)
  /\ admissible p5 (publish_op op_Dispatched) /\ claims "OP1" "key-1" (ledger (core p5)) (ledger (core p6)).
Proof.
  assert (operations (core p6) !! "OP1" = Some (publish_op op_Dispatched)) as Ho by (vm_compute; reflexivity).
  assert (operations (core p5) !! "OP1" <> Some (publish_op op_Dispatched)) as Hn by (vm_compute; intros He; discriminate He).
  split; [exact Ho|].
  destruct (actions_admitted [plan0] published 0 p5 p6 "OP1" (publish_op op_Dispatched) published_history eq_refl eq_refl Ho Hn)
    as [_ Hd].
  destruct (Hd eq_refl) as (Ha & o & _ & _ & Hc & _). split; [exact Ha | exact Hc].
Defined.
